(** * The glthread command offload engine (src/mesa/main/glthread.c)

    A shallow embedding of Mesa's glthread support functions:
    [glthread_unmarshal_batch], [_mesa_glthread_init],
    [_mesa_glthread_destroy], [_mesa_glthread_flush_batch] and
    [_mesa_glthread_finish], together with a sequential model of the
    single-worker job queue they are written against and, in the module
    [Async], with the queue whose worker runs beside the producer.

    Conventions.
    - C [unsigned] and [uint32_t] values are integers in [Z]; every
      addition the code performs on them is written with its wrap-around
      ([wrap32]).
    - Pointers to dispatch tables and hash tables are addresses in [Z],
      [0] being [NULL].  A pointer into [glthread->batches] is the index
      of the batch it points to.
    - Code that can abort, block for ever, loop for ever or read outside an
      array returns a [result]. *)

From Stdlib Require Import ZArith Lia Bool.
From stdpp Require Import base list strings.

Local Open Scope Z_scope.

(** ** Outcomes of a call *)

Inductive failure : Type :=
| AssertFailed   (* an [assert] that is compiled in evaluated to false *)
| Deadlock       (* the caller waits for something no thread will ever do *)
| OutOfFuel      (* the decode loop did not finish within the given fuel *)
| OutOfBounds.   (* an array was indexed outside its extent *)

Inductive result (A : Type) : Type :=
| Ok (a : A)
| Fail (f : failure).
Arguments Ok {A} a.
Arguments Fail {A} f.

#[global] Instance result_bind : MBind result := fun A B k m =>
  match m with
  | Ok a => k a
  | Fail f => Fail f
  end.

(** [unsigned] arithmetic: the value of a sum stored in a 32-bit object. *)
Definition wrap32 (z : Z) : Z := z mod 2 ^ 32.

(** ** The environment the file is compiled and run in

    Everything glthread.c uses but does not define: the unmarshal table of
    the dispatch adapter, the constants of glthread.h and u_cpu_detect.h,
    the CPU topology, and whether [assert] is compiled in. *)

Class glthread_env : Type := {
  (** the GL state the unmarshalled commands act on *)
  gl_server : Type;
  (** [cmd->cmd_id] read from the header word of a record *)
  cmd_id_of : Z -> Z;
  (** [_mesa_unmarshal_dispatch[id](ctx, cmd)]: runs the command whose
      record starts at [cmd] and returns the number of buffer slots the
      record occupies *)
  _mesa_unmarshal_dispatch : Z -> gl_server -> list Z -> gl_server * Z;
  (** the number of batches in the ring *)
  MARSHAL_MAX_BATCHES : Z;
  (** [true] when the file is compiled with NDEBUG: [assert] expands to
      nothing *)
  NDEBUG : bool;
  (** [util_get_cpu_caps()->num_L3_caches] *)
  num_L3_caches : Z;
  (** [util_get_cpu_caps()->cpu_to_L3[cpu]] *)
  cpu_to_L3 : Z -> Z;
  U_CPU_INVALID_L3 : Z;
  ST_L3_PINNING_DISABLED : Z;
}.

(** ** Data model *)

(** A fence is named by where it lives: in a batch of the ring, or on the
    stack of [_mesa_glthread_init]. *)
Inductive fence_ref : Type :=
| BatchFence (i : Z)
| InitFence.

(** A queued job: the callback with its argument, and the fence to signal
    once the callback has returned. *)
Inductive queue_job : Type :=
| UnmarshalJob (batch : Z) (fence : fence_ref)   (* glthread_unmarshal_batch *)
| ThreadInitJob (fence : fence_ref).             (* glthread_thread_initialization *)

Definition job_fence (j : queue_job) : fence_ref :=
  match j with
  | UnmarshalJob _ f => f
  | ThreadInitJob f => f
  end.

(** Calls that leave the engine, in the order they are made. *)
Inductive event : Type :=
| EvDispatch (thread batch pos cmd_id consumed : Z)
| EvAddJob (j : queue_job)
| EvFenceWait (f : fence_ref)
| EvSetThreadAffinity (thread L3_cache : Z)
| EvPinThreadsToL3 (L3_cache : Z)
| EvQueueDestroy
| EvDebug (reason : string).

(** struct glthread_batch *)
Record glthread_batch : Type := mk_batch {
  fence : bool;          (* true: signalled *)
  b_used : Z;            (* batch->used *)
  buffer : list Z;       (* uint64_t buffer[] *)
}.

(** struct util_queue, as far as glthread.c depends on it *)
Record util_queue : Type := mk_queue {
  jobs : list queue_job;   (* queued and not yet run, oldest first *)
  max_jobs : Z;
  threads0 : Z;            (* queue.threads[0], the worker *)
  q_alive : bool;          (* initialised and not destroyed *)
}.

(** struct util_queue_monitoring *)
Record util_queue_monitoring : Type := mk_stats {
  stats_queue : bool;          (* stats.queue points to the queue *)
  num_offloaded_items : Z;
  num_direct_items : Z;
  num_syncs : Z;
  num_batches : Z;
}.

(** struct glthread_state *)
Record glthread_state : Type := mk_glthread {
  queue : util_queue;
  stats : util_queue_monitoring;
  enabled : bool;
  pin_thread_counter : Z;
  batches : list glthread_batch;
  next_batch : Z;                   (* struct glthread_batch *next_batch *)
  last : Z;
  next : Z;
  used : Z;
  LastCallList : Z;
  LastBindBuffer : Z;
  LastProgramChangeBatch : Z;
  LastDListChangeBatchIndex : Z;
  VAOs : Z;                         (* struct _mesa_HashTable *VAOs *)
}.

(** Field updates ([r->f = v]). *)

Definition set_fence (v : bool) (b : glthread_batch) : glthread_batch :=
  mk_batch v (b_used b) (buffer b).
Definition set_b_used (v : Z) (b : glthread_batch) : glthread_batch :=
  mk_batch (fence b) v (buffer b).

Definition set_jobs (v : list queue_job) (q : util_queue) : util_queue :=
  mk_queue v (max_jobs q) (threads0 q) (q_alive q).
Definition set_q_alive (v : bool) (q : util_queue) : util_queue :=
  mk_queue (jobs q) (max_jobs q) (threads0 q) v.

Definition set_stats_queue (v : bool) (m : util_queue_monitoring) :=
  mk_stats v (num_offloaded_items m) (num_direct_items m) (num_syncs m)
    (num_batches m).
Definition set_num_offloaded_items (v : Z) (m : util_queue_monitoring) :=
  mk_stats (stats_queue m) v (num_direct_items m) (num_syncs m) (num_batches m).
Definition set_num_direct_items (v : Z) (m : util_queue_monitoring) :=
  mk_stats (stats_queue m) (num_offloaded_items m) v (num_syncs m)
    (num_batches m).
Definition set_num_syncs (v : Z) (m : util_queue_monitoring) :=
  mk_stats (stats_queue m) (num_offloaded_items m) (num_direct_items m) v
    (num_batches m).
Definition set_num_batches (v : Z) (m : util_queue_monitoring) :=
  mk_stats (stats_queue m) (num_offloaded_items m) (num_direct_items m)
    (num_syncs m) v.

Definition set_queue (v : util_queue) (g : glthread_state) :=
  mk_glthread v (stats g) (enabled g) (pin_thread_counter g) (batches g)
    (next_batch g) (last g) (next g) (used g) (LastCallList g)
    (LastBindBuffer g) (LastProgramChangeBatch g)
    (LastDListChangeBatchIndex g) (VAOs g).
Definition set_stats (v : util_queue_monitoring) (g : glthread_state) :=
  mk_glthread (queue g) v (enabled g) (pin_thread_counter g) (batches g)
    (next_batch g) (last g) (next g) (used g) (LastCallList g)
    (LastBindBuffer g) (LastProgramChangeBatch g)
    (LastDListChangeBatchIndex g) (VAOs g).
Definition set_enabled (v : bool) (g : glthread_state) :=
  mk_glthread (queue g) (stats g) v (pin_thread_counter g) (batches g)
    (next_batch g) (last g) (next g) (used g) (LastCallList g)
    (LastBindBuffer g) (LastProgramChangeBatch g)
    (LastDListChangeBatchIndex g) (VAOs g).
Definition set_pin_thread_counter (v : Z) (g : glthread_state) :=
  mk_glthread (queue g) (stats g) (enabled g) v (batches g)
    (next_batch g) (last g) (next g) (used g) (LastCallList g)
    (LastBindBuffer g) (LastProgramChangeBatch g)
    (LastDListChangeBatchIndex g) (VAOs g).
Definition set_batches (v : list glthread_batch) (g : glthread_state) :=
  mk_glthread (queue g) (stats g) (enabled g) (pin_thread_counter g) v
    (next_batch g) (last g) (next g) (used g) (LastCallList g)
    (LastBindBuffer g) (LastProgramChangeBatch g)
    (LastDListChangeBatchIndex g) (VAOs g).
Definition set_next_batch (v : Z) (g : glthread_state) :=
  mk_glthread (queue g) (stats g) (enabled g) (pin_thread_counter g)
    (batches g) v (last g) (next g) (used g) (LastCallList g)
    (LastBindBuffer g) (LastProgramChangeBatch g)
    (LastDListChangeBatchIndex g) (VAOs g).
Definition set_last (v : Z) (g : glthread_state) :=
  mk_glthread (queue g) (stats g) (enabled g) (pin_thread_counter g)
    (batches g) (next_batch g) v (next g) (used g) (LastCallList g)
    (LastBindBuffer g) (LastProgramChangeBatch g)
    (LastDListChangeBatchIndex g) (VAOs g).
Definition set_next (v : Z) (g : glthread_state) :=
  mk_glthread (queue g) (stats g) (enabled g) (pin_thread_counter g)
    (batches g) (next_batch g) (last g) v (used g) (LastCallList g)
    (LastBindBuffer g) (LastProgramChangeBatch g)
    (LastDListChangeBatchIndex g) (VAOs g).
Definition set_used (v : Z) (g : glthread_state) :=
  mk_glthread (queue g) (stats g) (enabled g) (pin_thread_counter g)
    (batches g) (next_batch g) (last g) (next g) v (LastCallList g)
    (LastBindBuffer g) (LastProgramChangeBatch g)
    (LastDListChangeBatchIndex g) (VAOs g).
Definition set_LastCallList (v : Z) (g : glthread_state) :=
  mk_glthread (queue g) (stats g) (enabled g) (pin_thread_counter g)
    (batches g) (next_batch g) (last g) (next g) (used g) v
    (LastBindBuffer g) (LastProgramChangeBatch g)
    (LastDListChangeBatchIndex g) (VAOs g).
Definition set_LastBindBuffer (v : Z) (g : glthread_state) :=
  mk_glthread (queue g) (stats g) (enabled g) (pin_thread_counter g)
    (batches g) (next_batch g) (last g) (next g) (used g) (LastCallList g)
    v (LastProgramChangeBatch g) (LastDListChangeBatchIndex g) (VAOs g).
Definition set_LastProgramChangeBatch (v : Z) (g : glthread_state) :=
  mk_glthread (queue g) (stats g) (enabled g) (pin_thread_counter g)
    (batches g) (next_batch g) (last g) (next g) (used g) (LastCallList g)
    (LastBindBuffer g) v (LastDListChangeBatchIndex g) (VAOs g).
Definition set_LastDListChangeBatchIndex (v : Z) (g : glthread_state) :=
  mk_glthread (queue g) (stats g) (enabled g) (pin_thread_counter g)
    (batches g) (next_batch g) (last g) (next g) (used g) (LastCallList g)
    (LastBindBuffer g) (LastProgramChangeBatch g) v (VAOs g).
Definition set_VAOs (v : Z) (g : glthread_state) :=
  mk_glthread (queue g) (stats g) (enabled g) (pin_thread_counter g)
    (batches g) (next_batch g) (last g) (next g) (used g) (LastCallList g)
    (LastBindBuffer g) (LastProgramChangeBatch g)
    (LastDListChangeBatchIndex g) v.

(** What a C function hands back to its caller. *)
Inductive c_return : Type :=
| ReturnsVoid
| ReturnsBool (b : bool).

(** What the callees of [_mesa_glthread_init] answer during one call. *)
Record init_env : Type := mk_init_env {
  (** [screen->get_param(screen, PIPE_CAP_MAP_UNSYNCHRONIZED_THREAD_SAFE)] *)
  cap_map_unsynchronized_thread_safe : Z;
  (** [screen->get_param(screen,
       PIPE_CAP_ALLOW_MAPPED_BUFFERS_DURING_EXECUTION)] *)
  cap_allow_mapped_buffers_during_execution : Z;
  (** whether [util_queue_init] succeeds, and the worker it starts *)
  queue_init_ok : bool;
  worker_thread : Z;
  (** the pointer [_mesa_NewHashTable()] returns *)
  new_hash_table : Z;
  (** the pointer [_mesa_alloc_dispatch_table(true)] returns *)
  alloc_dispatch_table : Z;
}.

Section Engine.

Context {env : glthread_env}.

(** struct gl_context, with the per-thread and per-process state the
    functions below touch *)
Record gl_context : Type := mk_ctx {
  GLThread : glthread_state;
  CurrentServerDispatch : Z;
  ContextLost : Z;
  MarshalExec : Z;
  CurrentClientDispatch : Z;
  BufferObjectsLocked : bool;
  TexturesLocked : bool;
  set_context_param : bool;       (* ctx->pipe->set_context_param != NULL *)
  st_pin_thread_counter : Z;      (* ctx->st->pin_thread_counter *)
  server : gl_server;
  glapi_dispatch : Z -> Z;        (* _glapi_get_dispatch(), per thread *)
  background_context : bool;      (* the worker has made ctx current *)
  init_fence : bool;              (* the fence local to _mesa_glthread_init *)
  heap : list Z;                  (* live tables, by address *)
  events : list event;
}.

Definition set_GLThread (v : glthread_state) (c : gl_context) : gl_context :=
  mk_ctx v (CurrentServerDispatch c) (ContextLost c) (MarshalExec c)
    (CurrentClientDispatch c) (BufferObjectsLocked c) (TexturesLocked c)
    (set_context_param c) (st_pin_thread_counter c) (server c)
    (glapi_dispatch c) (background_context c) (init_fence c) (heap c)
    (events c).
Definition set_MarshalExec (v : Z) (c : gl_context) : gl_context :=
  mk_ctx (GLThread c) (CurrentServerDispatch c) (ContextLost c) v
    (CurrentClientDispatch c) (BufferObjectsLocked c) (TexturesLocked c)
    (set_context_param c) (st_pin_thread_counter c) (server c)
    (glapi_dispatch c) (background_context c) (init_fence c) (heap c)
    (events c).
Definition set_CurrentClientDispatch (v : Z) (c : gl_context) : gl_context :=
  mk_ctx (GLThread c) (CurrentServerDispatch c) (ContextLost c) (MarshalExec
    c) v (BufferObjectsLocked c) (TexturesLocked c) (set_context_param c)
    (st_pin_thread_counter c) (server c) (glapi_dispatch c)
    (background_context c) (init_fence c) (heap c) (events c).
Definition set_BufferObjectsLocked (v : bool) (c : gl_context) : gl_context :=
  mk_ctx (GLThread c) (CurrentServerDispatch c) (ContextLost c) (MarshalExec
    c) (CurrentClientDispatch c) v (TexturesLocked c) (set_context_param c)
    (st_pin_thread_counter c) (server c) (glapi_dispatch c)
    (background_context c) (init_fence c) (heap c) (events c).
Definition set_TexturesLocked (v : bool) (c : gl_context) : gl_context :=
  mk_ctx (GLThread c) (CurrentServerDispatch c) (ContextLost c) (MarshalExec
    c) (CurrentClientDispatch c) (BufferObjectsLocked c) v
    (set_context_param c) (st_pin_thread_counter c) (server c)
    (glapi_dispatch c) (background_context c) (init_fence c) (heap c)
    (events c).
Definition set_st_pin_thread_counter (v : Z) (c : gl_context) : gl_context :=
  mk_ctx (GLThread c) (CurrentServerDispatch c) (ContextLost c) (MarshalExec
    c) (CurrentClientDispatch c) (BufferObjectsLocked c) (TexturesLocked c)
    (set_context_param c) v (server c) (glapi_dispatch c)
    (background_context c) (init_fence c) (heap c) (events c).
Definition set_server (v : gl_server) (c : gl_context) : gl_context :=
  mk_ctx (GLThread c) (CurrentServerDispatch c) (ContextLost c) (MarshalExec
    c) (CurrentClientDispatch c) (BufferObjectsLocked c) (TexturesLocked c)
    (set_context_param c) (st_pin_thread_counter c) v (glapi_dispatch c)
    (background_context c) (init_fence c) (heap c) (events c).
Definition set_glapi_dispatch (v : Z -> Z) (c : gl_context) : gl_context :=
  mk_ctx (GLThread c) (CurrentServerDispatch c) (ContextLost c) (MarshalExec
    c) (CurrentClientDispatch c) (BufferObjectsLocked c) (TexturesLocked c)
    (set_context_param c) (st_pin_thread_counter c) (server c) v
    (background_context c) (init_fence c) (heap c) (events c).
Definition set_background_context (v : bool) (c : gl_context) : gl_context :=
  mk_ctx (GLThread c) (CurrentServerDispatch c) (ContextLost c) (MarshalExec
    c) (CurrentClientDispatch c) (BufferObjectsLocked c) (TexturesLocked c)
    (set_context_param c) (st_pin_thread_counter c) (server c)
    (glapi_dispatch c) v (init_fence c) (heap c) (events c).
Definition set_init_fence (v : bool) (c : gl_context) : gl_context :=
  mk_ctx (GLThread c) (CurrentServerDispatch c) (ContextLost c) (MarshalExec
    c) (CurrentClientDispatch c) (BufferObjectsLocked c) (TexturesLocked c)
    (set_context_param c) (st_pin_thread_counter c) (server c)
    (glapi_dispatch c) (background_context c) v (heap c) (events c).
Definition set_heap (v : list Z) (c : gl_context) : gl_context :=
  mk_ctx (GLThread c) (CurrentServerDispatch c) (ContextLost c) (MarshalExec
    c) (CurrentClientDispatch c) (BufferObjectsLocked c) (TexturesLocked c)
    (set_context_param c) (st_pin_thread_counter c) (server c)
    (glapi_dispatch c) (background_context c) (init_fence c) v (events c).
Definition set_events (v : list event) (c : gl_context) : gl_context :=
  mk_ctx (GLThread c) (CurrentServerDispatch c) (ContextLost c) (MarshalExec
    c) (CurrentClientDispatch c) (BufferObjectsLocked c) (TexturesLocked c)
    (set_context_param c) (st_pin_thread_counter c) (server c)
    (glapi_dispatch c) (background_context c) (init_fence c) (heap c) v.

(** ** Small helpers standing for C idioms *)

(** [ctx->GLThread.f = v] *)
Definition upd (f : glthread_state -> glthread_state) (ctx : gl_context)
  : gl_context :=
  set_GLThread (f (GLThread ctx)) ctx.

(** [glthread->stats.f = v] *)
Definition upd_stats (f : util_queue_monitoring -> util_queue_monitoring)
  (ctx : gl_context) : gl_context :=
  upd (fun g => set_stats (f (stats g)) g) ctx.

(** [glthread->queue.f = v] *)
Definition upd_queue (f : util_queue -> util_queue) (ctx : gl_context)
  : gl_context :=
  upd (fun g => set_queue (f (queue g)) g) ctx.

Definition log (e : event) (ctx : gl_context) : gl_context :=
  set_events (events ctx ++ [e]) ctx.

(** [assert(b)] *)
Definition c_assert (b : bool) : result unit :=
  if NDEBUG || b then Ok tt else Fail AssertFailed.

(** [glthread->batches[i]] read through a pointer or an index *)
Definition batch_at (i : Z) (ctx : gl_context) : result glthread_batch :=
  if i <? 0 then Fail OutOfBounds else
  match batches (GLThread ctx) !! Z.to_nat i with
  | Some b => Ok b
  | None => Fail OutOfBounds
  end.

(** [glthread->batches[i].f = v] *)
Definition upd_batch (i : Z) (f : glthread_batch -> glthread_batch)
  (ctx : gl_context) : result gl_context :=
  b ← batch_at i ctx;
  Ok (upd (fun g => set_batches (<[Z.to_nat i := f b]> (batches g)) g) ctx).

(** [_glapi_set_dispatch(table)] called on thread [tid] *)
Definition _glapi_set_dispatch (tid table : Z) (ctx : gl_context)
  : gl_context :=
  set_glapi_dispatch
    (fun t => if t =? tid then table else glapi_dispatch ctx t) ctx.

(** [p_atomic_cmpxchg(&v, old, new)]: the value left in [v] *)
Definition p_atomic_cmpxchg (v old new : Z) : Z :=
  if v =? old then new else v.

(** ** glthread_unmarshal_batch *)

(** The decode loop [while (pos < used) pos += dispatch[cmd->cmd_id](ctx, cmd)]
    of the batch with index [batch_index], run on thread [tid].  It
    returns the value of [pos] at loop exit. *)
Fixpoint unmarshal_loop (fuel : nat) (tid batch_index : Z)
  (buf : list Z) (used_ pos : Z) (ctx : gl_context)
  : result (Z * gl_context) :=
  if pos <? used_ then
    match fuel with
    | O => Fail OutOfFuel
    | S fuel' =>
      match buf !! Z.to_nat pos with
      | None => Fail OutOfBounds
      | Some hdr =>
        let cmd := drop (Z.to_nat pos) buf in
        let '(srv, n) :=
          _mesa_unmarshal_dispatch (cmd_id_of hdr) (server ctx) cmd in
        let ctx := set_server srv ctx in
        let ctx := log (EvDispatch tid batch_index pos (cmd_id_of hdr) n) ctx in
        unmarshal_loop fuel' tid batch_index buf used_ (wrap32 (pos + n)) ctx
      end
    end
  else Ok (pos, ctx).

(** [glthread_unmarshal_batch(job, gdata, thread_index)] with [job] the
    batch of index [batch_index], called on thread [tid].  The two
    mutexes it takes are free whenever it is entered, because batches are
    run one at a time. *)
Definition glthread_unmarshal_batch (fuel : nat) (tid batch_index : Z)
  (ctx : gl_context) : result gl_context :=
  batch ← batch_at batch_index ctx;
  let used_ := b_used batch in
  let buf := buffer batch in
  let ctx := _glapi_set_dispatch tid (CurrentServerDispatch ctx) ctx in
  let ctx := set_BufferObjectsLocked true ctx in
  let ctx := set_TexturesLocked true ctx in
  '(pos, ctx) ← unmarshal_loop fuel tid batch_index buf used_ 0 ctx;
  let ctx := set_TexturesLocked false ctx in
  let ctx := set_BufferObjectsLocked false ctx in
  _ ← c_assert (pos =? used_);
  ctx ← upd_batch batch_index (set_b_used 0) ctx;
  let ctx :=
    upd (fun g => set_LastProgramChangeBatch
           (p_atomic_cmpxchg (LastProgramChangeBatch g) batch_index (-1)) g)
        ctx in
  let ctx :=
    upd (fun g => set_LastDListChangeBatchIndex
           (p_atomic_cmpxchg (LastDListChangeBatchIndex g) batch_index (-1)) g)
        ctx in
  Ok (upd_stats (fun m => set_num_batches (wrap32 (num_batches m + 1)) m) ctx).

(** [glthread_thread_initialization(job, gdata, thread_index)] *)
Definition glthread_thread_initialization (ctx : gl_context) : gl_context :=
  set_background_context true ctx.

(** ** The job queue *)

(** Modelled from the spec: the fence operations of the Job Queue
    (util/u_queue.h is not among the sources).  A fence is a binary
    completion signal; [fence_is_signaled(fence) -> bool]. *)
Definition util_queue_fence_is_signalled (f : fence_ref) (ctx : gl_context)
  : result bool :=
  match f with
  | BatchFence i => b ← batch_at i ctx; Ok (fence b)
  | InitFence => Ok (init_fence ctx)
  end.

(** Modelled from the spec: setting a fence of the Job Queue to signalled
    ([v = true], done by the worker after the job, and by
    [util_queue_fence_init]) or to unsignalled ([v = false], done when the
    job is submitted). *)
Definition util_queue_fence_set (v : bool) (f : fence_ref) (ctx : gl_context)
  : result gl_context :=
  match f with
  | BatchFence i => upd_batch i (set_fence v) ctx
  | InitFence => Ok (set_init_fence v ctx)
  end.

(** Modelled from the spec: one turn of the Job Queue's single worker
    thread.  It takes the oldest queued job, runs its callback to
    completion and signals its fence.  A queue without a worker makes no
    progress, so whoever relies on this turn waits for ever. *)
Definition util_queue_worker_step (fuel : nat) (ctx : gl_context)
  : result gl_context :=
  let q := queue (GLThread ctx) in
  if negb (q_alive q) then Fail Deadlock else
  match jobs q with
  | [] => Ok ctx
  | j :: rest =>
    let ctx := upd_queue (set_jobs rest) ctx in
    ctx ← match j with
          | UnmarshalJob i _ => glthread_unmarshal_batch fuel (threads0 q) i ctx
          | ThreadInitJob _ => Ok (glthread_thread_initialization ctx)
          end;
    util_queue_fence_set true (job_fence j) ctx
  end.

(** Modelled from the spec: the sleep inside [fence_wait(fence)] of the
    Job Queue.  The caller sleeps until [f] is signalled; meanwhile only
    the worker runs.  [n] bounds the worker turns by the number of queued
    jobs. *)
Fixpoint fence_wait_loop (n : nat) (fuel : nat) (f : fence_ref)
  (ctx : gl_context) : result gl_context :=
  s ← util_queue_fence_is_signalled f ctx;
  if (s : bool) then Ok ctx else
  match n with
  | O => Fail Deadlock
  | S n' =>
    ctx ← util_queue_worker_step fuel ctx;
    fence_wait_loop n' fuel f ctx
  end.

(** Modelled from the spec: [fence_wait(fence)] of the Job Queue, which
    blocks the caller until the worker has signalled the fence.  With no
    job left to run and the fence unsignalled the caller never wakes up. *)
Definition util_queue_fence_wait (fuel : nat) (f : fence_ref)
  (ctx : gl_context) : result gl_context :=
  let ctx := log (EvFenceWait f) ctx in
  fence_wait_loop (length (jobs (queue (GLThread ctx)))) fuel f ctx.

(** Modelled from the spec: the sleep inside [add_job] of the Job Queue,
    whose backlog is bounded.  The caller sleeps until the backlog has a
    free slot; meanwhile only the worker runs. *)
Fixpoint slot_wait_loop (n : nat) (fuel : nat) (ctx : gl_context)
  : result gl_context :=
  let q := queue (GLThread ctx) in
  if Z.of_nat (length (jobs q)) <? max_jobs q then Ok ctx else
  match n with
  | O => Fail Deadlock
  | S n' =>
    ctx ← util_queue_worker_step fuel ctx;
    slot_wait_loop n' fuel ctx
  end.

(** Modelled from the spec: [add_job(queue, job_data, fence, callback)] of
    the Job Queue, whose backlog is bounded by the capacity given to
    [init]: the job's fence is reset to unsignalled, the caller waits
    while the backlog is full, and the job is queued behind the others. *)
Definition util_queue_add_job (fuel : nat) (j : queue_job) (ctx : gl_context)
  : result gl_context :=
  let ctx := log (EvAddJob j) ctx in
  ctx ← util_queue_fence_set false (job_fence j) ctx;
  ctx ← slot_wait_loop (length (jobs (queue (GLThread ctx)))) fuel ctx;
  Ok (upd_queue (fun q => set_jobs (jobs q ++ [j]) q) ctx).

(** Modelled from the spec: [destroy(queue)] of the Job Queue, which
    returns once the worker thread has exited. *)
Definition util_queue_destroy (ctx : gl_context) : gl_context :=
  let ctx := log EvQueueDestroy ctx in
  upd_queue (set_q_alive false) ctx.

(** ** _mesa_glthread_finish *)

(** [_mesa_glthread_finish(ctx)] called on thread [tid]. *)
Definition _mesa_glthread_finish (fuel : nat) (tid : Z) (ctx : gl_context)
  : result gl_context :=
  let glthread := GLThread ctx in
  if negb (enabled glthread) then Ok ctx else
  if tid =? threads0 (queue glthread) then Ok ctx else
  let last_ := last glthread in
  let next_ := next_batch glthread in
  let synced := false in
  s ← util_queue_fence_is_signalled (BatchFence last_) ctx;
  '(synced, ctx) ←
    (if negb s then
       ctx ← util_queue_fence_wait fuel (BatchFence last_) ctx;
       Ok (true, ctx)
     else Ok (synced, ctx));
  '(synced, ctx) ←
    (if negb (used (GLThread ctx) =? 0) then
       let n := used (GLThread ctx) in
       let ctx :=
         upd_stats
           (fun m => set_num_direct_items (wrap32 (num_direct_items m + n)) m)
           ctx in
       ctx ← upd_batch next_ (set_b_used n) ctx;
       let ctx := upd (set_used 0) ctx in
       let ctx := upd (set_LastCallList 0) ctx in
       let ctx := upd (set_LastBindBuffer 0) ctx in
       let dispatch := glapi_dispatch ctx tid in
       ctx ← glthread_unmarshal_batch fuel tid next_ ctx;
       let ctx := _glapi_set_dispatch tid dispatch ctx in
       Ok (true, ctx)
     else Ok (synced, ctx));
  if (synced : bool) then
    Ok (upd_stats (fun m => set_num_syncs (wrap32 (num_syncs m + 1)) m) ctx)
  else Ok ctx.

(** [_mesa_glthread_finish_before(ctx, func)] *)
Definition _mesa_glthread_finish_before (fuel : nat) (tid : Z)
  (ctx : gl_context) : result gl_context :=
  _mesa_glthread_finish fuel tid ctx.

(** ** _mesa_glthread_destroy *)

(** [free()] of a live object *)
Fixpoint heap_free (a : Z) (h : list Z) : list Z :=
  match h with
  | [] => []
  | x :: h' => if x =? a then h' else x :: heap_free a h'
  end.

(** [_mesa_glthread_destroy(ctx, reason)] called on thread [tid].  The
    fences have no storage of their own to release, and the upload buffer
    is outside the modelled state. *)
Definition _mesa_glthread_destroy (fuel : nat) (tid : Z)
  (reason : option string) (ctx : gl_context) : result gl_context :=
  if negb (enabled (GLThread ctx)) then Ok ctx else
  let ctx := match reason with
             | Some r => log (EvDebug r) ctx
             | None => ctx
             end in
  ctx ← _mesa_glthread_finish fuel tid ctx;
  let ctx := util_queue_destroy ctx in
  let ctx := set_heap (heap_free (VAOs (GLThread ctx)) (heap ctx)) ctx in
  let ctx := upd (set_enabled false) ctx in
  let ctx := set_CurrentClientDispatch (CurrentServerDispatch ctx) ctx in
  if glapi_dispatch ctx tid =? MarshalExec ctx
  then Ok (_glapi_set_dispatch tid (CurrentClientDispatch ctx) ctx)
  else Ok ctx.

(** ** _mesa_glthread_flush_batch *)

(** The block "Pin threads regularly to the same Zen CCX that the main
    thread is running on", with [cpu] the value [util_get_current_cpu()]
    returns if it is called. *)
Definition pin_threads (cpu : Z) (ctx : gl_context) : gl_context :=
  if negb (1 <? num_L3_caches) then ctx else
  if negb (set_context_param ctx) then ctx else
  let ctx :=
    upd (fun g => set_pin_thread_counter (wrap32 (pin_thread_counter g + 1)) g)
        ctx in
  if negb (pin_thread_counter (GLThread ctx) mod 128 =? 0) then ctx else
  if negb (0 <=? cpu) then ctx else
  let L3_cache := cpu_to_L3 cpu in
  if L3_cache =? U_CPU_INVALID_L3 then ctx else
  let ctx :=
    log (EvSetThreadAffinity (threads0 (queue (GLThread ctx))) L3_cache) ctx in
  log (EvPinThreadsToL3 L3_cache) ctx.

(** What [_mesa_glthread_flush_batch] does from [struct glthread_batch
    *next = glthread->next_batch] on.  The branch under [if (false)] is
    never taken. *)
Definition submit_batch (fuel : nat) (ctx : gl_context) : result gl_context :=
  let next_ := next_batch (GLThread ctx) in
  let n := used (GLThread ctx) in
  let ctx :=
    upd_stats
      (fun m => set_num_offloaded_items (wrap32 (num_offloaded_items m + n)) m)
      ctx in
  ctx ← upd_batch next_ (set_b_used n) ctx;
  ctx ← util_queue_add_job fuel (UnmarshalJob next_ (BatchFence next_)) ctx;
  let ctx := upd (fun g => set_last (next g) g) ctx in
  let ctx := upd (fun g => set_next ((next g + 1) mod MARSHAL_MAX_BATCHES) g)
                 ctx in
  let ctx := upd (fun g => set_next_batch (next g) g) ctx in
  let ctx := upd (set_used 0) ctx in
  let ctx := upd (set_LastCallList 0) ctx in
  Ok (upd (set_LastBindBuffer 0) ctx).

(** [_mesa_glthread_flush_batch(ctx)] called on thread [tid]. *)
Definition _mesa_glthread_flush_batch (fuel : nat) (cpu tid : Z)
  (ctx : gl_context) : result gl_context :=
  if negb (enabled (GLThread ctx)) then Ok ctx else
  if CurrentServerDispatch ctx =? ContextLost ctx then
    _mesa_glthread_destroy fuel tid (Some "context lost"%string) ctx
  else
  if used (GLThread ctx) =? 0 then Ok ctx else
  submit_batch fuel (pin_threads cpu ctx).

(** ** _mesa_glthread_init *)

(** Modelled from the spec: [init(name, backlog_capacity, worker_count=1)
    -> queue | failure] of the Job Queue.  On success the queue is empty
    and its worker thread runs. *)
Definition util_queue_init (e : init_env) (backlog : Z) (ctx : gl_context)
  : bool * gl_context :=
  if queue_init_ok e
  then (true, upd (set_queue (mk_queue [] backlog (worker_thread e) true)) ctx)
  else (false, ctx).

(** [for (i = 0; i < MARSHAL_MAX_BATCHES; i++)
       util_queue_fence_init(&glthread->batches[i].fence);]
    with [i] running over [from .. from + n - 1]. *)
Fixpoint init_batch_fences (n : nat) (from : Z) (ctx : gl_context)
  : result gl_context :=
  match n with
  | O => Ok ctx
  | S n' =>
    ctx ← util_queue_fence_set true (BatchFence from) ctx;
    init_batch_fences n' (from + 1) ctx
  end.

(** [_mesa_glthread_init(ctx)] called on thread [tid].  The function is
    declared [void]: each of its [return;] statements hands back nothing.
    The contents of the dispatch table and the VAO tracking state are
    outside the modelled state. *)
Definition _mesa_glthread_init (e : init_env) (fuel : nat)
  (ctx : gl_context) : result (c_return * gl_context) :=
  _ ← c_assert (negb (enabled (GLThread ctx)));
  if (cap_map_unsynchronized_thread_safe e =? 0)
     || (cap_allow_mapped_buffers_during_execution e =? 0)
  then Ok (ReturnsVoid, ctx) else
  let '(ok, ctx) := util_queue_init e (MARSHAL_MAX_BATCHES - 2) ctx in
  if negb ok then Ok (ReturnsVoid, ctx) else
  let ctx := upd (set_VAOs (new_hash_table e)) ctx in
  if VAOs (GLThread ctx) =? 0 then
    Ok (ReturnsVoid, util_queue_destroy ctx)
  else
  let ctx := set_heap (VAOs (GLThread ctx) :: heap ctx) ctx in
  let ctx := set_MarshalExec (alloc_dispatch_table e) ctx in
  if MarshalExec ctx =? 0 then
    let ctx := set_heap (heap_free (VAOs (GLThread ctx)) (heap ctx)) ctx in
    Ok (ReturnsVoid, util_queue_destroy ctx)
  else
  let ctx := set_heap (MarshalExec ctx :: heap ctx) ctx in
  ctx ← init_batch_fences (Z.to_nat MARSHAL_MAX_BATCHES) 0 ctx;
  let ctx := upd (fun g => set_next_batch (next g) g) ctx in
  let ctx := upd (set_used 0) ctx in
  let ctx := upd (set_enabled true) ctx in
  let ctx := upd_stats (set_stats_queue true) ctx in
  let ctx := set_CurrentClientDispatch (MarshalExec ctx) ctx in
  let ctx := upd (set_LastDListChangeBatchIndex (-1)) ctx in
  let ctx := set_st_pin_thread_counter ST_L3_PINNING_DISABLED ctx in
  let ctx := set_init_fence true ctx in
  ctx ← util_queue_add_job fuel (ThreadInitJob InitFence) ctx;
  ctx ← util_queue_fence_wait fuel InitFence ctx;
  Ok (ReturnsVoid, ctx).

End Engine.

(** ** Vocabulary of the statements *)

Section Vocabulary.

Context {env : glthread_env}.
Implicit Types (ctx : gl_context) (b : glthread_batch) (f : fence_ref).

(** Everything the producer thread owns or reads without synchronisation:
    no job callback and no queue bookkeeping writes to it. *)
Definition producer_view ctx :=
  let g := GLThread ctx in
  let q := queue g in
  let m := stats g in
  ((enabled g, next g, last g, next_batch g, used g, pin_thread_counter g),
   (LastCallList g, LastBindBuffer g, VAOs g, buffer <$> batches g),
   (stats_queue m, num_offloaded_items m, num_direct_items m, num_syncs m),
   (max_jobs q, threads0 q, q_alive q),
   (CurrentServerDispatch ctx, ContextLost ctx, MarshalExec ctx,
    CurrentClientDispatch ctx, set_context_param ctx,
    st_pin_thread_counter ctx, heap ctx)).

(** The state after commands have run: only the GL state and the log of
    calls differ. *)
Definition ran (srv : gl_server) (evs : list event) ctx : gl_context :=
  set_events (events ctx ++ evs) (set_server srv ctx).

(** [e] is a call of an unmarshal function made on thread [tid] for a
    record of batch [i]. *)
Definition dispatch_of (tid i : Z) (e : event) : Prop :=
  match e with
  | EvDispatch t k _ _ _ => t = tid /\ k = i
  | _ => False
  end.

(** [ctx'] is [ctx] after the worker thread has run some queued jobs and
    nothing else has happened. *)
Definition worker_ran ctx ctx' : Prop :=
  producer_view ctx' = producer_view ctx /\
  (exists done, jobs (queue (GLThread ctx)) =
                done ++ jobs (queue (GLThread ctx'))) /\
  (exists evs, events ctx' = events ctx ++ evs /\
     Forall (fun e => exists i,
               dispatch_of (threads0 (queue (GLThread ctx))) i e) evs).

(** What [_mesa_glthread_finish] leaves alone as well: everything in
    [producer_view] but the fill level of the current batch, the
    dispatch adapter's caches and the counters of direct items and
    syncs. *)
Definition ring_view ctx :=
  let g := GLThread ctx in
  let q := queue g in
  ((enabled g, next g, last g, next_batch g, pin_thread_counter g),
   (VAOs g, buffer <$> batches g),
   (stats_queue (stats g), num_offloaded_items (stats g)),
   (max_jobs q, threads0 q, q_alive q),
   (CurrentServerDispatch ctx, ContextLost ctx, MarshalExec ctx,
    CurrentClientDispatch ctx, set_context_param ctx,
    st_pin_thread_counter ctx, heap ctx)).

(** The calls [_mesa_glthread_finish] can give rise to: waiting for a
    fence, and unmarshal calls. *)
Definition is_sync_event (e : event) : bool :=
  match e with
  | EvDispatch _ _ _ _ _ | EvFenceWait _ => true
  | _ => false
  end.

(** The calls that pin threads. *)
Definition is_pin_event (e : event) : bool :=
  match e with
  | EvSetThreadAffinity _ _ | EvPinThreadsToL3 _ => true
  | _ => false
  end.

Definition pin_log ctx : list event := List.filter is_pin_event (events ctx).

(** The three conditions under which a flush applies the CPU-affinity
    heuristic: more than one L3 cache domain, a driver that can pin, and an
    incremented counter that is a multiple of 128. *)
Definition pinning_due ctx : bool :=
  (1 <? num_L3_caches) && set_context_param ctx &&
  (wrap32 (pin_thread_counter (GLThread ctx) + 1) mod 128 =? 0).

(** The cache domain of the CPU the caller runs on, when it can be
    determined. *)
Definition cache_domain (cpu : Z) : option Z :=
  if (0 <=? cpu) && negb (cpu_to_L3 cpu =? U_CPU_INVALID_L3)
  then Some (cpu_to_L3 cpu) else None.

(** The pinning calls a flush makes: none unless it gets as far as
    submitting, the heuristic is due and the cache domain of the caller's
    CPU is known. *)
Definition pin_calls (cpu : Z) ctx : list event :=
  if enabled (GLThread ctx)
     && negb (CurrentServerDispatch ctx =? ContextLost ctx)
     && negb (used (GLThread ctx) =? 0)
     && pinning_due ctx
  then match cache_domain cpu with
       | Some L3 =>
         [EvSetThreadAffinity (threads0 (queue (GLThread ctx))) L3;
          EvPinThreadsToL3 L3]
       | None => []
       end
  else [].

(** The counting the heuristic does on the way to its decision. *)
Definition count_flush ctx : gl_context :=
  if (1 <? num_L3_caches) && set_context_param ctx
  then upd (fun g => set_pin_thread_counter
                       (wrap32 (pin_thread_counter g + 1)) g) ctx
  else ctx.

(** The record stream in [buf] is well formed from [pos] up to [used_]:
    each record, from [pos] on, reports a positive size, the same in
    whatever GL state it is run, and the last one ends at [used_]. *)
Inductive well_formed_stream (buf : list Z) (used_ : Z) : Z -> Prop :=
| wf_end : well_formed_stream buf used_ used_
| wf_record (pos hdr n : Z) :
    0 <= pos ->
    buf !! Z.to_nat pos = Some hdr ->
    (forall srv,
       snd (_mesa_unmarshal_dispatch (cmd_id_of hdr) srv
              (drop (Z.to_nat pos) buf)) = n) ->
    0 < n -> pos + n <= used_ ->
    well_formed_stream buf used_ (pos + n) ->
    well_formed_stream buf used_ pos.

(** [evs] are the unmarshal calls, made on thread [tid] for batch [i],
    that decode [buf] record after record from offset [from] to exactly
    offset [to]: each call is made at the offset where the one before it
    stopped, and consumes what the unmarshal function returns. *)
Fixpoint dispatch_chain (tid i : Z) (buf : list Z) (from to : Z)
  (evs : list event) : Prop :=
  match evs with
  | [] => from = to
  | e :: evs' =>
    exists hdr n,
      buf !! Z.to_nat from = Some hdr /\
      e = EvDispatch tid i from (cmd_id_of hdr) n /\
      (forall srv,
         snd (_mesa_unmarshal_dispatch (cmd_id_of hdr) srv
                (drop (Z.to_nat from) buf)) = n) /\
      0 < n /\ from + n <= to /\
      dispatch_chain tid i buf (from + n) to evs'
  end.

(** [n] slots of [buf] hold a record stream the decode loop gets through
    with the given fuel. *)
Definition stream_ok (fuel : nat) (n : Z) (buf : list Z) : Prop :=
  0 <= n < 2 ^ 32 /\ n <= Z.of_nat fuel /\ well_formed_stream buf n 0.

Definition fence_valid f ctx : Prop :=
  match f with
  | BatchFence k => 0 <= k < Z.of_nat (length (batches (GLThread ctx)))
  | InitFence => True
  end.

(** A queued job whose callback will return. *)
Definition job_ok (fuel : nat) ctx (j : queue_job) : Prop :=
  match j with
  | UnmarshalJob i f =>
    (exists b, batch_at i ctx = Ok b /\ stream_ok fuel (b_used b) (buffer b))
    /\ fence_valid f ctx
  | ThreadInitJob f => fence_valid f ctx
  end.

(** The queue has its worker, and every queued job can be run. *)
Definition runnable (fuel : nat) ctx : Prop :=
  q_alive (queue (GLThread ctx)) = true /\
  Forall (job_ok fuel ctx) (jobs (queue (GLThread ctx))).

(** The state the engine is in between two calls made by the producer,
    whatever the worker has done in the meantime: the ring indices are in
    range, a batch whose fence is unsignalled has a job queued that will
    signal it, and what has been recorded in the current batch is a well
    formed record stream. *)
Definition engine_ok (fuel : nat) ctx : Prop :=
  let g := GLThread ctx in
  runnable fuel ctx /\
  0 < max_jobs (queue g) /\
  0 <= last g < Z.of_nat (length (batches g)) /\
  0 <= next_batch g < Z.of_nat (length (batches g)) /\
  (forall i b, batches g !! i = Some b -> fence b = false ->
     exists j, j ∈ jobs (queue g) /\ job_fence j = BatchFence (Z.of_nat i)) /\
  (forall b, batch_at (next_batch g) ctx = Ok b ->
     stream_ok fuel (used g) (buffer b)).

(** How the worker changes the ring: it resets [used] and signals
    fences, and leaves the buffers alone. *)
Definition batches_evolve (l l' : list glthread_batch) : Prop :=
  length l' = length l /\
  forall k b', l' !! k = Some b' ->
    exists b, l !! k = Some b /\ buffer b' = buffer b /\
      (b_used b' = b_used b \/ b_used b' = 0) /\
      (fence b' = fence b \/ fence b' = true).

(** [engine_ok], with the current-batch pointer pointing at the slot
    [next] and a ring of [MARSHAL_MAX_BATCHES] batches. *)
Definition ring_ok (fuel : nat) ctx : Prop :=
  let g := GLThread ctx in
  engine_ok fuel ctx /\
  next_batch g = next g /\
  Z.of_nat (length (batches g)) = MARSHAL_MAX_BATCHES.

(** The queue holds batches in the order of their submission: each queued
    job unmarshals a batch and signals that batch's own fence, no batch is
    queued twice, the fence of a queued batch is unsignalled, and the job
    queued last is that of the batch [last]. *)
Definition fifo_ok_of (js : list queue_job) (fences : list bool) (l : Z)
  : Prop :=
  NoDup js /\
  (forall j, j ∈ js -> exists i, 0 <= i /\ j = UnmarshalJob i (BatchFence i)) /\
  (forall i, 0 <= i -> UnmarshalJob i (BatchFence i) ∈ js ->
             fences !! Z.to_nat i = Some false) /\
  (js <> [] -> exists pre, js = pre ++ [UnmarshalJob l (BatchFence l)]).

Definition fifo_ok ctx : Prop :=
  let g := GLThread ctx in
  fifo_ok_of (jobs (queue g)) (fence <$> batches g) (last g).

(** The queue holds the batches submitted last, and only a bounded
    number of them: of [k] queued jobs the one at position [p], the
    oldest being at position 0, unmarshals the batch [k - 1 - p] slots
    behind [last] in the ring and signals its fence; while jobs are
    queued [next] is the slot after [last]; and [k] is at most the
    capacity of the queue, which is [MARSHAL_MAX_BATCHES - 2]. *)
Definition ring_queue ctx : Prop :=
  let g := GLThread ctx in
  let js := jobs (queue g) in
  (forall p j, js !! p = Some j ->
     let i := (last g - (Z.of_nat (length js) - 1 - Z.of_nat p))
              mod MARSHAL_MAX_BATCHES in
     j = UnmarshalJob i (BatchFence i)) /\
  (js <> [] -> next g = (last g + 1) mod MARSHAL_MAX_BATCHES) /\
  Z.of_nat (length js) <= max_jobs (queue g) /\
  max_jobs (queue g) = MARSHAL_MAX_BATCHES - 2.

(** The invariant of an enabled engine: [ring_ok], with the queue holding
    the batches submitted last in the order of their submission. *)
Definition engine_inv (fuel : nat) ctx : Prop :=
  ring_ok fuel ctx /\ fifo_ok ctx /\ ring_queue ctx.

(** What the decode loop of [glthread_unmarshal_batch] does to the GL
    state: the loop of [unmarshal_loop], without the context around it. *)
Fixpoint exec_stream (fuel : nat) (buf : list Z) (used_ pos : Z)
  (srv : gl_server) : result (Z * gl_server) :=
  if pos <? used_ then
    match fuel with
    | O => Fail OutOfFuel
    | S fuel' =>
      match buf !! Z.to_nat pos with
      | None => Fail OutOfBounds
      | Some hdr =>
        let '(srv, n) :=
          _mesa_unmarshal_dispatch (cmd_id_of hdr) srv
            (drop (Z.to_nat pos) buf) in
        exec_stream fuel' buf used_ (wrap32 (pos + n)) srv
      end
    end
  else Ok (pos, srv).

(** What running a queued job does to the GL state, the ring being
    [bs]. *)
Definition exec_job (fuel : nat) (bs : list glthread_batch) (j : queue_job)
  (srv : gl_server) : result gl_server :=
  match j with
  | UnmarshalJob i _ =>
    match bs !! Z.to_nat i with
    | Some b =>
      '(_, srv) ← exec_stream fuel (buffer b) (b_used b) 0 srv; Ok srv
    | None => Fail OutOfBounds
    end
  | ThreadInitJob _ => Ok srv
  end.

(** What running queued jobs one after the other does to the GL state. *)
Fixpoint exec_jobs (fuel : nat) (bs : list glthread_batch)
  (js : list queue_job) (srv : gl_server) : result gl_server :=
  match js with
  | [] => Ok srv
  | j :: js' => srv ← exec_job fuel bs j srv; exec_jobs fuel bs js' srv
  end.

(** What the worker has done while the caller slept: it has run the
    jobs [ran_jobs] from the front of the queue, with their effect on the
    GL state, and has left alone the batches it had no job for. *)
Definition slept (fuel : nat) ctx ctx' : Prop :=
  exists ran_jobs,
    jobs (queue (GLThread ctx)) = ran_jobs ++ jobs (queue (GLThread ctx')) /\
    exec_jobs fuel (batches (GLThread ctx)) ran_jobs (server ctx)
      = Ok (server ctx') /\
    forall k, 0 <= k -> UnmarshalJob k (BatchFence k) ∉ ran_jobs ->
      batches (GLThread ctx') !! Z.to_nat k = batches (GLThread ctx) !! Z.to_nat k.

End Vocabulary.

(** ** The engine with its worker running beside the producer

    The functions above are written against a queue whose worker runs
    only while the producer sleeps in the queue, one whole job at a time.
    In this module the same functions are written against the queue as it
    is: the worker is a thread of its own.  It takes the oldest job off
    the backlog, which frees a slot of the backlog at once, holds the job
    while the callback runs, and then signals the fence.  The batch of a
    job is in flight from [add_job] until its fence is signalled, in the
    backlog or in the worker's hands.

    How far the worker gets while the producer is at work is not for the
    producer to decide.  The two calls in which the producer synchronises
    with the queue, [add_job] and [fence_wait], take the number [k] of
    actions the worker performs during the call beyond those the caller
    has to wait for; [_mesa_glthread_flush_batch] takes a second number,
    of the actions the worker performs between the return of [add_job]
    and the return of the flush, when the job just queued can already be
    taken; what the worker does between two calls of the producer is
    written [worker_runs].  The statements about this module hold for
    every such number.  The producer's other statements read and write
    its own fields and the current batch, which is not in flight. *)

Module Async.

Section Async.

Context {env : glthread_env}.

(** Modelled from the spec: the engine and the worker thread of the Job
    Queue.  [running] is the job the worker has taken off the backlog and
    not yet completed; [jobs] of the queue is the backlog. *)
Record engine : Type := mk_engine {
  ctx_of : gl_context;
  running : option queue_job;
}.

(** The producer's side of a step: [f] applied to the context. *)
Definition on_ctx (f : gl_context -> gl_context) (a : engine) : engine :=
  mk_engine (f (ctx_of a)) (running a).

(** The jobs submitted and not yet completed, oldest first. *)
Definition in_flight (a : engine) : list queue_job :=
  match running a with
  | Some j => j :: jobs (queue (GLThread (ctx_of a)))
  | None => jobs (queue (GLThread (ctx_of a)))
  end.

(** Modelled from the spec: one action of the worker thread of the Job
    Queue.  Holding a job, it runs the callback to completion and signals
    the job's fence.  Idle, it takes the oldest job off the backlog.  A
    queue without a worker does nothing. *)
Definition worker_action (fuel : nat) (a : engine) : result engine :=
  let ctx := ctx_of a in
  let q := queue (GLThread ctx) in
  if negb (q_alive q) then Ok a else
  match running a with
  | Some j =>
    ctx ← match j with
          | UnmarshalJob i _ => glthread_unmarshal_batch fuel (threads0 q) i ctx
          | ThreadInitJob _ => Ok (glthread_thread_initialization ctx)
          end;
    ctx ← util_queue_fence_set true (job_fence j) ctx;
    Ok (mk_engine ctx None)
  | None =>
    match jobs q with
    | [] => Ok a
    | j :: rest => Ok (mk_engine (upd_queue (set_jobs rest) ctx) (Some j))
    end
  end.

(** Modelled from the spec: [k] actions of the worker, one after the
    other. *)
Fixpoint worker_runs (k : nat) (fuel : nat) (a : engine) : result engine :=
  match k with
  | O => Ok a
  | S k' => a ← worker_action fuel a; worker_runs k' fuel a
  end.

(** Modelled from the spec: the sleep inside [fence_wait(fence)] of the
    Job Queue.  The caller sleeps until [f] is signalled; meanwhile the
    worker acts.  [n] bounds the actions by what is in flight: once
    nothing is, or without a worker, nobody will signal the fence. *)
Fixpoint fence_wait_loop (n : nat) (fuel : nat) (f : fence_ref)
  (a : engine) : result engine :=
  s ← util_queue_fence_is_signalled f (ctx_of a);
  if (s : bool) then Ok a else
  match n with
  | O => Fail Deadlock
  | S n' =>
    if negb (q_alive (queue (GLThread (ctx_of a)))) then Fail Deadlock else
    a ← worker_action fuel a;
    fence_wait_loop n' fuel f a
  end.

(** Modelled from the spec: [fence_wait(fence)] of the Job Queue, during
    which the worker performs [k] actions beyond those waited for. *)
Definition util_queue_fence_wait (fuel : nat) (k : nat) (f : fence_ref)
  (a : engine) : result engine :=
  let a := on_ctx (log (EvFenceWait f)) a in
  a ← fence_wait_loop (2 * length (in_flight a)) fuel f a;
  worker_runs k fuel a.

(** Modelled from the spec: the sleep inside [add_job] of the Job Queue,
    whose backlog is bounded.  The caller sleeps until the backlog has a
    free slot; meanwhile the worker acts. *)
Fixpoint slot_wait_loop (n : nat) (fuel : nat) (a : engine)
  : result engine :=
  let q := queue (GLThread (ctx_of a)) in
  if Z.of_nat (length (jobs q)) <? max_jobs q then Ok a else
  match n with
  | O => Fail Deadlock
  | S n' =>
    if negb (q_alive q) then Fail Deadlock else
    a ← worker_action fuel a;
    slot_wait_loop n' fuel a
  end.

(** Modelled from the spec: [add_job(queue, job_data, fence, callback)] of
    the Job Queue, during which the worker performs [k] actions beyond
    those waited for: the job's fence is reset to unsignalled, the caller
    waits while the backlog is full, and the job is put at the end of the
    backlog. *)
Definition util_queue_add_job (fuel : nat) (k : nat) (j : queue_job)
  (a : engine) : result engine :=
  let a := on_ctx (log (EvAddJob j)) a in
  ctx ← util_queue_fence_set false (job_fence j) (ctx_of a);
  a ← slot_wait_loop (2 * length (in_flight a)) fuel
        (mk_engine ctx (running a));
  a ← worker_runs k fuel a;
  Ok (on_ctx (upd_queue (fun q => set_jobs (jobs q ++ [j]) q)) a).

(** Modelled from the spec: [destroy(queue)] of the Job Queue, which
    returns once the worker thread has exited: the worker completes the
    job it holds. *)
Definition util_queue_destroy (fuel : nat) (a : engine) : result engine :=
  a ← match running a with
      | Some _ => worker_action fuel a
      | None => Ok a
      end;
  Ok (on_ctx util_queue_destroy a).

(** [_mesa_glthread_finish(ctx)] called on thread [tid]. *)
Definition _mesa_glthread_finish (fuel : nat) (tid : Z) (k : nat)
  (a : engine) : result engine :=
  let glthread := GLThread (ctx_of a) in
  if negb (enabled glthread) then Ok a else
  if tid =? threads0 (queue glthread) then Ok a else
  let last_ := last glthread in
  let next_ := next_batch glthread in
  let synced := false in
  s ← util_queue_fence_is_signalled (BatchFence last_) (ctx_of a);
  '(synced, a) ←
    (if negb s then
       a ← util_queue_fence_wait fuel k (BatchFence last_) a;
       Ok (true, a)
     else Ok (synced, a));
  '(synced, a) ←
    (if negb (used (GLThread (ctx_of a)) =? 0) then
       let ctx := ctx_of a in
       let n := used (GLThread ctx) in
       let ctx :=
         upd_stats
           (fun m => set_num_direct_items (wrap32 (num_direct_items m + n)) m)
           ctx in
       ctx ← upd_batch next_ (set_b_used n) ctx;
       let ctx := upd (set_used 0) ctx in
       let ctx := upd (set_LastCallList 0) ctx in
       let ctx := upd (set_LastBindBuffer 0) ctx in
       let dispatch := glapi_dispatch ctx tid in
       ctx ← glthread_unmarshal_batch fuel tid next_ ctx;
       let ctx := _glapi_set_dispatch tid dispatch ctx in
       Ok (true, mk_engine ctx (running a))
     else Ok (synced, a));
  if (synced : bool) then
    Ok (on_ctx
          (upd_stats (fun m => set_num_syncs (wrap32 (num_syncs m + 1)) m)) a)
  else Ok a.

(** [_mesa_glthread_destroy(ctx, reason)] called on thread [tid]. *)
Definition _mesa_glthread_destroy (fuel : nat) (tid : Z) (k : nat)
  (reason : option string) (a : engine) : result engine :=
  if negb (enabled (GLThread (ctx_of a))) then Ok a else
  let a := match reason with
           | Some r => on_ctx (log (EvDebug r)) a
           | None => a
           end in
  a ← _mesa_glthread_finish fuel tid k a;
  a ← util_queue_destroy fuel a;
  let ctx := ctx_of a in
  let ctx := set_heap (heap_free (VAOs (GLThread ctx)) (heap ctx)) ctx in
  let ctx := upd (set_enabled false) ctx in
  let ctx := set_CurrentClientDispatch (CurrentServerDispatch ctx) ctx in
  if glapi_dispatch ctx tid =? MarshalExec ctx
  then Ok (mk_engine (_glapi_set_dispatch tid (CurrentClientDispatch ctx) ctx)
             (running a))
  else Ok (mk_engine ctx (running a)).

(** What [_mesa_glthread_flush_batch] does after [util_queue_add_job]: the
    ring advances, and the pointers the dispatch adapter keeps into the
    current batch are reset. *)
Definition advance (ctx : gl_context) : gl_context :=
  let ctx := upd (fun g => set_last (next g) g) ctx in
  let ctx := upd (fun g => set_next ((next g + 1) mod MARSHAL_MAX_BATCHES) g)
                 ctx in
  let ctx := upd (fun g => set_next_batch (next g) g) ctx in
  let ctx := upd (set_used 0) ctx in
  let ctx := upd (set_LastCallList 0) ctx in
  upd (set_LastBindBuffer 0) ctx.

(** What [_mesa_glthread_flush_batch] does from [struct glthread_batch
    *next = glthread->next_batch] on.  The worker performs [k1] actions
    during [util_queue_add_job] beyond those waited for, and [k2] actions
    between its return and the advance of the ring. *)
Definition submit_batch (fuel : nat) (k1 k2 : nat) (a : engine)
  : result engine :=
  let ctx := ctx_of a in
  let next_ := next_batch (GLThread ctx) in
  let n := used (GLThread ctx) in
  let ctx :=
    upd_stats
      (fun m => set_num_offloaded_items (wrap32 (num_offloaded_items m + n)) m)
      ctx in
  ctx ← upd_batch next_ (set_b_used n) ctx;
  a ← util_queue_add_job fuel k1 (UnmarshalJob next_ (BatchFence next_))
        (mk_engine ctx (running a));
  a ← worker_runs k2 fuel a;
  Ok (on_ctx advance a).

(** [_mesa_glthread_flush_batch(ctx)] called on thread [tid]. *)
Definition _mesa_glthread_flush_batch (fuel : nat) (cpu tid : Z)
  (k1 k2 : nat) (a : engine) : result engine :=
  let ctx := ctx_of a in
  if negb (enabled (GLThread ctx)) then Ok a else
  if CurrentServerDispatch ctx =? ContextLost ctx then
    _mesa_glthread_destroy fuel tid k1 (Some "context lost"%string) a
  else
  if used (GLThread ctx) =? 0 then Ok a else
  submit_batch fuel k1 k2 (on_ctx (pin_threads cpu) a).

(** The actions the worker needs to complete what is in flight: two for
    each job of the backlog, one for the job it holds. *)
Definition actions_left (a : engine) : nat :=
  (2 * length (jobs (queue (GLThread (ctx_of a))))
   + match running a with Some _ => 1 | None => 0 end)%nat.

(** The engine as the sequential queue would hold it: the job in the
    worker's hands put back at the head of the backlog. *)
Definition flat (a : engine) : gl_context :=
  upd_queue (set_jobs (in_flight a)) (ctx_of a).

(** The batches in flight are those submitted last: of [k] jobs in
    flight the one at position [p], the oldest being at position 0,
    unmarshals the batch [k - 1 - p] slots behind [last] in the ring and
    signals its fence; while jobs are in flight [next] is the slot after
    [last]; and the backlog holds at most the capacity of the queue,
    which is [MARSHAL_MAX_BATCHES - 2]. *)
Definition ring_flight (a : engine) : Prop :=
  let g := GLThread (ctx_of a) in
  let fl := in_flight a in
  (forall p j, fl !! p = Some j ->
     let i := (last g - (Z.of_nat (length fl) - 1 - Z.of_nat p))
              mod MARSHAL_MAX_BATCHES in
     j = UnmarshalJob i (BatchFence i)) /\
  (fl <> [] -> next g = (last g + 1) mod MARSHAL_MAX_BATCHES) /\
  Z.of_nat (length (jobs (queue g))) <= max_jobs (queue g) /\
  max_jobs (queue g) = MARSHAL_MAX_BATCHES - 2.

(** The invariant of an enabled engine: the ring is in order, every
    unsignalled batch fence belongs to a job in flight that will signal
    it, and the jobs in flight are the batches submitted last, in the
    order of their submission. *)
Definition inv (fuel : nat) (a : engine) : Prop :=
  ring_ok fuel (flat a) /\ fifo_ok (flat a) /\ ring_flight a.

(** Worker turns of the sequential queue, one after the other. *)
Inductive turns (fuel : nat) : gl_context -> gl_context -> Prop :=
| turns_refl ctx : turns fuel ctx ctx
| turns_step ctx ctx1 ctx' :
    util_queue_worker_step fuel ctx = Ok ctx1 ->
    turns fuel ctx1 ctx' -> turns fuel ctx ctx'.

End Async.

End Async.

(** ** A small concrete engine, used to run the model *)

Module Demo.

(** A dispatch adapter whose records start with a header word holding the
    command id in bits 0..15 and the record size in bits 16..31, and whose
    GL state is the list of the ids executed so far. *)
Definition env (ndebug : bool) : glthread_env := {|
  gl_server := list Z;
  cmd_id_of := fun hdr => Z.land hdr 65535;
  _mesa_unmarshal_dispatch := fun id srv cmd =>
    (srv ++ [id],
     match cmd with
     | hdr :: _ => Z.land (Z.shiftr hdr 16) 65535
     | [] => 0
     end);
  MARSHAL_MAX_BATCHES := 8;
  NDEBUG := ndebug;
  num_L3_caches := 2;
  cpu_to_L3 := fun cpu => if cpu <? 4 then 0 else if cpu <? 8 then 1 else 65535;
  U_CPU_INVALID_L3 := 65535;
  ST_L3_PINNING_DISABLED := 4294967295;
|}.

(** The header word of a record with the given id and size. *)
Definition header (id size : Z) : Z := Z.lor id (Z.shiftl size 16).

Definition idle_batch : glthread_batch := mk_batch true 0 [].

Definition producer : Z := 1.
Definition worker : Z := 2.

(** An enabled engine with an empty queue and eight idle batches. *)
Definition glthread0 : glthread_state := {|
  queue := mk_queue [] 6 worker true;
  stats := mk_stats true 0 0 0 0;
  enabled := true;
  pin_thread_counter := 0;
  batches := replicate 8 idle_batch;
  next_batch := 0;
  last := 0;
  next := 0;
  used := 0;
  LastCallList := 0;
  LastBindBuffer := 0;
  LastProgramChangeBatch := -1;
  LastDListChangeBatchIndex := -1;
  VAOs := 4096;
|}.

(** A context around the engine state [g], whose server dispatch table is
    at [server_dispatch]; the table of a lost context is at 200. *)
Definition ctx_with (ndebug : bool) (g : glthread_state) (server_dispatch : Z)
  : @gl_context (env ndebug) :=
  @mk_ctx (env ndebug)
    g
    server_dispatch    (* CurrentServerDispatch *)
    200                (* ContextLost *)
    300                (* MarshalExec *)
    300                (* CurrentClientDispatch *)
    false false        (* BufferObjectsLocked, TexturesLocked *)
    true               (* set_context_param *)
    4294967295         (* st_pin_thread_counter *)
    []                 (* server *)
    (fun t => if t =? producer then 300 else 100)
    true               (* background_context *)
    true               (* init_fence *)
    [300; 4096]        (* heap *)
    [].                (* events *)

Definition ctx0 (ndebug : bool) : @gl_context (env ndebug) :=
  ctx_with ndebug glthread0 100.

(** A batch of two records has been submitted and is still queued; one
    more record is pending in the current batch. *)
Definition glthread_busy : glthread_state := {|
  queue := mk_queue [UnmarshalJob 0 (BatchFence 0)] 6 worker true;
  stats := mk_stats true 3 0 0 0;
  enabled := true;
  pin_thread_counter := 1;
  batches := mk_batch false 3 [header 7 2; 0; header 9 1]
             :: mk_batch true 0 [header 3 1]
             :: replicate 6 idle_batch;
  next_batch := 1;
  last := 0;
  next := 1;
  used := 1;
  LastCallList := 0;
  LastBindBuffer := 0;
  LastProgramChangeBatch := -1;
  LastDListChangeBatchIndex := -1;
  VAOs := 4096;
|}.

Definition busy (ndebug : bool) : @gl_context (env ndebug) :=
  ctx_with ndebug glthread_busy 100.

(** The same engine with nothing pending in the current batch, after the
    context has been lost. *)
Definition lost (ndebug : bool) : @gl_context (env ndebug) :=
  ctx_with ndebug (set_used 0 glthread_busy) 200.

(** The busy engine with nothing pending in the current batch. *)
Definition idle_current (ndebug : bool) : @gl_context (env ndebug) :=
  ctx_with ndebug (set_used 0 glthread_busy) 100.

(** The busy engine 127 counted flushes after the last pinning. *)
Definition due (ndebug : bool) : @gl_context (env ndebug) :=
  ctx_with ndebug (set_pin_thread_counter 127 glthread_busy) 100.

(** A context on which glthread has not been initialised: the engine
    state is zeroed. *)
Definition fresh (ndebug : bool) : @gl_context (env ndebug) :=
  @mk_ctx (env ndebug)
    (mk_glthread (mk_queue [] 0 0 false) (mk_stats false 0 0 0 0) false 0
       (replicate 8 idle_batch) 0 0 0 0 0 0 0 0 0)
    100                (* CurrentServerDispatch *)
    200                (* ContextLost *)
    0                  (* MarshalExec *)
    100                (* CurrentClientDispatch *)
    false false        (* BufferObjectsLocked, TexturesLocked *)
    true               (* set_context_param *)
    0                  (* st_pin_thread_counter *)
    []                 (* server *)
    (fun _ => 100)
    false              (* background_context *)
    true               (* init_fence *)
    []                 (* heap *)
    [].                (* events *)

(** A backend with both capabilities, on which every allocation
    succeeds. *)
Definition all_good : init_env := mk_init_env 1 1 true worker 4096 300.

(** A backend that cannot map buffers during execution. *)
Definition unsupported : init_env := mk_init_env 1 0 true worker 4096 300.

(** [_mesa_alloc_dispatch_table] fails. *)
Definition no_dispatch_table : init_env := mk_init_env 1 1 true worker 4096 0.

(** The busy engine when the dispatch adapter has recorded a program
    change in batch 0 and a display-list change in batch 1. *)
Definition tracked (ndebug : bool) : @gl_context (env ndebug) :=
  ctx_with ndebug
    (set_LastDListChangeBatchIndex 1
       (set_LastProgramChangeBatch 0 glthread_busy)) 100.

(** Batch 0 holds a record whose header says it is zero slots long. *)
Definition stuck (ndebug : bool) : @gl_context (env ndebug) :=
  ctx_with ndebug
    (set_batches (mk_batch false 1 [header 3 0] :: replicate 7 idle_batch)
       glthread0) 100.

(** The busy engine when the dispatch adapter holds pointers to the last
    CallList and BindBuffer records of the current batch. *)
Definition cached (ndebug : bool) : @gl_context (env ndebug) :=
  ctx_with ndebug
    (set_LastBindBuffer 78 (set_LastCallList 77 glthread_busy)) 100.

(** The busy engine, its worker idle. *)
Definition busy_idle (ndebug : bool) : @Async.engine (env ndebug) :=
  Async.mk_engine (busy ndebug) None.

(** Seven batches in flight, each of one record: batch 0 in the worker's
    hands and batches 1 to 6 in the backlog, which is full; one record is
    pending in the current batch, the last of the ring. *)
Definition glthread_full : glthread_state := {|
  queue := mk_queue ((fun i => UnmarshalJob i (BatchFence i)) <$> [1; 2; 3; 4; 5; 6])
             6 worker true;
  stats := mk_stats true 7 0 0 0;
  enabled := true;
  pin_thread_counter := 7;
  batches := ((fun i => mk_batch false 1 [header (10 + i) 1])
                <$> [0; 1; 2; 3; 4; 5; 6])
             ++ [mk_batch true 0 [header 3 1]];
  next_batch := 7;
  last := 6;
  next := 7;
  used := 1;
  LastCallList := 0;
  LastBindBuffer := 0;
  LastProgramChangeBatch := -1;
  LastDListChangeBatchIndex := -1;
  VAOs := 4096;
|}.

Definition full (ndebug : bool) : @Async.engine (env ndebug) :=
  Async.mk_engine (ctx_with ndebug glthread_full 100)
    (Some (UnmarshalJob 0 (BatchFence 0))).

End Demo.

Arguments wrap32 : simpl never.

(** ** What the worker's activity leaves alone *)

Section Frame.

Context {env : glthread_env}.
Implicit Types (ctx : gl_context) (b : glthread_batch) (f : fence_ref).

Lemma bind_Ok {A B : Type} (m : result A) (k : A -> result B) (r : B) :
  m ≫= k = Ok r -> exists a, m = Ok a /\ k a = Ok r.
Proof. destruct m as [a|e]; simpl; [eauto | discriminate]. Qed.

Lemma ran_nil ctx : ran (server ctx) [] ctx = ctx.
Proof. destruct ctx; unfold ran; simpl. by rewrite app_nil_r. Qed.

Lemma ran_ran srv1 evs1 srv2 evs2 ctx :
  ran srv2 evs2 (ran srv1 evs1 ctx) = ran srv2 (evs1 ++ evs2) ctx.
Proof. destruct ctx; unfold ran; simpl. by rewrite app_assoc. Qed.

Lemma unmarshal_loop_shape fuel tid i buf u pos ctx pos' ctx' :
  unmarshal_loop fuel tid i buf u pos ctx = Ok (pos', ctx') ->
  exists srv evs,
    ctx' = ran srv evs ctx /\ Forall (dispatch_of tid i) evs /\ u <= pos'.
Proof.
  revert pos ctx. induction fuel as [|fuel IH]; intros pos ctx; simpl.
  - destruct (pos <? u) eqn:E; [discriminate|].
    intros [= <- <-]. exists (server ctx), []. rewrite ran_nil.
    repeat split; [constructor | lia].
  - destruct (pos <? u) eqn:E.
    + destruct (buf !! Z.to_nat pos) as [hdr|]; [|discriminate].
      destruct (_mesa_unmarshal_dispatch _ _ _) as [srv n] eqn:D.
      intros H. apply IH in H as (srv' & evs & -> & Hall & Hle).
      exists srv', (EvDispatch tid i pos (cmd_id_of hdr) n :: evs).
      split; [|split; [constructor; simpl; auto | done]].
      destruct ctx; unfold ran, log; simpl. by rewrite <- app_assoc.
    + intros [= <- <-]. exists (server ctx), []. rewrite ran_nil.
      repeat split; [constructor | lia].
Qed.

Lemma batch_at_Ok i ctx b :
  batch_at i ctx = Ok b <->
  0 <= i /\ batches (GLThread ctx) !! Z.to_nat i = Some b.
Proof.
  unfold batch_at. destruct (i <? 0) eqn:E.
  - split; [discriminate | lia].
  - destruct (batches (GLThread ctx) !! Z.to_nat i) as [b'|].
    + split; [intros [= ->]; split; [lia | done] | intros [_ [= ->]]; done].
    + split; [discriminate | intros [_ [=]]].
Qed.

Lemma upd_batch_Ok i h ctx ctx' :
  upd_batch i h ctx = Ok ctx' ->
  exists b, batch_at i ctx = Ok b /\
    ctx' = upd (fun g => set_batches (<[Z.to_nat i := h b]> (batches g)) g) ctx.
Proof.
  unfold upd_batch. intros H. apply bind_Ok in H as (b & Hb & [= <-]). eauto.
Qed.

Lemma upd_batch_total i h ctx b :
  batch_at i ctx = Ok b ->
  upd_batch i h ctx =
  Ok (upd (fun g => set_batches (<[Z.to_nat i := h b]> (batches g)) g) ctx).
Proof. unfold upd_batch. by intros ->. Qed.

(** Writing a field of a batch that is neither its buffer nor its fence. *)
Lemma fmap_insert_same {A B : Type} (p : A -> B) (l : list A) (i : nat) (x y : A) :
  l !! i = Some x -> p y = p x -> p <$> <[i := y]> l = p <$> l.
Proof.
  intros Hl Hp. rewrite list_fmap_insert, Hp. apply list_insert_id.
  by rewrite list_lookup_fmap, Hl.
Qed.

(** What a completed call of [glthread_unmarshal_batch] has done. *)
Lemma unmarshal_batch_Ok fuel tid i ctx ctx' :
  glthread_unmarshal_batch fuel tid i ctx = Ok ctx' ->
  exists b pos evs,
    batch_at i ctx = Ok b /\
    Forall (dispatch_of tid i) evs /\
    b_used b <= pos /\ (NDEBUG = false -> pos = b_used b) /\
    producer_view ctx' = producer_view ctx /\
    queue (GLThread ctx') = queue (GLThread ctx) /\
    batches (GLThread ctx') =
      <[Z.to_nat i := set_b_used 0 b]> (batches (GLThread ctx)) /\
    events ctx' = events ctx ++ evs /\
    num_batches (stats (GLThread ctx')) =
      wrap32 (num_batches (stats (GLThread ctx)) + 1) /\
    init_fence ctx' = init_fence ctx.
Proof.
  unfold glthread_unmarshal_batch. intros H.
  apply bind_Ok in H as (b & Hb & H).
  apply bind_Ok in H as ([pos ctx1] & Hloop & H).
  apply bind_Ok in H as ([] & Hassert & H).
  apply bind_Ok in H as (ctx2 & Hupd & [= <-]).
  apply unmarshal_loop_shape in Hloop as (srv & evs & -> & Hall & Hle).
  apply upd_batch_Ok in Hupd as (b' & Hb' & ->).
  assert (b' = b) as ->.
  { apply batch_at_Ok in Hb as [_ Hb]. apply batch_at_Ok in Hb' as [_ Hb'].
    destruct ctx; simpl in *. congruence. }
  exists b, pos, evs. repeat split; try done.
  - unfold c_assert in Hassert. intros Hn. rewrite Hn in Hassert. simpl in Hassert.
    destruct (pos =? b_used b) eqn:E; [lia | discriminate].
  - apply batch_at_Ok in Hb as [_ Hb].
    unfold producer_view. destruct ctx as [g]; simpl in *.
    by rewrite (fmap_insert_same buffer _ _ b).
Qed.

Lemma worker_ran_refl ctx : worker_ran ctx ctx.
Proof.
  split; [done|]. split; [by exists [] |].
  exists []. by rewrite app_nil_r.
Qed.

Lemma view_threads0 ctx ctx' :
  producer_view ctx' = producer_view ctx ->
  threads0 (queue (GLThread ctx')) = threads0 (queue (GLThread ctx)).
Proof. unfold producer_view. intros H. by simplify_eq. Qed.

Lemma worker_ran_trans ctx1 ctx2 ctx3 :
  worker_ran ctx1 ctx2 -> worker_ran ctx2 ctx3 -> worker_ran ctx1 ctx3.
Proof.
  intros (Hv1 & [d1 Hd1] & (e1 & He1 & Ha1)) (Hv2 & [d2 Hd2] & (e2 & He2 & Ha2)).
  split; [congruence|]. split.
  - exists (d1 ++ d2). by rewrite Hd1, Hd2, app_assoc.
  - exists (e1 ++ e2). split; [by rewrite He2, He1, app_assoc|].
    apply Forall_app. split; [done|].
    by rewrite <- (view_threads0 _ _ Hv1).
Qed.

Lemma fence_set_Ok v f ctx ctx' :
  util_queue_fence_set v f ctx = Ok ctx' ->
  producer_view ctx' = producer_view ctx /\
  queue (GLThread ctx') = queue (GLThread ctx) /\
  events ctx' = events ctx /\
  length (batches (GLThread ctx')) = length (batches (GLThread ctx)) /\
  util_queue_fence_is_signalled f ctx' = Ok v.
Proof.
  destruct f as [i|]; simpl.
  - intros H. apply upd_batch_Ok in H as (b & Hb & ->).
    apply batch_at_Ok in Hb as [Hi Hb].
    assert (Z.to_nat i < length (batches (GLThread ctx)))%nat as Hlt
      by (by eapply lookup_lt_Some).
    repeat split.
    + unfold producer_view. destruct ctx as [g]; simpl in *.
      by rewrite (fmap_insert_same buffer _ _ b).
    + destruct ctx; simpl. by rewrite length_insert.
    + unfold batch_at. destruct (i <? 0) eqn:E; [lia|].
      destruct ctx as [g]; simpl in *.
      by rewrite list_lookup_insert_eq.
  - intros [= <-]. by destruct ctx.
Qed.

Lemma worker_step_ran fuel ctx ctx' :
  util_queue_worker_step fuel ctx = Ok ctx' -> worker_ran ctx ctx'.
Proof.
  unfold util_queue_worker_step.
  destruct (q_alive _); simpl; [|discriminate].
  destruct (jobs (queue (GLThread ctx))) as [|j rest] eqn:Hj.
  { intros [= <-]. apply worker_ran_refl. }
  intros H. apply bind_Ok in H as (ctx1 & Hrun & Hsig).
  apply fence_set_Ok in Hsig as (Hv & Hq & He & _).
  destruct j as [i fj | fj].
  - apply unmarshal_batch_Ok in Hrun
      as (b & pos & evs & _ & Hall & _ & _ & Hv1 & Hq1 & _ & He1 & _).
    split; [|split].
    + rewrite Hv, Hv1. unfold producer_view. by destruct ctx.
    + exists [UnmarshalJob i fj]. rewrite Hq, Hq1. by destruct ctx.
    + exists evs. split.
      * rewrite He, He1. by destruct ctx.
      * eapply Forall_impl; [exact Hall|]. intros e ?. by exists i.
  - injection Hrun as <-. split; [|split].
    + rewrite Hv. unfold producer_view. by destruct ctx.
    + exists [ThreadInitJob fj]. rewrite Hq. by destruct ctx.
    + exists []. split; [|constructor]. rewrite He. destruct ctx; simpl.
      by rewrite app_nil_r.
Qed.

Lemma fence_wait_loop_ran n fuel f ctx ctx' :
  fence_wait_loop n fuel f ctx = Ok ctx' ->
  worker_ran ctx ctx' /\ util_queue_fence_is_signalled f ctx' = Ok true.
Proof.
  revert ctx. induction n as [|n IH]; intros ctx H; simpl in H;
    apply bind_Ok in H as ([] & Hs & H); try discriminate.
  - injection H as <-. split; [apply worker_ran_refl | done].
  - injection H as <-. split; [apply worker_ran_refl | done].
  - apply bind_Ok in H as (ctx1 & Hstep & H).
    apply IH in H as [Hr Hsig]. split; [|done].
    eapply worker_ran_trans; [by eapply worker_step_ran | done].
Qed.

Lemma slot_wait_loop_ran n fuel ctx ctx' :
  slot_wait_loop n fuel ctx = Ok ctx' -> worker_ran ctx ctx'.
Proof.
  revert ctx. induction n as [|n IH]; intros ctx; simpl;
    destruct (_ <? _); try discriminate.
  - intros [= <-]. apply worker_ran_refl.
  - intros [= <-]. apply worker_ran_refl.
  - intros H. apply bind_Ok in H as (ctx1 & Hstep & H).
    eapply worker_ran_trans; [by eapply worker_step_ran | by apply IH].
Qed.

Lemma view_fields ctx ctx' :
  producer_view ctx' = producer_view ctx ->
  let g := GLThread ctx in let g' := GLThread ctx' in
  enabled g' = enabled g /\ next g' = next g /\ last g' = last g /\
  next_batch g' = next_batch g /\ used g' = used g /\
  pin_thread_counter g' = pin_thread_counter g /\
  num_offloaded_items (stats g') = num_offloaded_items (stats g) /\
  num_direct_items (stats g') = num_direct_items (stats g) /\
  num_syncs (stats g') = num_syncs (stats g) /\
  threads0 (queue g') = threads0 (queue g) /\
  max_jobs (queue g') = max_jobs (queue g) /\
  q_alive (queue g') = q_alive (queue g) /\
  buffer <$> batches g' = buffer <$> batches g /\
  CurrentServerDispatch ctx' = CurrentServerDispatch ctx /\
  ContextLost ctx' = ContextLost ctx /\
  MarshalExec ctx' = MarshalExec ctx /\
  heap ctx' = heap ctx /\ VAOs g' = VAOs g.
Proof. unfold producer_view. intros H. simplify_eq. by repeat split. Qed.

Lemma view_length ctx ctx' :
  producer_view ctx' = producer_view ctx ->
  length (batches (GLThread ctx')) = length (batches (GLThread ctx)).
Proof.
  intros H. apply view_fields in H. simpl in H.
  destruct H as (_&_&_&_&_&_&_&_&_&_&_&_&H&_).
  apply (f_equal length) in H. by rewrite !length_fmap in H.
Qed.

Lemma view_ring ctx ctx' :
  producer_view ctx' = producer_view ctx -> ring_view ctx' = ring_view ctx.
Proof. unfold producer_view, ring_view. intros H. simplify_eq. congruence. Qed.

Lemma ring_fields ctx ctx' :
  ring_view ctx' = ring_view ctx ->
  let g := GLThread ctx in let g' := GLThread ctx' in
  enabled g' = enabled g /\ next g' = next g /\ last g' = last g /\
  next_batch g' = next_batch g /\
  pin_thread_counter g' = pin_thread_counter g /\
  num_offloaded_items (stats g') = num_offloaded_items (stats g) /\
  threads0 (queue g') = threads0 (queue g) /\
  max_jobs (queue g') = max_jobs (queue g) /\
  q_alive (queue g') = q_alive (queue g) /\
  length (batches g') = length (batches g) /\
  CurrentServerDispatch ctx' = CurrentServerDispatch ctx /\
  ContextLost ctx' = ContextLost ctx /\
  MarshalExec ctx' = MarshalExec ctx /\
  heap ctx' = heap ctx /\ VAOs g' = VAOs g.
Proof.
  unfold ring_view. intros H. simplify_eq. split_and!; try done.
  match goal with H : buffer <$> _ = buffer <$> _ |- _ =>
    apply (f_equal length) in H; by rewrite !length_fmap in H end.
Qed.

(** Two states whose fences agree answer [util_queue_fence_is_signalled]
    alike. *)
Lemma is_signalled_same f ctx ctx' s :
  fence <$> batches (GLThread ctx') = fence <$> batches (GLThread ctx) ->
  init_fence ctx' = init_fence ctx ->
  util_queue_fence_is_signalled f ctx = Ok s ->
  util_queue_fence_is_signalled f ctx' = Ok s.
Proof.
  intros Hf Hi. destruct f as [i|]; simpl; [|congruence].
  intros H. apply bind_Ok in H as (b & Hb & [= <-]).
  apply batch_at_Ok in Hb as [H0 Hb].
  assert ((fence <$> batches (GLThread ctx')) !! Z.to_nat i = Some (fence b))
    as Hl by (by rewrite Hf, list_lookup_fmap, Hb).
  rewrite list_lookup_fmap in Hl.
  destruct (batches (GLThread ctx') !! Z.to_nat i) as [b'|] eqn:Hb';
    [|discriminate].
  injection Hl as Hl.
  assert (batch_at i ctx' = Ok b') as -> by (by apply batch_at_Ok).
  simpl. by rewrite Hl.
Qed.

Lemma unmarshal_batch_fences fuel tid i ctx ctx' :
  glthread_unmarshal_batch fuel tid i ctx = Ok ctx' ->
  fence <$> batches (GLThread ctx') = fence <$> batches (GLThread ctx).
Proof.
  intros H. apply unmarshal_batch_Ok in H
    as (b & pos & evs & Hb & _ & _ & _ & _ & _ & -> & _).
  apply batch_at_Ok in Hb as [_ Hb].
  by apply (fmap_insert_same fence _ _ b).
Qed.

(** What a completed call of [_mesa_glthread_finish] from another thread
    than the worker has done to an enabled engine: [b_last] is the batch
    submitted last as the call found it, [evw] the calls made while
    waiting for its fence and [evd] those made while running the
    current batch. *)
Lemma finish_Ok fuel tid ctx ctx' :
  enabled (GLThread ctx) = true ->
  tid <> threads0 (queue (GLThread ctx)) ->
  _mesa_glthread_finish fuel tid ctx = Ok ctx' ->
  let g := GLThread ctx in let g' := GLThread ctx' in
  exists b_last evw evd,
    batch_at (last g) ctx = Ok b_last /\
    ring_view ctx' = ring_view ctx /\
    used g' = 0 /\
    util_queue_fence_is_signalled (BatchFence (last g)) ctx' = Ok true /\
    num_offloaded_items (stats g') = num_offloaded_items (stats g) /\
    num_direct_items (stats g') =
      (if used g =? 0 then num_direct_items (stats g)
       else wrap32 (num_direct_items (stats g) + used g)) /\
    num_syncs (stats g') =
      (if fence b_last && (used g =? 0) then num_syncs (stats g)
       else wrap32 (num_syncs (stats g) + 1)) /\
    (exists done, jobs (queue g) = done ++ jobs (queue g')) /\
    events ctx' = events ctx ++ evw ++ evd /\
    (if fence b_last then evw = []
     else exists evs, evw = EvFenceWait (BatchFence (last g)) :: evs /\
            Forall (fun e => exists i, dispatch_of (threads0 (queue g)) i e)
                   evs) /\
    (if used g =? 0 then evd = []
     else Forall (dispatch_of tid (next_batch g)) evd /\
          exists b, batch_at (next_batch g) ctx' = Ok b /\ b_used b = 0).
Proof.
  intros Hen Htid. unfold _mesa_glthread_finish.
  rewrite Hen. simpl negb. cbv iota.
  destruct (tid =? _) eqn:E; [lia|]. clear E.
  intros H. apply bind_Ok in H as (s & Hs & H).
  pose proof Hs as Hbl. simpl in Hbl.
  apply bind_Ok in Hbl as (b_last & Hbl & [= <-]).
  apply bind_Ok in H as ([synced ctxw] & Hwait & H).
  (* the state after the wait *)
  assert (exists evw,
    producer_view ctxw = producer_view ctx
      /\ (exists done, jobs (queue (GLThread ctx)) =
                       done ++ jobs (queue (GLThread ctxw)))
      /\ events ctxw = events ctx ++ evw
      /\ (if fence b_last then evw = []
          else exists evs,
            evw = EvFenceWait (BatchFence (last (GLThread ctx))) :: evs /\
            Forall (fun e => exists i,
                      dispatch_of (threads0 (queue (GLThread ctx))) i e) evs)
      /\ synced = negb (fence b_last)
      /\ util_queue_fence_is_signalled
           (BatchFence (last (GLThread ctx))) ctxw = Ok true)
    as (evw & Hv & [done Hdone] & Hevw & Hshape & -> & Hsig).
  { destruct (fence b_last) eqn:Hf; simpl in Hwait.
    - injection Hwait as <- <-. exists []. rewrite app_nil_r.
      split_and!; try done. by exists [].
    - apply bind_Ok in Hwait as (ctx1 & Hw & [= <- <-]).
      unfold util_queue_fence_wait in Hw.
      apply fence_wait_loop_ran in Hw
        as [(Hv & [done Hdone] & (evs & Hevs & Hall)) Hsig].
      exists (EvFenceWait (BatchFence (last (GLThread ctx))) :: evs).
      split_and!; try done.
      + exists done. rewrite <- Hdone. by destruct ctx.
      + rewrite Hevs. destruct ctx; simpl. by rewrite <- app_assoc.
      + exists evs. split; [done|]. by destruct ctx. }
  pose proof (view_ring _ _ Hv) as Hring.
  apply view_fields in Hv. simpl in Hv.
  destruct Hv as (Hv1&Hv2&Hv3&Hv4&Hv5&Hv6&Hv7&Hv8&Hv9&Hv10&_).
  rewrite Hv5 in H.
  destruct (used (GLThread ctx) =? 0) eqn:Hu; simpl in H.
  - (* nothing pending *)
    exists b_last, evw, [].
    assert (ctx' = if fence b_last then ctxw
                   else upd_stats (fun m => set_num_syncs
                                      (wrap32 (num_syncs m + 1)) m) ctxw)
      as -> by (destruct (fence b_last); simpl in H; by injection H).
    clear H. rewrite app_nil_r, andb_true_r.
    destruct (fence b_last) eqn:Hf; simpl.
    + split_and!; try done; try congruence; try lia. by exists done.
    + split_and!; try done; try congruence; try lia. by exists done.
  - (* the current batch is run from the calling thread *)
    apply bind_Ok in H as ([synced ctxd] & Hd & H).
    apply bind_Ok in Hd as (ctx2 & Hupd & Hd).
    apply bind_Ok in Hd as (ctx3 & Hrun & [= <- <-]).
    injection H as <-.
    apply upd_batch_Ok in Hupd as (bn & Hbn & ->).
    pose proof (unmarshal_batch_fences _ _ _ _ _ Hrun) as Hfences.
    apply unmarshal_batch_Ok in Hrun
      as (b2 & pos & evd & Hb2 & Halld & _ & _ & Hvd & Hqd & Hbd & Hevd & _ & Hif).
    pose proof (view_ring _ _ Hvd) as Hringd.
    apply view_fields in Hvd. simpl in Hvd.
    destruct Hvd as (Hd1&Hd2&Hd3&Hd4&Hd5&Hd6&Hd7&Hd8&Hd9&_).
    apply batch_at_Ok in Hbn as [Hn0 Hbn].
    apply batch_at_Ok in Hb2 as [_ Hb2].
    exists b_last, evw, evd. simpl.
    rewrite andb_false_r.
    split_and!; try done.
    + rewrite <- Hring.
      transitivity (ring_view ctx3); [by destruct ctx3|]. rewrite Hringd.
      unfold ring_view. destruct ctxw as [gw]; simpl in *.
      by rewrite (fmap_insert_same buffer _ _ bn).
    + apply (is_signalled_same (BatchFence (last (GLThread ctx))) ctxw);
        [| |exact Hsig].
      * simpl. rewrite Hfences. destruct ctxw as [gw]; simpl in *.
        by apply (fmap_insert_same fence _ _ bn).
      * simpl. rewrite Hif. by destruct ctxw.
    + rewrite Hd7. destruct ctxw; simpl in *. congruence.
    + rewrite Hd8. destruct ctxw; simpl in *. congruence.
    + f_equal. rewrite Hd9. destruct ctxw; simpl in *. congruence.
    + exists done. rewrite Hqd. by destruct ctxw.
    + rewrite Hevd, app_assoc. f_equal. rewrite <- Hevw. by destruct ctxw.
    + exists (set_b_used 0 b2). split; [|done].
      apply batch_at_Ok. split; [lia|]. simpl. rewrite Hbd.
      apply list_lookup_insert_eq. by eapply lookup_lt_Some.
Qed.

Lemma add_job_Ok fuel j ctx ctx' :
  util_queue_add_job fuel j ctx = Ok ctx' ->
  producer_view ctx' = producer_view ctx /\
  (exists done rest, jobs (queue (GLThread ctx)) = done ++ rest /\
                     jobs (queue (GLThread ctx')) = rest ++ [j]) /\
  (exists evs, events ctx' = events ctx ++ EvAddJob j :: evs /\
     Forall (fun e => exists i,
               dispatch_of (threads0 (queue (GLThread ctx))) i e) evs).
Proof.
  unfold util_queue_add_job. intros H.
  apply bind_Ok in H as (ctx1 & Hset & H).
  apply bind_Ok in H as (ctx2 & Hwait & [= <-]).
  apply fence_set_Ok in Hset as (Hv1 & Hq1 & He1 & _).
  apply slot_wait_loop_ran in Hwait as (Hv2 & (done & Hdone) & (evs & He2 & Hall)).
  split_and!.
  - transitivity (producer_view ctx2); [by destruct ctx2 as [[[]]]|].
    rewrite Hv2, Hv1. by destruct ctx.
  - exists done, (jobs (queue (GLThread ctx2))). split; [|by destruct ctx2 as [[[]]]].
    rewrite <- Hdone, Hq1. by destruct ctx.
  - exists evs. split.
    + transitivity (events ctx2); [by destruct ctx2|].
      rewrite He2, He1. destruct ctx; simpl. by rewrite <- app_assoc.
    + rewrite (view_threads0 _ _ Hv1) in Hall. by destruct ctx.
Qed.

(** What a completed call of [submit_batch] has done. *)
Lemma submit_batch_Ok fuel ctx ctx' :
  submit_batch fuel ctx = Ok ctx' ->
  let g := GLThread ctx in let g' := GLThread ctx' in
  let job := UnmarshalJob (next_batch g) (BatchFence (next_batch g)) in
  num_offloaded_items (stats g') =
    wrap32 (num_offloaded_items (stats g) + used g) /\
  (exists done rest, jobs (queue g) = done ++ rest /\
                     jobs (queue g') = rest ++ [job]) /\
  (exists evs, events ctx' = events ctx ++ EvAddJob job :: evs /\
     Forall (fun e => exists i, dispatch_of (threads0 (queue g)) i e) evs) /\
  last g' = next g /\
  next g' = (next g + 1) mod MARSHAL_MAX_BATCHES /\
  next_batch g' = next g' /\
  used g' = 0 /\
  LastCallList g' = 0 /\ LastBindBuffer g' = 0 /\
  (enabled g' = enabled g /\
   pin_thread_counter g' = pin_thread_counter g /\
   num_direct_items (stats g') = num_direct_items (stats g) /\
   num_syncs (stats g') = num_syncs (stats g) /\
   length (batches g') = length (batches g)).
Proof.
  unfold submit_batch. intros H.
  apply bind_Ok in H as (ctx1 & Hupd & H).
  apply bind_Ok in H as (ctx2 & Hadd & [= <-]).
  apply upd_batch_Ok in Hupd as (bn & Hbn & ->).
  apply batch_at_Ok in Hbn as [Hn0 Hbn].
  apply add_job_Ok in Hadd as (Hv & (done & rest & Hdone & Hrest) & (evs & Hevs & Hall)).
  pose proof (view_length _ _ Hv) as Hlen.
  apply view_fields in Hv. simpl in Hv.
  destruct Hv as (Hv1&Hv2&Hv3&Hv4&Hv5&Hv6&Hv7&Hv8&Hv9&Hv10&_).
  simpl. split_and!; try done.
  - exists done, rest. split; [|done]. rewrite <- Hdone. by destruct ctx.
  - exists evs. split; [|by destruct ctx]. rewrite Hevs. by destruct ctx.
  - rewrite Hv2. by destruct ctx.
  - rewrite Hlen. destruct ctx; simpl. by rewrite length_insert.
Qed.

(** The heuristic block is its counting, followed by the two pinning
    calls when they are due and the cache domain is known. *)
Lemma pin_threads_eq cpu ctx :
  pin_threads cpu ctx =
  match cache_domain cpu with
  | Some L3 =>
    if pinning_due ctx
    then log (EvPinThreadsToL3 L3)
           (log (EvSetThreadAffinity (threads0 (queue (GLThread ctx))) L3)
              (count_flush ctx))
    else count_flush ctx
  | None => count_flush ctx
  end.
Proof.
  unfold pin_threads, cache_domain, pinning_due, count_flush.
  destruct (1 <? num_L3_caches); simpl; [|by destruct (_ && _)].
  destruct (set_context_param ctx); simpl; [|by destruct (_ && _)].
  destruct (_ mod 128 =? 0); simpl; [|by destruct (_ && _)].
  destruct (0 <=? cpu); simpl; [|done].
  by destruct (cpu_to_L3 cpu =? U_CPU_INVALID_L3).
Qed.

Lemma count_flush_keeps ctx :
  events (count_flush ctx) = events ctx /\
  producer_view (upd (set_pin_thread_counter 0) (count_flush ctx)) =
  producer_view (upd (set_pin_thread_counter 0) ctx) /\
  queue (GLThread (count_flush ctx)) = queue (GLThread ctx) /\
  batches (GLThread (count_flush ctx)) = batches (GLThread ctx).
Proof. unfold count_flush. by destruct (_ && _), ctx. Qed.

Lemma finish_self_guard fuel tid ctx :
  tid = threads0 (queue (GLThread ctx)) ->
  _mesa_glthread_finish fuel tid ctx = Ok ctx.
Proof.
  intros ->. unfold _mesa_glthread_finish.
  destruct (enabled (GLThread ctx)); simpl; [|done].
  by rewrite Z.eqb_refl.
Qed.

Lemma dispatch_is_sync tid i e : dispatch_of tid i e -> is_sync_event e = true.
Proof. by destruct e. Qed.

(** Whatever thread calls it and whatever state it finds,
    [_mesa_glthread_finish] leaves [ring_view] alone and makes no other
    calls than fence waits and unmarshal calls. *)
Lemma finish_keeps fuel tid ctx ctx' :
  _mesa_glthread_finish fuel tid ctx = Ok ctx' ->
  ring_view ctx' = ring_view ctx /\
  (exists ran_jobs, jobs (queue (GLThread ctx)) =
                    ran_jobs ++ jobs (queue (GLThread ctx'))) /\
  exists evs, events ctx' = events ctx ++ evs /\
              Forall (fun e => is_sync_event e = true) evs.
Proof.
  intros H.
  destruct (enabled (GLThread ctx)) eqn:Hen.
  2: { unfold _mesa_glthread_finish in H. rewrite Hen in H.
       injection H as <-. split_and!; [done | by exists [] |].
       exists []. by rewrite app_nil_r. }
  destruct (decide (tid = threads0 (queue (GLThread ctx)))) as [->|Hne].
  { unfold _mesa_glthread_finish in H. rewrite Hen, Z.eqb_refl in H.
    injection H as <-. split_and!; [done | by exists [] |].
    exists []. by rewrite app_nil_r. }
  apply finish_Ok in H as (bl & evw & evd & _ & Hring & _ & _ & _ & _ & _
                           & Hjobs & Hev & Hw & Hd); [|done..].
  split_and!; [done | done |].
  exists (evw ++ evd). split; [done|]. apply Forall_app. split.
  - destruct (fence bl); [by subst|].
    destruct Hw as (evs & -> & Hall). constructor; [done|].
    eapply Forall_impl; [exact Hall|]. intros e [i He].
    by eapply dispatch_is_sync.
  - destruct (used (GLThread ctx) =? 0); [by subst|].
    destruct Hd as [Hall _]. eapply Forall_impl; [exact Hall|].
    intros e. apply dispatch_is_sync.
Qed.

Lemma pin_log_app ctx ctx' evs :
  events ctx' = events ctx ++ evs ->
  pin_log ctx' = pin_log ctx ++ List.filter is_pin_event evs.
Proof. unfold pin_log. intros ->. apply List.filter_app. Qed.

Lemma filter_pin_sync evs :
  Forall (fun e => is_sync_event e = true) evs ->
  List.filter is_pin_event evs = [].
Proof.
  induction 1 as [|e evs He _ IH]; [done|]. simpl. rewrite IH.
  by destruct e.
Qed.

(** What a completed call of [_mesa_glthread_destroy] has done to an
    enabled engine. *)
Lemma destroy_Ok fuel tid reason ctx ctx' :
  enabled (GLThread ctx) = true ->
  _mesa_glthread_destroy fuel tid reason ctx = Ok ctx' ->
  let g := GLThread ctx in let g' := GLThread ctx' in
  enabled g' = false /\
  q_alive (queue g') = false /\
  CurrentClientDispatch ctx' = CurrentServerDispatch ctx /\
  heap ctx' = heap_free (VAOs g) (heap ctx) /\
  (next g' = next g /\ last g' = last g /\ next_batch g' = next_batch g) /\
  (exists ran_jobs, jobs (queue g) = ran_jobs ++ jobs (queue g')) /\
  pin_log ctx' = pin_log ctx /\
  exists ctx1,
    _mesa_glthread_finish fuel tid
      (match reason with Some r => log (EvDebug r) ctx | None => ctx end)
    = Ok ctx1 /\
    events ctx' = events ctx1 ++ [EvQueueDestroy] /\
    num_syncs (stats g') = num_syncs (stats (GLThread ctx1)).
Proof.
  intros Hen. unfold _mesa_glthread_destroy. rewrite Hen. simpl.
  set (ctx0 := match reason with Some r => log (EvDebug r) ctx | None => ctx end).
  assert (ring_view ctx0 = ring_view ctx /\
          queue (GLThread ctx0) = queue (GLThread ctx) /\
          pin_log ctx0 = pin_log ctx) as (Hr0 & Hq0 & Hp0).
  { subst ctx0. destruct reason; [|done]. split_and!; try by destruct ctx.
    unfold pin_log, log. destruct ctx; simpl.
    rewrite List.filter_app. simpl. by rewrite app_nil_r. }
  clearbody ctx0.
  intros H. apply bind_Ok in H as (ctx1 & Hfin & H).
  pose proof (finish_keeps _ _ _ _ Hfin) as (Hr1 & (rj & Hrj) & (evs & Hev1 & Hall)).
  assert (pin_log ctx1 = pin_log ctx) as Hp1.
  { rewrite (pin_log_app _ _ _ Hev1), filter_pin_sync by done.
    by rewrite app_nil_r. }
  rewrite Hr0 in Hr1. apply ring_fields in Hr1. simpl in Hr1.
  destruct Hr1 as (_&Hn&Hl&Hnb&_&_&_&_&_&_&Hcsd&_&_&Hheap&Hvao).
  assert (ctx' =
    let c := set_CurrentClientDispatch (CurrentServerDispatch ctx1)
               (upd (set_enabled false)
                  (set_heap (heap_free (VAOs (GLThread ctx1)) (heap ctx1))
                     (util_queue_destroy ctx1))) in
    if glapi_dispatch c tid =? MarshalExec c
    then _glapi_set_dispatch tid (CurrentClientDispatch c) c else c) as ->.
  { simpl. destruct (glapi_dispatch _ tid =? _); simpl in H; by injection H. }
  clear H. simpl.
  split_and!.
  - by destruct (_ =? _).
  - by destruct (_ =? _).
  - rewrite <- Hcsd. by destruct (_ =? _).
  - rewrite <- Hheap, <- Hvao. by destruct (_ =? _).
  - rewrite <- Hn. by destruct (_ =? _).
  - rewrite <- Hl. by destruct (_ =? _).
  - rewrite <- Hnb. by destruct (_ =? _).
  - exists rj. rewrite <- Hq0, Hrj. by destruct (_ =? _).
  - rewrite <- Hp1. unfold pin_log. destruct (_ =? _); simpl;
      rewrite List.filter_app; simpl; by rewrite app_nil_r.
  - exists ctx1. split_and!; [done | by destruct (_ =? _) | by destruct (_ =? _)].
Qed.

Lemma pin_threads_keeps cpu ctx :
  let g := GLThread ctx in let g' := GLThread (pin_threads cpu ctx) in
  queue g' = queue g /\ batches g' = batches g /\ stats g' = stats g /\
  (enabled g' = enabled g /\ next g' = next g /\ last g' = last g /\
   next_batch g' = next_batch g /\ used g' = used g) /\
  pin_thread_counter g' = pin_thread_counter (GLThread (count_flush ctx)) /\
  exists evs, events (pin_threads cpu ctx) = events ctx ++ evs /\
    evs = match cache_domain cpu with
          | Some L3 =>
            if pinning_due ctx
            then [EvSetThreadAffinity (threads0 (queue g)) L3;
                  EvPinThreadsToL3 L3]
            else []
          | None => []
          end.
Proof.
  rewrite pin_threads_eq. unfold count_flush.
  destruct (cache_domain cpu) as [L3|]; [destruct (pinning_due ctx)|];
    destruct (_ && _); simpl; split_and!; try done;
    eexists; (split; [|reflexivity]); destruct ctx; simpl;
    by rewrite <- ?app_assoc, ?app_nil_r.
Qed.

(** A flush that gets as far as submitting. *)
Lemma flush_submits fuel cpu tid ctx :
  enabled (GLThread ctx) = true ->
  CurrentServerDispatch ctx <> ContextLost ctx ->
  used (GLThread ctx) <> 0 ->
  _mesa_glthread_flush_batch fuel cpu tid ctx =
  submit_batch fuel (pin_threads cpu ctx).
Proof.
  intros Hen Hlost Hused. unfold _mesa_glthread_flush_batch.
  rewrite Hen. simpl.
  destruct (_ =? ContextLost ctx) eqn:E; [lia|].
  by destruct (used (GLThread ctx) =? 0) eqn:E'; [lia|].
Qed.

Lemma flush_pin_log fuel cpu tid ctx ctx' :
  _mesa_glthread_flush_batch fuel cpu tid ctx = Ok ctx' ->
  pin_log ctx' = pin_log ctx ++ pin_calls cpu ctx.
Proof.
  unfold _mesa_glthread_flush_batch, pin_calls.
  destruct (enabled (GLThread ctx)) eqn:Hen; simpl;
    [|intros [= <-]; by rewrite app_nil_r].
  destruct (_ =? ContextLost ctx) eqn:Hlost; simpl.
  { intros H. apply destroy_Ok in H as (_&_&_&_&_&_&->&_); [|done].
    by rewrite app_nil_r. }
  destruct (used (GLThread ctx) =? 0) eqn:Hu; simpl;
    [intros [= <-]; by rewrite app_nil_r|].
  intros H. apply submit_batch_Ok in H as (_ & _ & (evs & Hev & Hall) & _).
  destruct (pin_threads_keeps cpu ctx) as (_ & _ & _ & _ & _ & (pe & Hpe & ->)).
  rewrite Hpe in Hev.
  rewrite (pin_log_app ctx ctx' _ (eq_trans Hev (eq_sym (app_assoc _ _ _)))).
  f_equal. rewrite List.filter_app. simpl.
  rewrite (filter_pin_sync evs).
  2: { eapply Forall_impl; [exact Hall|]. intros e [i He].
       by eapply dispatch_is_sync. }
  rewrite app_nil_r.
  destruct (cache_domain cpu); destruct (pinning_due ctx); done.
Qed.

Lemma init_batch_fences_Ok n from ctx ctx' :
  init_batch_fences n from ctx = Ok ctx' ->
  producer_view ctx' = producer_view ctx /\
  queue (GLThread ctx') = queue (GLThread ctx) /\
  events ctx' = events ctx /\
  init_fence ctx' = init_fence ctx /\
  background_context ctx' = background_context ctx.
Proof.
  revert from ctx. induction n as [|n IH]; intros from ctx; simpl.
  - by intros [= <-].
  - intros H. apply bind_Ok in H as (ctx1 & Hset & H).
    apply IH in H as (-> & -> & -> & -> & ->).
    apply upd_batch_Ok in Hset as (b & Hb & ->).
    apply batch_at_Ok in Hb as [_ Hb].
    split_and!; try by destruct ctx.
    unfold producer_view. destruct ctx as [g]; simpl in *.
    by rewrite (fmap_insert_same buffer _ _ b).
Qed.

Lemma init_batch_fences_total n from ctx :
  0 <= from ->
  from + Z.of_nat n <= Z.of_nat (length (batches (GLThread ctx))) ->
  exists ctx', init_batch_fences n from ctx = Ok ctx'.
Proof.
  revert from ctx. induction n as [|n IH]; intros from ctx H0 Hn; simpl;
    [eauto|].
  destruct (batches (GLThread ctx) !! Z.to_nat from) as [b|] eqn:Hb;
    [|apply lookup_ge_None in Hb; lia].
  erewrite upd_batch_total by (apply batch_at_Ok; split; [lia | done]).
  simpl. apply IH; [lia|]. destruct ctx; simpl in *.
  rewrite length_insert. lia.
Qed.

(** The worker keeps the queue in submission order. *)
Lemma worker_step_fifo fuel ctx ctx' :
  fifo_ok ctx -> util_queue_worker_step fuel ctx = Ok ctx' -> fifo_ok ctx'.
Proof.
  intros (Hnd & Hshape & Hunsig & Hlast).
  unfold util_queue_worker_step.
  destruct (q_alive _); simpl; [|discriminate].
  destruct (jobs (queue (GLThread ctx))) as [|j rest] eqn:Hj.
  { intros [= <-]. unfold fifo_ok. by rewrite Hj. }
  destruct (Hshape j) as (i & Hi & ->); [by left|].
  intros H. apply bind_Ok in H as (ctx1 & Hrun & Hsig).
  pose proof (unmarshal_batch_fences _ _ _ _ _ Hrun) as Hf1.
  apply unmarshal_batch_Ok in Hrun
    as (_ & _ & _ & _ & _ & _ & _ & Hv1 & Hq1 & _).
  simpl in Hsig. apply upd_batch_Ok in Hsig as (bi & Hbi & ->).
  apply batch_at_Ok in Hbi as [_ Hbi].
  apply view_fields in Hv1. simpl in Hv1.
  destruct Hv1 as (_ & _ & Hl1 & _).
  apply NoDup_cons in Hnd as [Hnotin Hnd].
  unfold fifo_ok, fifo_ok_of. simpl. rewrite Hq1, Hl1. simpl.
  split_and!.
  - done.
  - intros j Hin. apply Hshape. by right.
  - intros k Hk Hin.
    assert (Z.to_nat i <> Z.to_nat k) as Hne.
    { intros E. assert (i = k) as -> by lia. done. }
    rewrite list_fmap_insert, list_lookup_insert_ne by done.
    rewrite Hf1. simpl. apply Hunsig; [done | by right].
  - intros Hne. destruct Hlast as (pre & Hpre); [done|].
    destruct pre as [|p pre]; simpl in Hpre.
    + injection Hpre as _ <-. done.
    + injection Hpre as _ ->. by exists pre.
Qed.

Lemma fence_wait_loop_fifo n fuel f ctx ctx' :
  fifo_ok ctx -> fence_wait_loop n fuel f ctx = Ok ctx' -> fifo_ok ctx'.
Proof.
  revert ctx. induction n as [|n IH]; intros ctx Hok H; simpl in H;
    apply bind_Ok in H as ([] & _ & H); try discriminate;
    try (by injection H as <-).
  apply bind_Ok in H as (ctx1 & Hstep & H).
  eapply IH; [|exact H]. by eapply worker_step_fifo.
Qed.

Lemma fifo_ok_same ctx ctx' :
  fifo_ok ctx ->
  jobs (queue (GLThread ctx')) = jobs (queue (GLThread ctx)) ->
  fence <$> batches (GLThread ctx') = fence <$> batches (GLThread ctx) ->
  last (GLThread ctx') = last (GLThread ctx) ->
  fifo_ok ctx'.
Proof. unfold fifo_ok. by intros H -> -> ->. Qed.

(** [_mesa_glthread_finish] keeps the queue in submission order. *)
Lemma finish_fifo fuel tid ctx ctx' :
  fifo_ok ctx -> _mesa_glthread_finish fuel tid ctx = Ok ctx' -> fifo_ok ctx'.
Proof.
  intros Hok. unfold _mesa_glthread_finish.
  destruct (enabled (GLThread ctx)); simpl; [|by intros [= <-]].
  destruct (tid =? _); [by intros [= <-]|].
  intros H. apply bind_Ok in H as (s & _ & H).
  apply bind_Ok in H as ([synced ctxw] & Hwait & H).
  assert (fifo_ok ctxw) as Hokw.
  { destruct s; simpl in Hwait; [by injection Hwait as _ <-|].
    apply bind_Ok in Hwait as (c & Hw & [= _ <-]).
    unfold util_queue_fence_wait in Hw.
    eapply fence_wait_loop_fifo; [|exact Hw].
    apply (fifo_ok_same ctx); by destruct ctx. }
  clear Hwait Hok.
  apply bind_Ok in H as ([synced' ctxd] & Hd & H).
  assert (fifo_ok ctxd) as Hokd.
  { destruct (used (GLThread ctxw) =? 0); simpl in Hd;
      [by injection Hd as _ <-|].
    apply bind_Ok in Hd as (c2 & Hupd & Hd).
    apply bind_Ok in Hd as (c3 & Hrun & [= _ <-]).
    apply upd_batch_Ok in Hupd as (bn & Hbn & ->).
    apply batch_at_Ok in Hbn as [_ Hbn].
    pose proof (unmarshal_batch_fences _ _ _ _ _ Hrun) as Hf.
    apply unmarshal_batch_Ok in Hrun
      as (_ & _ & _ & _ & _ & _ & _ & Hv & Hq & _).
    apply view_fields in Hv. simpl in Hv. destruct Hv as (_ & _ & Hl & _).
    apply (fifo_ok_same ctxw); [done | | |].
    - simpl. rewrite Hq. by destruct ctxw.
    - simpl. rewrite Hf. destruct ctxw as [gw]; simpl in *.
      by apply (fmap_insert_same fence _ _ bn).
    - simpl. rewrite Hl. by destruct ctxw. }
  destruct synced'; injection H as <-; [|done].
  apply (fifo_ok_same ctxd); by destruct ctxd.
Qed.

(** In a queue kept in submission order nothing is left once the fence
    of the batch submitted last is signalled. *)
Lemma fifo_signalled_empty ctx :
  fifo_ok ctx ->
  0 <= last (GLThread ctx) ->
  util_queue_fence_is_signalled (BatchFence (last (GLThread ctx))) ctx
    = Ok true ->
  jobs (queue (GLThread ctx)) = [].
Proof.
  intros (_ & _ & Hunsig & Hlast) Hl Hsig.
  destruct (jobs (queue (GLThread ctx))) as [|j js] eqn:Hj; [done|].
  exfalso. destruct Hlast as (pre & Hpre); [done|].
  simpl in Hsig. apply bind_Ok in Hsig as (b & Hb & [= Hf]).
  apply batch_at_Ok in Hb as [_ Hb].
  assert ((fence <$> batches (GLThread ctx)) !! Z.to_nat (last (GLThread ctx))
          = Some false) as Hfalse.
  { apply Hunsig; [done|]. rewrite Hpre. apply elem_of_app. right.
    by apply list_elem_of_singleton. }
  rewrite list_lookup_fmap, Hb in Hfalse. simpl in Hfalse. congruence.
Qed.

End Frame.

(** ** Calls that return *)

Section Progress.

Context {env : glthread_env}.
Implicit Types (ctx : gl_context) (b : glthread_batch) (f : fence_ref).

Lemma stream_ok_0 fuel buf : stream_ok fuel 0 buf.
Proof. split; [lia|]. split; [lia | constructor]. Qed.

Lemma unmarshal_loop_wf tid i buf u pos :
  well_formed_stream buf u pos -> u < 2 ^ 32 ->
  forall fuel ctx, u - pos <= Z.of_nat fuel ->
  exists srv evs,
    unmarshal_loop fuel tid i buf u pos ctx = Ok (u, ran srv evs ctx) /\
    dispatch_chain tid i buf pos u evs.
Proof.
  intros Hwf Hu.
  induction Hwf as [|pos hdr n Hpos Hhdr Hn Hn0 Hle Hwf IH]; intros fuel ctx Hfuel.
  - exists (server ctx), []. rewrite ran_nil. split; [|done].
    destruct fuel; simpl; by rewrite Z.ltb_irrefl.
  - destruct fuel as [|fuel]; [lia|]. simpl.
    assert ((pos <? u) = true) as -> by lia. rewrite Hhdr.
    destruct (_mesa_unmarshal_dispatch _ _ _) as [srv n'] eqn:D.
    assert (n' = n) as -> by (by rewrite <- (Hn (server ctx)), D).
    assert (wrap32 (pos + n) = pos + n) as ->
      by (unfold wrap32; apply Z.mod_small; lia).
    destruct (IH fuel (log (EvDispatch tid i pos (cmd_id_of hdr) n)
                          (set_server srv ctx))) as (srv' & evs & -> & Hch);
      [lia|].
    exists srv', (EvDispatch tid i pos (cmd_id_of hdr) n :: evs). split.
    + f_equal. f_equal. destruct ctx; unfold ran, log; simpl.
      by rewrite <- app_assoc.
    + simpl. exists hdr, n. by split_and!.
Qed.

(** The callback returns on a well formed batch, having made exactly the
    calls that decode it. *)
Lemma unmarshal_batch_total fuel tid i ctx b :
  batch_at i ctx = Ok b ->
  stream_ok fuel (b_used b) (buffer b) ->
  exists ctx' evs,
    glthread_unmarshal_batch fuel tid i ctx = Ok ctx' /\
    events ctx' = events ctx ++ evs /\
    dispatch_chain tid i (buffer b) 0 (b_used b) evs.
Proof.
  intros Hb (Hrange & Hfuel & Hwf).
  unfold glthread_unmarshal_batch. rewrite Hb. simpl.
  edestruct (unmarshal_loop_wf tid i _ _ _ Hwf) as (srv & evs & -> & Hch);
    [lia | |]; [lia|]. simpl.
  unfold c_assert. rewrite Z.eqb_refl, orb_true_r. simpl.
  apply batch_at_Ok in Hb as [Hi Hb].
  erewrite upd_batch_total; [|apply batch_at_Ok; split; [done|];
                               destruct ctx; simpl in *; exact Hb].
  simpl. eexists _, evs. split; [done|]. split; [|done].
  by destruct ctx.
Qed.

Lemma batches_evolve_refl l : batches_evolve l l.
Proof. split; [done|]. intros k b' H. exists b'. by split_and!; auto. Qed.

Lemma batches_evolve_trans l1 l2 l3 :
  batches_evolve l1 l2 -> batches_evolve l2 l3 -> batches_evolve l1 l3.
Proof.
  intros [Hl1 H1] [Hl2 H2]. split; [congruence|].
  intros k b3 Hb3. destruct (H2 _ _ Hb3) as (b2 & Hb2 & Hbuf2 & Hu2 & Hf2).
  destruct (H1 _ _ Hb2) as (b1 & Hb1 & Hbuf1 & Hu1 & Hf1).
  exists b1. split_and!; [done | congruence | |].
  - destruct Hu2 as [->| ->]; auto.
  - destruct Hf2 as [->| ->]; auto.
Qed.

Lemma batches_evolve_insert l k b b' :
  l !! k = Some b -> buffer b' = buffer b ->
  (b_used b' = b_used b \/ b_used b' = 0) ->
  (fence b' = fence b \/ fence b' = true) ->
  batches_evolve l (<[k := b']> l).
Proof.
  intros Hb Hbuf Hu Hf. split; [by rewrite length_insert|].
  intros k' b'' H. destruct (decide (k = k')) as [<-|Hne].
  - rewrite list_lookup_insert_eq in H by (by eapply lookup_lt_Some).
    injection H as <-. exists b. by split_and!.
  - rewrite list_lookup_insert_ne in H by done.
    exists b''. by split_and!; auto.
Qed.

Lemma job_ok_evolve fuel ctx ctx' j :
  batches_evolve (batches (GLThread ctx)) (batches (GLThread ctx')) ->
  job_ok fuel ctx j -> job_ok fuel ctx' j.
Proof.
  intros [Hlen Hev].
  assert (forall f, fence_valid f ctx -> fence_valid f ctx') as Hfv.
  { intros [k|]; simpl; [|done]. by rewrite Hlen. }
  destruct j as [i f|f]; simpl; [|by apply Hfv].
  intros [(b & Hb & Hok) Hf]. split; [|by apply Hfv].
  apply batch_at_Ok in Hb as [Hi Hb].
  destruct (batches (GLThread ctx') !! Z.to_nat i) as [b'|] eqn:Hb'.
  - exists b'. split; [by apply batch_at_Ok|].
    destruct (Hev _ _ Hb') as (b0 & Hb0 & Hbuf & Hu & _).
    assert (b0 = b) as -> by congruence. rewrite Hbuf.
    destruct Hu as [->| ->]; [done | apply stream_ok_0].
  - apply lookup_ge_None in Hb'. apply lookup_lt_Some in Hb. lia.
Qed.

(** One turn of the worker on a runnable queue. *)
Lemma worker_step_ok fuel ctx :
  runnable fuel ctx ->
  exists ctx',
    util_queue_worker_step fuel ctx = Ok ctx' /\
    runnable fuel ctx' /\
    batches_evolve (batches (GLThread ctx)) (batches (GLThread ctx')) /\
    (init_fence ctx = true -> init_fence ctx' = true) /\
    (jobs (queue (GLThread ctx)) = [] /\ ctx' = ctx \/
     exists j, jobs (queue (GLThread ctx)) = j :: jobs (queue (GLThread ctx'))
       /\ util_queue_fence_is_signalled (job_fence j) ctx' = Ok true).
Proof.
  intros [Halive Hjobs]. unfold util_queue_worker_step. rewrite Halive. simpl.
  destruct (jobs (queue (GLThread ctx))) as [|j rest] eqn:Hq.
  { exists ctx. split_and!; [done | by split; [|rewrite Hq] |
      apply batches_evolve_refl | done | by left]. }
  apply Forall_cons in Hjobs as [Hj Hrest].
  set (ctx0 := upd_queue (set_jobs rest) ctx).
  assert (exists ctx1,
    match j with
    | UnmarshalJob i _ =>
      glthread_unmarshal_batch fuel (threads0 (queue (GLThread ctx))) i ctx0
    | ThreadInitJob _ => Ok (glthread_thread_initialization ctx0)
    end = Ok ctx1 /\
    queue (GLThread ctx1) = queue (GLThread ctx0) /\
    init_fence ctx1 = init_fence ctx /\
    batches_evolve (batches (GLThread ctx)) (batches (GLThread ctx1)))
    as (ctx1 & -> & Hq1 & Hif1 & Hev1).
  { destruct j as [i f|f].
    - destruct Hj as [(b & Hb & Hok) _].
      assert (batch_at i ctx0 = Ok b) as Hb0 by (by destruct ctx).
      destruct (unmarshal_batch_total fuel (threads0 (queue (GLThread ctx)))
                  i ctx0 b Hb0 Hok) as (ctx1 & evs & Hrun & _).
      exists ctx1. split; [done|].
      apply unmarshal_batch_Ok in Hrun
        as (b' & _ & _ & Hb' & _ & _ & _ & _ & Hq1 & Hbs & _ & _ & Hif).
      split; [done|]. split; [rewrite Hif; by destruct ctx|]. rewrite Hbs.
      assert (b' = b) as -> by congruence.
      apply batch_at_Ok in Hb as [_ Hb].
      replace (batches (GLThread ctx0)) with (batches (GLThread ctx))
        by (by destruct ctx).
      by apply (batches_evolve_insert _ _ b); auto.
    - exists (glthread_thread_initialization ctx0).
      split_and!; [done | by destruct ctx | by destruct ctx |].
      replace (batches (GLThread (glthread_thread_initialization ctx0)))
        with (batches (GLThread ctx)) by (by destruct ctx).
      apply batches_evolve_refl. }
  simpl.
  assert (fence_valid (job_fence j) ctx1) as Hfv.
  { assert (fence_valid (job_fence j) ctx) as Hfv
      by (destruct j; simpl in *; tauto).
    destruct (job_fence j) as [k|]; simpl in *; [|done].
    destruct Hev1 as [-> _]. done. }
  assert (exists ctx2, util_queue_fence_set true (job_fence j) ctx1 = Ok ctx2 /\
            (init_fence ctx1 = true -> init_fence ctx2 = true) /\
            batches_evolve (batches (GLThread ctx1)) (batches (GLThread ctx2)))
    as (ctx2 & Hset & Hif2 & Hev2).
  { destruct (job_fence j) as [k|]; simpl in *.
    - destruct (batches (GLThread ctx1) !! Z.to_nat k) as [bk|] eqn:Hbk.
      + erewrite upd_batch_total by (apply batch_at_Ok; split; [lia | done]).
        eexists. split; [done|]. destruct ctx1; simpl in *.
        split; [done|]. by apply (batches_evolve_insert _ _ bk); auto.
      + apply lookup_ge_None in Hbk. lia.
    - eexists. split; [done|]. destruct ctx1; simpl.
      split; [done | apply batches_evolve_refl]. }
  exists ctx2. rewrite Hset.
  pose proof (batches_evolve_trans _ _ _ Hev1 Hev2) as Hev.
  apply fence_set_Ok in Hset as (Hv & Hq2 & _ & _ & Hsig).
  assert (jobs (queue (GLThread ctx2)) = rest) as Hrest2
    by (rewrite Hq2, Hq1; by destruct ctx).
  split_and!; [done | | done | | ].
  - split.
    + rewrite Hq2, Hq1. by destruct ctx.
    + rewrite Hrest2. eapply Forall_impl; [exact Hrest|].
      intros j'. by apply job_ok_evolve.
  - intros H. apply Hif2. by rewrite Hif1.
  - right. exists j. by rewrite Hrest2.
Qed.

(** A signalled fence stays signalled while the worker runs. *)
Lemma signalled_evolve f ctx ctx' :
  batches_evolve (batches (GLThread ctx)) (batches (GLThread ctx')) ->
  (init_fence ctx = true -> init_fence ctx' = true) ->
  util_queue_fence_is_signalled f ctx = Ok true ->
  util_queue_fence_is_signalled f ctx' = Ok true.
Proof.
  intros [Hlen Hev] Hif. destruct f as [k|]; simpl.
  - intros H. apply bind_Ok in H as (b & Hb & [= Hf]).
    apply batch_at_Ok in Hb as [Hk Hb].
    destruct (batches (GLThread ctx') !! Z.to_nat k) as [b'|] eqn:Hb'.
    + destruct (Hev _ _ Hb') as (b0 & Hb0 & _ & _ & Hfb).
      assert (b0 = b) as -> by congruence.
      assert (batch_at k ctx' = Ok b') as -> by (by apply batch_at_Ok).
      simpl. f_equal. destruct Hfb; congruence.
    + apply lookup_ge_None in Hb'. apply lookup_lt_Some in Hb. lia.
  - intros [= H]. by rewrite Hif.
Qed.

(** Waiting for a free slot returns: the worker empties the backlog. *)
Lemma slot_wait_loop_total fuel n ctx :
  runnable fuel ctx ->
  0 < max_jobs (queue (GLThread ctx)) ->
  (length (jobs (queue (GLThread ctx))) <= n)%nat ->
  exists ctx',
    slot_wait_loop n fuel ctx = Ok ctx' /\
    runnable fuel ctx' /\
    batches_evolve (batches (GLThread ctx)) (batches (GLThread ctx')) /\
    (init_fence ctx = true -> init_fence ctx' = true) /\
    (exists done,
       jobs (queue (GLThread ctx)) = done ++ jobs (queue (GLThread ctx')) /\
       Forall (fun j => util_queue_fence_is_signalled (job_fence j) ctx'
                        = Ok true) done).
Proof.
  revert ctx. induction n as [|n IH]; intros ctx Hrun Hmax Hn; simpl.
  - assert (jobs (queue (GLThread ctx)) = []) as Hnil
      by (destruct (jobs _); [done | simpl in Hn; lia]).
    rewrite Hnil. simpl length. change (Z.of_nat 0) with 0.
    assert ((0 <? max_jobs (queue (GLThread ctx))) = true) as -> by lia.
    exists ctx. split_and!; [done | done | apply batches_evolve_refl | done |].
    exists []. by rewrite Hnil.
  - destruct (_ <? _) eqn:E.
    { exists ctx. split_and!; [done | done | apply batches_evolve_refl | done |].
      by exists []. }
    destruct (worker_step_ok _ _ Hrun) as (ctx1 & Hstep & Hrun1 & Hev1 & Hif1 & Hj).
    rewrite Hstep. simpl.
    pose proof (worker_step_ran _ _ _ Hstep) as (Hv & _).
    apply view_fields in Hv. simpl in Hv.
    destruct Hv as (_&_&_&_&_&_&_&_&_&_&Hmax1&_).
    destruct Hj as [[Hnil _]|(j & Hj & Hsig)].
    { rewrite Hnil in E. apply Z.ltb_ge in E. simpl in E. lia. }
    destruct (IH ctx1)
      as (ctx2 & Hloop & Hrun2 & Hev2 & Hif2 & (dn & Hdone & Hall));
      [done | lia | rewrite Hj in Hn; simpl in Hn; lia |].
    exists ctx2.
    split_and!; [done | done | by eapply batches_evolve_trans | auto |].
    exists (j :: dn). split; [by rewrite Hj, Hdone|].
    constructor; [|done].
    by apply (signalled_evolve _ ctx1).
Qed.

(** [engine_ok] survives whatever resets [used], signals the fences of
    jobs that have left the queue, and leaves buffers and ring indices
    alone. *)
Lemma engine_ok_evolve fuel ctx ctx' :
  engine_ok fuel ctx ->
  batches_evolve (batches (GLThread ctx)) (batches (GLThread ctx')) ->
  q_alive (queue (GLThread ctx')) = true ->
  max_jobs (queue (GLThread ctx')) = max_jobs (queue (GLThread ctx)) ->
  last (GLThread ctx') = last (GLThread ctx) ->
  next_batch (GLThread ctx') = next_batch (GLThread ctx) ->
  (used (GLThread ctx') = used (GLThread ctx) \/ used (GLThread ctx') = 0) ->
  (exists done,
     jobs (queue (GLThread ctx)) = done ++ jobs (queue (GLThread ctx')) /\
     Forall (fun j => util_queue_fence_is_signalled (job_fence j) ctx' = Ok true)
            done) ->
  engine_ok fuel ctx'.
Proof.
  intros ([_ Hjobs] & Hmax & Hlast & Hnext & Hpend & Hcur)
         Hev Halive Hmax' Hlast' Hnext' Hused (done & Hdone & Hsig).
  pose proof Hev as [Hlen Hev'].
  unfold engine_ok. rewrite Hmax', Hlast', Hnext', Hlen.
  split_and!; try done; try lia.
  - split; [done|]. rewrite Hdone in Hjobs. apply Forall_app in Hjobs as [_ Hjobs].
    eapply Forall_impl; [exact Hjobs|]. intros j. by apply job_ok_evolve.
  - intros k b' Hb' Hf.
    destruct (Hev' _ _ Hb') as (b & Hb & _ & _ & Hfb).
    assert (fence b = false) as Hfalse by (destruct Hfb; congruence).
    destruct (Hpend _ _ Hb Hfalse) as (j & Hj & Hjf).
    rewrite Hdone in Hj. apply elem_of_app in Hj as [Hj|Hj]; [|eauto].
    exfalso. rewrite Forall_forall in Hsig. apply Hsig in Hj.
    rewrite Hjf in Hj. simpl in Hj.
    apply bind_Ok in Hj as (b0 & Hb0 & [= Hb0f]).
    apply batch_at_Ok in Hb0 as [_ Hb0]. rewrite Nat2Z.id in Hb0. congruence.
  - intros b' Hb'. apply batch_at_Ok in Hb' as [Hi Hb'].
    destruct (Hev' _ _ Hb') as (b & Hb & -> & _).
    destruct Hused as [->| ->]; [|apply stream_ok_0].
    apply Hcur. by apply batch_at_Ok.
Qed.

Lemma engine_ok_step fuel ctx :
  engine_ok fuel ctx ->
  exists ctx',
    util_queue_worker_step fuel ctx = Ok ctx' /\ engine_ok fuel ctx' /\
    length (batches (GLThread ctx')) = length (batches (GLThread ctx)) /\
    (jobs (queue (GLThread ctx)) = [] \/
     exists j, jobs (queue (GLThread ctx)) = j :: jobs (queue (GLThread ctx'))).
Proof.
  intros Hok. pose proof Hok as (Hrun & _).
  destruct (worker_step_ok _ _ Hrun)
    as (ctx' & Hstep & [Halive _] & Hev & _ & Hjobs).
  exists ctx'. split; [done|].
  apply worker_step_ran in Hstep as (Hv & _ & _).
  apply view_fields in Hv. simpl in Hv.
  destruct Hv as (_&_&Hv3&Hv4&Hv5&_&_&_&_&_&Hv11&_).
  split_and!.
  - apply (engine_ok_evolve fuel ctx); try done; [by left|].
    destruct Hjobs as [[Hnil ->]|(j & Hj & Hsig)].
    + exists []. by split.
    + exists [j]. split; [done|]. by constructor.
  - by destruct Hev.
  - destruct Hjobs as [[-> _]|(j & Hj & _)]; [by left | right; eauto].
Qed.

(** Waiting for the fence of a batch returns: the job that signals it is
    queued, and the jobs before it can be run. *)
Lemma fence_wait_loop_total fuel k n ctx :
  engine_ok fuel ctx ->
  0 <= k < Z.of_nat (length (batches (GLThread ctx))) ->
  (length (jobs (queue (GLThread ctx))) <= n)%nat ->
  exists ctx', fence_wait_loop n fuel (BatchFence k) ctx = Ok ctx' /\
               engine_ok fuel ctx'.
Proof.
  revert ctx. induction n as [|n IH]; intros ctx Hok Hk Hn.
  - simpl.
    destruct (batches (GLThread ctx) !! Z.to_nat k) as [b|] eqn:Hb;
      [|apply lookup_ge_None in Hb; lia].
    assert (batch_at k ctx = Ok b) as -> by (apply batch_at_Ok; split; [lia|done]).
    simpl. destruct (fence b) eqn:Hf; [eauto|].
    destruct Hok as (_ & _ & _ & _ & Hpend & _).
    destruct (Hpend _ _ Hb Hf) as (j & Hj & _).
    destruct (jobs (queue (GLThread ctx))); [|simpl in Hn; lia].
    by apply elem_of_nil in Hj.
  - simpl.
    destruct (batches (GLThread ctx) !! Z.to_nat k) as [b|] eqn:Hb;
      [|apply lookup_ge_None in Hb; lia].
    assert (batch_at k ctx = Ok b) as -> by (apply batch_at_Ok; split; [lia|done]).
    simpl. destruct (fence b) eqn:Hf; [eauto|].
    destruct (engine_ok_step _ _ Hok) as (ctx1 & -> & Hok1 & Hlen & Hjobs). simpl.
    pose proof Hok as (_ & _ & _ & _ & Hpend & _).
    destruct (Hpend _ _ Hb Hf) as (j & Hj & _).
    destruct Hjobs as [Hnil|(j0 & Hj0)].
    { rewrite Hnil in Hj. by apply elem_of_nil in Hj. }
    apply IH; [done | by rewrite Hlen |].
    rewrite Hj0 in Hn. simpl in Hn. lia.
Qed.

Lemma engine_ok_same fuel ctx ctx' :
  engine_ok fuel ctx ->
  queue (GLThread ctx') = queue (GLThread ctx) ->
  batches (GLThread ctx') = batches (GLThread ctx) ->
  last (GLThread ctx') = last (GLThread ctx) ->
  next_batch (GLThread ctx') = next_batch (GLThread ctx) ->
  used (GLThread ctx') = used (GLThread ctx) ->
  engine_ok fuel ctx'.
Proof.
  intros Hok Hq Hb Hl Hn Hu.
  apply (engine_ok_evolve fuel ctx); try done.
  - rewrite Hb. apply batches_evolve_refl.
  - rewrite Hq. by destruct Hok as ([? _] & _).
  - by rewrite Hq.
  - by left.
  - exists []. by rewrite Hq.
Qed.

(** [_mesa_glthread_finish] returns whenever the engine is in order, and
    when it runs the current batch itself, the last calls it has made are
    those that decode that batch from offset 0 to [used]. *)
Lemma finish_total fuel tid ctx :
  engine_ok fuel ctx ->
  exists ctx',
    _mesa_glthread_finish fuel tid ctx = Ok ctx' /\
    engine_ok fuel ctx' /\
    (enabled (GLThread ctx) = true ->
     tid <> threads0 (queue (GLThread ctx)) ->
     used (GLThread ctx) <> 0 ->
     exists b pre evd,
       batch_at (next_batch (GLThread ctx)) ctx = Ok b /\
       events ctx' = pre ++ evd /\
       dispatch_chain tid (next_batch (GLThread ctx)) (buffer b) 0
         (used (GLThread ctx)) evd).
Proof.
  intros Hok. unfold _mesa_glthread_finish.
  destruct (enabled (GLThread ctx)); simpl;
    [|exists ctx; split_and!; [done..|discriminate]].
  destruct (tid =? _) eqn:Htid;
    [exists ctx; split_and!; [done..|intros; lia]|].
  pose proof Hok as (_ & _ & Hlast & _).
  destruct (batches (GLThread ctx) !! Z.to_nat (last (GLThread ctx)))
    as [bl|] eqn:Hbl; [|apply lookup_ge_None in Hbl; lia].
  assert (batch_at (last (GLThread ctx)) ctx = Ok bl) as ->
    by (apply batch_at_Ok; split; [lia | done]).
  simpl.
  (* the wait *)
  match goal with |- exists _, ?m ≫= _ = _ /\ _ =>
    assert (exists synced ctxw, m = Ok (synced, ctxw) /\ engine_ok fuel ctxw /\
              producer_view ctxw = producer_view ctx)
      as (synced & ctxw & -> & Hokw & Hv) end.
  { destruct (fence bl); simpl; [eauto|].
    unfold util_queue_fence_wait.
    set (ctx0 := log _ ctx).
    assert (engine_ok fuel ctx0) as Hok0
      by (apply (engine_ok_same fuel ctx); by destruct ctx).
    destruct (fence_wait_loop_total fuel (last (GLThread ctx))
                (length (jobs (queue (GLThread ctx0)))) ctx0 Hok0)
      as (ctxw & Hw & Hokw); [by destruct ctx | done |].
    rewrite Hw. simpl. exists true, ctxw. split_and!; [done..|].
    apply fence_wait_loop_ran in Hw as [(Hv & _) _].
    rewrite Hv. by destruct ctx. }
  simpl.
  apply view_fields in Hv. simpl in Hv.
  destruct Hv as (_&_&_&Hnb&Hused&_&_&_&_&_&_&_&Hbufs&_).
  rewrite <- Hnb, <- Hused. clear Hok Hlast Hbl bl.
  (* the current batch *)
  match goal with |- exists _, ?m ≫= _ = _ /\ _ =>
    assert (exists synced' ctxd,
      m = Ok (synced', ctxd) /\ engine_ok fuel ctxd /\
      (used (GLThread ctxw) <> 0 ->
       exists bn pre evd,
         batch_at (next_batch (GLThread ctxw)) ctxw = Ok bn /\
         events ctxd = pre ++ evd /\
         dispatch_chain tid (next_batch (GLThread ctxw)) (buffer bn) 0
           (used (GLThread ctxw)) evd))
      as (synced' & ctxd & -> & Hokd & Hch) end.
  { destruct (used (GLThread ctxw) =? 0) eqn:Hu; simpl;
      [exists synced, ctxw; split_and!; [done..|lia]|].
    pose proof Hokw as ([Halive _] & _ & _ & Hnext & _ & Hcur).
    set (nb := next_batch (GLThread ctxw)) in *.
    set (n := used (GLThread ctxw)) in *.
    destruct (batches (GLThread ctxw) !! Z.to_nat nb) as [bn|] eqn:Hbn;
      [|apply lookup_ge_None in Hbn; lia].
    assert (batch_at nb ctxw = Ok bn) as Hat
      by (apply batch_at_Ok; split; [lia | done]).
    erewrite upd_batch_total by (apply batch_at_Ok; split; [lia|];
                                 destruct ctxw; simpl in *; exact Hbn).
    simpl.
    match goal with |- exists _ _, glthread_unmarshal_batch _ _ _ ?c ≫= _ = _ /\ _ =>
      set (ctx5 := c) end.
    assert (batch_at nb ctx5 = Ok (set_b_used n bn)) as Hat5.
    { apply batch_at_Ok. split; [lia|]. subst ctx5. destruct ctxw; simpl in *.
      apply list_lookup_insert_eq. by eapply lookup_lt_Some. }
    destruct (unmarshal_batch_total fuel tid nb ctx5 _ Hat5)
      as (ctx6 & evs & Hrun & Hev6 & Hchain); [simpl; by apply Hcur|].
    rewrite Hrun. simpl. eexists _, _. split; [done|].
    apply unmarshal_batch_Ok in Hrun
      as (b2 & _ & _ & Hb2 & _ & _ & _ & Hv6 & Hq6 & Hbs6 & _).
    assert (b2 = set_b_used n bn) as -> by congruence.
    apply view_fields in Hv6. simpl in Hv6.
    destruct Hv6 as (_&_&Hl6&Hn6&Hu6&_).
    split.
    - apply (engine_ok_evolve fuel ctxw); try done.
      + simpl. rewrite Hbs6. subst ctx5. destruct ctxw as [gw]; simpl in *.
        rewrite list_insert_insert_eq.
        by apply (batches_evolve_insert _ _ bn); auto.
      + simpl. rewrite Hq6. subst ctx5. by destruct ctxw.
      + simpl. rewrite Hq6. subst ctx5. by destruct ctxw.
      + right. simpl. rewrite Hu6. subst ctx5. by destruct ctxw.
      + exists []. split; [|done]. simpl. rewrite Hq6. subst ctx5.
        by destruct ctxw.
    - intros _. exists bn, (events ctx5), evs. split_and!; [done | | done].
      rewrite <- Hev6. by destruct ctx6. }
  simpl.
  exists (if synced'
          then upd_stats (fun m => set_num_syncs (wrap32 (num_syncs m + 1)) m)
                 ctxd
          else ctxd).
  split_and!.
  - by destruct synced'.
  - destruct synced'; [|done].
    apply (engine_ok_same fuel ctxd); by destruct ctxd.
  - intros _ _ Hne. destruct (Hch Hne) as (bn & pre & evd & Hbn & Hev & Hchain).
    apply batch_at_Ok in Hbn as [Hn0 Hbn].
    assert ((buffer <$> batches (GLThread ctx))
              !! Z.to_nat (next_batch (GLThread ctxw)) = Some (buffer bn)) as Hl
      by (by rewrite <- Hbufs, list_lookup_fmap, Hbn).
    rewrite list_lookup_fmap in Hl.
    destruct (batches (GLThread ctx) !! Z.to_nat (next_batch (GLThread ctxw)))
      as [b|] eqn:Hb; [|discriminate].
    injection Hl as Hl.
    exists b, pre, evd. rewrite Hl. split_and!; [| |done].
    + by apply batch_at_Ok.
    + rewrite <- Hev. by destruct synced', ctxd.
Qed.

Lemma job_ok_same fuel ctx ctx' j :
  batches (GLThread ctx') = batches (GLThread ctx) ->
  job_ok fuel ctx j -> job_ok fuel ctx' j.
Proof.
  intros Hb. apply job_ok_evolve. rewrite Hb. apply batches_evolve_refl.
Qed.

(** Submitting the current batch returns, and leaves the engine in
    order. *)
Lemma submit_batch_total fuel ctx :
  engine_ok fuel ctx ->
  exists ctx',
    submit_batch fuel ctx = Ok ctx' /\
    (ring_ok fuel ctx -> ring_ok fuel ctx').
Proof.
  intros Hok.
  pose proof Hok as ([Halive Hjobs] & Hmax & Hlast & Hnext & Hpend & Hcur).
  unfold submit_batch.
  set (nb := next_batch (GLThread ctx)) in *.
  set (n := used (GLThread ctx)) in *.
  destruct (batches (GLThread ctx) !! Z.to_nat nb) as [bn|] eqn:Hbn;
    [|apply lookup_ge_None in Hbn; lia].
  assert (stream_ok fuel n (buffer bn)) as Hstream
    by (apply Hcur, batch_at_Ok; split; [lia | done]).
  assert (Z.to_nat nb < length (batches (GLThread ctx)))%nat as Hlt by lia.
  erewrite upd_batch_total
    by (apply batch_at_Ok; split; [lia|]; destruct ctx; simpl in *; exact Hbn).
  simpl. unfold util_queue_add_job. simpl.
  erewrite upd_batch_total
    by (apply batch_at_Ok; split; [lia|]; destruct ctx; simpl in *;
        by apply list_lookup_insert_eq).
  simpl.
  match goal with |- exists _, (slot_wait_loop _ _ ?c ≫= _) ≫= _ = _ /\ _ =>
    set (ctx2 := c) end.
  assert (batches (GLThread ctx2) =
          <[Z.to_nat nb := set_fence false (set_b_used n bn)]>
            (batches (GLThread ctx))) as Hb2.
  { subst ctx2. destruct ctx; simpl. by rewrite list_insert_insert_eq. }
  assert (queue (GLThread ctx2) = queue (GLThread ctx)) as Hq2
    by (by destruct ctx).
  assert (next (GLThread ctx2) = next (GLThread ctx)) as Hn2
    by (by destruct ctx).
  clearbody ctx2.
  assert (runnable fuel ctx2) as Hrun2.
  { split; [by rewrite Hq2|]. rewrite Hq2.
    eapply Forall_impl; [exact Hjobs|]. intros j Hj.
    assert (forall f, fence_valid f ctx -> fence_valid f ctx2) as Hfv.
    { intros [k|]; simpl; [|done]. by rewrite Hb2, length_insert. }
    destruct j as [i f|f]; simpl in *; [|by apply Hfv].
    destruct Hj as [(b & Hb & Hs) Hf]. split; [|by apply Hfv].
    apply batch_at_Ok in Hb as [Hi Hb].
    destruct (decide (Z.to_nat i = Z.to_nat nb)) as [He|Hne].
    - exists (set_fence false (set_b_used n bn)). split; [|done].
      apply batch_at_Ok. split; [done|]. rewrite Hb2, He.
      by apply list_lookup_insert_eq.
    - exists b. split; [|done]. apply batch_at_Ok. split; [done|].
      rewrite Hb2. by rewrite list_lookup_insert_ne. }
  destruct (slot_wait_loop_total fuel (length (jobs (queue (GLThread ctx))))
              ctx2 Hrun2)
    as (ctx3 & Hloop & Hrun3 & Hev3 & _ & (dn & Hdn & Hsig));
    [by rewrite Hq2 | by rewrite Hq2 |].
  rewrite Hloop. simpl. eexists. split; [done|].
  intros (_ & Hnn & HN).
  apply slot_wait_loop_ran in Hloop as (Hv3 & _).
  apply view_fields in Hv3. simpl in Hv3.
  destruct Hv3 as (_&Hv2&_&_&_&_&_&_&_&_&Hmax3&_).
  destruct Hev3 as [Hlen3 Hev3].
  assert (length (batches (GLThread ctx3)) = length (batches (GLThread ctx)))
    as Hlen by (by rewrite Hlen3, Hb2, length_insert).
  assert (next (GLThread ctx3) = next (GLThread ctx)) as Hnext3
    by congruence.
  assert (0 <= (next (GLThread ctx) + 1) mod MARSHAL_MAX_BATCHES
          < MARSHAL_MAX_BATCHES) as Hmod by (apply Z.mod_pos_bound; lia).
  destruct Hrun3 as [Halive3 Hjobs3].
  assert (job_ok fuel ctx3 (UnmarshalJob nb (BatchFence nb))) as Hnew.
  { split; [|unfold fence_valid; lia].
    destruct (batches (GLThread ctx3) !! Z.to_nat nb) as [b3|] eqn:Hb3;
      [|apply lookup_ge_None in Hb3; lia].
    exists b3. split; [by apply batch_at_Ok; split; [lia|] |].
    destruct (Hev3 _ _ Hb3) as (b2 & Hb2' & -> & Hu & _).
    rewrite Hb2, list_lookup_insert_eq in Hb2' by done.
    injection Hb2' as <-.
    destruct Hu as [->| ->]; [exact Hstream | apply stream_ok_0]. }
  unfold ring_ok, engine_ok, runnable. simpl. rewrite ?Hnext3, ?Hlen.
  split_and!; [exact Halive3 | | by rewrite Hmax3, Hq2 | lia | lia | lia | lia
              | | intros b _; apply stream_ok_0 | reflexivity | exact HN].
  - (* the queued jobs and the new one can be run *)
    apply Forall_app. split.
    + eapply Forall_impl; [exact Hjobs3|]. intros j. by apply job_ok_same.
    + constructor; [|constructor]. by apply (job_ok_same fuel ctx3).
  - (* unsignalled fences have their job queued *)
    intros k b3 Hb3 Hf.
    destruct (decide (k = Z.to_nat nb)) as [->|Hne].
    { exists (UnmarshalJob nb (BatchFence nb)). split.
      - apply elem_of_app. right. by apply list_elem_of_singleton.
      - simpl. f_equal. lia. }
    destruct (Hev3 _ _ Hb3) as (b2 & Hb2' & _ & _ & Hfb).
    rewrite Hb2, list_lookup_insert_ne in Hb2' by done.
    assert (fence b2 = false) as Hf2 by (destruct Hfb; congruence).
    destruct (Hpend _ _ Hb2' Hf2) as (j & Hj & Hjf).
    rewrite <- Hq2, Hdn in Hj. apply elem_of_app in Hj as [Hj|Hj].
    + exfalso. rewrite Forall_forall in Hsig. apply Hsig in Hj.
      rewrite Hjf in Hj. simpl in Hj.
      apply bind_Ok in Hj as (b0 & Hb0 & [= Hb0f]).
      apply batch_at_Ok in Hb0 as [_ Hb0]. rewrite Nat2Z.id in Hb0. congruence.
    + exists j. split; [|done]. apply elem_of_app. by left.
Qed.

Lemma destroy_total fuel tid reason ctx :
  engine_ok fuel ctx ->
  exists ctx', _mesa_glthread_destroy fuel tid reason ctx = Ok ctx'.
Proof.
  intros Hok. unfold _mesa_glthread_destroy.
  destruct (enabled (GLThread ctx)); simpl; [|eauto].
  set (ctx0 := match reason with Some r => log (EvDebug r) ctx | None => ctx end).
  assert (engine_ok fuel ctx0) as Hok0.
  { subst ctx0. destruct reason; [|done].
    apply (engine_ok_same fuel ctx); by destruct ctx. }
  destruct (finish_total fuel tid ctx0 Hok0) as (ctx1 & -> & _). simpl.
  destruct (_ =? _); eauto.
Qed.

(** A flush returns whenever the engine is in order, and when it has
    submitted the current batch it leaves the engine in order. *)
Lemma flush_total fuel cpu tid ctx :
  engine_ok fuel ctx ->
  exists ctx',
    _mesa_glthread_flush_batch fuel cpu tid ctx = Ok ctx' /\
    (ring_ok fuel ctx ->
     CurrentServerDispatch ctx <> ContextLost ctx ->
     ring_ok fuel ctx').
Proof.
  intros Hok. unfold _mesa_glthread_flush_batch.
  destruct (enabled (GLThread ctx)); simpl; [|eauto].
  destruct (_ =? ContextLost ctx) eqn:Hlost.
  { destruct (destroy_total fuel tid (Some "context lost"%string) ctx Hok)
      as (ctx' & ->). exists ctx'. split; [done|]. lia. }
  destruct (used (GLThread ctx) =? 0); [eauto|].
  destruct (pin_threads_keeps cpu ctx) as (Hq & Hb & _ & (_&Hn&Hl&Hnb&Hu) & _).
  assert (engine_ok fuel (pin_threads cpu ctx)) as Hokp
    by (by apply (engine_ok_same fuel ctx)).
  destruct (submit_batch_total fuel _ Hokp) as (ctx' & -> & Hring).
  exists ctx'. split; [done|]. intros (_ & Hnn & HN) _. apply Hring.
  split; [done|]. by rewrite Hnb, Hn, Hb.
Qed.

(** The start-up barrier of [_mesa_glthread_init]: on an empty queue the
    initialisation job is queued at once, and waiting for its fence lets
    the worker run it. *)
Lemma thread_init_handshake fuel ctx :
  jobs (queue (GLThread ctx)) = [] ->
  q_alive (queue (GLThread ctx)) = true ->
  0 < max_jobs (queue (GLThread ctx)) ->
  exists ctx1 ctx2,
    util_queue_add_job fuel (ThreadInitJob InitFence) ctx = Ok ctx1 /\
    util_queue_fence_wait fuel InitFence ctx1 = Ok ctx2 /\
    producer_view ctx2 = producer_view ctx /\
    jobs (queue (GLThread ctx2)) = [] /\
    background_context ctx2 = true.
Proof.
  destruct ctx as [[[js mj t0 al] st en pc bs nb l n u cl bb pb dl v]
                     csd cl' me ccd bol tl scp spc srv gd bg ifc hp ev].
  simpl. intros -> -> Hmax.
  unfold util_queue_add_job. simpl. change (Z.of_nat 0) with 0.
  assert ((0 <? mj) = true) as -> by lia. simpl.
  eexists. eexists. split; [reflexivity|].
  unfold util_queue_fence_wait. simpl. split; [reflexivity|]. done.
Qed.

End Progress.

(** ** What the callback and the waits leave alone *)

Section Callback.

Context {env : glthread_env}.
Implicit Types (ctx : gl_context) (b : glthread_batch) (f : fence_ref).

(** What a completed call of [glthread_unmarshal_batch] has done to the
    per-thread dispatch, the two lock flags and the two batch indices the
    dispatch adapter tracks. *)
Lemma unmarshal_batch_state fuel tid i ctx ctx' :
  glthread_unmarshal_batch fuel tid i ctx = Ok ctx' ->
  BufferObjectsLocked ctx' = false /\ TexturesLocked ctx' = false /\
  (forall t, glapi_dispatch ctx' t =
     if t =? tid then CurrentServerDispatch ctx else glapi_dispatch ctx t) /\
  LastProgramChangeBatch (GLThread ctx') =
    p_atomic_cmpxchg (LastProgramChangeBatch (GLThread ctx)) i (-1) /\
  LastDListChangeBatchIndex (GLThread ctx') =
    p_atomic_cmpxchg (LastDListChangeBatchIndex (GLThread ctx)) i (-1) /\
  background_context ctx' = background_context ctx.
Proof.
  unfold glthread_unmarshal_batch. intros H.
  apply bind_Ok in H as (b & Hb & H).
  apply bind_Ok in H as ([pos ctx1] & Hloop & H).
  apply bind_Ok in H as ([] & Hassert & H).
  apply bind_Ok in H as (ctx2 & Hupd & [= <-]).
  apply unmarshal_loop_shape in Hloop as (srv & evs & -> & _ & _).
  apply upd_batch_Ok in Hupd as (b' & _ & ->).
  by destruct ctx.
Qed.

(** C-level reading: a record whose unmarshal function returns 0 keeps
    the cursor where it is. *)
Lemma unmarshal_loop_zero tid i buf u pos hdr :
  0 <= pos < 2 ^ 32 -> pos < u ->
  buf !! Z.to_nat pos = Some hdr ->
  (forall srv,
     snd (_mesa_unmarshal_dispatch (cmd_id_of hdr) srv
            (drop (Z.to_nat pos) buf)) = 0) ->
  forall fuel ctx,
    unmarshal_loop fuel tid i buf u pos ctx = Fail OutOfFuel.
Proof.
  intros Hpos Hu Hhdr Hzero fuel.
  induction fuel as [|fuel IH]; intros ctx; simpl.
  - by assert ((pos <? u) = true) as -> by lia.
  - assert ((pos <? u) = true) as -> by lia. rewrite Hhdr.
    destruct (_mesa_unmarshal_dispatch _ _ _) as [srv n] eqn:D.
    assert (n = 0) as -> by (by rewrite <- (Hzero (server ctx)), D).
    assert (wrap32 (pos + 0) = pos) as ->
      by (unfold wrap32; rewrite Z.add_0_r; apply Z.mod_small; lia).
    apply IH.
Qed.

(** Setting a fence touches a fence and nothing else. *)
Lemma fence_set_frame v f ctx ctx' :
  util_queue_fence_set v f ctx = Ok ctx' ->
  glapi_dispatch ctx' = glapi_dispatch ctx /\
  server ctx' = server ctx /\
  stats (GLThread ctx') = stats (GLThread ctx) /\
  background_context ctx' = background_context ctx /\
  b_used <$> batches (GLThread ctx') = b_used <$> batches (GLThread ctx).
Proof.
  destruct f as [i|]; simpl.
  - intros H. apply upd_batch_Ok in H as (b & Hb & ->).
    apply batch_at_Ok in Hb as [_ Hb].
    split_and!; try by destruct ctx.
    destruct ctx as [g]; simpl in *.
    by apply (fmap_insert_same b_used _ _ b).
  - intros [= <-]. by destruct ctx.
Qed.

(** The worker installs a dispatch table for itself only. *)
Lemma worker_step_dispatch fuel ctx ctx' :
  util_queue_worker_step fuel ctx = Ok ctx' ->
  forall t, t <> threads0 (queue (GLThread ctx)) ->
    glapi_dispatch ctx' t = glapi_dispatch ctx t.
Proof.
  unfold util_queue_worker_step.
  destruct (q_alive _); simpl; [|discriminate].
  destruct (jobs (queue (GLThread ctx))) as [|j rest] eqn:Hj.
  { by intros [= <-]. }
  intros H t Ht. apply bind_Ok in H as (ctx1 & Hrun & Hsig).
  apply fence_set_frame in Hsig as (-> & _).
  destruct j as [i fj | fj].
  - apply unmarshal_batch_state in Hrun as (_ & _ & Hd & _).
    rewrite Hd. destruct (t =? _) eqn:E; [lia|]. by destruct ctx.
  - injection Hrun as <-. by destruct ctx.
Qed.

Lemma fence_wait_loop_dispatch n fuel f ctx ctx' :
  fence_wait_loop n fuel f ctx = Ok ctx' ->
  forall t, t <> threads0 (queue (GLThread ctx)) ->
    glapi_dispatch ctx' t = glapi_dispatch ctx t.
Proof.
  revert ctx. induction n as [|n IH]; intros ctx H t Ht; simpl in H;
    apply bind_Ok in H as ([] & _ & H); try discriminate;
    try (by injection H as <-).
  apply bind_Ok in H as (ctx1 & Hstep & H).
  pose proof (worker_step_ran _ _ _ Hstep) as (Hv & _).
  rewrite (IH _ H) by (by rewrite (view_threads0 _ _ Hv)).
  by apply (worker_step_dispatch fuel ctx).
Qed.

Lemma slot_wait_loop_dispatch n fuel ctx ctx' :
  slot_wait_loop n fuel ctx = Ok ctx' ->
  forall t, t <> threads0 (queue (GLThread ctx)) ->
    glapi_dispatch ctx' t = glapi_dispatch ctx t.
Proof.
  revert ctx. induction n as [|n IH]; intros ctx; simpl;
    destruct (_ <? _); try discriminate; try (by intros [= <-]).
  intros H t Ht. apply bind_Ok in H as (ctx1 & Hstep & H).
  pose proof (worker_step_ran _ _ _ Hstep) as (Hv & _).
  rewrite (IH _ H) by (by rewrite (view_threads0 _ _ Hv)).
  by apply (worker_step_dispatch fuel ctx).
Qed.

(** [_mesa_glthread_finish] leaves every thread but the worker with the
    dispatch table it had. *)
Lemma finish_dispatch fuel tid ctx ctx' :
  _mesa_glthread_finish fuel tid ctx = Ok ctx' ->
  forall t, t <> threads0 (queue (GLThread ctx)) ->
    glapi_dispatch ctx' t = glapi_dispatch ctx t.
Proof.
  unfold _mesa_glthread_finish.
  destruct (enabled (GLThread ctx)); simpl; [|by intros [= <-]].
  destruct (tid =? _) eqn:Htid; [by intros [= <-]|].
  intros H t Ht. apply bind_Ok in H as (s & _ & H).
  apply bind_Ok in H as ([synced ctxw] & Hwait & H).
  assert (glapi_dispatch ctxw t = glapi_dispatch ctx t) as Hw.
  { destruct s; simpl in Hwait; [by injection Hwait as _ <-|].
    apply bind_Ok in Hwait as (c & Hw & [= _ <-]).
    unfold util_queue_fence_wait in Hw.
    rewrite (fence_wait_loop_dispatch _ _ _ _ _ Hw) by (by destruct ctx).
    by destruct ctx. }
  apply bind_Ok in H as ([synced' ctxd] & Hd & H).
  assert (glapi_dispatch ctxd t = glapi_dispatch ctxw t) as Hdd.
  { destruct (used (GLThread ctxw) =? 0); simpl in Hd;
      [by injection Hd as _ <-|].
    apply bind_Ok in Hd as (c2 & Hupd & Hd).
    apply bind_Ok in Hd as (c3 & Hrun & [= _ <-]).
    apply upd_batch_Ok in Hupd as (bn & _ & ->).
    apply unmarshal_batch_state in Hrun as (_ & _ & Hdisp & _).
    simpl. rewrite Hdisp. destruct (t =? tid) eqn:E.
    - assert (t = tid) as -> by lia. by destruct ctxw.
    - by destruct ctxw. }
  rewrite <- Hw, <- Hdd.
  destruct synced'; injection H as <-; by destruct ctxd.
Qed.

End Callback.

(** ** The queue holds the batches submitted last *)

Section Ring.

Context {env : glthread_env}.
Implicit Types (ctx : gl_context) (b : glthread_batch).

Lemma ring_queue_suffix ctx ctx' ran_jobs :
  ring_queue ctx ->
  jobs (queue (GLThread ctx)) = ran_jobs ++ jobs (queue (GLThread ctx')) ->
  last (GLThread ctx') = last (GLThread ctx) ->
  next (GLThread ctx') = next (GLThread ctx) ->
  max_jobs (queue (GLThread ctx')) = max_jobs (queue (GLThread ctx)) ->
  ring_queue ctx'.
Proof.
  intros (Hpos & Hnext & Hlen & Hmax) Hj Hl Hn Hm.
  unfold ring_queue. rewrite Hl, Hn, Hm.
  rewrite Hj in Hpos, Hnext, Hlen. rewrite length_app in Hpos, Hlen.
  split_and!; [| | lia | done].
  - intros p j Hp.
    specialize (Hpos (length ran_jobs + p)%nat j).
    rewrite lookup_app_r in Hpos by lia.
    replace (length ran_jobs + p - length ran_jobs)%nat with p in Hpos by lia.
    specialize (Hpos Hp). simpl in Hpos.
    replace (Z.of_nat (length ran_jobs + length (jobs (queue (GLThread ctx'))))
             - 1 - Z.of_nat (length ran_jobs + p))
      with (Z.of_nat (length (jobs (queue (GLThread ctx')))) - 1 - Z.of_nat p)
      in Hpos by lia.
    exact Hpos.
  - intros Hne. apply Hnext. intros E. apply app_eq_nil in E as [_ E]. done.
Qed.

(** No queued job is for the slot after [last]. *)
Lemma ring_queue_not_next ctx j :
  ring_queue ctx ->
  0 <= last (GLThread ctx) < MARSHAL_MAX_BATCHES ->
  j ∈ jobs (queue (GLThread ctx)) ->
  let n := (last (GLThread ctx) + 1) mod MARSHAL_MAX_BATCHES in
  j <> UnmarshalJob n (BatchFence n).
Proof.
  intros (Hpos & _ & Hlen & Hmax) Hl Hin n.
  apply list_elem_of_lookup in Hin as [p Hp].
  pose proof (lookup_lt_Some _ _ _ Hp) as Hlt.
  rewrite (Hpos _ _ Hp). simpl. intros [= E _].
  set (N := MARSHAL_MAX_BATCHES) in *.
  set (d := Z.of_nat (length (jobs (queue (GLThread ctx)))) - 1 - Z.of_nat p) in *.
  set (l := last (GLThread ctx)) in *.
  assert (0 <= d < N - 2) as Hd by lia.
  unfold n in E.
  rewrite (Z.mod_eq (l - d) N), (Z.mod_eq (l + 1) N) in E by lia.
  set (qa := (l - d) / N) in *. set (qb := (l + 1) / N) in *.
  assert (d + 1 = N * (qb - qa)) as Hq by lia.
  destruct (Z_le_gt_dec (qb - qa) 0); nia.
Qed.

(** Under the invariant the batch being recorded into is not pending:
    no queued job is for it, and its fence is signalled. *)
Lemma current_batch_free fuel ctx :
  engine_inv fuel ctx ->
  let nb := next_batch (GLThread ctx) in
  (UnmarshalJob nb (BatchFence nb) ∉ jobs (queue (GLThread ctx))) /\
  util_queue_fence_is_signalled (BatchFence nb) ctx = Ok true.
Proof.
  intros ((Hok & Hnn & HN) & (_ & Hshape & _) & Hrq) nb.
  pose proof Hok as (_ & _ & Hlast & Hnext & Hpend & _).
  assert (UnmarshalJob nb (BatchFence nb) ∉ jobs (queue (GLThread ctx)))
    as Hnotin.
  { intros Hin. pose proof Hrq as (_ & Hnx & _).
    eapply (ring_queue_not_next ctx); [done | lia | exact Hin |].
    unfold nb. rewrite Hnn, Hnx; [done|].
    intros E. rewrite E in Hin. by apply elem_of_nil in Hin. }
  split; [done|]. simpl.
  destruct (batches (GLThread ctx) !! Z.to_nat nb) as [b|] eqn:Hb;
    [|apply lookup_ge_None in Hb; unfold nb in *; lia].
  assert (batch_at nb ctx = Ok b) as ->
    by (apply batch_at_Ok; split; [unfold nb; lia | done]).
  simpl. destruct (fence b) eqn:Hf; [done|]. exfalso.
  destruct (Hpend _ _ Hb Hf) as (j & Hj & Hjf).
  destruct (Hshape _ Hj) as (i & Hi & ->). simpl in Hjf.
  injection Hjf as ->. apply Hnotin.
  by rewrite Z2Nat.id in Hj by (unfold nb; lia).
Qed.

(** Waiting for a slot ends with a free slot. *)
Lemma slot_wait_loop_exit n fuel ctx ctx' :
  slot_wait_loop n fuel ctx = Ok ctx' ->
  Z.of_nat (length (jobs (queue (GLThread ctx')))) < max_jobs (queue (GLThread ctx')).
Proof.
  revert ctx. induction n as [|n IH]; intros ctx; simpl;
    destruct (_ <? _) eqn:E; try discriminate;
    try (intros [= <-]; lia).
  intros H. apply bind_Ok in H as (ctx1 & _ & H). by eapply IH.
Qed.

(** The worker leaves alone the batches it has no job for. *)
Lemma worker_step_other fuel ctx ctx' k :
  fifo_ok ctx ->
  util_queue_worker_step fuel ctx = Ok ctx' ->
  0 <= k ->
  UnmarshalJob k (BatchFence k) ∉ jobs (queue (GLThread ctx)) ->
  batches (GLThread ctx') !! Z.to_nat k = batches (GLThread ctx) !! Z.to_nat k.
Proof.
  intros (_ & Hshape & _) H Hk Hnotin. unfold util_queue_worker_step in H.
  destruct (q_alive _); simpl in H; [|discriminate].
  destruct (jobs (queue (GLThread ctx))) as [|j rest] eqn:Hj.
  { by injection H as <-. }
  destruct (Hshape j) as (i & Hi & ->); [by left|].
  assert (Z.to_nat i <> Z.to_nat k) as Hne.
  { intros E. assert (i = k) as -> by lia. apply Hnotin. by left. }
  apply bind_Ok in H as (ctx1 & Hrun & Hsig).
  apply unmarshal_batch_Ok in Hrun
    as (b & _ & _ & _ & _ & _ & _ & _ & _ & Hbs & _).
  simpl in Hsig. apply upd_batch_Ok in Hsig as (bi & _ & ->).
  simpl. rewrite list_lookup_insert_ne by done.
  rewrite Hbs, list_lookup_insert_ne by done. by destruct ctx.
Qed.

Lemma slot_wait_loop_fifo n fuel ctx ctx' :
  fifo_ok ctx -> slot_wait_loop n fuel ctx = Ok ctx' -> fifo_ok ctx'.
Proof.
  revert ctx. induction n as [|n IH]; intros ctx Hok; simpl;
    destruct (_ <? _); try discriminate; try (by intros [= <-]).
  intros H. apply bind_Ok in H as (ctx1 & Hstep & H).
  eapply IH; [|exact H]. by eapply worker_step_fifo.
Qed.

Lemma slot_wait_loop_other n fuel ctx ctx' k :
  fifo_ok ctx ->
  slot_wait_loop n fuel ctx = Ok ctx' ->
  0 <= k ->
  UnmarshalJob k (BatchFence k) ∉ jobs (queue (GLThread ctx)) ->
  batches (GLThread ctx') !! Z.to_nat k = batches (GLThread ctx) !! Z.to_nat k.
Proof.
  revert ctx. induction n as [|n IH]; intros ctx Hok; simpl;
    destruct (_ <? _); try discriminate; try (by intros [= <-]).
  intros H Hk Hnotin. apply bind_Ok in H as (ctx1 & Hstep & H).
  rewrite (IH ctx1); [by eapply worker_step_other | by eapply worker_step_fifo
                      | done | done |].
  apply worker_step_ran in Hstep as (_ & (dn & Hdn) & _).
  intros Hin. apply Hnotin. rewrite Hdn. apply elem_of_app. by right.
Qed.

(** Submitting the current batch keeps the queue in submission order. *)
Lemma submit_batch_inv fuel ctx ctx' :
  engine_inv fuel ctx ->
  submit_batch fuel ctx = Ok ctx' ->
  fifo_ok ctx' /\ ring_queue ctx'.
Proof.
  intros Hinv H.
  pose proof (current_batch_free _ _ Hinv) as [Hfree _].
  destruct Hinv as ((Hok & Hnn & HN) & Hfifo & Hrq).
  pose proof Hok as (_ & _ & Hlast & Hnext & _).
  set (nb := next_batch (GLThread ctx)) in *.
  unfold submit_batch in H. fold nb in H.
  apply bind_Ok in H as (ctx1 & Hupd & H).
  apply bind_Ok in H as (ctx5 & Hadd & [= <-]).
  apply upd_batch_Ok in Hupd as (bn & Hbn & ->).
  apply batch_at_Ok in Hbn as [Hnb0 Hbn]. simpl in Hbn.
  unfold util_queue_add_job in Hadd.
  apply bind_Ok in Hadd as (ctx3 & Hset & Hadd).
  apply bind_Ok in Hadd as (ctx4 & Hwait & [= <-]).
  simpl in Hset. apply upd_batch_Ok in Hset as (b2 & Hb2 & ->).
  apply batch_at_Ok in Hb2 as [_ Hb2]. simpl in Hb2.
  match type of Hwait with slot_wait_loop _ _ ?c = _ => set (ctx3 := c) in * end.
  assert (Z.to_nat nb < length (batches (GLThread ctx)))%nat as Hlt by lia.
  assert (jobs (queue (GLThread ctx3)) = jobs (queue (GLThread ctx)) /\
          last (GLThread ctx3) = last (GLThread ctx) /\
          next (GLThread ctx3) = next (GLThread ctx) /\
          max_jobs (queue (GLThread ctx3)) = max_jobs (queue (GLThread ctx)) /\
          batches (GLThread ctx3) !! Z.to_nat nb = Some (set_fence false b2) /\
          fence <$> batches (GLThread ctx3) =
            <[Z.to_nat nb := false]> (fence <$> batches (GLThread ctx)))
    as (Hj3 & Hl3 & Hn3 & Hm3 & Hb3 & Hf3).
  { subst ctx3. destruct ctx as [g]; simpl in *. split_and!; try done.
    - apply list_lookup_insert_eq. by rewrite length_insert.
    - by rewrite list_insert_insert_eq, list_fmap_insert. }
  clearbody ctx3.
  assert (fifo_ok ctx3) as Hfifo3.
  { destruct Hfifo as (Hnd & Hshape & Hunsig & Hlastj).
    unfold fifo_ok, fifo_ok_of. rewrite Hj3, Hl3, Hf3.
    split_and!; try done.
    intros i Hi Hin.
    destruct (decide (Z.to_nat i = Z.to_nat nb)) as [->|Hne].
    - apply list_lookup_insert_eq. by rewrite length_fmap.
    - rewrite list_lookup_insert_ne by done. by apply Hunsig. }
  pose proof (slot_wait_loop_fifo _ _ _ _ Hfifo3 Hwait)
    as (Hnd4 & Hshape4 & Hunsig4 & _).
  pose proof (slot_wait_loop_exit _ _ _ _ Hwait) as Hexit.
  assert (batches (GLThread ctx4) !! Z.to_nat nb = Some (set_fence false b2))
    as Hb4.
  { rewrite <- Hb3.
    eapply slot_wait_loop_other; [exact Hfifo3 | exact Hwait | done |].
    by rewrite Hj3. }
  apply slot_wait_loop_ran in Hwait as (Hv4 & (dn & Hdn) & _).
  apply view_fields in Hv4. simpl in Hv4.
  destruct Hv4 as (_&Hn4&Hl4&_&_&_&_&_&_&_&Hm4&_).
  rewrite Hj3 in Hdn. rewrite Hn3 in Hn4. rewrite Hl3 in Hl4. rewrite Hm3 in Hm4.
  assert (forall j, j ∈ jobs (queue (GLThread ctx4)) ->
                    j ∈ jobs (queue (GLThread ctx))) as Hsub.
  { intros j Hj. rewrite Hdn. apply elem_of_app. by right. }
  pose proof (ring_queue_suffix ctx ctx4 dn Hrq Hdn Hl4 Hn4 Hm4)
    as (Hpos4 & Hnx4 & _ & Hmax4).
  assert (0 <= next (GLThread ctx) < MARSHAL_MAX_BATCHES) as Hnr
    by (rewrite <- Hnn; unfold nb in *; lia).
  destruct ctx4 as [[[js4 mj4 t4 al4] st4 en4 pc4 bs4 nb4 l4 n4 u4 cl4 bb4 pb4 dl4 v4]
                      csd4 clo4 me4 ccd4 bol4 tl4 scp4 spc4 srv4 gd4 bg4 ifc4 hp4 ev4].
  simpl in *. subst n4 l4 mj4.
  split.
  - (* submission order *)
    unfold fifo_ok, fifo_ok_of. simpl. split_and!.
    + apply NoDup_app. split_and!; [done | | apply NoDup_singleton].
      intros j Hj Hj'. apply list_elem_of_singleton in Hj' as ->.
      apply Hfree. by apply Hsub.
    + intros j Hj. apply elem_of_app in Hj as [Hj|Hj]; [by apply Hshape4|].
      apply list_elem_of_singleton in Hj as ->. exists nb. by split.
    + intros i Hi Hin. apply elem_of_app in Hin as [Hin|Hin];
        [by apply Hunsig4|].
      apply list_elem_of_singleton in Hin. injection Hin as ->.
      by rewrite list_lookup_fmap, Hb4.
    + intros _. exists js4. by rewrite <- Hnn.
  - (* position in the ring *)
    unfold ring_queue. simpl. rewrite length_app. simpl.
    split_and!; [| done | lia | done].
    intros p j Hp.
    destruct (decide (p < length js4)%nat) as [Hlt4|Hge4].
    + rewrite lookup_app_l in Hp by done.
      rewrite (Hpos4 _ _ Hp).
      assert (js4 <> []) as Hne4 by (intros ->; simpl in Hlt4; lia).
      assert ((last (GLThread ctx)
               - (Z.of_nat (length js4) - 1 - Z.of_nat p)) mod MARSHAL_MAX_BATCHES
              = (next (GLThread ctx)
                 - (Z.of_nat (length js4 + 1) - 1 - Z.of_nat p))
                mod MARSHAL_MAX_BATCHES) as ->; [|done].
      rewrite (Hnx4 Hne4), Zminus_mod_idemp_l. f_equal. lia.
    + assert (p = length js4) as ->.
      { apply lookup_lt_Some in Hp. rewrite length_app in Hp. simpl in Hp. lia. }
      rewrite lookup_app_r, Nat.sub_diag in Hp by lia.
      injection Hp as <-.
      replace (next (GLThread ctx)
               - (Z.of_nat (length js4 + 1) - 1 - Z.of_nat (length js4)))
        with (next (GLThread ctx)) by lia.
      rewrite Z.mod_small by done. by rewrite <- Hnn.
Qed.

Lemma engine_inv_same fuel ctx ctx' :
  engine_inv fuel ctx ->
  queue (GLThread ctx') = queue (GLThread ctx) ->
  batches (GLThread ctx') = batches (GLThread ctx) ->
  last (GLThread ctx') = last (GLThread ctx) ->
  next (GLThread ctx') = next (GLThread ctx) ->
  next_batch (GLThread ctx') = next_batch (GLThread ctx) ->
  used (GLThread ctx') = used (GLThread ctx) ->
  engine_inv fuel ctx'.
Proof.
  intros ((Hok & Hnn & HN) & Hfifo & Hrq) Hq Hb Hl Hn Hnb Hu.
  split_and!.
  - split_and!; [by apply (engine_ok_same fuel ctx) | congruence | congruence].
  - apply (fifo_ok_same ctx); congruence.
  - unfold ring_queue in *. by rewrite Hq, Hl, Hn.
Qed.

End Ring.

Section RingInvariant.

Context {env : glthread_env}.
Implicit Types (ctx : gl_context) (b : glthread_batch).

Lemma flush_inv fuel cpu tid ctx :
  engine_inv fuel ctx ->
  CurrentServerDispatch ctx <> ContextLost ctx ->
  exists ctx',
    _mesa_glthread_flush_batch fuel cpu tid ctx = Ok ctx' /\
    engine_inv fuel ctx'.
Proof.
  intros Hinv Hlost.
  pose proof Hinv as (Hring & _ & _).
  pose proof Hring as (Hok & _).
  destruct (flush_total fuel cpu tid ctx Hok) as (ctx' & H & Hring').
  exists ctx'. split; [done|].
  unfold _mesa_glthread_flush_batch in H.
  destruct (enabled (GLThread ctx)); simpl in H; [|by injection H as <-].
  destruct (_ =? ContextLost ctx) eqn:E; [lia|].
  destruct (used (GLThread ctx) =? 0); [by injection H as <-|].
  destruct (pin_threads_keeps cpu ctx) as (Hq & Hb & _ & (_&Hn&Hl&Hnb&Hu) & _).
  pose proof (engine_inv_same fuel ctx _ Hinv Hq Hb Hl Hn Hnb Hu) as Hinvp.
  destruct (submit_batch_inv _ _ _ Hinvp H) as [Hfifo' Hrq'].
  split_and!; [by apply Hring' | done | done].
Qed.

Lemma finish_inv fuel tid ctx :
  engine_inv fuel ctx ->
  exists ctx',
    _mesa_glthread_finish fuel tid ctx = Ok ctx' /\
    engine_inv fuel ctx'.
Proof.
  intros ((Hok & Hnn & HN) & Hfifo & Hrq).
  destruct (finish_total fuel tid ctx Hok) as (ctx' & H & Hok' & _).
  exists ctx'. split; [done|].
  pose proof (finish_keeps _ _ _ _ H) as (Hring & (rj & Hrj) & _).
  apply ring_fields in Hring. simpl in Hring.
  destruct Hring as (_&Hn&Hl&Hnb&_&_&_&Hm&_&Hlen&_).
  split_and!.
  - split_and!; [done | congruence | congruence].
  - by eapply finish_fifo.
  - by apply (ring_queue_suffix ctx ctx' rj).
Qed.

End RingInvariant.

(** ** What the jobs do to the GL state *)

Section Exec.

Context {env : glthread_env}.
Implicit Types (ctx : gl_context) (b : glthread_batch).

Lemma unmarshal_loop_server fuel tid i buf u pos ctx pos' ctx' :
  unmarshal_loop fuel tid i buf u pos ctx = Ok (pos', ctx') ->
  exec_stream fuel buf u pos (server ctx) = Ok (pos', server ctx').
Proof.
  revert pos ctx. induction fuel as [|fuel IH]; intros pos ctx; simpl;
    destruct (pos <? u); try discriminate; try (by intros [= <- <-]).
  destruct (buf !! Z.to_nat pos) as [hdr|]; [|discriminate].
  destruct (_mesa_unmarshal_dispatch _ _ _) as [srv n].
  intros H. by apply IH in H.
Qed.

Lemma unmarshal_batch_server fuel tid i f ctx ctx' :
  glthread_unmarshal_batch fuel tid i ctx = Ok ctx' ->
  exec_job fuel (batches (GLThread ctx)) (UnmarshalJob i f) (server ctx)
    = Ok (server ctx').
Proof.
  unfold glthread_unmarshal_batch. intros H.
  apply bind_Ok in H as (b & Hb & H).
  apply bind_Ok in H as ([pos ctx1] & Hloop & H).
  apply bind_Ok in H as ([] & _ & H).
  apply bind_Ok in H as (ctx2 & Hupd & [= <-]).
  apply upd_batch_Ok in Hupd as (b' & _ & ->).
  apply batch_at_Ok in Hb as [_ Hb].
  apply unmarshal_loop_server in Hloop. simpl in Hloop.
  simpl. rewrite Hb, Hloop. done.
Qed.

Lemma exec_jobs_app fuel bs js1 js2 srv :
  exec_jobs fuel bs (js1 ++ js2) srv =
  exec_jobs fuel bs js1 srv ≫= exec_jobs fuel bs js2.
Proof.
  revert srv. induction js1 as [|j js1 IH]; intros srv; simpl; [done|].
  destruct (exec_job fuel bs j srv); simpl; [apply IH | done].
Qed.

(** Running jobs depends on the batches they are for only. *)
Lemma exec_jobs_ext fuel bs bs' js srv :
  (forall i f, UnmarshalJob i f ∈ js -> bs' !! Z.to_nat i = bs !! Z.to_nat i) ->
  exec_jobs fuel bs' js srv = exec_jobs fuel bs js srv.
Proof.
  revert srv. induction js as [|j js IH]; intros srv Hagree; simpl; [done|].
  assert (exec_job fuel bs' j srv = exec_job fuel bs j srv) as ->.
  { destruct j as [i f|f]; simpl; [|done]. rewrite (Hagree i f); [done|]. by left. }
  destruct (exec_job fuel bs j srv); simpl; [|done].
  apply IH. intros i f Hin. apply (Hagree i f). by right.
Qed.

(** One turn of the worker: the job it runs, what it does to the GL
    state, and the batches it leaves alone. *)
Lemma worker_step_server fuel ctx ctx' :
  fifo_ok ctx ->
  util_queue_worker_step fuel ctx = Ok ctx' ->
  exists ran_jobs,
    jobs (queue (GLThread ctx)) = ran_jobs ++ jobs (queue (GLThread ctx')) /\
    exec_jobs fuel (batches (GLThread ctx)) ran_jobs (server ctx)
      = Ok (server ctx') /\
    forall k, 0 <= k -> UnmarshalJob k (BatchFence k) ∉ ran_jobs ->
      batches (GLThread ctx') !! Z.to_nat k = batches (GLThread ctx) !! Z.to_nat k.
Proof.
  intros (_ & Hshape & _) H. unfold util_queue_worker_step in H.
  destruct (q_alive _); simpl in H; [|discriminate].
  destruct (jobs (queue (GLThread ctx))) as [|j rest] eqn:Hj.
  { injection H as <-. exists []. by rewrite Hj. }
  destruct (Hshape j) as (i & Hi & ->); [by left|].
  apply bind_Ok in H as (ctx1 & Hrun & Hsig).
  pose proof (fence_set_Ok _ _ _ _ Hsig) as (_ & Hq2 & _).
  pose proof (fence_set_frame _ _ _ _ Hsig) as (_ & Hsrv2 & _).
  pose proof (unmarshal_batch_server _ _ _ (BatchFence i) _ _ Hrun) as Hexec.
  replace (batches (GLThread (upd_queue (set_jobs rest) ctx)))
    with (batches (GLThread ctx)) in Hexec by (by destruct ctx).
  replace (server (upd_queue (set_jobs rest) ctx)) with (server ctx) in Hexec
    by (by destruct ctx).
  apply unmarshal_batch_Ok in Hrun
    as (b & _ & _ & _ & _ & _ & _ & _ & Hq1 & Hbs & _).
  assert (batches (GLThread ctx') =
          <[Z.to_nat i := set_fence true (set_b_used 0 b)]>
            (batches (GLThread ctx))) as Hbs'.
  { simpl in Hsig. apply upd_batch_Ok in Hsig as (bi & Hbi & ->). simpl.
    apply batch_at_Ok in Hbi as [_ Hbi]. rewrite Hbs in Hbi |- *.
    rewrite list_insert_insert_eq.
    destruct (decide (Z.to_nat i < length (batches (GLThread ctx)))%nat).
    - rewrite list_lookup_insert_eq in Hbi by (by destruct ctx).
      injection Hbi as <-. by destruct ctx.
    - apply lookup_lt_Some in Hbi. rewrite length_insert in Hbi.
      destruct ctx; simpl in *. lia. }
  exists [UnmarshalJob i (BatchFence i)]. split_and!.
  - rewrite Hq2, Hq1. by destruct ctx.
  - unfold exec_jobs. rewrite Hexec. simpl. by rewrite Hsrv2.
  - intros k Hk Hnotin.
    assert (Z.to_nat i <> Z.to_nat k) as Hne.
    { intros E. assert (i = k) as -> by lia. apply Hnotin. by left. }
    by rewrite Hbs', list_lookup_insert_ne.
Qed.

Lemma slept_refl fuel ctx : slept fuel ctx ctx.
Proof. by exists []. Qed.

Lemma slept_step fuel ctx ctx1 ctx' :
  fifo_ok ctx ->
  util_queue_worker_step fuel ctx = Ok ctx1 ->
  slept fuel ctx1 ctx' -> slept fuel ctx ctx'.
Proof.
  intros Hok Hstep (r2 & Hj2 & Hx2 & Hb2).
  destruct (worker_step_server _ _ _ Hok Hstep) as (r1 & Hj1 & Hx1 & Hb1).
  destruct Hok as (Hnd & Hshape & _).
  exists (r1 ++ r2). split_and!.
  - by rewrite Hj1, Hj2, app_assoc.
  - rewrite exec_jobs_app, Hx1. simpl. rewrite <- Hx2.
    symmetry. apply exec_jobs_ext. intros i f Hin.
    assert (UnmarshalJob i f ∈ jobs (queue (GLThread ctx))) as Hin'.
    { rewrite Hj1, Hj2. apply elem_of_app. right. apply elem_of_app. by left. }
    destruct (Hshape _ Hin') as (i' & Hi' & [= -> ->]).
    apply Hb1; [done|]. intros Hin1.
    rewrite Hj1, Hj2 in Hnd. apply NoDup_app in Hnd as (_ & Hdisj & _).
    apply (Hdisj _ Hin1). apply elem_of_app. by left.
  - intros k Hk Hnotin.
    rewrite Hb2, Hb1; [done | done | | done |].
    + intros Hin. apply Hnotin. apply elem_of_app. by left.
    + intros Hin. apply Hnotin. apply elem_of_app. by right.
Qed.

Lemma fence_wait_loop_slept n fuel f ctx ctx' :
  fifo_ok ctx -> fence_wait_loop n fuel f ctx = Ok ctx' -> slept fuel ctx ctx'.
Proof.
  revert ctx. induction n as [|n IH]; intros ctx Hok H; simpl in H;
    apply bind_Ok in H as ([] & _ & H); try discriminate;
    try (injection H as <-; apply slept_refl).
  apply bind_Ok in H as (ctx1 & Hstep & H).
  eapply slept_step; [done | exact Hstep |].
  apply IH; [by eapply worker_step_fifo | done].
Qed.

Lemma slot_wait_loop_slept n fuel ctx ctx' :
  fifo_ok ctx -> slot_wait_loop n fuel ctx = Ok ctx' -> slept fuel ctx ctx'.
Proof.
  revert ctx. induction n as [|n IH]; intros ctx Hok; simpl;
    destruct (_ <? _); try discriminate;
    try (intros [= <-]; apply slept_refl).
  intros H. apply bind_Ok in H as (ctx1 & Hstep & H).
  eapply slept_step; [done | exact Hstep |].
  apply IH; [by eapply worker_step_fifo | done].
Qed.

(** What a completed [_mesa_glthread_finish] has done to the GL state:
    it has run the queued jobs, and then the current batch if it was not
    empty. *)
Lemma finish_server fuel tid ctx ctx' :
  enabled (GLThread ctx) = true ->
  tid <> threads0 (queue (GLThread ctx)) ->
  fifo_ok ctx ->
  _mesa_glthread_finish fuel tid ctx = Ok ctx' ->
  let g := GLThread ctx in
  exists srv_w,
    exec_jobs fuel (batches g) (jobs (queue g)) (server ctx) = Ok srv_w /\
    if used g =? 0 then server ctx' = srv_w
    else exists bn pos,
      batches g !! Z.to_nat (next_batch g) = Some bn /\
      exec_stream fuel (buffer bn) (used g) 0 srv_w = Ok (pos, server ctx').
Proof.
  intros Hen Htid Hfifo H g.
  assert (jobs (queue (GLThread ctx')) = []) as Hempty.
  { pose proof (finish_Ok _ _ _ _ Hen Htid H)
      as (bl & _ & _ & _ & Hring & _ & Hsig & _).
    apply ring_fields in Hring. simpl in Hring.
    destruct Hring as (_ & _ & Hl & _). rewrite <- Hl in Hsig.
    apply fifo_signalled_empty; [by eapply finish_fifo | | done].
    simpl in Hsig. apply bind_Ok in Hsig as (b & Hb & _).
    by apply batch_at_Ok in Hb as [? _]. }
  unfold _mesa_glthread_finish in H. rewrite Hen in H. simpl in H.
  destruct (tid =? _) eqn:E; [lia|]. clear E.
  apply bind_Ok in H as (s & _ & H).
  apply bind_Ok in H as ([synced ctxw] & Hwait & H).
  assert (slept fuel ctx ctxw /\ producer_view ctxw = producer_view ctx)
    as [(rj & Hrj & Hx & _) Hv].
  { destruct s; simpl in Hwait.
    - injection Hwait as _ <-. split; [apply slept_refl | done].
    - apply bind_Ok in Hwait as (c & Hw & [= _ <-]).
      unfold util_queue_fence_wait in Hw.
      assert (fifo_ok (log (EvFenceWait (BatchFence (last g))) ctx)) as Hfifo0
        by (apply (fifo_ok_same ctx); by destruct ctx).
      pose proof (fence_wait_loop_slept _ _ _ _ _ Hfifo0 Hw) as Hs.
      apply fence_wait_loop_ran in Hw as [(Hv & _) _].
      split; [|rewrite Hv; by destruct ctx].
      unfold slept in *. by destruct ctx. }
  apply view_fields in Hv. simpl in Hv.
  destruct Hv as (_&_&_&Hnb&Hu&_&_&_&_&_&_&_&Hbufs&_).
  apply bind_Ok in H as ([synced' ctxd] & Hd & H).
  assert (jobs (queue (GLThread ctxd)) = jobs (queue (GLThread ctxw)) /\
          if used g =? 0 then server ctxd = server ctxw
          else exists bn pos,
            batches g !! Z.to_nat (next_batch g) = Some bn /\
            exec_stream fuel (buffer bn) (used g) 0 (server ctxw)
              = Ok (pos, server ctxd))
    as [Hjd Hsd].
  { rewrite Hu in Hd. fold g in Hd. destruct (used g =? 0); simpl in Hd;
      [by injection Hd as _ <-|].
    apply bind_Ok in Hd as (c2 & Hupd & Hd).
    apply bind_Ok in Hd as (c3 & Hrun & [= _ <-]).
    apply upd_batch_Ok in Hupd as (bnw & Hbnw & ->).
    apply batch_at_Ok in Hbnw as [Hn0 Hbnw]. simpl in Hbnw.
    pose proof (unmarshal_batch_server _ _ _ InitFence _ _ Hrun) as Hx3.
    apply unmarshal_batch_Ok in Hrun
      as (_ & _ & _ & _ & _ & _ & _ & _ & Hq & _).
    split; [simpl; rewrite Hq; by destruct ctxw|].
    assert ((buffer <$> batches g) !! Z.to_nat (next_batch g)
            = Some (buffer bnw)) as Hl.
    { unfold g in Hbnw |- *. by rewrite <- Hbufs, list_lookup_fmap, Hbnw. }
    rewrite list_lookup_fmap in Hl.
    destruct (batches g !! Z.to_nat (next_batch g)) as [bn|] eqn:Hbn;
      [|discriminate].
    injection Hl as Hl.
    simpl in Hx3.
    rewrite list_lookup_insert_eq in Hx3 by (by eapply lookup_lt_Some).
    simpl in Hx3. rewrite <- Hl in Hx3.
    destruct (exec_stream fuel (buffer bn) (used g) 0 (server ctxw))
      as [[pos srv]|] eqn:Hes; [|discriminate].
    simpl in Hx3. injection Hx3 as ->.
    exists bn, pos. split; [done|]. by destruct c3. }
  assert (jobs (queue (GLThread ctx')) = jobs (queue (GLThread ctxd)) /\
          server ctx' = server ctxd) as [Hj' Hs'].
  { destruct synced'; injection H as <-; by destruct ctxd. }
  rewrite Hj', Hjd in Hempty. rewrite Hempty, app_nil_r in Hrj.
  exists (server ctxw). split; [unfold g; by rewrite Hrj|].
  rewrite Hs'. exact Hsd.
Qed.

(** What submitting the current batch has done: the worker may have run
    jobs from the front of the queue while the caller waited for a slot;
    the batches still queued are as they were; and the batch submitted
    holds the records of the current batch. *)
Lemma submit_batch_server fuel ctx ctx' :
  engine_inv fuel ctx ->
  submit_batch fuel ctx = Ok ctx' ->
  let g := GLThread ctx in
  let g' := GLThread ctx' in
  let nb := next_batch g in
  exists d1 rest bn b',
    jobs (queue g) = d1 ++ rest /\
    jobs (queue g') = rest ++ [UnmarshalJob nb (BatchFence nb)] /\
    exec_jobs fuel (batches g) d1 (server ctx) = Ok (server ctx') /\
    (forall i f, UnmarshalJob i f ∈ rest ->
       batches g' !! Z.to_nat i = batches g !! Z.to_nat i) /\
    (batches g !! Z.to_nat nb = Some bn /\
     batches g' !! Z.to_nat nb = Some b' /\
     buffer b' = buffer bn /\ b_used b' = used g /\ fence b' = false) /\
    (enabled g' = enabled g /\ threads0 (queue g') = threads0 (queue g) /\
     used g' = 0 /\ last g' = nb).
Proof.
  intros Hinv H g g' nb.
  pose proof (current_batch_free _ _ Hinv) as [Hfree _]. fold g nb in Hfree.
  destruct Hinv as ((Hok & Hnn & HN) & Hfifo & Hrq).
  pose proof Hok as (_ & _ & Hlast & Hnext & _). fold g nb in Hnext, Hnn.
  unfold submit_batch in H. fold g nb in H.
  apply bind_Ok in H as (ctx1 & Hupd & H).
  apply bind_Ok in H as (ctx5 & Hadd & H).
  apply upd_batch_Ok in Hupd as (bn & Hbn & ->).
  apply batch_at_Ok in Hbn as [Hnb0 Hbn]. simpl in Hbn. fold g in Hbn.
  unfold util_queue_add_job in Hadd.
  apply bind_Ok in Hadd as (ctx3 & Hset & Hadd).
  apply bind_Ok in Hadd as (ctx4 & Hwait & [= <-]).
  simpl in Hset. apply upd_batch_Ok in Hset as (b2 & Hb2 & ->).
  apply batch_at_Ok in Hb2 as [_ Hb2]. simpl in Hb2. fold g in Hb2.
  assert (Z.to_nat nb < length (batches g))%nat as Hlt
    by (by eapply lookup_lt_Some).
  rewrite list_lookup_insert_eq in Hb2 by done. injection Hb2 as <-.
  match type of Hwait with slot_wait_loop _ _ ?c = _ => set (ctx3 := c) in * end.
  assert (jobs (queue (GLThread ctx3)) = jobs (queue g) /\
          server ctx3 = server ctx /\
          batches (GLThread ctx3) =
            <[Z.to_nat nb := set_fence false (set_b_used (used g) bn)]>
              (batches g) /\
          last (GLThread ctx3) = last g /\
          next (GLThread ctx3) = next g /\
          enabled (GLThread ctx3) = enabled g /\
          threads0 (queue (GLThread ctx3)) = threads0 (queue g))
    as (Hj3 & Hs3 & Hb3 & Hl3 & Hn3 & Hen3 & Ht3).
  { subst ctx3 g. destruct ctx as [g0]; simpl in *. split_and!; try done.
    by rewrite list_insert_insert_eq. }
  clearbody ctx3.
  assert (fifo_ok ctx3) as Hfifo3.
  { destruct Hfifo as (Hnd & Hshape & Hunsig & Hlastj).
    unfold fifo_ok, fifo_ok_of. rewrite Hj3, Hl3, Hb3, list_fmap_insert.
    split_and!; try done.
    intros i Hi Hin.
    destruct (decide (Z.to_nat i = Z.to_nat nb)) as [->|Hne].
    - apply list_lookup_insert_eq. by rewrite length_fmap.
    - rewrite list_lookup_insert_ne by done. by apply Hunsig. }
  destruct Hfifo as (Hnd & Hshape & _).
  pose proof (slot_wait_loop_slept _ _ _ _ Hfifo3 Hwait) as (d1 & Hd1 & Hx & Hfr).
  apply slot_wait_loop_ran in Hwait as (Hv4 & _).
  apply view_fields in Hv4. simpl in Hv4.
  destruct Hv4 as (Hen4&Hn4&_&_&_&_&_&_&_&Ht4&_).
  rewrite Hj3 in Hd1. rewrite Hs3 in Hx.
  assert (forall i f, UnmarshalJob i f ∈ jobs (queue g) ->
            0 <= i /\ f = BatchFence i /\ Z.to_nat i <> Z.to_nat nb) as Hq.
  { intros i f Hin. destruct (Hshape _ Hin) as (i' & Hi' & [= -> ->]).
    split_and!; [done | done |]. intros E. assert (i' = nb) as -> by lia. done. }
  assert (forall k, 0 <= k -> Z.to_nat k <> Z.to_nat nb ->
            UnmarshalJob k (BatchFence k) ∉ d1 ->
            batches (GLThread ctx4) !! Z.to_nat k = batches g !! Z.to_nat k)
    as Hsame.
  { intros k Hk Hne Hnotin. rewrite Hfr by done.
    by rewrite Hb3, list_lookup_insert_ne. }
  assert (batches (GLThread ctx4) !! Z.to_nat nb
          = Some (set_fence false (set_b_used (used g) bn))) as Hb4.
  { rewrite Hfr; [by rewrite Hb3, list_lookup_insert_eq | done |].
    intros Hin. apply Hfree. rewrite Hd1. apply elem_of_app. by left. }
  assert (exec_jobs fuel (batches g) d1 (server ctx) = Ok (server ctx4)) as Hx'.
  { rewrite <- Hx. symmetry. apply exec_jobs_ext. intros i f Hin.
    destruct (Hq i f) as (_ & _ & Hne);
      [rewrite Hd1; apply elem_of_app; by left|].
    by rewrite Hb3, list_lookup_insert_ne. }
  assert (forall i f, UnmarshalJob i f ∈ jobs (queue (GLThread ctx4)) ->
            batches (GLThread ctx4) !! Z.to_nat i = batches g !! Z.to_nat i)
    as Hrest.
  { intros i f Hin.
    destruct (Hq i f) as (Hi & -> & Hne);
      [rewrite Hd1; apply elem_of_app; by right|].
    apply Hsame; [done | done |]. intros Hin1.
    change (NoDup (jobs (queue g))) in Hnd.
    rewrite Hd1 in Hnd. apply NoDup_app in Hnd as (_ & Hdisj & _).
    by apply (Hdisj _ Hin1). }
  exists d1, (jobs (queue (GLThread ctx4))), bn,
    (set_fence false (set_b_used (used g) bn)).
  injection H as <-.
  assert (next g = nb) as Hnn' by done.
  clear Hq Hsame Hfr Hnd Hshape Hfree.
  destruct ctx4 as [[[js4 mj4 t4 al4] st4 en4 pc4 bs4 nb4 l4 n4 u4 cl4 bb4 pb4 dl4 v4]
                      csd4 clo4 me4 ccd4 bol4 tl4 scp4 spc4 srv4 gd4 bg4 ifc4 hp4 ev4].
  simpl in *.
  split_and!; try done; congruence.
Qed.

Lemma pin_threads_server cpu ctx : server (pin_threads cpu ctx) = server ctx.
Proof.
  rewrite pin_threads_eq. unfold count_flush.
  destruct (cache_domain cpu); [destruct (pinning_due ctx)|];
    destruct (_ && _); by destruct ctx.
Qed.

(** A completed [_mesa_glthread_finish] leaves nothing to run. *)
Lemma finish_empties fuel tid ctx ctx' :
  enabled (GLThread ctx) = true ->
  tid <> threads0 (queue (GLThread ctx)) ->
  fifo_ok ctx ->
  _mesa_glthread_finish fuel tid ctx = Ok ctx' ->
  jobs (queue (GLThread ctx')) = [] /\ used (GLThread ctx') = 0.
Proof.
  intros Hen Htid Hfifo H.
  pose proof (finish_Ok _ _ _ _ Hen Htid H)
    as (bl & _ & _ & _ & Hring & Hu & Hsig & _).
  split; [|done].
  apply ring_fields in Hring. simpl in Hring.
  destruct Hring as (_ & _ & Hl & _). rewrite <- Hl in Hsig.
  apply fifo_signalled_empty; [by eapply finish_fifo | | done].
  simpl in Hsig. apply bind_Ok in Hsig as (b & Hb & _).
  by apply batch_at_Ok in Hb as [? _].
Qed.

End Exec.

(** * The claims *)

Section Finish.

Context {env : glthread_env}.
Implicit Types (ctx : gl_context).

(** C7.  When [_mesa_glthread_finish] is called from the worker thread
    itself, that is when the calling thread is [queue.threads[0]], it
    returns at once and the state it returns is the state it was given:
    nothing has been waited for, nothing has been run, no counter has
    changed. *)
Theorem finish_on_worker_thread_is_identity (fuel : nat) (tid : Z) ctx :
  tid = threads0 (queue (GLThread ctx)) ->
  _mesa_glthread_finish fuel tid ctx = Ok ctx.
Proof.
  intros ->. unfold _mesa_glthread_finish.
  destruct (enabled (GLThread ctx)); simpl; [|done].
  by rewrite Z.eqb_refl.
Qed.

(** C1.  A call of [_mesa_glthread_finish] made on another thread than the
    worker, with the engine enabled.  Once it has returned, the fence of
    the batch submitted last is signalled and [used], the fill level of
    the current batch, is 0.  When the queue held the submitted batches
    in submission order, it has returned with the queue empty, and
    every command recorded before the call has been executed, in the
    order of recording: the GL state is the one that running the queued
    batches one after the other, oldest first, and then the records of
    the current batch makes of the GL state at the call.  And the call
    does return when the engine is in order. *)
Theorem finish_drains (fuel : nat) (tid : Z) ctx :
  enabled (GLThread ctx) = true ->
  tid <> threads0 (queue (GLThread ctx)) ->
  let g := GLThread ctx in
  (forall ctx',
     _mesa_glthread_finish fuel tid ctx = Ok ctx' ->
     (util_queue_fence_is_signalled (BatchFence (last (GLThread ctx'))) ctx'
        = Ok true /\
      used (GLThread ctx') = 0) /\
     (fifo_ok ctx ->
      jobs (queue (GLThread ctx')) = [] /\
      exists srv_w,
        exec_jobs fuel (batches g) (jobs (queue g)) (server ctx) = Ok srv_w /\
        if used g =? 0 then server ctx' = srv_w
        else exists bn pos,
          batches g !! Z.to_nat (next_batch g) = Some bn /\
          exec_stream fuel (buffer bn) (used g) 0 srv_w
            = Ok (pos, server ctx'))) /\
  (engine_ok fuel ctx ->
   exists ctx', _mesa_glthread_finish fuel tid ctx = Ok ctx').
Proof.
  intros Hen Htid g. split.
  - intros ctx' H. split.
    + pose proof (finish_Ok _ _ _ _ Hen Htid H)
        as (bl & evw & evd & _ & Hring & Hused & Hsig & _).
      apply ring_fields in Hring. simpl in Hring.
      destruct Hring as (_ & _ & -> & _). done.
    + intros Hfifo. split.
      * by destruct (finish_empties _ _ _ _ Hen Htid Hfifo H).
      * by apply (finish_server fuel tid).
  - intros Hok. destruct (finish_total fuel tid ctx Hok) as (ctx' & H & _).
    by exists ctx'.
Qed.

End Finish.

(** ** The concrete engine is in order *)

Lemma demo_busy_stream nd :
  @stream_ok (Demo.env nd) 8 3 [Demo.header 7 2; 0; Demo.header 9 1].
Proof.
  split; [lia|]. split; [lia|].
  apply (wf_record _ _ 0 (Demo.header 7 2) 2); try done.
  apply (wf_record _ _ 2 (Demo.header 9 1) 1); try done.
  apply wf_end.
Defined.

Lemma demo_busy_ok nd : @engine_ok (Demo.env nd) 8 (Demo.busy nd).
Proof.
  unfold engine_ok, runnable. simpl. split_and!; try done; try lia.
  - constructor; [|constructor]. simpl. split; [|lia].
    eexists. split; [reflexivity|]. apply demo_busy_stream.
  - intros i b Hb Hf.
    exists (UnmarshalJob 0 (BatchFence 0)).
    split; [apply list_elem_of_singleton; reflexivity|].
    destruct i as [|i]; [reflexivity|]. exfalso.
    do 7 (destruct i as [|i]; [simpl in Hb; injection Hb as <-; discriminate|]).
    discriminate.
  - intros b [= <-]. simpl. split; [lia|]. split; [lia|].
    apply (wf_record _ _ 0 (Demo.header 3 1) 1); try done.
    apply wf_end.
Defined.

Lemma finish_on_worker_thread_is_identity_witness :
  Demo.worker = threads0 (queue (GLThread (Demo.busy false))) /\
  _mesa_glthread_finish 8 Demo.worker (Demo.busy false) = Ok (Demo.busy false).
Proof.
  split; [reflexivity|].
  apply (finish_on_worker_thread_is_identity 8 Demo.worker (Demo.busy false)).
  reflexivity.
Defined.

Lemma demo_busy_fifo nd : @fifo_ok (Demo.env nd) (Demo.busy nd).
Proof.
  unfold fifo_ok, fifo_ok_of. simpl. split_and!.
  - apply NoDup_singleton.
  - intros j Hj. apply list_elem_of_singleton in Hj as ->. exists 0. by split.
  - intros i Hi Hin. apply list_elem_of_singleton in Hin.
    injection Hin as ->. reflexivity.
  - intros _. by exists [].
Defined.

Lemma finish_drains_witness :
  enabled (GLThread (Demo.busy false)) = true /\
  Demo.producer <> threads0 (queue (GLThread (Demo.busy false))) /\
  engine_ok 8 (Demo.busy false) /\
  fifo_ok (Demo.busy false) /\
  server (Demo.busy false) = [] /\
  exists ctx',
    _mesa_glthread_finish 8 Demo.producer (Demo.busy false) = Ok ctx' /\
    util_queue_fence_is_signalled (BatchFence (last (GLThread ctx'))) ctx'
      = Ok true /\
    used (GLThread ctx') = 0 /\
    jobs (queue (GLThread ctx')) = [] /\
    server ctx' = [7; 9; 3].
Proof.
  assert (Demo.producer <> threads0 (queue (GLThread (Demo.busy false))))
    as Hne by (vm_compute; discriminate).
  destruct (finish_drains 8 Demo.producer (Demo.busy false) eq_refl Hne)
    as [Hpost Hret].
  split; [reflexivity|]. split; [exact Hne|].
  split; [apply demo_busy_ok|]. split; [apply demo_busy_fifo|].
  split; [reflexivity|].
  destruct (Hret (demo_busy_ok false)) as (ctx' & Hfin).
  exists ctx'. split; [exact Hfin|].
  destruct (Hpost ctx' Hfin) as [[Hsig Hused] Hall].
  destruct (Hall (demo_busy_fifo false)) as (Hempty & srv_w & Hx & bn & pos & Hbn & Hes).
  split; [exact Hsig|]. split; [exact Hused|]. split; [exact Hempty|].
  injection Hx as <-. injection Hbn as <-.
  injection Hes as _ <-. reflexivity.
Defined.

Section FinishEffects.

Context {env : glthread_env}.
Implicit Types (ctx : gl_context).

(** C6.  A call of [_mesa_glthread_finish] made on another thread than the
    worker, with the engine enabled.  [b_last] is the batch submitted last
    as the call finds it, [evw] are the calls made while waiting for its
    fence, [evd] the calls made after that.
    - If [used] is not 0, the records of the current batch are unmarshalled
      by the calling thread ([evd] are unmarshal calls made on [tid] for
      batch [next_batch], and the batch ends with [used = 0]); no job is
      added to the queue, which can only have lost jobs; [used] is added
      to [num_direct_items], and [num_offloaded_items] stays as it was.
    - [num_syncs] is incremented once if the fence had to be waited for or
      the current batch was run, and stays as it was otherwise.
    When the engine is in order the call returns, and the last calls it
    has made decode the current batch from offset 0 to [used]. *)
Theorem finish_runs_current_batch_directly (fuel : nat) (tid : Z) ctx :
  enabled (GLThread ctx) = true ->
  tid <> threads0 (queue (GLThread ctx)) ->
  let g := GLThread ctx in
  (forall ctx',
     _mesa_glthread_finish fuel tid ctx = Ok ctx' ->
     let g' := GLThread ctx' in
     exists b_last evw evd,
       batch_at (last g) ctx = Ok b_last /\
       events ctx' = events ctx ++ evw ++ evd /\
       (if fence b_last then evw = []
        else exists evs,
          evw = EvFenceWait (BatchFence (last g)) :: evs /\
          Forall (fun e => exists i, dispatch_of (threads0 (queue g)) i e)
                 evs) /\
       (if used g =? 0 then evd = []
        else Forall (dispatch_of tid (next_batch g)) evd /\
             exists b, batch_at (next_batch g) ctx' = Ok b /\ b_used b = 0) /\
       (exists ran_jobs, jobs (queue g) = ran_jobs ++ jobs (queue g')) /\
       num_direct_items (stats g') =
         (if used g =? 0 then num_direct_items (stats g)
          else wrap32 (num_direct_items (stats g) + used g)) /\
       num_offloaded_items (stats g') = num_offloaded_items (stats g) /\
       num_syncs (stats g') =
         (if fence b_last && (used g =? 0) then num_syncs (stats g)
          else wrap32 (num_syncs (stats g) + 1))) /\
  (engine_ok fuel ctx ->
   exists ctx',
     _mesa_glthread_finish fuel tid ctx = Ok ctx' /\
     (used g <> 0 ->
      exists b pre evd,
        batch_at (next_batch g) ctx = Ok b /\
        events ctx' = pre ++ evd /\
        dispatch_chain tid (next_batch g) (buffer b) 0 (used g) evd)).
Proof.
  intros Hen Htid g. split.
  - intros ctx' H g'.
    apply finish_Ok in H
      as (bl & evw & evd & Hbl & _ & _ & _ & Hoff & Hdir & Hsync & Hjobs
          & Hev & Hw & Hd); [|done..].
    exists bl, evw, evd. by split_and!.
  - intros Hok.
    destruct (finish_total fuel tid ctx Hok) as (ctx' & H & _ & Hch).
    exists ctx'. split; [done|]. intros Hu. by apply Hch.
Qed.


End FinishEffects.

Lemma finish_runs_current_batch_directly_witness :
  enabled (GLThread (Demo.busy false)) = true /\
  Demo.producer <> threads0 (queue (GLThread (Demo.busy false))) /\
  engine_ok 8 (Demo.busy false) /\
  exists ctx',
    _mesa_glthread_finish 8 Demo.producer (Demo.busy false) = Ok ctx' /\
    num_direct_items (stats (GLThread ctx')) = 1 /\
    num_offloaded_items (stats (GLThread ctx')) = 3 /\
    num_syncs (stats (GLThread ctx')) = 1.
Proof.
  assert (Demo.producer <> threads0 (queue (GLThread (Demo.busy false))))
    as Hne by (vm_compute; discriminate).
  destruct (finish_runs_current_batch_directly 8 Demo.producer
              (Demo.busy false) eq_refl Hne) as [Hpost Hret].
  split; [reflexivity|]. split; [exact Hne|]. split; [apply demo_busy_ok|].
  destruct (Hret (demo_busy_ok false)) as (ctx' & Hfin & _).
  exists ctx'. split; [exact Hfin|].
  destruct (Hpost ctx' Hfin)
    as (bl & evw & evd & Hbl & _ & _ & _ & _ & Hdir & Hoff & Hsync).
  injection Hbl as <-. split; [exact Hdir|]. split; [exact Hoff | exact Hsync].
Defined.


Section Flush.

Context {env : glthread_env}.
Implicit Types (ctx : gl_context).


(** C4, as amended.  A call of [_mesa_glthread_flush_batch] with [used]
    at 0 returns the state it was given (no job is queued, no counter and
    no ring index moves) when the engine is disabled or the context is not
    lost. *)
Theorem flush_empty_batch_is_identity (fuel : nat) (cpu tid : Z) ctx :
  used (GLThread ctx) = 0 ->
  enabled (GLThread ctx) = false \/
  CurrentServerDispatch ctx <> ContextLost ctx ->
  _mesa_glthread_flush_batch fuel cpu tid ctx = Ok ctx.
Proof.
  intros Hu Hcase. unfold _mesa_glthread_flush_batch.
  destruct (enabled (GLThread ctx)); simpl; [|done].
  destruct Hcase as [|Hlost]; [done|].
  destruct (_ =? ContextLost ctx) eqn:E; [lia|].
  by rewrite Hu.
Qed.

(** C9.  A call of [_mesa_glthread_flush_batch] with the engine enabled
    and [CurrentServerDispatch] equal to [ContextLost] is a call of
    [_mesa_glthread_destroy], whether the current batch is empty or not:
    once it has returned the engine is disabled, the queue destroyed, the
    VAO table freed and the client dispatch reset, so the state is not the
    one the call was given.  And the call returns when the engine is in
    order. *)
Theorem flush_on_lost_context_destroys (fuel : nat) (cpu tid : Z) ctx :
  enabled (GLThread ctx) = true ->
  CurrentServerDispatch ctx = ContextLost ctx ->
  let g := GLThread ctx in
  _mesa_glthread_flush_batch fuel cpu tid ctx =
    _mesa_glthread_destroy fuel tid (Some "context lost"%string) ctx /\
  (forall ctx',
     _mesa_glthread_flush_batch fuel cpu tid ctx = Ok ctx' ->
     let g' := GLThread ctx' in
     enabled g' = false /\
     q_alive (queue g') = false /\
     CurrentClientDispatch ctx' = CurrentServerDispatch ctx /\
     heap ctx' = heap_free (VAOs g) (heap ctx) /\
     (exists pre, events ctx' = pre ++ [EvQueueDestroy]) /\
     ctx' <> ctx) /\
  (engine_ok fuel ctx ->
   exists ctx', _mesa_glthread_flush_batch fuel cpu tid ctx = Ok ctx').
Proof.
  intros Hen Hlost g.
  assert (_mesa_glthread_flush_batch fuel cpu tid ctx =
          _mesa_glthread_destroy fuel tid (Some "context lost"%string) ctx)
    as Heq.
  { unfold _mesa_glthread_flush_batch. rewrite Hen, Hlost, Z.eqb_refl. done. }
  split; [done|]. split.
  - intros ctx' H g'. rewrite Heq in H.
    apply destroy_Ok in H
      as (Hen' & Hq & Hccd & Hheap & _ & _ & _ & (ctx1 & _ & Hev & _)); [|done].
    split_and!; try done; [by eexists|].
    intros ->. unfold g' in Hen'. congruence.
  - intros Hok. rewrite Heq. by apply destroy_total.
Qed.

(** C8.  The CPU-affinity heuristic of [_mesa_glthread_flush_batch].
    - If the call has made pinning calls, then [num_L3_caches] is above 1,
      the driver has [set_context_param], and the incremented
      [pin_thread_counter] is a multiple of 128.
    - If the caller's CPU is unknown ([cpu < 0]) or its cache domain is
      ([U_CPU_INVALID_L3]), the call makes no pinning call, and when it
      submits it does exactly what it does on the state in which the
      heuristic has only counted the flush.
    And the call returns when the engine is in order. *)
Theorem pinning_is_rate_limited_and_best_effort (fuel : nat) (cpu tid : Z) ctx :
  let g := GLThread ctx in
  (forall ctx',
     _mesa_glthread_flush_batch fuel cpu tid ctx = Ok ctx' ->
     pin_log ctx' <> pin_log ctx ->
     1 < num_L3_caches /\
     set_context_param ctx = true /\
     wrap32 (pin_thread_counter g + 1) mod 128 = 0) /\
  (cpu < 0 \/ cpu_to_L3 cpu = U_CPU_INVALID_L3 ->
   (forall ctx',
      _mesa_glthread_flush_batch fuel cpu tid ctx = Ok ctx' ->
      pin_log ctx' = pin_log ctx) /\
   (enabled g = true ->
    CurrentServerDispatch ctx <> ContextLost ctx ->
    used g <> 0 ->
    _mesa_glthread_flush_batch fuel cpu tid ctx =
    submit_batch fuel (count_flush ctx))) /\
  (engine_ok fuel ctx ->
   exists ctx', _mesa_glthread_flush_batch fuel cpu tid ctx = Ok ctx').
Proof.
  intros g. split_and!.
  - intros ctx' H Hne. apply flush_pin_log in H.
    assert (pin_calls cpu ctx <> []) as Hcalls
      by (intros E; rewrite E, app_nil_r in H; done).
    unfold pin_calls in Hcalls.
    destruct (pinning_due ctx) eqn:Hdue;
      [|by rewrite andb_false_r in Hcalls].
    unfold pinning_due in Hdue.
    apply andb_prop in Hdue as [Hdue H128].
    apply andb_prop in Hdue as [HL3 Hscp].
    apply Z.ltb_lt in HL3. apply Z.eqb_eq in H128. by split_and!.
  - intros Hcpu.
    assert (cache_domain cpu = None) as Hnone.
    { unfold cache_domain. destruct Hcpu as [Hcpu|Hcpu].
      - by assert ((0 <=? cpu) = false) as -> by lia.
      - rewrite Hcpu, Z.eqb_refl. by rewrite andb_false_r. }
    split.
    + intros ctx' H. apply flush_pin_log in H. rewrite H.
      unfold pin_calls. rewrite Hnone.
      destruct (_ && _); by rewrite app_nil_r.
    + intros Hen Hlost Hused. rewrite flush_submits by done.
      by rewrite pin_threads_eq, Hnone.
  - intros Hok. destruct (flush_total fuel cpu tid ctx Hok) as (ctx' & H & _).
    eauto.
Qed.

End Flush.

Ltac demo_engine_ok :=
  unfold engine_ok, runnable; simpl; split_and!; try done; try lia;
  [ constructor; [|constructor]; simpl; (split; [|lia]);
    eexists; (split; [reflexivity|]); apply demo_busy_stream
  | let i := fresh "i" in let b := fresh "b" in
    let Hb := fresh "Hb" in let Hf := fresh "Hf" in
    intros i b Hb Hf;
    exists (UnmarshalJob 0 (BatchFence 0));
    (split; [apply list_elem_of_singleton; reflexivity|]);
    destruct i as [|i]; [reflexivity|]; exfalso;
    do 7 (destruct i as [|i]; [simpl in Hb; injection Hb as <-; discriminate|]);
    discriminate
  | let b := fresh "b" in
    intros b [= <-]; simpl; (split; [lia|]); (split; [lia|]);
    first [ apply wf_end
          | apply (wf_record _ _ 0 (Demo.header 3 1) 1); try done;
            apply wf_end ] ].

Lemma demo_lost_ok nd : @engine_ok (Demo.env nd) 8 (Demo.lost nd).
Proof. demo_engine_ok. Defined.

Lemma demo_idle_current_ok nd :
  @engine_ok (Demo.env nd) 8 (Demo.idle_current nd).
Proof. demo_engine_ok. Defined.

Lemma demo_due_ok nd : @engine_ok (Demo.env nd) 8 (Demo.due nd).
Proof. demo_engine_ok. Defined.

Lemma demo_busy_ring_ok nd : @ring_ok (Demo.env nd) 8 (Demo.busy nd).
Proof. split; [apply demo_busy_ok|]. by split. Defined.

Lemma demo_busy_inv nd : @engine_inv (Demo.env nd) 8 (Demo.busy nd).
Proof.
  split; [apply demo_busy_ring_ok|]. split; [apply demo_busy_fifo|].
  unfold ring_queue. simpl. split_and!; [| done | lia | reflexivity].
  intros [|p] j Hp; [by injection Hp as <-|done].
Defined.


(** C4 as stated fails: on a lost context a flush of an empty batch
    destroys the engine, and waiting for the batch submitted last is
    counted as a sync. *)
Lemma flush_empty_batch_lost_context_counterexample :
  used (GLThread (Demo.lost false)) = 0 /\
  exists ctx',
    _mesa_glthread_flush_batch 8 0 Demo.producer (Demo.lost false) = Ok ctx' /\
    num_syncs (stats (GLThread (Demo.lost false))) = 0 /\
    num_syncs (stats (GLThread ctx')) = 1 /\
    num_batches (stats (GLThread (Demo.lost false))) = 0 /\
    num_batches (stats (GLThread ctx')) = 1 /\
    enabled (GLThread (Demo.lost false)) = true /\
    enabled (GLThread ctx') = false.
Proof.
  split; [reflexivity|].
  assert (match _mesa_glthread_flush_batch 8 0 Demo.producer (Demo.lost false)
          with
          | Ok ctx' =>
            num_syncs (stats (GLThread (Demo.lost false))) = 0 /\
            num_syncs (stats (GLThread ctx')) = 1 /\
            num_batches (stats (GLThread (Demo.lost false))) = 0 /\
            num_batches (stats (GLThread ctx')) = 1 /\
            enabled (GLThread (Demo.lost false)) = true /\
            enabled (GLThread ctx') = false
          | Fail _ => False
          end) as H by (vm_compute; repeat split).
  destruct (_mesa_glthread_flush_batch 8 0 Demo.producer (Demo.lost false))
    as [ctx'|]; [|contradiction].
  exists ctx'. split; [reflexivity | exact H].
Qed.

Lemma flush_empty_batch_is_identity_witness :
  used (GLThread (Demo.idle_current false)) = 0 /\
  CurrentServerDispatch (Demo.idle_current false)
    <> ContextLost (Demo.idle_current false) /\
  _mesa_glthread_flush_batch 8 0 Demo.producer (Demo.idle_current false)
    = Ok (Demo.idle_current false).
Proof.
  assert (CurrentServerDispatch (Demo.idle_current false)
          <> ContextLost (Demo.idle_current false)) as Hlost
    by (vm_compute; discriminate).
  split; [reflexivity|]. split; [exact Hlost|].
  apply (flush_empty_batch_is_identity 8 0 Demo.producer
           (Demo.idle_current false) eq_refl (or_intror Hlost)).
Defined.

Lemma flush_on_lost_context_destroys_witness :
  enabled (GLThread (Demo.lost false)) = true /\
  CurrentServerDispatch (Demo.lost false) = ContextLost (Demo.lost false) /\
  engine_ok 8 (Demo.lost false) /\
  used (GLThread (Demo.lost false)) = 0 /\
  exists ctx',
    _mesa_glthread_flush_batch 8 0 Demo.producer (Demo.lost false) = Ok ctx' /\
    enabled (GLThread ctx') = false /\
    q_alive (queue (GLThread ctx')) = false /\
    heap ctx' = [300].
Proof.
  destruct (flush_on_lost_context_destroys 8 0 Demo.producer (Demo.lost false)
              eq_refl eq_refl) as (_ & Hpost & Hret).
  split; [reflexivity|]. split; [reflexivity|].
  split; [apply demo_lost_ok|]. split; [reflexivity|].
  destruct (Hret (demo_lost_ok false)) as (ctx' & Hflush).
  exists ctx'. split; [exact Hflush|].
  destruct (Hpost ctx' Hflush) as (Hen & Hq & _ & Hheap & _).
  split; [exact Hen|]. split; [exact Hq | exact Hheap].
Defined.

Lemma pinning_is_rate_limited_and_best_effort_witness :
  (* a flush that pins: the counter goes from 127 to 128 *)
  (exists ctx',
     _mesa_glthread_flush_batch 8 2 Demo.producer (Demo.due false) = Ok ctx' /\
     pin_log ctx' <> pin_log (Demo.due false) /\
     1 < @num_L3_caches (Demo.env false) /\
     set_context_param (Demo.due false) = true /\
     wrap32 (pin_thread_counter (GLThread (Demo.due false)) + 1) mod 128 = 0) /\
  (* the same flush when the CPU is unknown *)
  (-1 < 0 \/ @cpu_to_L3 (Demo.env false) (-1) = @U_CPU_INVALID_L3 (Demo.env false)) /\
  engine_ok 8 (Demo.due false) /\
  exists ctx',
    _mesa_glthread_flush_batch 8 (-1) Demo.producer (Demo.due false) = Ok ctx' /\
    pin_log ctx' = pin_log (Demo.due false) /\
    pin_thread_counter (GLThread ctx') = 128.
Proof.
  split.
  - destruct (pinning_is_rate_limited_and_best_effort 8 2 Demo.producer
                (Demo.due false)) as (Hpin & _ & Hret).
    destruct (Hret (demo_due_ok false)) as (ctx' & Hflush).
    exists ctx'. split; [exact Hflush|].
    assert (pin_log ctx' <> pin_log (Demo.due false)) as Hne.
    { rewrite (flush_pin_log _ _ _ _ _ Hflush). vm_compute. discriminate. }
    split; [exact Hne|]. exact (Hpin ctx' Hflush Hne).
  - assert (-1 < 0 \/ @cpu_to_L3 (Demo.env false) (-1)
                      = @U_CPU_INVALID_L3 (Demo.env false)) as Hcpu
      by (left; lia).
    destruct (pinning_is_rate_limited_and_best_effort 8 (-1) Demo.producer
                (Demo.due false)) as (_ & Hbest & Hret).
    destruct (Hbest Hcpu) as [Hlog Hsame].
    split; [exact Hcpu|]. split; [apply demo_due_ok|].
    destruct (Hret (demo_due_ok false)) as (ctx' & Hflush).
    exists ctx'. split; [exact Hflush|]. split; [exact (Hlog ctx' Hflush)|].
    rewrite Hsame in Hflush;
      [|reflexivity | vm_compute; discriminate | vm_compute; discriminate].
    apply submit_batch_Ok in Hflush as (_&_&_&_&_&_&_&_&_&(_&Hpc&_)).
    exact Hpc.
Defined.

Section Unmarshal.

Context {env : glthread_env}.
Implicit Types (ctx : gl_context) (b : glthread_batch).

(** C2.  [glthread_unmarshal_batch] on a batch handed over by the engine,
    whose record stream is well formed, which is what the dispatch
    adapter guarantees (from offset 0 on, every record reports a positive
    size and the last one ends at [used]): the callback returns; the
    unmarshal calls it has made start at offset 0, each one is made where
    the one before it stopped and advances the cursor by what it returns;
    the loop is left with the cursor at [used] exactly, so the assertion
    holds; the batch is left with [used = 0] and [num_batches] has been
    incremented.  On any batch, a callback that returns has reset [used]
    and incremented [num_batches], and has left the loop with the cursor
    at [used] or beyond it, at [used] when assertions are compiled in. *)
Theorem unmarshal_batch_decodes_in_order (fuel : nat) (tid i : Z) ctx b :
  batch_at i ctx = Ok b ->
  let ctx0 :=
    set_TexturesLocked true
      (set_BufferObjectsLocked true
         (_glapi_set_dispatch tid (CurrentServerDispatch ctx) ctx)) in
  (stream_ok fuel (b_used b) (buffer b) ->
   exists ctx' evs ctx1,
     glthread_unmarshal_batch fuel tid i ctx = Ok ctx' /\
     unmarshal_loop fuel tid i (buffer b) (b_used b) 0 ctx0
       = Ok (b_used b, ctx1) /\
     events ctx' = events ctx ++ evs /\
     dispatch_chain tid i (buffer b) 0 (b_used b) evs /\
     batch_at i ctx' = Ok (set_b_used 0 b) /\
     num_batches (stats (GLThread ctx')) =
       wrap32 (num_batches (stats (GLThread ctx)) + 1)) /\
  (forall ctx',
     glthread_unmarshal_batch fuel tid i ctx = Ok ctx' ->
     batch_at i ctx' = Ok (set_b_used 0 b) /\
     num_batches (stats (GLThread ctx')) =
       wrap32 (num_batches (stats (GLThread ctx)) + 1) /\
     exists pos ctx1,
       unmarshal_loop fuel tid i (buffer b) (b_used b) 0 ctx0
       = Ok (pos, ctx1) /\
       b_used b <= pos /\ (NDEBUG = false -> pos = b_used b)).
Proof.
  intros Hb ctx0.
  assert (forall ctx',
    glthread_unmarshal_batch fuel tid i ctx = Ok ctx' ->
    batch_at i ctx' = Ok (set_b_used 0 b) /\
    num_batches (stats (GLThread ctx')) =
      wrap32 (num_batches (stats (GLThread ctx)) + 1)) as Hdone.
  { intros ctx' H. apply unmarshal_batch_Ok in H
      as (b' & _ & _ & Hb' & _ & _ & _ & _ & _ & Hbs & _ & Hnum & _).
    assert (b' = b) as -> by congruence. split; [|done].
    apply batch_at_Ok in Hb as [Hi Hb]. apply batch_at_Ok. split; [done|].
    rewrite Hbs. apply list_lookup_insert_eq. by eapply lookup_lt_Some. }
  split.
  - intros Hok.
    destruct (unmarshal_batch_total fuel tid i ctx b Hb Hok)
      as (ctx' & evs & Hrun & Hev & Hch).
    destruct Hok as ([_ Hlt] & Hfuel & Hwf).
    destruct (unmarshal_loop_wf tid i _ _ _ Hwf Hlt fuel ctx0)
      as (srv & evs0 & Hloop & _); [lia|].
    exists ctx', evs, (ran srv evs0 ctx0).
    destruct (Hdone ctx' Hrun). by split_and!.
  - intros ctx' H. destruct (Hdone ctx' H) as [H1 H2].
    split; [done|]. split; [done|].
    unfold glthread_unmarshal_batch in H. rewrite Hb in H. simpl in H.
    apply bind_Ok in H as ([pos ctx1] & Hloop & H).
    apply bind_Ok in H as ([] & Hassert & _).
    exists pos, ctx1. split; [done|].
    apply unmarshal_loop_shape in Hloop as (_ & _ & _ & _ & Hle).
    split; [done|]. intros Hn. unfold c_assert in Hassert.
    rewrite Hn in Hassert. simpl in Hassert.
    destruct (pos =? b_used b) eqn:E; [lia | discriminate].
Qed.

End Unmarshal.

Lemma unmarshal_batch_decodes_in_order_witness :
  batch_at 0 (Demo.busy false)
    = Ok (mk_batch false 3 [Demo.header 7 2; 0; Demo.header 9 1]) /\
  @stream_ok (Demo.env false) 8 3 [Demo.header 7 2; 0; Demo.header 9 1] /\
  exists ctx',
    glthread_unmarshal_batch 8 Demo.worker 0 (Demo.busy false) = Ok ctx' /\
    events ctx' = [EvDispatch Demo.worker 0 0 7 2; EvDispatch Demo.worker 0 2 9 1] /\
    batch_at 0 ctx'
      = Ok (mk_batch false 0 [Demo.header 7 2; 0; Demo.header 9 1]) /\
    num_batches (stats (GLThread ctx')) = 1.
Proof.
  split; [reflexivity|]. split; [apply demo_busy_stream|].
  destruct (unmarshal_batch_decodes_in_order 8 Demo.worker 0 (Demo.busy false)
              _ eq_refl) as [Hwf Hany].
  destruct (Hwf (demo_busy_stream false))
    as (ctx' & evs & ctx1 & Hrun & _ & Hev & Hch & Hb & Hnum).
  exists ctx'. split; [exact Hrun|]. split; [|split; [exact Hb | exact Hnum]].
  rewrite Hev. simpl in Hch.
  destruct evs as [|e1 evs]; [discriminate Hch|].
  destruct Hch as (h1 & n1 & Hh1 & -> & Hn1 & _ & _ & Hch).
  injection Hh1 as <-. specialize (Hn1 []). simpl in Hn1. subst n1.
  destruct evs as [|e2 evs]; [discriminate Hch|].
  destruct Hch as (h2 & n2 & Hh2 & -> & Hn2 & _ & _ & Hch).
  injection Hh2 as <-. specialize (Hn2 []). simpl in Hn2. subst n2.
  destruct evs as [|e3 evs]; [reflexivity|].
  destruct Hch as (h3 & n3 & Hh3 & _). discriminate Hh3.
Defined.

Section Init.

Context {env : glthread_env}.
Implicit Types (ctx : gl_context).

(** C5, as amended.  [_mesa_glthread_init] on a context whose engine is
    disabled, as the function asserts.  It hands back no value.
    - If one of the two capabilities is not supported, or the queue cannot
      be initialised, the state is returned as it was given.
    - If the VAO table or the dispatch table cannot be allocated, the
      engine is left disabled, the queue has been destroyed and the live
      allocations are those the call found.
    - If the engine is enabled when the call returns, both capabilities are
      supported and the three allocations have succeeded.
    - If they all succeed, on a ring of more than two batches the call
      returns with the engine enabled, the two tables allocated, the
      queue empty and the worker initialised. *)
Theorem init_leaves_engine_disabled_on_failure
  (e : init_env) (fuel : nat) ctx :
  enabled (GLThread ctx) = false ->
  let unsupported :=
    (cap_map_unsynchronized_thread_safe e =? 0)
    || (cap_allow_mapped_buffers_during_execution e =? 0) in
  (unsupported = true \/ queue_init_ok e = false ->
   _mesa_glthread_init e fuel ctx = Ok (ReturnsVoid, ctx)) /\
  (unsupported = false -> queue_init_ok e = true ->
   new_hash_table e = 0 \/ alloc_dispatch_table e = 0 ->
   exists ctx',
     _mesa_glthread_init e fuel ctx = Ok (ReturnsVoid, ctx') /\
     enabled (GLThread ctx') = false /\
     q_alive (queue (GLThread ctx')) = false /\
     heap ctx' = heap ctx) /\
  (forall r ctx',
     _mesa_glthread_init e fuel ctx = Ok (r, ctx') ->
     r = ReturnsVoid /\
     (enabled (GLThread ctx') = true ->
      unsupported = false /\ queue_init_ok e = true /\
      new_hash_table e <> 0 /\ alloc_dispatch_table e <> 0)) /\
  (unsupported = false -> queue_init_ok e = true ->
   new_hash_table e <> 0 -> alloc_dispatch_table e <> 0 ->
   2 < MARSHAL_MAX_BATCHES <= Z.of_nat (length (batches (GLThread ctx))) ->
   exists ctx',
     _mesa_glthread_init e fuel ctx = Ok (ReturnsVoid, ctx') /\
     enabled (GLThread ctx') = true /\
     heap ctx' = alloc_dispatch_table e :: new_hash_table e :: heap ctx /\
     jobs (queue (GLThread ctx')) = [] /\
     background_context ctx' = true).
Proof.
  intros Hen unsupported.
  assert (c_assert (negb (enabled (GLThread ctx))) = Ok tt) as Hassert
    by (unfold c_assert; rewrite Hen; simpl; by rewrite orb_true_r).
  unfold _mesa_glthread_init. rewrite Hassert. simpl.
  fold unsupported. unfold util_queue_init.
  split_and!.
  - intros [->|Hq]; [done|]. destruct unsupported; [done|]. by rewrite Hq.
  - intros -> -> Hfail. simpl.
    destruct (new_hash_table e =? 0) eqn:Hh.
    { eexists. split; [done|]. by destruct ctx. }
    destruct Hfail as [Hfail|Hfail]; [lia|].
    simpl. rewrite Hfail. simpl.
    eexists. split; [done|]. split_and!; try by destruct ctx.
    destruct ctx; simpl. by rewrite Z.eqb_refl.
  - intros r ctx'.
    destruct unsupported.
    { intros [= <- <-]. split; [done|]. congruence. }
    destruct (queue_init_ok e); simpl;
      [|intros [= <- <-]; split; [done|]; congruence].
    destruct (new_hash_table e =? 0) eqn:Hh.
    { intros [= <- <-]. split; [done|]. destruct ctx; simpl in *. congruence. }
    destruct (alloc_dispatch_table e =? 0) eqn:Ha.
    { intros [= <- <-]. split; [done|]. destruct ctx; simpl in *. congruence. }
    intros H. apply bind_Ok in H as (c1 & _ & H).
    apply bind_Ok in H as (c2 & _ & H).
    apply bind_Ok in H as (c3 & _ & [= <- <-]).
    split; [done|]. intros _. split_and!; [done | done | lia | lia].
  - intros -> -> Hh Ha [HN Hlen]. simpl.
    destruct (new_hash_table e =? 0) eqn:Hh'; [lia|].
    destruct (alloc_dispatch_table e =? 0) eqn:Ha'; [lia|].
    match goal with |- exists _, init_batch_fences _ _ ?c ≫= _ = _ /\ _ =>
      set (c0 := c) end.
    assert (0 + Z.of_nat (Z.to_nat MARSHAL_MAX_BATCHES)
            <= Z.of_nat (length (batches (GLThread c0)))) as Hlen0.
    { rewrite Z2Nat.id by lia. exact Hlen. }
    destruct (init_batch_fences_total (Z.to_nat MARSHAL_MAX_BATCHES) 0 c0
                (Z.le_refl 0) Hlen0) as (ctx1 & Hfences).
    rewrite Hfences. cbv beta iota zeta delta [mbind result_bind].
    apply init_batch_fences_Ok in Hfences as (Hv & Hq & _).
    apply view_fields in Hv. simpl in Hv.
    destruct Hv as (_&_&_&_&_&_&_&_&_&_&_&_&_&_&_&_&Hheap&_).
    assert (queue (GLThread ctx1)
            = mk_queue [] (MARSHAL_MAX_BATCHES - 2) (worker_thread e) true)
      as Hq1 by (rewrite Hq; subst c0; by destruct ctx).
    assert (heap ctx1 = alloc_dispatch_table e :: new_hash_table e :: heap ctx)
      as Hheap1 by (rewrite Hheap; subst c0; by destruct ctx).
    assert (jobs (queue (GLThread ctx1)) = [] /\
            q_alive (queue (GLThread ctx1)) = true /\
            0 < max_jobs (queue (GLThread ctx1))) as (Hj1 & Ha1 & Hm1)
      by (rewrite Hq1; simpl; split_and!; [done | done | lia]).
    clear Hq Hheap. clearbody c0.
    match goal with |- context [util_queue_add_job _ _ ?c] =>
      set (c2 := c) end.
    assert (jobs (queue (GLThread c2)) = [] /\
            q_alive (queue (GLThread c2)) = true /\
            0 < max_jobs (queue (GLThread c2)) /\
            enabled (GLThread c2) = true /\ heap c2 = heap ctx1)
      as (Hj2 & Ha2 & Hm2 & Hen2 & Hh2) by (by destruct ctx1).
    clearbody c2.
    destruct (thread_init_handshake fuel c2 Hj2 Ha2 Hm2)
      as (c3 & c4 & -> & Hwait & Hv4 & Hj4 & Hbg4).
    cbv beta iota. rewrite Hwait.
    eexists. split; [reflexivity|].
    apply view_fields in Hv4. simpl in Hv4.
    destruct Hv4 as (Hen4&_&_&_&_&_&_&_&_&_&_&_&_&_&_&_&Hh4&_).
    split_and!; [congruence | congruence | done | done].
Qed.

End Init.

(** C5 as stated fails: the function is declared [void], so on an
    unsupported backend what it hands back is not [false]. *)
Lemma init_returns_void_counterexample :
  (cap_allow_mapped_buffers_during_execution Demo.unsupported =? 0) = true /\
  _mesa_glthread_init Demo.unsupported 8 (Demo.fresh false)
    = Ok (ReturnsVoid, Demo.fresh false) /\
  (forall ctx',
     _mesa_glthread_init Demo.unsupported 8 (Demo.fresh false)
     <> Ok (ReturnsBool false, ctx')).
Proof.
  split; [reflexivity|]. split; [reflexivity|]. intros ctx' H.
  assert (_mesa_glthread_init Demo.unsupported 8 (Demo.fresh false)
          = Ok (ReturnsVoid, Demo.fresh false)) as E by reflexivity.
  rewrite E in H. discriminate H.
Qed.

Lemma init_leaves_engine_disabled_on_failure_witness :
  (* the dispatch table cannot be allocated *)
  (enabled (GLThread (Demo.fresh false)) = false /\
   exists ctx',
     _mesa_glthread_init Demo.no_dispatch_table 8 (Demo.fresh false)
       = Ok (ReturnsVoid, ctx') /\
     enabled (GLThread ctx') = false /\
     q_alive (queue (GLThread ctx')) = false /\
     heap ctx' = []) /\
  (* every allocation succeeds *)
  (2 < @MARSHAL_MAX_BATCHES (Demo.env false)
     <= Z.of_nat (length (batches (GLThread (Demo.fresh false)))) /\
   exists ctx',
     _mesa_glthread_init Demo.all_good 8 (Demo.fresh false)
       = Ok (ReturnsVoid, ctx') /\
     enabled (GLThread ctx') = true /\
     heap ctx' = [300; 4096]).
Proof.
  split.
  - split; [reflexivity|].
    destruct (init_leaves_engine_disabled_on_failure Demo.no_dispatch_table 8
                (Demo.fresh false) eq_refl) as (_ & Hfail & _).
    destruct (Hfail eq_refl eq_refl (or_intror eq_refl))
      as (ctx' & Hinit & Hen & Hq & Hheap).
    exists ctx'. by split_and!.
  - assert (2 < @MARSHAL_MAX_BATCHES (Demo.env false)
              <= Z.of_nat (length (batches (GLThread (Demo.fresh false)))))
      as HN by (vm_compute; split; [reflexivity | discriminate]).
    split; [exact HN|].
    destruct (init_leaves_engine_disabled_on_failure Demo.all_good 8
                (Demo.fresh false) eq_refl) as (_ & _ & _ & Hgood).
    destruct (Hgood eq_refl eq_refl) as (ctx' & Hinit & Hen & Hheap & _);
      [vm_compute; discriminate | vm_compute; discriminate | exact HN |].
    exists ctx'. by split_and!.
Defined.

(** * Further properties of the code *)

(** ** The callback *)

Section CallbackExtras.

Context {env : glthread_env}.
Implicit Types (ctx : gl_context) (b : glthread_batch).

(** X1.  Once [glthread_unmarshal_batch] has returned from batch [i] on thread
    [tid]: both lock flags are down again; thread [tid] dispatches to
    [CurrentServerDispatch] and every other thread to what it dispatched
    to before; [LastProgramChangeBatch] and [LastDListChangeBatchIndex]
    are -1 if they were [i] and are untouched otherwise; no other batch
    than [i] has changed, and no fence and no buffer at all; the queue
    and all that the producer owns are as they were. *)
Theorem unmarshal_batch_releases_and_clears (fuel : nat) (tid i : Z) ctx ctx' :
  glthread_unmarshal_batch fuel tid i ctx = Ok ctx' ->
  let g := GLThread ctx in
  let g' := GLThread ctx' in
  BufferObjectsLocked ctx' = false /\ TexturesLocked ctx' = false /\
  glapi_dispatch ctx' tid = CurrentServerDispatch ctx /\
  (forall t, t <> tid -> glapi_dispatch ctx' t = glapi_dispatch ctx t) /\
  LastProgramChangeBatch g' =
    (if LastProgramChangeBatch g =? i then -1 else LastProgramChangeBatch g) /\
  LastDListChangeBatchIndex g' =
    (if LastDListChangeBatchIndex g =? i then -1
     else LastDListChangeBatchIndex g) /\
  (forall k, k <> Z.to_nat i -> batches g' !! k = batches g !! k) /\
  fence <$> batches g' = fence <$> batches g /\
  buffer <$> batches g' = buffer <$> batches g /\
  queue g' = queue g /\
  producer_view ctx' = producer_view ctx.
Proof.
  intros H g g'.
  pose proof (unmarshal_batch_state _ _ _ _ _ H) as (Hbo & Htl & Hd & Hp & Hl & _).
  pose proof (unmarshal_batch_fences _ _ _ _ _ H) as Hf.
  apply unmarshal_batch_Ok in H
    as (b & pos & evs & Hb & _ & _ & _ & Hv & Hq & Hbs & _).
  pose proof (view_fields _ _ Hv) as Hvf. simpl in Hvf.
  destruct Hvf as (_&_&_&_&_&_&_&_&_&_&_&_&Hbuf&_).
  split_and!; try done.
  - by rewrite Hd, Z.eqb_refl.
  - intros t Ht. rewrite Hd. by destruct (t =? tid) eqn:E; [lia|].
  - intros k Hk. unfold g'. rewrite Hbs. by apply list_lookup_insert_ne.
Qed.

(** X2.  A record for which the unmarshal function returns 0 stops the decode
    loop from advancing: when the first record of a non-empty batch is
    such a record, [glthread_unmarshal_batch] does not return, whatever
    the fuel. *)
Theorem unmarshal_zero_size_record_never_returns
  (fuel : nat) (tid i : Z) ctx b hdr :
  batch_at i ctx = Ok b ->
  0 < b_used b ->
  buffer b !! 0%nat = Some hdr ->
  (forall srv,
     snd (_mesa_unmarshal_dispatch (cmd_id_of hdr) srv (buffer b)) = 0) ->
  glthread_unmarshal_batch fuel tid i ctx = Fail OutOfFuel.
Proof.
  intros Hb Hu Hhdr Hzero. unfold glthread_unmarshal_batch. rewrite Hb. simpl.
  by rewrite (unmarshal_loop_zero tid i (buffer b) (b_used b) 0 hdr).
Qed.

End CallbackExtras.

Ltac run_demo op :=
  let H := fresh "Hrun" in
  assert (match op with Ok _ => True | Fail _ => False end) as H
    by (vm_compute; exact I);
  destruct op as [?ctx'|] eqn:?E; [clear H | contradiction].

Lemma unmarshal_batch_releases_and_clears_witness :
  exists ctx',
    glthread_unmarshal_batch 8 Demo.worker 0 (Demo.tracked false) = Ok ctx' /\
    BufferObjectsLocked ctx' = false /\ TexturesLocked ctx' = false /\
    glapi_dispatch ctx' Demo.worker = 100 /\
    LastProgramChangeBatch (GLThread ctx') = -1 /\
    LastDListChangeBatchIndex (GLThread ctx') = 1.
Proof.
  run_demo (glthread_unmarshal_batch 8 Demo.worker 0 (Demo.tracked false)).
  exists ctx'. split; [reflexivity|].
  destruct (unmarshal_batch_releases_and_clears 8 Demo.worker 0
              (Demo.tracked false) ctx' E)
    as (Hbo & Htl & Hd & _ & Hp & Hl & _).
  split; [exact Hbo|]. split; [exact Htl|]. split; [exact Hd|].
  split; [exact Hp | exact Hl].
Defined.

Lemma unmarshal_zero_size_record_never_returns_witness :
  0 < b_used (mk_batch false 1 [Demo.header 3 0]) /\
  glthread_unmarshal_batch 1000 Demo.worker 0 (Demo.stuck false)
    = Fail OutOfFuel.
Proof.
  split; [reflexivity|].
  apply (unmarshal_zero_size_record_never_returns 1000 Demo.worker 0
           (Demo.stuck false) (mk_batch false 1 [Demo.header 3 0])
           (Demo.header 3 0)).
  - reflexivity.
  - reflexivity.
  - reflexivity.
  - intros srv. reflexivity.
Defined.

Section FinishExtras.

Context {env : glthread_env}.
Implicit Types (ctx : gl_context) (b : glthread_batch).

(** X3.  A second [_mesa_glthread_finish] made by the same thread right after a
    first one finds nothing to do: it returns the state the first one
    returned, so it waits for nothing, runs nothing and counts no sync. *)
Theorem finish_twice (fuel fuel' : nat) (tid : Z) ctx ctx' :
  _mesa_glthread_finish fuel tid ctx = Ok ctx' ->
  _mesa_glthread_finish fuel' tid ctx' = Ok ctx'.
Proof.
  intros H.
  destruct (enabled (GLThread ctx)) eqn:Hen.
  2: { unfold _mesa_glthread_finish in H. rewrite Hen in H.
       injection H as <-. unfold _mesa_glthread_finish. by rewrite Hen. }
  destruct (decide (tid = threads0 (queue (GLThread ctx)))) as [Heq|Hne].
  { rewrite finish_self_guard in H by done. injection H as <-.
    by apply finish_self_guard. }
  apply finish_Ok in H as (bl & evw & evd & _ & Hring & Hused & Hsig & _);
    [|done..].
  apply ring_fields in Hring. simpl in Hring.
  destruct Hring as (Hen' & _ & Hl & _ & _ & _ & Ht & _).
  unfold _mesa_glthread_finish. cbv zeta.
  rewrite Hen', Hen, Ht. cbn [negb].
  destruct (tid =? _) eqn:E; [lia|].
  rewrite Hl, Hsig. simpl. by rewrite Hused.
Qed.

(** X4.  [_mesa_glthread_finish] hands every thread but the worker the dispatch
    table it had, the calling thread included: the table that
    [glthread_unmarshal_batch] installs while the current batch is run
    from the calling thread is replaced by the one found before. *)
Theorem finish_restores_dispatch (fuel : nat) (tid : Z) ctx ctx' :
  _mesa_glthread_finish fuel tid ctx = Ok ctx' ->
  glapi_dispatch ctx' tid = glapi_dispatch ctx tid /\
  (forall t, t <> threads0 (queue (GLThread ctx)) ->
     glapi_dispatch ctx' t = glapi_dispatch ctx t) /\
  CurrentClientDispatch ctx' = CurrentClientDispatch ctx /\
  CurrentServerDispatch ctx' = CurrentServerDispatch ctx.
Proof.
  intros H.
  pose proof (finish_dispatch _ _ _ _ H) as Hd.
  pose proof (finish_keeps _ _ _ _ H) as (Hring & _).
  split_and!; [ | done | |].
  - destruct (decide (tid = threads0 (queue (GLThread ctx)))) as [Heq|Hne];
      [|by apply Hd].
    rewrite finish_self_guard in H by done. by injection H as <-.
  - unfold ring_view in Hring. by simplify_eq.
  - unfold ring_view in Hring. by simplify_eq.
Qed.

End FinishExtras.

Lemma finish_twice_witness :
  exists ctx',
    _mesa_glthread_finish 8 Demo.producer (Demo.busy false) = Ok ctx' /\
    _mesa_glthread_finish 8 Demo.producer ctx' = Ok ctx'.
Proof.
  run_demo (_mesa_glthread_finish 8 Demo.producer (Demo.busy false)).
  exists ctx'. split; [reflexivity|].
  exact (finish_twice 8 8 Demo.producer (Demo.busy false) ctx' E).
Defined.

Lemma finish_restores_dispatch_witness :
  exists ctx',
    _mesa_glthread_finish 8 Demo.producer (Demo.busy false) = Ok ctx' /\
    glapi_dispatch (Demo.busy false) Demo.producer = 300 /\
    CurrentServerDispatch (Demo.busy false) = 100 /\
    glapi_dispatch ctx' Demo.producer = 300.
Proof.
  run_demo (_mesa_glthread_finish 8 Demo.producer (Demo.busy false)).
  exists ctx'. split; [reflexivity|]. split; [reflexivity|].
  split; [reflexivity|].
  destruct (finish_restores_dispatch 8 Demo.producer (Demo.busy false) ctx' E)
    as (Hd & _).
  exact Hd.
Defined.

(** ** Tear-down *)

Section DestroyExtras.

Context {env : glthread_env}.
Implicit Types (ctx : gl_context) (b : glthread_batch).

(** [_mesa_glthread_destroy] on an enabled engine is
    [_mesa_glthread_finish] followed by the teardown. *)
Lemma destroy_shape fuel tid reason ctx ctx' :
  enabled (GLThread ctx) = true ->
  _mesa_glthread_destroy fuel tid reason ctx = Ok ctx' ->
  exists ctx1,
    _mesa_glthread_finish fuel tid
      (match reason with Some r => log (EvDebug r) ctx | None => ctx end)
    = Ok ctx1 /\
    used (GLThread ctx') = used (GLThread ctx1) /\
    jobs (queue (GLThread ctx')) = jobs (queue (GLThread ctx1)) /\
    events ctx' = events ctx1 ++ [EvQueueDestroy] /\
    stats (GLThread ctx') = stats (GLThread ctx1) /\
    batches (GLThread ctx') = batches (GLThread ctx1) /\
    server ctx' = server ctx1 /\
    MarshalExec ctx' = MarshalExec ctx1 /\
    forall t, glapi_dispatch ctx' t =
      if (t =? tid) && (glapi_dispatch ctx1 tid =? MarshalExec ctx1)
      then CurrentServerDispatch ctx1 else glapi_dispatch ctx1 t.
Proof.
  intros Hen. unfold _mesa_glthread_destroy. rewrite Hen. simpl.
  intros H. apply bind_Ok in H as (ctx1 & Hfin & H).
  exists ctx1. split; [done|].
  destruct ctx1 as [g1 csd1 cl1 me1 ccd1 bo1 tl1 scp1 spc1 srv1 gd1 bg1 if1 hp1 ev1].
  simpl in H. destruct (gd1 tid =? me1) eqn:E; injection H as <-; simpl;
    split_and!; try done; intros t.
  - rewrite E, andb_true_r. by destruct (t =? tid).
  - by rewrite E, andb_false_r.
Qed.

(** X5.  Once [_mesa_glthread_destroy] has returned, the engine is disabled
    and stays so: every later [_mesa_glthread_destroy],
    [_mesa_glthread_flush_batch] and [_mesa_glthread_finish], from
    whatever thread, returns the state it is given, and so leaves the
    destroyed queue alone. *)
Theorem destroy_is_final (fuel : nat) (tid : Z) (reason : option string)
  ctx ctx' :
  _mesa_glthread_destroy fuel tid reason ctx = Ok ctx' ->
  enabled (GLThread ctx') = false /\
  (forall fuel' tid' reason',
     _mesa_glthread_destroy fuel' tid' reason' ctx' = Ok ctx') /\
  (forall fuel' cpu tid',
     _mesa_glthread_flush_batch fuel' cpu tid' ctx' = Ok ctx') /\
  (forall fuel' tid', _mesa_glthread_finish fuel' tid' ctx' = Ok ctx').
Proof.
  intros H.
  assert (enabled (GLThread ctx') = false) as Hen'.
  { destruct (enabled (GLThread ctx)) eqn:Hen.
    - by apply destroy_Ok in H as (? & _).
    - unfold _mesa_glthread_destroy in H. rewrite Hen in H.
      by injection H as <-. }
  split; [done|]. split_and!; intros.
  - unfold _mesa_glthread_destroy. by rewrite Hen'.
  - unfold _mesa_glthread_flush_batch. by rewrite Hen'.
  - unfold _mesa_glthread_finish. by rewrite Hen'.
Qed.

(** X6.  [_mesa_glthread_destroy] called on an enabled engine from another
    thread than the worker.  Before the queue is destroyed everything
    recorded has been run: [used] is 0 and, when the queue held the
    submitted batches in submission order, no job is left in it and the
    GL state is the one that running the queued batches one after the
    other, oldest first, and then the records of the current batch makes
    of the GL state at the call.  Between the debug message, if a reason
    is given, and the destruction of the queue the call only waits for a
    fence and unmarshals.  The calling thread is switched to
    [CurrentServerDispatch] if it was dispatching to [MarshalExec], and
    keeps its dispatch table otherwise.  And the call returns when the
    engine is in order. *)
Theorem destroy_runs_pending_work (fuel : nat) (tid : Z)
  (reason : option string) ctx :
  enabled (GLThread ctx) = true ->
  tid <> threads0 (queue (GLThread ctx)) ->
  let g := GLThread ctx in
  (forall ctx',
     _mesa_glthread_destroy fuel tid reason ctx = Ok ctx' ->
     let g' := GLThread ctx' in
     used g' = 0 /\
     (fifo_ok ctx ->
      jobs (queue g') = [] /\
      exists srv_w,
        exec_jobs fuel (batches g) (jobs (queue g)) (server ctx) = Ok srv_w /\
        if used g =? 0 then server ctx' = srv_w
        else exists bn pos,
          batches g !! Z.to_nat (next_batch g) = Some bn /\
          exec_stream fuel (buffer bn) (used g) 0 srv_w
            = Ok (pos, server ctx')) /\
     (exists evs,
        events ctx' =
          events ctx
          ++ match reason with Some r => [EvDebug r] | None => [] end
          ++ evs ++ [EvQueueDestroy] /\
        Forall (fun e => is_sync_event e = true) evs) /\
     glapi_dispatch ctx' tid =
       (if glapi_dispatch ctx tid =? MarshalExec ctx
        then CurrentServerDispatch ctx else glapi_dispatch ctx tid)) /\
  (engine_ok fuel ctx ->
   exists ctx', _mesa_glthread_destroy fuel tid reason ctx = Ok ctx').
Proof.
  intros Hen Htid g. split; [|by apply destroy_total].
  intros ctx' H g'.
  apply destroy_shape in H
    as (ctx1 & Hfin & Hu & Hj & Hev & _ & _ & Hsrv & _ & Hd); [|done].
  set (ctx0 := match reason with Some r => log (EvDebug r) ctx | None => ctx end)
    in *.
  assert (GLThread ctx0 = GLThread ctx /\ glapi_dispatch ctx0 = glapi_dispatch ctx
          /\ MarshalExec ctx0 = MarshalExec ctx
          /\ CurrentServerDispatch ctx0 = CurrentServerDispatch ctx
          /\ server ctx0 = server ctx
          /\ events ctx0 =
             events ctx ++ match reason with Some r => [EvDebug r] | None => [] end)
    as (Hg0 & Hd0 & Hm0 & Hc0 & Hs0 & Hev0).
  { subst ctx0. destruct reason; split_and!; try by destruct ctx.
    by rewrite app_nil_r. }
  clearbody ctx0.
  assert (enabled (GLThread ctx0) = true) as Hen0 by (by rewrite Hg0).
  assert (tid <> threads0 (queue (GLThread ctx0))) as Htid0 by (by rewrite Hg0).
  pose proof (finish_dispatch _ _ _ _ Hfin tid Htid0) as Hd1.
  pose proof (finish_keeps _ _ _ _ Hfin) as (Hring & _ & (evs & Hev1 & Hall)).
  pose proof (finish_Ok _ _ _ _ Hen0 Htid0 Hfin)
    as (bl & _ & _ & _ & _ & Hused & Hsig & _).
  apply ring_fields in Hring. simpl in Hring.
  destruct Hring as (_&_&Hl&_&_&_&_&_&_&_&Hcsd&_&Hme&_).
  split_and!.
  - unfold g'. by rewrite Hu.
  - intros Hfifo. unfold g'. rewrite Hj, Hsrv.
    assert (fifo_ok ctx0) as Hfifo0
      by (apply (fifo_ok_same ctx); [done | by rewrite Hg0..]).
    split; [by destruct (finish_empties _ _ _ _ Hen0 Htid0 Hfifo0 Hfin)|].
    pose proof (finish_server _ _ _ _ Hen0 Htid0 Hfifo0 Hfin) as Hx.
    cbv zeta in Hx. rewrite Hg0, Hs0 in Hx. exact Hx.
  - exists evs. split; [|done].
    by rewrite Hev, Hev1, Hev0, <- !app_assoc.
  - rewrite Hd, Z.eqb_refl, Hd1, Hme, Hcsd, Hd0, Hm0, Hc0. simpl.
    by destruct (_ =? _).
Qed.

End DestroyExtras.

Lemma destroy_is_final_witness :
  exists ctx',
    _mesa_glthread_destroy 8 Demo.producer None (Demo.busy false) = Ok ctx' /\
    enabled (GLThread ctx') = false /\
    _mesa_glthread_flush_batch 8 0 Demo.producer ctx' = Ok ctx' /\
    _mesa_glthread_finish 8 Demo.producer ctx' = Ok ctx' /\
    _mesa_glthread_destroy 8 Demo.producer None ctx' = Ok ctx'.
Proof.
  run_demo (_mesa_glthread_destroy 8 Demo.producer None (Demo.busy false)).
  exists ctx'. split; [reflexivity|].
  destruct (destroy_is_final 8 Demo.producer None (Demo.busy false) ctx' E)
    as (Hen & Hd & Hfl & Hfi).
  split; [exact Hen|]. split; [apply Hfl|]. split; [apply Hfi | apply Hd].
Defined.

Lemma destroy_runs_pending_work_witness :
  enabled (GLThread (Demo.busy false)) = true /\
  Demo.producer <> threads0 (queue (GLThread (Demo.busy false))) /\
  engine_ok 8 (Demo.busy false) /\
  fifo_ok (Demo.busy false) /\
  server (Demo.busy false) = [] /\
  exists ctx',
    _mesa_glthread_destroy 8 Demo.producer (Some "exit"%string)
      (Demo.busy false) = Ok ctx' /\
    used (GLThread ctx') = 0 /\
    jobs (queue (GLThread ctx')) = [] /\
    server ctx' = [7; 9; 3] /\
    glapi_dispatch ctx' Demo.producer = 100.
Proof.
  assert (Demo.producer <> threads0 (queue (GLThread (Demo.busy false))))
    as Hne by (vm_compute; discriminate).
  destruct (destroy_runs_pending_work 8 Demo.producer (Some "exit"%string)
              (Demo.busy false) eq_refl Hne) as [Hpost Hret].
  split; [reflexivity|]. split; [exact Hne|].
  split; [apply demo_busy_ok|]. split; [apply demo_busy_fifo|].
  split; [reflexivity|].
  destruct (Hret (demo_busy_ok false)) as (ctx' & Hdes).
  exists ctx'. split; [exact Hdes|].
  destruct (Hpost ctx' Hdes) as (Hu & Hall & _ & Hd).
  destruct (Hall (demo_busy_fifo false))
    as (Hj & srv_w & Hx & bn & pos & Hbn & Hes).
  split; [exact Hu|]. split; [exact Hj|]. split; [|exact Hd].
  injection Hx as <-. injection Hbn as <-.
  injection Hes as _ <-. reflexivity.
Defined.

(** ** What a flush does, and what it does not *)

Section FlushExtras.

Context {env : glthread_env}.
Implicit Types (ctx : gl_context) (b : glthread_batch).

Lemma add_job_dispatch fuel j ctx ctx' :
  util_queue_add_job fuel j ctx = Ok ctx' ->
  forall t, t <> threads0 (queue (GLThread ctx)) ->
    glapi_dispatch ctx' t = glapi_dispatch ctx t.
Proof.
  unfold util_queue_add_job. intros H t Ht.
  apply bind_Ok in H as (ctx1 & Hset & H).
  apply bind_Ok in H as (ctx2 & Hwait & [= <-]).
  pose proof (fence_set_Ok _ _ _ _ Hset) as (Hv & _).
  apply fence_set_frame in Hset as (Hd & _).
  transitivity (glapi_dispatch ctx2 t); [by destruct ctx2|].
  rewrite (slot_wait_loop_dispatch _ _ _ _ Hwait).
  - rewrite Hd. by destruct ctx.
  - rewrite (view_threads0 _ _ Hv). by destruct ctx.
Qed.

Lemma submit_batch_dispatch fuel ctx ctx' :
  submit_batch fuel ctx = Ok ctx' ->
  forall t, t <> threads0 (queue (GLThread ctx)) ->
    glapi_dispatch ctx' t = glapi_dispatch ctx t.
Proof.
  unfold submit_batch. intros H t Ht.
  apply bind_Ok in H as (ctx1 & Hupd & H).
  apply bind_Ok in H as (ctx2 & Hadd & [= <-]).
  apply upd_batch_Ok in Hupd as (bn & _ & ->).
  transitivity (glapi_dispatch ctx2 t); [by destruct ctx2|].
  rewrite (add_job_dispatch _ _ _ _ Hadd) by (by destruct ctx).
  by destruct ctx.
Qed.

(** The period of the heuristic is not disturbed when the 32-bit counter
    wraps around. *)
Lemma wrap32_mod_128 z : wrap32 z mod 128 = z mod 128.
Proof.
  unfold wrap32. apply Z.mod_mod_divide. exists (2 ^ 25). reflexivity.
Qed.

(** X7.  A call of [_mesa_glthread_flush_batch] that does not find the context
    lost only offloads: it counts neither direct items nor a sync; the
    calls it gives rise to are the pinning calls, the submission of a job
    and unmarshal calls made by the worker thread, so it runs no command
    on the calling thread, waits for no fence and destroys nothing; and
    every thread but the worker keeps its dispatch table. *)
Theorem flush_offloads_only (fuel : nat) (cpu tid : Z) ctx ctx' :
  CurrentServerDispatch ctx <> ContextLost ctx ->
  _mesa_glthread_flush_batch fuel cpu tid ctx = Ok ctx' ->
  let g := GLThread ctx in
  let g' := GLThread ctx' in
  num_direct_items (stats g') = num_direct_items (stats g) /\
  num_syncs (stats g') = num_syncs (stats g) /\
  enabled g' = enabled g /\
  (exists evs,
     events ctx' = events ctx ++ evs /\
     forall e, e ∈ evs ->
       match e with
       | EvDispatch t _ _ _ _ => t = threads0 (queue g)
       | EvAddJob j => j = UnmarshalJob (next_batch g) (BatchFence (next_batch g))
       | EvSetThreadAffinity _ _ | EvPinThreadsToL3 _ => True
       | EvFenceWait _ | EvQueueDestroy | EvDebug _ => False
       end) /\
  (forall t, t <> threads0 (queue g) ->
     glapi_dispatch ctx' t = glapi_dispatch ctx t).
Proof.
  intros Hlost H g g'.
  assert (ctx' = ctx \/
          submit_batch fuel (pin_threads cpu ctx) = Ok ctx') as [->|Hsub].
  { unfold _mesa_glthread_flush_batch in H.
    destruct (enabled (GLThread ctx)); simpl in H; [|left; by injection H].
    destruct (_ =? ContextLost ctx) eqn:E; [lia|].
    destruct (used (GLThread ctx) =? 0); [left; by injection H | by right]. }
  { split_and!; try done. exists []. rewrite app_nil_r. split; [done|].
    intros e He. by apply elem_of_nil in He. }
  destruct (pin_threads_keeps cpu ctx)
    as (Hq & _ & Hst & (Hen & _ & _ & Hnb & _) & _ & (pe & Hpe & Hpes)).
  pose proof (submit_batch_dispatch _ _ _ Hsub) as Hd.
  apply submit_batch_Ok in Hsub
    as (_ & _ & (evs & Hev & Hall) & _ & _ & _ & _ & _ & _
        & (Hen' & _ & Hdir & Hsync & _)).
  rewrite Hq, Hst, ?Hen, ?Hnb in *.
  split_and!; try done.
  - exists (pe ++ EvAddJob (UnmarshalJob (next_batch g) (BatchFence (next_batch g)))
               :: evs).
    split; [by rewrite Hev, Hpe, <- app_assoc|].
    intros e He. apply elem_of_app in He as [He|He].
    + rewrite Hpes in He.
      destruct (cache_domain cpu); [destruct (pinning_due ctx)|];
        try (by apply elem_of_nil in He).
      apply elem_of_cons in He as [->|He]; [done|].
      by apply list_elem_of_singleton in He as ->.
    + apply elem_of_cons in He as [->|He]; [done|].
      rewrite Forall_forall in Hall. destruct (Hall _ He) as (i & Hdi).
      destruct e; try done. by destruct Hdi.
  - intros t Ht. rewrite Hd by done.
    rewrite pin_threads_eq. unfold count_flush.
    destruct (cache_domain cpu); [destruct (pinning_due ctx)|];
      destruct (_ && _); by destruct ctx.
Qed.

(** X8.  The CPU-affinity heuristic of a flush that submits.  The counter is
    incremented, modulo 2^32, when there is more than one L3 cache and
    the driver has [set_context_param], and is left alone otherwise.  The
    flush pins exactly when, besides, the incremented counter is a
    multiple of 128 (which the wrap-around of the counter does not
    disturb), the caller's CPU is known and so is its cache domain; it
    then sets the affinity of the worker thread first and asks the driver
    to pin its threads second, both to the L3 cache of the caller's
    CPU. *)
Theorem flush_pins_when_due (fuel : nat) (cpu tid : Z) ctx ctx' :
  enabled (GLThread ctx) = true ->
  CurrentServerDispatch ctx <> ContextLost ctx ->
  used (GLThread ctx) <> 0 ->
  _mesa_glthread_flush_batch fuel cpu tid ctx = Ok ctx' ->
  let g := GLThread ctx in
  let c := pin_thread_counter g in
  let counting := (1 <? num_L3_caches) && set_context_param ctx in
  pin_thread_counter (GLThread ctx') =
    (if counting then wrap32 (c + 1) else c) /\
  pin_log ctx' =
    pin_log ctx ++
    (if counting && ((c + 1) mod 128 =? 0) && (0 <=? cpu)
        && negb (cpu_to_L3 cpu =? U_CPU_INVALID_L3)
     then [EvSetThreadAffinity (threads0 (queue g)) (cpu_to_L3 cpu);
           EvPinThreadsToL3 (cpu_to_L3 cpu)]
     else []).
Proof.
  intros Hen Hlost Hused H g c counting. split.
  - rewrite flush_submits in H by done.
    apply submit_batch_Ok in H as (_&_&_&_&_&_&_&_&_&(_&->&_)).
    destruct (pin_threads_keeps cpu ctx) as (_&_&_&_&->&_).
    unfold count_flush. fold counting. by destruct counting.
  - rewrite (flush_pin_log _ _ _ _ _ H). f_equal.
    unfold pin_calls, pinning_due, cache_domain. rewrite Hen. fold g c counting.
    rewrite wrap32_mod_128.
    assert ((CurrentServerDispatch ctx =? ContextLost ctx) = false) as -> by lia.
    assert ((used g =? 0) = false) as -> by (unfold g; lia).
    simpl.
    destruct counting; simpl; [|done].
    destruct (_ mod 128 =? 0); simpl; [|done].
    destruct (0 <=? cpu); simpl; [|done].
    by destruct (cpu_to_L3 cpu =? U_CPU_INVALID_L3).
Qed.

End FlushExtras.

Lemma flush_offloads_only_witness :
  CurrentServerDispatch (Demo.busy false) <> ContextLost (Demo.busy false) /\
  exists ctx',
    _mesa_glthread_flush_batch 8 0 Demo.producer (Demo.busy false) = Ok ctx' /\
    num_direct_items (stats (GLThread ctx')) = 0 /\
    num_syncs (stats (GLThread ctx')) = 0 /\
    glapi_dispatch ctx' Demo.producer = 300.
Proof.
  assert (CurrentServerDispatch (Demo.busy false)
          <> ContextLost (Demo.busy false)) as Hlost
    by (vm_compute; discriminate).
  split; [exact Hlost|].
  run_demo (_mesa_glthread_flush_batch 8 0 Demo.producer (Demo.busy false)).
  exists ctx'. split; [reflexivity|].
  destruct (flush_offloads_only 8 0 Demo.producer (Demo.busy false) ctx'
              Hlost E) as (Hdir & Hsync & _ & _ & Hd).
  split; [exact Hdir|]. split; [exact Hsync|].
  apply (Hd Demo.producer). vm_compute. discriminate.
Defined.

Lemma flush_pins_when_due_witness :
  enabled (GLThread (Demo.due false)) = true /\
  CurrentServerDispatch (Demo.due false) <> ContextLost (Demo.due false) /\
  used (GLThread (Demo.due false)) <> 0 /\
  exists ctx',
    _mesa_glthread_flush_batch 8 5 Demo.producer (Demo.due false) = Ok ctx' /\
    pin_thread_counter (GLThread ctx') = 128 /\
    pin_log ctx' =
      [EvSetThreadAffinity Demo.worker 1; EvPinThreadsToL3 1].
Proof.
  assert (CurrentServerDispatch (Demo.due false)
          <> ContextLost (Demo.due false)) as Hlost
    by (vm_compute; discriminate).
  assert (used (GLThread (Demo.due false)) <> 0) as Hused
    by (vm_compute; discriminate).
  split; [reflexivity|]. split; [exact Hlost|]. split; [exact Hused|].
  run_demo (_mesa_glthread_flush_batch 8 5 Demo.producer (Demo.due false)).
  exists ctx'. split; [reflexivity|].
  destruct (flush_pins_when_due 8 5 Demo.producer (Demo.due false) ctx'
              eq_refl Hlost Hused E) as (Hc & Hp).
  split; [exact Hc | exact Hp].
Defined.

(** ** The engine stays in order *)

Section RingExtras.

Context {env : glthread_env}.
Implicit Types (ctx : gl_context) (b : glthread_batch).

(** X10.  [_mesa_glthread_finish] returns on an engine in order whose queue
    holds the batches submitted last, and leaves the engine so, with the
    current batch not pending. *)
Theorem finish_keeps_engine_in_order (fuel : nat) (tid : Z) ctx :
  engine_inv fuel ctx ->
  exists ctx',
    _mesa_glthread_finish fuel tid ctx = Ok ctx' /\
    engine_inv fuel ctx' /\
    util_queue_fence_is_signalled
      (BatchFence (next_batch (GLThread ctx'))) ctx' = Ok true.
Proof.
  intros Hinv.
  destruct (finish_inv fuel tid ctx Hinv) as (ctx' & H & Hinv').
  exists ctx'. split; [done|]. split; [done|].
  by destruct (current_batch_free _ _ Hinv').
Qed.

End RingExtras.

Lemma finish_keeps_engine_in_order_witness :
  engine_inv 8 (Demo.busy false) /\
  exists ctx',
    _mesa_glthread_finish 8 Demo.producer (Demo.busy false) = Ok ctx' /\
    engine_inv 8 ctx'.
Proof.
  split; [apply demo_busy_inv|].
  destruct (finish_keeps_engine_in_order 8 Demo.producer (Demo.busy false)
              (demo_busy_inv false)) as (ctx' & Hfin & Hinv & _).
  exists ctx'. split; [exact Hfin | exact Hinv].
Defined.

(** ** Start-up *)

Section Startup.

Context {env : glthread_env}.
Implicit Types (ctx : gl_context) (b : glthread_batch).

(** The loop over the ring signals the fences it visits and changes
    nothing else in a batch. *)
Lemma init_batch_fences_batches n from ctx ctx' :
  0 <= from ->
  init_batch_fences n from ctx = Ok ctx' ->
  b_used <$> batches (GLThread ctx') = b_used <$> batches (GLThread ctx) /\
  forall k b', batches (GLThread ctx') !! k = Some b' ->
    exists b, batches (GLThread ctx) !! k = Some b /\
      fence b' = (if (Z.to_nat from <=? k)%nat && (k <? Z.to_nat from + n)%nat
                  then true else fence b).
Proof.
  revert from ctx. induction n as [|n IH]; intros from ctx Hfrom; simpl.
  - intros [= <-]. split; [done|]. intros k b' Hk. exists b'. split; [done|].
    destruct (_ <=? _)%nat eqn:E1; [|done].
    destruct (_ <? _)%nat eqn:E2; [|done].
    apply Nat.leb_le in E1. apply Nat.ltb_lt in E2. lia.
  - intros H. apply bind_Ok in H as (ctx1 & Hset & H).
    apply IH in H as [Hu H]; [|lia].
    apply upd_batch_Ok in Hset as (b0 & Hb0 & ->).
    apply batch_at_Ok in Hb0 as [_ Hb0].
    split.
    { rewrite Hu. destruct ctx as [g]; simpl in *.
      by apply (fmap_insert_same b_used _ _ b0). }
    intros k b' Hk. destruct (H k b' Hk) as (b1 & Hb1 & ->).
    simpl in Hb1.
    replace (Z.to_nat (from + 1)) with (S (Z.to_nat from)) by lia.
    destruct (decide (k = Z.to_nat from)) as [->|Hne].
    + rewrite list_lookup_insert_eq in Hb1 by (by eapply lookup_lt_Some).
      injection Hb1 as <-. exists b0. split; [done|]. simpl.
      assert ((Z.to_nat from <=? Z.to_nat from)%nat = true) as ->
        by (apply Nat.leb_le; lia).
      assert ((Z.to_nat from <? Z.to_nat from + S n)%nat = true) as ->
        by (apply Nat.ltb_lt; lia).
      by destruct (_ && _).
    + rewrite list_lookup_insert_ne in Hb1 by done.
      exists b1. split; [done|].
      destruct (S (Z.to_nat from) <=? k)%nat eqn:E1;
        destruct (Z.to_nat from <=? k)%nat eqn:E2;
        destruct (k <? S (Z.to_nat from) + n)%nat eqn:E3;
        destruct (k <? Z.to_nat from + S n)%nat eqn:E4; simpl; try done;
        rewrite ?Nat.leb_le, ?Nat.ltb_lt, ?Nat.leb_gt, ?Nat.ltb_ge in *; lia.
Qed.

Lemma init_batch_fences_dispatch n from ctx ctx' :
  init_batch_fences n from ctx = Ok ctx' ->
  glapi_dispatch ctx' = glapi_dispatch ctx /\
  stats (GLThread ctx') = stats (GLThread ctx).
Proof.
  revert from ctx. induction n as [|n IH]; intros from ctx; simpl.
  - by intros [= <-].
  - intros H. apply bind_Ok in H as (ctx1 & Hset & H).
    apply IH in H as [-> ->].
    change (util_queue_fence_set true (BatchFence from) ctx = Ok ctx1) in Hset.
    by apply fence_set_frame in Hset as (-> & _ & -> & _).
Qed.

(** The start-up barrier leaves the ring alone, and the only calls it
    makes are those that queue the job and wait for it. *)
Lemma thread_init_handshake_frame fuel ctx ctx1 ctx2 :
  jobs (queue (GLThread ctx)) = [] ->
  q_alive (queue (GLThread ctx)) = true ->
  0 < max_jobs (queue (GLThread ctx)) ->
  util_queue_add_job fuel (ThreadInitJob InitFence) ctx = Ok ctx1 ->
  util_queue_fence_wait fuel InitFence ctx1 = Ok ctx2 ->
  batches (GLThread ctx2) = batches (GLThread ctx) /\
  stats (GLThread ctx2) = stats (GLThread ctx) /\
  LastDListChangeBatchIndex (GLThread ctx2)
    = LastDListChangeBatchIndex (GLThread ctx) /\
  glapi_dispatch ctx2 = glapi_dispatch ctx /\
  init_fence ctx2 = true /\
  events ctx2 =
    events ctx ++ [EvAddJob (ThreadInitJob InitFence); EvFenceWait InitFence].
Proof.
  destruct ctx as [[[js mj t0 al] st en pc bs nb l n u cl bb pb dl v]
                     csd cl' me ccd bol tl scp spc srv gd bg ifc hp ev].
  simpl. intros -> -> Hmax.
  unfold util_queue_add_job. simpl. change (Z.of_nat 0) with 0.
  assert ((0 <? mj) = true) as -> by lia. simpl.
  intros [= <-]. unfold util_queue_fence_wait. simpl.
  intros [= <-]. simpl. split_and!; try done.
  by rewrite <- app_assoc.
Qed.

(** What [_mesa_glthread_init] has done when the backend has both
    capabilities and every allocation succeeds. *)
Lemma init_success (e : init_env) (fuel : nat) ctx :
  enabled (GLThread ctx) = false ->
  (cap_map_unsynchronized_thread_safe e =? 0)
    || (cap_allow_mapped_buffers_during_execution e =? 0) = false ->
  queue_init_ok e = true ->
  new_hash_table e <> 0 -> alloc_dispatch_table e <> 0 ->
  2 < MARSHAL_MAX_BATCHES <= Z.of_nat (length (batches (GLThread ctx))) ->
  exists ctx',
    _mesa_glthread_init e fuel ctx = Ok (ReturnsVoid, ctx') /\
    let g := GLThread ctx in
    let g' := GLThread ctx' in
    (enabled g' = true /\ used g' = 0 /\ next_batch g' = next g /\
     next g' = next g /\ last g' = last g) /\
    (jobs (queue g') = [] /\ max_jobs (queue g') = MARSHAL_MAX_BATCHES - 2 /\
     threads0 (queue g') = worker_thread e /\ q_alive (queue g') = true) /\
    (length (batches g') = length (batches g) /\
     buffer <$> batches g' = buffer <$> batches g /\
     b_used <$> batches g' = b_used <$> batches g /\
     forall k b, batches g' !! k = Some b ->
       Z.of_nat k < MARSHAL_MAX_BATCHES -> fence b = true) /\
    (MarshalExec ctx' = alloc_dispatch_table e /\
     CurrentClientDispatch ctx' = alloc_dispatch_table e /\
     CurrentServerDispatch ctx' = CurrentServerDispatch ctx /\
     glapi_dispatch ctx' = glapi_dispatch ctx /\
     VAOs g' = new_hash_table e /\
     heap ctx' = alloc_dispatch_table e :: new_hash_table e :: heap ctx) /\
    (st_pin_thread_counter ctx' = ST_L3_PINNING_DISABLED /\
     LastDListChangeBatchIndex g' = -1 /\
     stats g' = set_stats_queue true (stats g) /\
     background_context ctx' = true /\
     events ctx' =
       events ctx ++ [EvAddJob (ThreadInitJob InitFence); EvFenceWait InitFence]).
Proof.
  intros Hen Hcaps Hq Hh Ha [HN Hlen].
  assert (c_assert (negb (enabled (GLThread ctx))) = Ok tt) as Hassert
    by (unfold c_assert; rewrite Hen; simpl; by rewrite orb_true_r).
  unfold _mesa_glthread_init. rewrite Hassert. simpl.
  rewrite Hcaps. unfold util_queue_init. rewrite Hq. simpl.
  destruct (new_hash_table e =? 0) eqn:Hh'; [lia|].
  destruct (alloc_dispatch_table e =? 0) eqn:Ha'; [lia|].
  match goal with |- exists _, init_batch_fences _ _ ?c ≫= _ = _ /\ _ =>
    set (c0 := c) end.
  assert (batches (GLThread c0) = batches (GLThread ctx) /\
          queue (GLThread c0)
            = mk_queue [] (MARSHAL_MAX_BATCHES - 2) (worker_thread e) true /\
          (next (GLThread c0) = next (GLThread ctx) /\
           last (GLThread c0) = last (GLThread ctx)) /\
          (MarshalExec c0 = alloc_dispatch_table e /\
           CurrentServerDispatch c0 = CurrentServerDispatch ctx /\
           glapi_dispatch c0 = glapi_dispatch ctx /\
           VAOs (GLThread c0) = new_hash_table e /\
           heap c0 = alloc_dispatch_table e :: new_hash_table e :: heap ctx) /\
          events c0 = events ctx /\
          stats (GLThread c0) = stats (GLThread ctx))
    as (Hb0 & Hq0 & (Hn0 & Hl0) & (Hme0 & Hcsd0 & Hgd0 & Hvao0 & Hheap0) & Hev0
        & Hst0)
    by (by destruct ctx).
  assert (0 + Z.of_nat (Z.to_nat MARSHAL_MAX_BATCHES)
          <= Z.of_nat (length (batches (GLThread c0)))) as Hlen0.
  { rewrite Hb0, Z2Nat.id by lia. exact Hlen. }
  clearbody c0.
  destruct (init_batch_fences_total (Z.to_nat MARSHAL_MAX_BATCHES) 0 c0
              (Z.le_refl 0) Hlen0) as (ctx1 & Hfences).
  rewrite Hfences. cbv beta iota zeta delta [mbind result_bind].
  pose proof (init_batch_fences_batches _ _ _ _ (Z.le_refl 0) Hfences)
    as [Hu1 Hf1].
  pose proof (init_batch_fences_dispatch _ _ _ _ Hfences) as [Hgd1 Hst1].
  apply init_batch_fences_Ok in Hfences as (Hv1 & Hq1 & Hev1 & _).
  pose proof (view_length _ _ Hv1) as Hlen1.
  apply view_fields in Hv1. simpl in Hv1.
  destruct Hv1 as (_&Hn1&Hl1&_&_&_&_&_&_&_&_&_&Hbuf1&Hcsd1&_&Hme1&Hheap1&Hvao1).
  match goal with |- context [util_queue_add_job _ _ ?c] =>
    set (c2 := c) end.
  assert (queue (GLThread c2) = queue (GLThread ctx1) /\
          (enabled (GLThread c2) = true /\ used (GLThread c2) = 0 /\
           next_batch (GLThread c2) = next (GLThread ctx1) /\
           next (GLThread c2) = next (GLThread ctx1) /\
           last (GLThread c2) = last (GLThread ctx1)) /\
          batches (GLThread c2) = batches (GLThread ctx1) /\
          (MarshalExec c2 = MarshalExec ctx1 /\
           CurrentClientDispatch c2 = MarshalExec ctx1 /\
           CurrentServerDispatch c2 = CurrentServerDispatch ctx1 /\
           glapi_dispatch c2 = glapi_dispatch ctx1 /\
           VAOs (GLThread c2) = VAOs (GLThread ctx1) /\
           heap c2 = heap ctx1) /\
          (st_pin_thread_counter c2 = ST_L3_PINNING_DISABLED /\
           LastDListChangeBatchIndex (GLThread c2) = -1 /\
           stats (GLThread c2) = set_stats_queue true (stats (GLThread ctx1)) /\
           events c2 = events ctx1))
    as (Hq2 & (Hen2 & Hu2 & Hnb2 & Hn2 & Hl2) & Hb2
        & (Hme2 & Hccd2 & Hcsd2 & Hgd2 & Hvao2 & Hheap2)
        & (Hpin2 & Hdl2 & Hsq2 & Hev2))
    by (by destruct ctx1).
  clearbody c2.
  rewrite Hq1, Hq0 in Hq2.
  assert (jobs (queue (GLThread c2)) = [] /\
          q_alive (queue (GLThread c2)) = true /\
          max_jobs (queue (GLThread c2)) = MARSHAL_MAX_BATCHES - 2 /\
          threads0 (queue (GLThread c2)) = worker_thread e)
    as (Hj2 & Ha2 & Hm2 & Ht2) by (by rewrite Hq2).
  assert (0 < max_jobs (queue (GLThread c2))) as Hmax2 by lia.
  destruct (thread_init_handshake fuel c2 Hj2 Ha2 Hmax2)
    as (c3 & c4 & Hadd & Hwait & Hv4 & Hj4 & Hbg4).
  rewrite Hadd. cbv beta iota. rewrite Hwait.
  eexists. split; [reflexivity|].
  pose proof (thread_init_handshake_frame _ _ _ _ Hj2 Ha2 Hmax2 Hadd Hwait)
    as (Hb4 & Hst4 & Hdl4 & Hgd4 & _ & Hev4).
  assert (CurrentClientDispatch c4 = CurrentClientDispatch c2 /\
          st_pin_thread_counter c4 = st_pin_thread_counter c2)
    as [Hccd4 Hpin4] by (unfold producer_view in Hv4; by simplify_eq).
  apply view_fields in Hv4. simpl in Hv4.
  destruct Hv4 as (Hen4&Hn4&Hl4&Hnb4&Hu4&_&_&_&_&Ht4&Hm4&Ha4&_&Hcsd4&_&Hme4&Hheap4&Hvao4).
  simpl.
  split_and!; try congruence.
  intros k b Hk HkN. rewrite Hb4, Hb2 in Hk.
  destruct (Hf1 k b Hk) as (b0 & _ & ->).
  assert ((Z.to_nat 0 <=? k)%nat = true) as -> by (apply Nat.leb_le; lia).
  assert ((k <? Z.to_nat 0 + Z.to_nat MARSHAL_MAX_BATCHES)%nat = true) as ->
    by (apply Nat.ltb_lt; lia).
  done.
Qed.

End Startup.

Section StartupExtras.

Context {env : glthread_env}.
Implicit Types (ctx : gl_context) (b : glthread_batch).

(** [_mesa_glthread_finish] on an engine with nothing pending returns the
    state it is given. *)
Lemma finish_idle fuel tid ctx :
  util_queue_fence_is_signalled (BatchFence (last (GLThread ctx))) ctx
    = Ok true ->
  used (GLThread ctx) = 0 ->
  _mesa_glthread_finish fuel tid ctx = Ok ctx.
Proof.
  intros Hsig Hu. unfold _mesa_glthread_finish. cbv zeta.
  destruct (enabled (GLThread ctx)); cbn [negb]; [|done].
  destruct (tid =? _); [done|].
  rewrite Hsig. simpl. by rewrite Hu.
Qed.

(** X11.  [_mesa_glthread_init] on a context whose engine is disabled and whose
    ring indices are in range, with a backend that has both capabilities
    and allocations that all succeed, on a ring of more than two batches.
    The call returns with the engine enabled and in order: the queue is
    empty, has room for [MARSHAL_MAX_BATCHES - 2] jobs and is served by
    the worker thread, every fence of the ring is signalled and the
    current batch is empty.  The client dispatch is [MarshalExec], no
    thread has been given another dispatch table, L3 pinning by the state
    tracker is disabled, and the worker has run the initialisation job,
    for which the call has waited. *)
Theorem init_puts_engine_in_order (e : init_env) (fuel : nat) ctx :
  enabled (GLThread ctx) = false ->
  (cap_map_unsynchronized_thread_safe e =? 0)
    || (cap_allow_mapped_buffers_during_execution e =? 0) = false ->
  queue_init_ok e = true ->
  new_hash_table e <> 0 -> alloc_dispatch_table e <> 0 ->
  2 < MARSHAL_MAX_BATCHES ->
  Z.of_nat (length (batches (GLThread ctx))) = MARSHAL_MAX_BATCHES ->
  0 <= next (GLThread ctx) < MARSHAL_MAX_BATCHES ->
  0 <= last (GLThread ctx) < MARSHAL_MAX_BATCHES ->
  exists ctx',
    _mesa_glthread_init e fuel ctx = Ok (ReturnsVoid, ctx') /\
    let g' := GLThread ctx' in
    engine_inv fuel ctx' /\
    enabled g' = true /\
    queue g' = mk_queue [] (MARSHAL_MAX_BATCHES - 2) (worker_thread e) true /\
    (forall b, b ∈ batches g' -> fence b = true) /\
    used g' = 0 /\
    CurrentClientDispatch ctx' = MarshalExec ctx' /\
    glapi_dispatch ctx' = glapi_dispatch ctx /\
    st_pin_thread_counter ctx' = ST_L3_PINNING_DISABLED /\
    LastDListChangeBatchIndex g' = -1 /\
    background_context ctx' = true /\
    events ctx' =
      events ctx ++ [EvAddJob (ThreadInitJob InitFence); EvFenceWait InitFence].
Proof.
  intros Hen Hcaps Hq Hh Ha HN Hlen Hnext Hlast.
  destruct (init_success e fuel ctx Hen Hcaps Hq Hh Ha) as (ctx' & Hinit & H);
    [lia|].
  exists ctx'. split; [done|]. simpl in H.
  destruct H as ((Hen' & Hu' & Hnb' & Hn' & Hl') & (Hj' & Hm' & Ht' & Ha')
                 & (Hlen' & _ & _ & Hf') & (Hme' & Hccd' & _ & Hgd' & _)
                 & (Hpin' & Hdl' & _ & Hbg' & Hev')).
  assert (forall k b, batches (GLThread ctx') !! k = Some b -> fence b = true)
    as Hall.
  { intros k b Hk. apply (Hf' k b Hk).
    apply lookup_lt_Some in Hk. lia. }
  simpl. split_and!; try done; try congruence.
  - (* the invariant *)
    split_and!.
    + (* ring_ok *)
      split_and!; [| congruence | congruence].
      unfold engine_ok, runnable. rewrite Hj', Hm', Hl', Hnb', Hlen', Hu'.
      split_and!; try done; try lia.
      * intros k b Hk Hf. rewrite (Hall k b Hk) in Hf. discriminate.
      * intros b _. apply stream_ok_0.
    + unfold fifo_ok, fifo_ok_of. rewrite Hj'.
      split_and!; [apply NoDup_nil_2 | | | done].
      * intros j Hj. by apply elem_of_nil in Hj.
      * intros i _ Hi. by apply elem_of_nil in Hi.
    + unfold ring_queue. rewrite Hj', Hm'. simpl.
      split_and!; [done | done | lia | done].
  - destruct (queue (GLThread ctx')); simpl in *. congruence.
  - intros b Hb. apply list_elem_of_lookup in Hb as [k Hk]. by eapply Hall.
Qed.

(** X12.  [_mesa_glthread_init] followed by [_mesa_glthread_destroy], called
    from whatever thread, under the conditions in which
    [_mesa_glthread_init] enables the engine.  Both calls return; the
    engine is disabled again and its queue destroyed; the client dispatch
    is [CurrentServerDispatch]; the VAO table has been released while the
    dispatch table allocated for [MarshalExec] is still live; and as
    nothing was pending, [_mesa_glthread_destroy] has waited for nothing
    and counted no sync. *)
Theorem init_then_destroy (e : init_env) (fuel : nat) (tid : Z) ctx :
  enabled (GLThread ctx) = false ->
  (cap_map_unsynchronized_thread_safe e =? 0)
    || (cap_allow_mapped_buffers_during_execution e =? 0) = false ->
  queue_init_ok e = true ->
  new_hash_table e <> 0 -> alloc_dispatch_table e <> 0 ->
  2 < MARSHAL_MAX_BATCHES <= Z.of_nat (length (batches (GLThread ctx))) ->
  0 <= last (GLThread ctx) < MARSHAL_MAX_BATCHES ->
  exists ctx1 ctx2,
    _mesa_glthread_init e fuel ctx = Ok (ReturnsVoid, ctx1) /\
    _mesa_glthread_destroy fuel tid None ctx1 = Ok ctx2 /\
    enabled (GLThread ctx2) = false /\
    q_alive (queue (GLThread ctx2)) = false /\
    CurrentClientDispatch ctx2 = CurrentServerDispatch ctx /\
    MarshalExec ctx2 = alloc_dispatch_table e /\
    heap ctx2 = alloc_dispatch_table e :: heap ctx /\
    stats (GLThread ctx2) = set_stats_queue true (stats (GLThread ctx)) /\
    events ctx2 =
      events ctx ++ [EvAddJob (ThreadInitJob InitFence); EvFenceWait InitFence;
                     EvQueueDestroy].
Proof.
  intros Hen Hcaps Hq Hh Ha HN Hlast.
  destruct (init_success e fuel ctx Hen Hcaps Hq Hh Ha HN) as (ctx1 & Hinit & H).
  simpl in H.
  destruct H as ((Hen1 & Hu1 & _ & _ & Hl1) & _
                 & (Hlen1 & _ & _ & Hf1) & (Hme1 & _ & Hcsd1 & _ & Hvao1 & Hheap1)
                 & (_ & _ & Hst1 & _ & Hev1)).
  assert (_mesa_glthread_finish fuel tid ctx1 = Ok ctx1) as Hfin.
  { apply finish_idle; [|done]. simpl.
    destruct (batches (GLThread ctx1) !! Z.to_nat (last (GLThread ctx1)))
      as [b|] eqn:Hb; [|apply lookup_ge_None in Hb; lia].
    assert (batch_at (last (GLThread ctx1)) ctx1 = Ok b) as ->
      by (apply batch_at_Ok; split; [lia | done]).
    simpl. f_equal. apply (Hf1 _ _ Hb). lia. }
  assert (exists ctx2, _mesa_glthread_destroy fuel tid None ctx1 = Ok ctx2)
    as (ctx2 & Hdes).
  { unfold _mesa_glthread_destroy. rewrite Hen1. cbn [negb].
    rewrite Hfin. cbv beta iota zeta delta [mbind result_bind].
    match goal with |- exists _, (if ?c then _ else _) = _ => destruct c end;
      eauto. }
  exists ctx1, ctx2. split; [done|]. split; [done|].
  pose proof (destroy_shape _ _ _ _ _ Hen1 Hdes)
    as (c & Hfin' & _ & _ & Hev2 & Hst2 & _ & _ & Hme2 & _).
  rewrite Hfin in Hfin'. injection Hfin' as <-.
  apply destroy_Ok in Hdes as (Hen2 & Hq2 & Hccd2 & Hheap2 & _); [|done].
  split_and!; try congruence.
  - rewrite Hheap2, Hvao1, Hheap1. simpl.
    destruct (alloc_dispatch_table e =? new_hash_table e) eqn:E.
    + f_equal. lia.
    + by rewrite Z.eqb_refl.
  - rewrite Hev2, Hev1, <- app_assoc. done.
Qed.

End StartupExtras.

Lemma demo_fresh_caps :
  (cap_map_unsynchronized_thread_safe Demo.all_good =? 0)
    || (cap_allow_mapped_buffers_during_execution Demo.all_good =? 0) = false.
Proof. reflexivity. Defined.

Lemma demo_fresh_tables :
  new_hash_table Demo.all_good <> 0 /\ alloc_dispatch_table Demo.all_good <> 0.
Proof. split; vm_compute; discriminate. Defined.

Lemma demo_fresh_ring :
  2 < @MARSHAL_MAX_BATCHES (Demo.env false)
    <= Z.of_nat (length (batches (GLThread (Demo.fresh false)))) /\
  0 <= next (GLThread (Demo.fresh false)) < @MARSHAL_MAX_BATCHES (Demo.env false) /\
  0 <= last (GLThread (Demo.fresh false)) < @MARSHAL_MAX_BATCHES (Demo.env false).
Proof.
  vm_compute. split_and!; first [reflexivity | discriminate].
Defined.

Lemma init_puts_engine_in_order_witness :
  exists ctx',
    _mesa_glthread_init Demo.all_good 8 (Demo.fresh false)
      = Ok (ReturnsVoid, ctx') /\
    engine_inv 8 ctx' /\
    enabled (GLThread ctx') = true /\
    background_context ctx' = true.
Proof.
  destruct demo_fresh_tables as [Hh Ha].
  destruct demo_fresh_ring as ([HN _] & Hn & Hl).
  destruct (init_puts_engine_in_order Demo.all_good 8 (Demo.fresh false)
              eq_refl demo_fresh_caps eq_refl Hh Ha HN eq_refl Hn Hl)
    as (ctx' & Hinit & Hinv & Hen & _ & _ & _ & _ & _ & _ & _ & Hbg & _).
  exists ctx'. split; [exact Hinit|]. split; [exact Hinv|].
  split; [exact Hen | exact Hbg].
Defined.

Lemma init_then_destroy_witness :
  exists ctx1 ctx2,
    _mesa_glthread_init Demo.all_good 8 (Demo.fresh false)
      = Ok (ReturnsVoid, ctx1) /\
    _mesa_glthread_destroy 8 Demo.producer None ctx1 = Ok ctx2 /\
    enabled (GLThread ctx2) = false /\
    CurrentClientDispatch ctx2 = 100 /\
    heap ctx2 = [300].
Proof.
  destruct demo_fresh_tables as [Hh Ha].
  destruct demo_fresh_ring as (HN & _ & Hl).
  destruct (init_then_destroy Demo.all_good 8 Demo.producer (Demo.fresh false)
              eq_refl demo_fresh_caps eq_refl Hh Ha HN Hl)
    as (ctx1 & ctx2 & Hinit & Hdes & Hen & _ & Hccd & _ & Hheap & _).
  exists ctx1, ctx2. split; [exact Hinit|]. split; [exact Hdes|].
  split; [exact Hen|]. split; [exact Hccd | exact Hheap].
Defined.

(** ** Every batch is run once *)

Section Accounting.

Context {env : glthread_env}.
Implicit Types (ctx : gl_context) (b : glthread_batch).

(** [k] increments of a 32-bit counter. *)
Lemma iter_wrap32 (k : nat) (a : Z) :
  0 <= a < 2 ^ 32 ->
  Nat.iter k (fun x => wrap32 (x + 1)) a = wrap32 (a + Z.of_nat k).
Proof.
  intros Ha. induction k as [|k IH].
  - simpl. unfold wrap32. rewrite Z.add_0_r. symmetry. by apply Z.mod_small.
  - rewrite Nat.iter_succ, IH. unfold wrap32.
    rewrite Zplus_mod_idemp_l. f_equal. lia.
Qed.

(** One turn of the worker on a queue of batches counts the batch it
    runs. *)
Lemma worker_step_count fuel ctx ctx' :
  fifo_ok ctx ->
  util_queue_worker_step fuel ctx = Ok ctx' ->
  exists ran_jobs,
    jobs (queue (GLThread ctx)) = ran_jobs ++ jobs (queue (GLThread ctx')) /\
    num_batches (stats (GLThread ctx')) =
      Nat.iter (length ran_jobs) (fun x => wrap32 (x + 1))
        (num_batches (stats (GLThread ctx))).
Proof.
  intros (_ & Hshape & _) H. unfold util_queue_worker_step in H.
  destruct (q_alive _); simpl in H; [|discriminate].
  destruct (jobs (queue (GLThread ctx))) as [|j rest] eqn:Hj.
  { injection H as <-. exists []. by rewrite Hj. }
  destruct (Hshape j) as (i & Hi & ->); [by left|].
  apply bind_Ok in H as (ctx1 & Hrun & Hsig).
  pose proof (fence_set_Ok _ _ _ _ Hsig) as (_ & Hq2 & _).
  apply fence_set_frame in Hsig as (_ & _ & Hst2 & _).
  apply unmarshal_batch_Ok in Hrun
    as (_ & _ & _ & _ & _ & _ & _ & _ & Hq1 & _ & _ & Hnum & _).
  exists [UnmarshalJob i (BatchFence i)]. split.
  - rewrite Hq2, Hq1. by destruct ctx.
  - rewrite Hst2, Hnum. by destruct ctx.
Qed.

Lemma fence_wait_loop_count n fuel f ctx ctx' :
  fifo_ok ctx ->
  fence_wait_loop n fuel f ctx = Ok ctx' ->
  exists ran_jobs,
    jobs (queue (GLThread ctx)) = ran_jobs ++ jobs (queue (GLThread ctx')) /\
    num_batches (stats (GLThread ctx')) =
      Nat.iter (length ran_jobs) (fun x => wrap32 (x + 1))
        (num_batches (stats (GLThread ctx))).
Proof.
  revert ctx. induction n as [|n IH]; intros ctx Hok H; simpl in H;
    apply bind_Ok in H as ([] & _ & H); try discriminate;
    try (injection H as <-; by exists []).
  apply bind_Ok in H as (ctx1 & Hstep & H).
  destruct (worker_step_count _ _ _ Hok Hstep) as (r1 & Hj1 & Hn1).
  destruct (IH ctx1 (worker_step_fifo _ _ _ Hok Hstep) H) as (r2 & Hj2 & Hn2).
  exists (r1 ++ r2). split; [by rewrite Hj1, Hj2, app_assoc|].
  rewrite Hn2, Hn1, length_app, Nat.add_comm. by rewrite Nat.iter_add.
Qed.

End Accounting.

Section AccountingExtras.

Context {env : glthread_env}.
Implicit Types (ctx : gl_context) (b : glthread_batch).

(** X13.  [_mesa_glthread_finish] called from another thread than the worker on
    an enabled engine whose queue holds the submitted batches in
    submission order.  Once it has returned, the queue is empty and
    [num_batches], a 32-bit counter, has grown by the number of jobs that
    were queued, and by one more if the current batch was not empty:
    every batch recorded before the call has been run, and run once. *)
Theorem finish_counts_every_batch (fuel : nat) (tid : Z) ctx ctx' :
  enabled (GLThread ctx) = true ->
  tid <> threads0 (queue (GLThread ctx)) ->
  fifo_ok ctx ->
  0 <= num_batches (stats (GLThread ctx)) < 2 ^ 32 ->
  _mesa_glthread_finish fuel tid ctx = Ok ctx' ->
  let g := GLThread ctx in
  let g' := GLThread ctx' in
  jobs (queue g') = [] /\
  num_batches (stats g') =
    wrap32 (num_batches (stats g) + Z.of_nat (length (jobs (queue g)))
            + (if used g =? 0 then 0 else 1)).
Proof.
  intros Hen Htid Hfifo Hrange H g g'.
  (* the queue is empty *)
  assert (jobs (queue g') = []) as Hempty.
  { pose proof (finish_Ok _ _ _ _ Hen Htid H)
      as (bl & _ & _ & _ & Hring & _ & Hsig & _).
    apply ring_fields in Hring. simpl in Hring.
    destruct Hring as (_ & _ & Hl & _). rewrite <- Hl in Hsig.
    apply fifo_signalled_empty; [by eapply finish_fifo | | done].
    simpl in Hsig. apply bind_Ok in Hsig as (b & Hb & _).
    by apply batch_at_Ok in Hb as [? _]. }
  split; [done|].
  (* the count *)
  unfold _mesa_glthread_finish in H. rewrite Hen in H. simpl in H.
  destruct (tid =? _) eqn:E; [lia|]. clear E.
  apply bind_Ok in H as (s & _ & H).
  apply bind_Ok in H as ([synced ctxw] & Hwait & H).
  assert (exists ran_jobs,
    jobs (queue g) = ran_jobs ++ jobs (queue (GLThread ctxw)) /\
    num_batches (stats (GLThread ctxw)) =
      Nat.iter (length ran_jobs) (fun x => wrap32 (x + 1)) (num_batches (stats g))
    /\ used (GLThread ctxw) = used g)
    as (rj & Hrj & Hnw & Huw).
  { destruct s; simpl in Hwait.
    - injection Hwait as _ <-. by exists [].
    - apply bind_Ok in Hwait as (c & Hw & [= _ <-]).
      unfold util_queue_fence_wait in Hw.
      assert (fifo_ok (log (EvFenceWait (BatchFence (last g))) ctx)) as Hfifo0
        by (apply (fifo_ok_same ctx); by destruct ctx).
      destruct (fence_wait_loop_count _ _ _ _ _ Hfifo0 Hw) as (rj & Hrj & Hn).
      apply fence_wait_loop_ran in Hw as [(Hv & _) _].
      apply view_fields in Hv. simpl in Hv. destruct Hv as (_&_&_&_&Hu&_).
      exists rj. split_and!.
      + rewrite <- Hrj. by destruct ctx.
      + rewrite Hn. by destruct ctx.
      + rewrite Hu. by destruct ctx. }
  apply bind_Ok in H as ([synced' ctxd] & Hd & H).
  assert (jobs (queue (GLThread ctxd)) = jobs (queue (GLThread ctxw)) /\
          num_batches (stats (GLThread ctxd)) =
            (if used g =? 0 then num_batches (stats (GLThread ctxw))
             else wrap32 (num_batches (stats (GLThread ctxw)) + 1)))
    as [Hjd Hnd].
  { rewrite Huw in Hd. destruct (used g =? 0); simpl in Hd;
      [by injection Hd as _ <-|].
    apply bind_Ok in Hd as (c2 & Hupd & Hd).
    apply bind_Ok in Hd as (c3 & Hrun & [= _ <-]).
    apply upd_batch_Ok in Hupd as (bn & _ & ->).
    apply unmarshal_batch_Ok in Hrun
      as (_ & _ & _ & _ & _ & _ & _ & _ & Hq & _ & _ & Hnum & _).
    split.
    - simpl. rewrite Hq. by destruct ctxw.
    - simpl. rewrite Hnum. by destruct ctxw. }
  assert (jobs (queue g') = jobs (queue (GLThread ctxd)) /\
          num_batches (stats g') = num_batches (stats (GLThread ctxd)))
    as [Hj' Hn'].
  { unfold g'. destruct synced'; injection H as <-; by destruct ctxd. }
  rewrite Hn', Hnd, Hnw, iter_wrap32 by done.
  rewrite Hj', Hjd in Hempty. rewrite Hempty, app_nil_r in Hrj. subst rj.
  destruct (used g =? 0).
  - by rewrite Z.add_0_r.
  - unfold wrap32. rewrite Zplus_mod_idemp_l. done.
Qed.

End AccountingExtras.

Lemma finish_counts_every_batch_witness :
  enabled (GLThread (Demo.busy false)) = true /\
  Demo.producer <> threads0 (queue (GLThread (Demo.busy false))) /\
  fifo_ok (Demo.busy false) /\
  0 <= num_batches (stats (GLThread (Demo.busy false))) < 2 ^ 32 /\
  exists ctx',
    _mesa_glthread_finish 8 Demo.producer (Demo.busy false) = Ok ctx' /\
    jobs (queue (GLThread ctx')) = [] /\
    num_batches (stats (GLThread ctx')) = 2.
Proof.
  assert (Demo.producer <> threads0 (queue (GLThread (Demo.busy false))))
    as Hne by (vm_compute; discriminate).
  assert (0 <= num_batches (stats (GLThread (Demo.busy false))) < 2 ^ 32)
    as Hrange by (vm_compute; split; [discriminate | reflexivity]).
  split; [reflexivity|]. split; [exact Hne|].
  split; [apply demo_busy_fifo|]. split; [exact Hrange|].
  run_demo (_mesa_glthread_finish 8 Demo.producer (Demo.busy false)).
  exists ctx'. split; [reflexivity|].
  exact (finish_counts_every_batch 8 Demo.producer (Demo.busy false) ctx'
           eq_refl Hne (demo_busy_fifo false) Hrange E).
Defined.

(** ** Pointers into the current batch *)

Section Handover.

Context {env : glthread_env}.
Implicit Types (ctx : gl_context) (b : glthread_batch).

Lemma view_cached ctx ctx' :
  producer_view ctx' = producer_view ctx ->
  LastCallList (GLThread ctx') = LastCallList (GLThread ctx) /\
  LastBindBuffer (GLThread ctx') = LastBindBuffer (GLThread ctx).
Proof. unfold producer_view. intros H. by simplify_eq. Qed.

(** What [_mesa_glthread_finish] does to the two pointers the dispatch
    adapter keeps into the current batch. *)
Lemma finish_cached fuel tid ctx ctx' :
  enabled (GLThread ctx) = true ->
  tid <> threads0 (queue (GLThread ctx)) ->
  _mesa_glthread_finish fuel tid ctx = Ok ctx' ->
  let g := GLThread ctx in
  let g' := GLThread ctx' in
  LastCallList g' = (if used g =? 0 then LastCallList g else 0) /\
  LastBindBuffer g' = (if used g =? 0 then LastBindBuffer g else 0).
Proof.
  intros Hen Htid H. unfold _mesa_glthread_finish in H.
  rewrite Hen in H. simpl in H.
  destruct (tid =? _) eqn:E; [lia|]. clear E.
  apply bind_Ok in H as (s & _ & H).
  apply bind_Ok in H as ([synced ctxw] & Hwait & H).
  assert (producer_view ctxw = producer_view ctx) as Hv.
  { destruct s; simpl in Hwait; [by injection Hwait as _ <-|].
    apply bind_Ok in Hwait as (c & Hw & [= _ <-]).
    unfold util_queue_fence_wait in Hw.
    apply fence_wait_loop_ran in Hw as [(-> & _) _]. by destruct ctx. }
  pose proof (view_cached _ _ Hv) as [Hcl Hbb].
  apply view_fields in Hv. simpl in Hv. destruct Hv as (_&_&_&_&Hu&_).
  apply bind_Ok in H as ([synced' ctxd] & Hd & H).
  assert (LastCallList (GLThread ctxd)
          = (if used (GLThread ctx) =? 0 then LastCallList (GLThread ctx) else 0)
          /\ LastBindBuffer (GLThread ctxd)
          = (if used (GLThread ctx) =? 0 then LastBindBuffer (GLThread ctx) else 0))
    as [Hcl' Hbb'].
  { rewrite Hu in Hd. destruct (used (GLThread ctx) =? 0); simpl in Hd.
    - by injection Hd as _ <-.
    - apply bind_Ok in Hd as (c2 & Hupd & Hd).
      apply bind_Ok in Hd as (c3 & Hrun & [= _ <-]).
      apply upd_batch_Ok in Hupd as (bn & _ & ->).
      apply unmarshal_batch_Ok in Hrun
        as (_ & _ & _ & _ & _ & _ & _ & Hv3 & _).
      apply view_cached in Hv3 as [Hcl3 Hbb3].
      simpl. rewrite Hcl3, Hbb3. by destruct ctxw. }
  simpl. rewrite <- Hcl', <- Hbb'.
  destruct synced'; injection H as <-; by destruct ctxd.
Qed.

End Handover.

Section HandoverExtras.

Context {env : glthread_env}.
Implicit Types (ctx : gl_context) (b : glthread_batch).

(** X14.  The pointers [LastCallList] and [LastBindBuffer], which the dispatch
    adapter keeps into the batch it is recording, do not outlive the
    hand-over of that batch: they are [NULL] after a flush that has
    submitted the batch and after a [_mesa_glthread_finish] that has run
    it from the calling thread.  A [_mesa_glthread_finish] that finds the
    current batch empty leaves them as they are. *)
Theorem handover_clears_cached_pointers (fuel : nat) (cpu tid : Z) ctx :
  enabled (GLThread ctx) = true ->
  let g := GLThread ctx in
  (forall ctx',
     CurrentServerDispatch ctx <> ContextLost ctx ->
     used g <> 0 ->
     _mesa_glthread_flush_batch fuel cpu tid ctx = Ok ctx' ->
     LastCallList (GLThread ctx') = 0 /\ LastBindBuffer (GLThread ctx') = 0) /\
  (forall ctx',
     tid <> threads0 (queue g) ->
     _mesa_glthread_finish fuel tid ctx = Ok ctx' ->
     (used g <> 0 ->
      LastCallList (GLThread ctx') = 0 /\ LastBindBuffer (GLThread ctx') = 0) /\
     (used g = 0 ->
      LastCallList (GLThread ctx') = LastCallList g /\
      LastBindBuffer (GLThread ctx') = LastBindBuffer g)).
Proof.
  intros Hen g. split.
  - intros ctx' Hlost Hused H. rewrite flush_submits in H by done.
    by apply submit_batch_Ok in H as (_&_&_&_&_&_&_&?&?&_).
  - intros ctx' Htid H.
    destruct (finish_cached _ _ _ _ Hen Htid H) as [Hcl Hbb].
    split; intros Hu.
    + assert ((used (GLThread ctx) =? 0) = false) as E by (unfold g in Hu; lia).
      by rewrite E in Hcl, Hbb.
    + unfold g in Hu. by rewrite Hu in Hcl, Hbb.
Qed.

End HandoverExtras.

Lemma handover_clears_cached_pointers_witness :
  enabled (GLThread (Demo.cached false)) = true /\
  CurrentServerDispatch (Demo.cached false) <> ContextLost (Demo.cached false) /\
  used (GLThread (Demo.cached false)) <> 0 /\
  Demo.producer <> threads0 (queue (GLThread (Demo.cached false))) /\
  LastCallList (GLThread (Demo.cached false)) = 77 /\
  (exists ctx',
     _mesa_glthread_flush_batch 8 0 Demo.producer (Demo.cached false) = Ok ctx' /\
     LastCallList (GLThread ctx') = 0 /\ LastBindBuffer (GLThread ctx') = 0) /\
  (exists ctx',
     _mesa_glthread_finish 8 Demo.producer (Demo.cached false) = Ok ctx' /\
     LastCallList (GLThread ctx') = 0 /\ LastBindBuffer (GLThread ctx') = 0).
Proof.
  assert (CurrentServerDispatch (Demo.cached false)
          <> ContextLost (Demo.cached false)) as Hlost
    by (vm_compute; discriminate).
  assert (used (GLThread (Demo.cached false)) <> 0) as Hused
    by (vm_compute; discriminate).
  assert (Demo.producer <> threads0 (queue (GLThread (Demo.cached false))))
    as Hne by (vm_compute; discriminate).
  split; [reflexivity|]. split; [exact Hlost|]. split; [exact Hused|].
  split; [exact Hne|]. split; [reflexivity|]. split.
  - run_demo (_mesa_glthread_flush_batch 8 0 Demo.producer (Demo.cached false)).
    exists ctx'. split; [reflexivity|].
    destruct (handover_clears_cached_pointers 8 0 Demo.producer
                (Demo.cached false) eq_refl) as [Hflush _].
    exact (Hflush ctx' Hlost Hused E).
  - run_demo (_mesa_glthread_finish 8 Demo.producer (Demo.cached false)).
    exists ctx'. split; [reflexivity|].
    destruct (handover_clears_cached_pointers 8 0 Demo.producer
                (Demo.cached false) eq_refl) as [_ Hfinish].
    destruct (Hfinish ctx' Hne E) as [H _]. exact (H Hused).
Defined.

(** ** Who runs a flushed batch *)

Section WorkerRuns.

Context {env : glthread_env}.
Implicit Types (ctx : gl_context) (b : glthread_batch).

Lemma fence_wait_loop_signalled n fuel f ctx :
  util_queue_fence_is_signalled f ctx = Ok true ->
  fence_wait_loop n fuel f ctx = Ok ctx.
Proof. intros H. destruct n; cbn [fence_wait_loop]; by rewrite H. Qed.

(** Waiting for the fence of the batch submitted last ends with the
    worker unmarshalling that batch. *)
Lemma wait_runs_last fuel l b n ctx ctx' pre :
  fifo_ok ctx -> runnable fuel ctx ->
  0 <= l ->
  jobs (queue (GLThread ctx)) = pre ++ [UnmarshalJob l (BatchFence l)] ->
  batches (GLThread ctx) !! Z.to_nat l = Some b ->
  fence_wait_loop n fuel (BatchFence l) ctx = Ok ctx' ->
  exists evs evd,
    events ctx' = events ctx ++ evs ++ evd /\
    dispatch_chain (threads0 (queue (GLThread ctx))) l (buffer b) 0 (b_used b)
      evd.
Proof.
  revert ctx pre n.
  assert (forall k ctx pre n, length pre = k ->
    fifo_ok ctx -> runnable fuel ctx -> 0 <= l ->
    jobs (queue (GLThread ctx)) = pre ++ [UnmarshalJob l (BatchFence l)] ->
    batches (GLThread ctx) !! Z.to_nat l = Some b ->
    fence_wait_loop n fuel (BatchFence l) ctx = Ok ctx' ->
    exists evs evd,
      events ctx' = events ctx ++ evs ++ evd /\
      dispatch_chain (threads0 (queue (GLThread ctx))) l (buffer b) 0 (b_used b)
        evd) as Hgen; [|intros ctx pre n; by apply (Hgen (length pre))].
  induction k as [|k IH]; intros ctx pre n Hlen Hfifo Hrun Hl Hj Hb H.
  - (* the job of the batch is next *)
    destruct pre; [|discriminate]. simpl in Hj. clear Hlen.
    assert (batch_at l ctx = Ok b) as Hat by (by apply batch_at_Ok).
    assert (fence b = false) as Hf.
    { destruct Hfifo as (_ & _ & Hunsig & _).
      specialize (Hunsig l Hl). rewrite Hj in Hunsig.
      rewrite list_lookup_fmap, Hb in Hunsig. simpl in Hunsig.
      assert (Some (fence b) = Some false) as [= ->]; [|done].
      apply Hunsig. by left. }
    destruct n as [|n]; simpl in H; rewrite Hat in H; simpl in H;
      rewrite Hf in H; [discriminate|].
    apply bind_Ok in H as (ctx1 & Hstep & H).
    unfold util_queue_worker_step in Hstep.
    destruct Hrun as [Halive Hjobs]. rewrite Halive, Hj in Hstep.
    simpl in Hstep.
    apply bind_Ok in Hstep as (c1 & Hrun1 & Hsig).
    rewrite Hj in Hjobs. apply Forall_cons in Hjobs as [[(b0 & Hb0 & Hok) _] _].
    assert (b0 = b) as -> by congruence.
    set (ctx0 := upd_queue (set_jobs []) ctx) in *.
    assert (batch_at l ctx0 = Ok b) as Hat0 by (by destruct ctx).
    destruct (unmarshal_batch_total fuel (threads0 (queue (GLThread ctx)))
                l ctx0 b Hat0 Hok) as (c1' & evd & Hrun1' & Hev1 & Hch).
    rewrite Hrun1 in Hrun1'. injection Hrun1' as <-.
    change (util_queue_fence_set true (BatchFence l) c1 = Ok ctx1) in Hsig.
    pose proof (fence_set_Ok _ _ _ _ Hsig) as (_ & _ & Hev2 & _ & Hsig2).
    assert (ctx' = ctx1) as ->.
    { rewrite fence_wait_loop_signalled in H by done. by injection H. }
    exists [], evd. split; [|done].
    simpl. rewrite Hev2, Hev1. by destruct ctx.
  - (* another job is run first *)
    destruct pre as [|j0 pre]; [discriminate|]. injection Hlen as Hlen.
    simpl in Hj.
    assert (batch_at l ctx = Ok b) as Hat by (by apply batch_at_Ok).
    assert (fence b = false) as Hf.
    { destruct Hfifo as (_ & _ & Hunsig & _).
      specialize (Hunsig l Hl). rewrite Hj in Hunsig.
      rewrite list_lookup_fmap, Hb in Hunsig. simpl in Hunsig.
      assert (Some (fence b) = Some false) as [= ->]; [|done].
      apply Hunsig. right. apply elem_of_app. right. by left. }
    destruct n as [|n]; simpl in H; rewrite Hat in H; simpl in H;
      rewrite Hf in H; [discriminate|].
    apply bind_Ok in H as (ctx1 & Hstep & H).
    destruct (worker_step_ok _ _ Hrun) as (c1 & Hstep' & Hrun1 & _ & _ & Hcase).
    rewrite Hstep in Hstep'. injection Hstep' as <-.
    destruct Hcase as [[Hnil _]|(j & Hj1 & _)]; [by rewrite Hj in Hnil|].
    rewrite Hj in Hj1. injection Hj1 as <- Hj1.
    pose proof (worker_step_fifo _ _ _ Hfifo Hstep) as Hfifo1.
    destruct (worker_step_server _ _ _ Hfifo Hstep) as (r & Hr & _ & Hfr).
    assert (r = [j0]) as ->.
    { rewrite Hj, <- Hj1 in Hr.
      change (j0 :: pre ++ [UnmarshalJob l (BatchFence l)])
        with ([j0] ++ (pre ++ [UnmarshalJob l (BatchFence l)])) in Hr.
      by apply app_inv_tail in Hr. }
    assert (batches (GLThread ctx1) !! Z.to_nat l = Some b) as Hb1.
    { rewrite Hfr; [done | done |]. intros Hin.
      apply list_elem_of_singleton in Hin.
      destruct Hfifo as (Hnd & _). rewrite Hj in Hnd.
      apply NoDup_cons in Hnd as [Hnotin _]. apply Hnotin.
      rewrite <- Hin. apply elem_of_app. right. by left. }
    apply worker_step_ran in Hstep as (Hv & _ & (e1 & He1 & _)).
    destruct (IH ctx1 pre n Hlen Hfifo1 Hrun1 Hl (eq_sym Hj1) Hb1 H)
      as (evs & evd & Hev & Hch).
    exists (e1 ++ evs), evd. split.
    + by rewrite Hev, He1, <- !app_assoc.
    + by rewrite <- (view_threads0 _ _ Hv).
Qed.

(** [_mesa_glthread_finish] on an engine whose current batch is empty
    and whose queue ends with the job of the batch submitted last: the
    last calls made before it returns are those by which the worker
    decodes that batch. *)
Lemma finish_offloaded fuel tid ctx ctx' b pre :
  enabled (GLThread ctx) = true ->
  tid <> threads0 (queue (GLThread ctx)) ->
  fifo_ok ctx -> runnable fuel ctx ->
  used (GLThread ctx) = 0 ->
  let l := last (GLThread ctx) in
  0 <= l ->
  jobs (queue (GLThread ctx)) = pre ++ [UnmarshalJob l (BatchFence l)] ->
  batches (GLThread ctx) !! Z.to_nat l = Some b ->
  _mesa_glthread_finish fuel tid ctx = Ok ctx' ->
  exists pe evd,
    events ctx' = pe ++ evd /\
    dispatch_chain (threads0 (queue (GLThread ctx))) l (buffer b) 0 (b_used b)
      evd.
Proof.
  intros Hen Htid Hfifo Hrun Hu l Hl Hj Hb H.
  assert (batch_at l ctx = Ok b) as Hat by (by apply batch_at_Ok).
  assert (fence b = false) as Hf.
  { destruct Hfifo as (_ & _ & Hunsig & _).
    specialize (Hunsig l Hl). rewrite Hj in Hunsig.
    rewrite list_lookup_fmap, Hb in Hunsig. simpl in Hunsig.
    assert (Some (fence b) = Some false) as [= ->]; [|done].
    apply Hunsig. apply elem_of_app. right. by left. }
  unfold _mesa_glthread_finish in H. rewrite Hen in H. simpl in H.
  destruct (tid =? _) eqn:E; [lia|]. clear E.
  fold l in H. rewrite Hat in H. simpl in H. rewrite Hf in H. simpl in H.
  apply bind_Ok in H as ([synced ctxw] & Hwait & H).
  apply bind_Ok in Hwait as (c & Hw & [= <- <-]).
  unfold util_queue_fence_wait in Hw.
  set (ctx0 := log (EvFenceWait (BatchFence l)) ctx) in *.
  assert (fifo_ok ctx0) as Hfifo0
    by (apply (fifo_ok_same ctx); by destruct ctx).
  assert (runnable fuel ctx0) as Hrun0.
  { destruct Hrun as [Ha Hjobs]. split; [by destruct ctx|].
    replace (jobs (queue (GLThread ctx0))) with (jobs (queue (GLThread ctx)))
      by (by destruct ctx).
    eapply Forall_impl; [exact Hjobs|]. intros j. apply job_ok_same.
    by destruct ctx. }
  assert (jobs (queue (GLThread ctx0)) = pre ++ [UnmarshalJob l (BatchFence l)]
          /\ batches (GLThread ctx0) !! Z.to_nat l = Some b
          /\ threads0 (queue (GLThread ctx0)) = threads0 (queue (GLThread ctx))
          /\ events ctx0 = events ctx ++ [EvFenceWait (BatchFence l)]
          /\ used (GLThread ctx0) = used (GLThread ctx))
    as (Hj0 & Hb0 & Ht0 & Hev0 & Hu0') by (by destruct ctx).
  clearbody ctx0.
  destruct (wait_runs_last _ _ _ _ _ _ _ Hfifo0 Hrun0 Hl Hj0 Hb0 Hw)
    as (evs & evd & Hev & Hch).
  apply fence_wait_loop_ran in Hw as [(Hv & _) _].
  apply view_fields in Hv. simpl in Hv. destruct Hv as (_&_&_&_&Huw&_).
  assert (used (GLThread c) = 0) as Hu0 by congruence.
  rewrite Hu0 in H. simpl in H. injection H as <-.
  exists (events ctx ++ [EvFenceWait (BatchFence l)] ++ evs), evd.
  split; [|by rewrite <- Ht0].
  simpl. rewrite Hev, Hev0, <- !app_assoc. done.
Qed.

End WorkerRuns.

Section WorkerRunsExtras.

Context {env : glthread_env}.
Implicit Types (ctx : gl_context) (b : glthread_batch).

(** X16.  A batch that is flushed is unmarshalled by the worker.  On an enabled
    engine in order, whose context is not lost and whose current batch is
    not empty, let the producer thread flush and then finish.  Both calls
    return, and the last calls made before [_mesa_glthread_finish]
    returns are unmarshal calls made on the worker thread for the batch
    that was current, which decode its records one after the other from
    offset 0 to [used].  [used] has been added to [num_offloaded_items]
    and [num_direct_items] is as it was. *)
Theorem offloaded_batch_runs_on_worker (fuel : nat) (cpu tid : Z) ctx :
  engine_inv fuel ctx ->
  enabled (GLThread ctx) = true ->
  CurrentServerDispatch ctx <> ContextLost ctx ->
  used (GLThread ctx) <> 0 ->
  tid <> threads0 (queue (GLThread ctx)) ->
  let g := GLThread ctx in
  exists ctx1 ctx2 bn pre evd,
    _mesa_glthread_flush_batch fuel cpu tid ctx = Ok ctx1 /\
    _mesa_glthread_finish fuel tid ctx1 = Ok ctx2 /\
    batch_at (next_batch g) ctx = Ok bn /\
    events ctx2 = pre ++ evd /\
    dispatch_chain (threads0 (queue g)) (next_batch g) (buffer bn) 0 (used g)
      evd /\
    num_offloaded_items (stats (GLThread ctx2)) =
      wrap32 (num_offloaded_items (stats g) + used g) /\
    num_direct_items (stats (GLThread ctx2)) = num_direct_items (stats g).
Proof.
  intros Hinv Hen Hlost Hused Htid g.
  destruct (flush_inv fuel cpu tid ctx Hinv Hlost) as (ctx1 & Hflush & Hinv1).
  destruct (finish_inv fuel tid ctx1 Hinv1) as (ctx2 & Hfin2 & _).
  pose proof Hinv1 as (((Hrun1 & _) & _) & Hfifo1 & _).
  exists ctx1, ctx2.
  pose proof Hflush as Hsubmit. rewrite flush_submits in Hsubmit by done.
  destruct (pin_threads_keeps cpu ctx)
    as (Hqp & Hbp & Hstp & (Henp & Hnp & Hlp & Hnbp & Hup) & _).
  pose proof (engine_inv_same fuel ctx _ Hinv Hqp Hbp Hlp Hnp Hnbp Hup) as Hinvp.
  pose proof (submit_batch_server _ _ _ Hinvp Hsubmit) as Hsub. simpl in Hsub.
  rewrite Hqp, Hbp, Hnbp, Hup, Henp in Hsub.
  destruct Hsub as (d1 & rest & bn & b' & _ & Hj1 & _ & _
                    & (Hbn & Hb' & Hbuf & Hbu & _) & (Hen1 & Ht1 & Hu1 & Hl1)).
  assert (0 <= next_batch g) as Hnb0.
  { destruct Hinv as (((_ & _ & _ & ? & _) & _) & _). unfold g. lia. }
  assert (enabled (GLThread ctx1) = true) as Hen1' by congruence.
  assert (tid <> threads0 (queue (GLThread ctx1))) as Htid1 by congruence.
  rewrite <- Hl1 in Hj1, Hb'.
  destruct (finish_offloaded fuel tid ctx1 ctx2 b' rest Hen1' Htid1 Hfifo1 Hrun1
              Hu1) as (pe & evd & Hev & Hch); [by rewrite Hl1 | done..|].
  exists bn, pe, evd.
  split; [done|]. split; [done|].
  split; [by apply batch_at_Ok|]. split; [done|].
  rewrite Hl1, Ht1, Hbuf, Hbu in Hch. split; [done|].
  pose proof (finish_Ok _ _ _ _ Hen1' Htid1 Hfin2)
    as (_ & _ & _ & _ & _ & _ & _ & Hoff2 & Hdir2 & _).
  rewrite Hu1 in Hdir2. simpl in Hdir2. rewrite Hoff2, Hdir2.
  apply submit_batch_Ok in Hsubmit as (-> & _ & _ & _ & _ & _ & _ & _ & _
                                       & (_ & _ & -> & _)).
  by rewrite Hstp, Hup.
Qed.

End WorkerRunsExtras.

Lemma offloaded_batch_runs_on_worker_witness :
  engine_inv 8 (Demo.busy false) /\
  enabled (GLThread (Demo.busy false)) = true /\
  CurrentServerDispatch (Demo.busy false) <> ContextLost (Demo.busy false) /\
  used (GLThread (Demo.busy false)) <> 0 /\
  Demo.producer <> threads0 (queue (GLThread (Demo.busy false))) /\
  exists ctx1 ctx2 pre,
    _mesa_glthread_flush_batch 8 0 Demo.producer (Demo.busy false) = Ok ctx1 /\
    _mesa_glthread_finish 8 Demo.producer ctx1 = Ok ctx2 /\
    events ctx2 = pre ++ [EvDispatch Demo.worker 1 0 3 1] /\
    num_offloaded_items (stats (GLThread ctx2)) = 4.
Proof.
  assert (CurrentServerDispatch (Demo.busy false)
          <> ContextLost (Demo.busy false)) as Hlost
    by (vm_compute; discriminate).
  assert (used (GLThread (Demo.busy false)) <> 0) as Hused
    by (vm_compute; discriminate).
  assert (Demo.producer <> threads0 (queue (GLThread (Demo.busy false))))
    as Hne by (vm_compute; discriminate).
  split; [apply demo_busy_inv|]. split; [reflexivity|].
  split; [exact Hlost|]. split; [exact Hused|]. split; [exact Hne|].
  destruct (offloaded_batch_runs_on_worker 8 0 Demo.producer (Demo.busy false)
              (demo_busy_inv false) eq_refl Hlost Hused Hne)
    as (ctx1 & ctx2 & bn & pre & evd & Hflush & Hfin & Hbn & Hev & Hch & Hoff & _).
  exists ctx1, ctx2, pre.
  split; [exact Hflush|]. split; [exact Hfin|]. split; [|exact Hoff].
  rewrite Hev. f_equal. injection Hbn as <-. simpl in Hch.
  destruct evd as [|e1 evd]; [discriminate Hch|].
  destruct Hch as (h1 & n1 & Hh1 & -> & Hn1 & _ & _ & Hch).
  injection Hh1 as <-. specialize (Hn1 []). simpl in Hn1. subst n1.
  destruct evd as [|e2 evd]; [reflexivity|].
  destruct Hch as (h2 & n2 & Hh2 & _). discriminate Hh2.
Defined.

(** ** The worker's turn *)

Section AsynchronousExtras.

Context {env : glthread_env}.
Implicit Types (ctx : gl_context) (b : glthread_batch).

(** X18.  The worker keeps the engine in order: one turn of the worker on an
    engine in order, whose queue holds the batches submitted last, that
    is one run of [glthread_unmarshal_batch] on the oldest queued batch
    followed by the signalling of its fence, returns and leaves the engine
    so.  What the producer owns is untouched. *)
Theorem worker_keeps_engine_in_order (fuel : nat) ctx :
  engine_inv fuel ctx ->
  exists ctx',
    util_queue_worker_step fuel ctx = Ok ctx' /\
    engine_inv fuel ctx' /\
    producer_view ctx' = producer_view ctx /\
    jobs (queue (GLThread ctx')) = tail (jobs (queue (GLThread ctx))).
Proof.
  intros ((Hok & Hnn & HN) & Hfifo & Hrq).
  destruct (engine_ok_step _ _ Hok) as (ctx' & Hstep & Hok' & Hlen & Hcase).
  exists ctx'. split; [done|].
  pose proof (worker_step_ran _ _ _ Hstep) as (Hv & (rj & Hrj) & _).
  pose proof (view_fields _ _ Hv) as Hvf. simpl in Hvf.
  destruct Hvf as (_&Hn&Hl&Hnb&_&_&_&_&_&_&Hm&_).
  split_and!; [| done |].
  - split_and!.
    + split_and!; [done | congruence | congruence].
    + by eapply worker_step_fifo.
    + by apply (ring_queue_suffix ctx ctx' rj).
  - unfold util_queue_worker_step in Hstep.
    destruct (q_alive _); simpl in Hstep; [|discriminate].
    destruct (jobs (queue (GLThread ctx))) as [|j rest] eqn:Hj.
    { injection Hstep as <-. by rewrite Hj. }
    destruct Hcase as [?|(j' & Hj')]; [done|]. by injection Hj' as _ <-.
Qed.

End AsynchronousExtras.

Lemma worker_keeps_engine_in_order_witness :
  engine_inv 8 (Demo.busy false) /\
  exists ctx',
    util_queue_worker_step 8 (Demo.busy false) = Ok ctx' /\
    engine_inv 8 ctx' /\
    jobs (queue (GLThread ctx')) = [].
Proof.
  split; [apply demo_busy_inv|].
  destruct (worker_keeps_engine_in_order 8 (Demo.busy false)
              (demo_busy_inv false)) as (ctx' & Hstep & Hinv & _ & Hj).
  exists ctx'. split; [exact Hstep|]. split; [exact Hinv | exact Hj].
Defined.

(** * The engine with its worker running beside the producer *)

(** ** The worker's actions are turns of the sequential queue *)

Section AsyncFrame.

Context {env : glthread_env}.
Implicit Types (ctx : gl_context) (a : Async.engine).

Lemma upd_queue_jobs_eta ctx :
  upd_queue (set_jobs (jobs (queue (GLThread ctx)))) ctx = ctx.
Proof. by destruct ctx as [[[]]]. Qed.

Lemma upd_queue_jobs_twice js js' ctx :
  upd_queue (set_jobs js) (upd_queue (set_jobs js') ctx)
  = upd_queue (set_jobs js) ctx.
Proof. by destruct ctx as [[[]]]. Qed.

Lemma flat_idle a : Async.running a = None -> Async.flat a = Async.ctx_of a.
Proof.
  intros H. unfold Async.flat, Async.in_flight. rewrite H.
  apply upd_queue_jobs_eta.
Qed.

Lemma flat_jobs a :
  jobs (queue (GLThread (Async.flat a))) = Async.in_flight a.
Proof. by destruct a as [[[[]]]]. Qed.

(** The sequential view differs from the context in the backlog only. *)
Lemma flat_fields a :
  let c := Async.ctx_of a in let c' := Async.flat a in
  producer_view c' = producer_view c /\
  batches (GLThread c') = batches (GLThread c) /\
  stats (GLThread c') = stats (GLThread c) /\
  server c' = server c /\ events c' = events c /\
  init_fence c' = init_fence c /\
  glapi_dispatch c' = glapi_dispatch c.
Proof. by destruct a as [[[[]]]]. Qed.

Lemma flat_queue a :
  let q := queue (GLThread (Async.ctx_of a)) in
  let q' := queue (GLThread (Async.flat a)) in
  max_jobs q' = max_jobs q /\ threads0 q' = threads0 q /\
  q_alive q' = q_alive q.
Proof. by destruct a as [[[[]]]]. Qed.

Lemma turns_trans fuel ctx1 ctx2 ctx3 :
  Async.turns fuel ctx1 ctx2 -> Async.turns fuel ctx2 ctx3 ->
  Async.turns fuel ctx1 ctx3.
Proof.
  induction 1 as [|c c1 c' Hstep _ IH]; [done|].
  intros H. eapply Async.turns_step; [exact Hstep | by apply IH].
Qed.

(** What one action of the worker is: nothing, taking a job, or one turn
    of the sequential queue. *)
Lemma worker_action_Ok fuel a a' :
  Async.worker_action fuel a = Ok a' ->
  a' = a \/
  (Async.running a = None /\
   exists j, jobs (queue (GLThread (Async.ctx_of a)))
             = j :: jobs (queue (GLThread (Async.ctx_of a'))) /\
     Async.running a' = Some j /\ Async.flat a' = Async.flat a /\
     Async.ctx_of a' =
       upd_queue (set_jobs (jobs (queue (GLThread (Async.ctx_of a')))))
         (Async.ctx_of a)) \/
  (exists j, Async.running a = Some j /\ Async.running a' = None /\
     util_queue_worker_step fuel (Async.flat a) = Ok (Async.flat a') /\
     jobs (queue (GLThread (Async.ctx_of a')))
     = jobs (queue (GLThread (Async.ctx_of a)))).
Proof.
  unfold Async.worker_action. destruct a as [ctx r]. simpl.
  destruct (q_alive (queue (GLThread ctx))) eqn:Hal; simpl;
    [|intros [= <-]; by left].
  destruct r as [j|].
  - intros H. right. right. exists j.
    apply bind_Ok in H as (c1 & Hrun & H).
    apply bind_Ok in H as (c2 & Hsig & [= <-]). simpl.
    assert (queue (GLThread c2) = queue (GLThread ctx)) as Hq.
    { apply fence_set_Ok in Hsig as (_ & -> & _).
      destruct j as [i f|f]; [|by injection Hrun as <-].
      by apply unmarshal_batch_Ok in Hrun as (_&_&_&_&_&_&_&_&->&_). }
    split_and!; [done | done | | by rewrite Hq].
    rewrite (flat_idle (Async.mk_engine c2 None)) by done. simpl.
    unfold Async.flat, Async.in_flight. simpl.
    unfold util_queue_worker_step.
    replace (q_alive (queue (GLThread (upd_queue (set_jobs
               (j :: jobs (queue (GLThread ctx)))) ctx)))) with true
      by (by destruct ctx as [[[]]]; simpl in *).
    simpl.
    replace (jobs (queue (GLThread (upd_queue (set_jobs
               (j :: jobs (queue (GLThread ctx)))) ctx))))
      with (j :: jobs (queue (GLThread ctx))) by (by destruct ctx as [[[]]]).
    rewrite upd_queue_jobs_twice, upd_queue_jobs_eta.
    replace (threads0 (queue (GLThread (upd_queue (set_jobs
               (j :: jobs (queue (GLThread ctx)))) ctx))))
      with (threads0 (queue (GLThread ctx))) by (by destruct ctx as [[[]]]).
    rewrite Hrun. simpl. exact Hsig.
  - destruct (jobs (queue (GLThread ctx))) as [|j rest] eqn:Hj;
      intros [= <-]; [by left|].
    right. left. split; [done|]. exists j. simpl.
    split_and!; [by destruct ctx as [[[]]] | done | |].
    + unfold Async.flat, Async.in_flight. simpl.
      rewrite upd_queue_jobs_twice, Hj.
      by destruct ctx as [[[]]]; simpl in *.
    + by destruct ctx as [[[]]]; simpl in *.
Qed.

Lemma worker_action_turns fuel a a' :
  Async.worker_action fuel a = Ok a' ->
  Async.turns fuel (Async.flat a) (Async.flat a').
Proof.
  intros H. apply worker_action_Ok in H as [->|[(_ & j & _ & _ & -> & _)|H]];
    try apply Async.turns_refl.
  destruct H as (j & _ & _ & Hstep & _).
  eapply Async.turns_step; [exact Hstep | apply Async.turns_refl].
Qed.

End AsyncFrame.

Section AsyncTurns.

Context {env : glthread_env}.
Implicit Types (ctx : gl_context) (a : Async.engine).

Lemma turns_ran fuel ctx ctx' : Async.turns fuel ctx ctx' -> worker_ran ctx ctx'.
Proof.
  induction 1 as [|c c1 c' Hstep _ IH]; [apply worker_ran_refl|].
  eapply worker_ran_trans; [by eapply worker_step_ran | done].
Qed.

Lemma turns_fifo fuel ctx ctx' :
  fifo_ok ctx -> Async.turns fuel ctx ctx' -> fifo_ok ctx'.
Proof.
  intros Hok H. induction H as [|c c1 c' Hstep _ IH]; [done|].
  apply IH. by eapply worker_step_fifo.
Qed.

Lemma turns_other fuel ctx ctx' k :
  fifo_ok ctx -> Async.turns fuel ctx ctx' ->
  0 <= k ->
  UnmarshalJob k (BatchFence k) ∉ jobs (queue (GLThread ctx)) ->
  batches (GLThread ctx') !! Z.to_nat k = batches (GLThread ctx) !! Z.to_nat k.
Proof.
  intros Hok H Hk. induction H as [|c c1 c' Hstep _ IH]; [done|].
  intros Hnotin.
  rewrite IH; [by eapply worker_step_other | by eapply worker_step_fifo |].
  apply worker_step_ran in Hstep as (_ & (dn & Hdn) & _).
  intros Hin. apply Hnotin. rewrite Hdn. apply elem_of_app. by right.
Qed.

Lemma turns_slept fuel ctx ctx' :
  fifo_ok ctx -> Async.turns fuel ctx ctx' -> slept fuel ctx ctx'.
Proof.
  intros Hok H. induction H as [|c c1 c' Hstep _ IH]; [apply slept_refl|].
  eapply slept_step; [done | exact Hstep |].
  apply IH. by eapply worker_step_fifo.
Qed.

Lemma turns_runnable fuel ctx ctx' :
  runnable fuel ctx -> Async.turns fuel ctx ctx' ->
  runnable fuel ctx' /\
  batches_evolve (batches (GLThread ctx)) (batches (GLThread ctx')) /\
  (init_fence ctx = true -> init_fence ctx' = true) /\
  (exists done,
     jobs (queue (GLThread ctx)) = done ++ jobs (queue (GLThread ctx')) /\
     Forall (fun j => util_queue_fence_is_signalled (job_fence j) ctx'
                      = Ok true) done).
Proof.
  intros Hrun H. induction H as [|c c1 c' Hstep _ IH].
  { split_and!; [done | apply batches_evolve_refl | done |]. by exists []. }
  destruct (worker_step_ok _ _ Hrun) as (c1' & Hstep' & Hrun1 & Hev1 & Hif1 & Hj).
  rewrite Hstep in Hstep'. injection Hstep' as <-.
  destruct (IH Hrun1) as (Hrun2 & Hev2 & Hif2 & (dn & Hdone & Hall)).
  split_and!; [done | by eapply batches_evolve_trans | auto |].
  destruct Hj as [[Hnil ->]|(j & Hj & Hsig)]; [by exists dn|].
  exists (j :: dn). split; [by rewrite Hj, Hdone|].
  constructor; [|done]. by apply (signalled_evolve _ c1).
Qed.

Lemma turns_engine_ok fuel ctx ctx' :
  engine_ok fuel ctx -> Async.turns fuel ctx ctx' -> engine_ok fuel ctx'.
Proof.
  intros Hok H. induction H as [|c c1 c' Hstep _ IH]; [done|].
  apply IH. destruct (engine_ok_step _ _ Hok) as (c1' & Hstep' & Hok1 & _).
  congruence.
Qed.

Lemma actions_left_bound a : (Async.actions_left a <= 2 * length (Async.in_flight a))%nat.
Proof.
  unfold Async.actions_left, Async.in_flight. destruct (Async.running a); simpl; lia.
Qed.

(** With the jobs in flight runnable the worker's action returns, and
    brings the worker one step closer to having nothing to do. *)
Lemma worker_action_total fuel a :
  runnable fuel (Async.flat a) ->
  exists a',
    Async.worker_action fuel a = Ok a' /\
    (Async.in_flight a = [] /\ a' = a \/
     Async.in_flight a <> [] /\ S (Async.actions_left a') = Async.actions_left a).
Proof.
  intros Hrun. pose proof Hrun as [Hal _].
  destruct (worker_step_ok _ _ Hrun) as (c1 & Hstep & _ & _ & _ & Hj).
  unfold Async.worker_action.
  replace (q_alive (queue (GLThread (Async.ctx_of a)))) with true
    by (rewrite <- Hal; by destruct a as [[[[]]]]).
  simpl. unfold Async.actions_left, Async.in_flight.
  destruct a as [ctx [j|]]; simpl in *.
  - revert Hstep. unfold util_queue_worker_step, Async.flat, Async.in_flight.
    simpl.
    replace (q_alive (queue (GLThread (upd_queue (set_jobs
               (j :: jobs (queue (GLThread ctx)))) ctx))))
      with (q_alive (queue (GLThread ctx))) by (by destruct ctx as [[[]]]).
    replace (q_alive (queue (GLThread ctx))) with true
      by (rewrite <- Hal; by destruct ctx as [[[]]]).
    simpl.
    replace (jobs (queue (GLThread (upd_queue (set_jobs
               (j :: jobs (queue (GLThread ctx)))) ctx))))
      with (j :: jobs (queue (GLThread ctx))) by (by destruct ctx as [[[]]]).
    rewrite upd_queue_jobs_twice, upd_queue_jobs_eta.
    replace (threads0 (queue (GLThread (upd_queue (set_jobs
               (j :: jobs (queue (GLThread ctx)))) ctx))))
      with (threads0 (queue (GLThread ctx))) by (by destruct ctx as [[[]]]).
    intros Hstep. apply bind_Ok in Hstep as (c0 & Hrun0 & Hsig).
    rewrite Hrun0. simpl. rewrite Hsig. simpl.
    eexists. split; [done|]. right. split; [done|]. simpl.
    assert (queue (GLThread c1) = queue (GLThread ctx)) as ->; [|lia].
    apply fence_set_Ok in Hsig as (_ & -> & _).
    destruct j as [i f|f]; [|by injection Hrun0 as <-].
    by apply unmarshal_batch_Ok in Hrun0 as (_&_&_&_&_&_&_&_&->&_).
  - destruct (jobs (queue (GLThread ctx))) as [|j rest] eqn:Hjs.
    + exists (Async.mk_engine ctx None). split; [done|]. by left.
    + eexists. split; [done|]. right. split; [done|]. simpl.
      replace (jobs (queue (GLThread (upd_queue (set_jobs rest) ctx))))
        with rest by (by destruct ctx as [[[]]]).
      simpl. lia.
Qed.

Lemma worker_runs_turns k fuel a a' :
  Async.worker_runs k fuel a = Ok a' ->
  Async.turns fuel (Async.flat a) (Async.flat a').
Proof.
  revert a. induction k as [|k IH]; intros a; simpl.
  { intros [= <-]. apply Async.turns_refl. }
  intros H. apply bind_Ok in H as (a1 & Hact & H).
  eapply turns_trans; [by apply worker_action_turns | by apply IH].
Qed.

Lemma worker_runs_total k fuel a :
  runnable fuel (Async.flat a) ->
  exists a', Async.worker_runs k fuel a = Ok a' /\
             (Async.actions_left a' <= Async.actions_left a)%nat.
Proof.
  revert a. induction k as [|k IH]; intros a Hrun; simpl; [eauto|].
  destruct (worker_action_total fuel a Hrun) as (a1 & Hact & Hm).
  rewrite Hact. simpl.
  destruct (IH a1) as (a' & H & Hle).
  { by eapply (turns_runnable fuel (Async.flat a)), worker_action_turns. }
  exists a'. split; [done|]. destruct Hm as [[_ ->]|[_ Hm]]; lia.
Qed.

Lemma async_slot_wait_turns n fuel a a' :
  Async.slot_wait_loop n fuel a = Ok a' ->
  Async.turns fuel (Async.flat a) (Async.flat a') /\
  Z.of_nat (length (jobs (queue (GLThread (Async.ctx_of a')))))
  < max_jobs (queue (GLThread (Async.ctx_of a'))).
Proof.
  revert a. induction n as [|n IH]; intros a; simpl;
    destruct (_ <? _) eqn:E; try discriminate;
    try (intros [= <-]; split; [apply Async.turns_refl | lia]).
  destruct (q_alive _); simpl; [|discriminate].
  intros H. apply bind_Ok in H as (a1 & Hact & H).
  destruct (IH _ H) as [Ht Hroom]. split; [|done].
  eapply turns_trans; [by apply worker_action_turns | done].
Qed.

Lemma async_slot_wait_total n fuel a :
  runnable fuel (Async.flat a) ->
  0 < max_jobs (queue (GLThread (Async.ctx_of a))) ->
  (Async.actions_left a <= n)%nat ->
  exists a', Async.slot_wait_loop n fuel a = Ok a' /\
             (Async.actions_left a' <= Async.actions_left a)%nat.
Proof.
  revert a. induction n as [|n IH]; intros a Hrun Hmax Hn; simpl.
  - assert (jobs (queue (GLThread (Async.ctx_of a))) = []) as Hnil.
    { unfold Async.actions_left in Hn. destruct (jobs _); [done | simpl in Hn; lia]. }
    rewrite Hnil. simpl length. change (Z.of_nat 0) with 0.
    assert ((0 <? max_jobs (queue (GLThread (Async.ctx_of a)))) = true) as ->
      by lia.
    eauto.
  - destruct (_ <? _) eqn:E; [eauto|].
    pose proof Hrun as [Hal _].
    replace (q_alive (queue (GLThread (Async.ctx_of a)))) with true
      by (rewrite <- Hal; by destruct a as [[[[]]]]).
    simpl.
    destruct (worker_action_total fuel a Hrun) as (a1 & Hact & Hm).
    rewrite Hact. simpl.
    destruct Hm as [[Hfl _]|[_ Hm]].
    { exfalso. unfold Async.in_flight in Hfl.
      destruct (Async.running a); [done|]. rewrite Hfl in E.
      apply Z.ltb_ge in E. simpl in E. lia. }
    pose proof (worker_action_turns _ _ _ Hact) as Ht.
    destruct (IH a1) as (a' & H & Hle);
      [by eapply (turns_runnable fuel (Async.flat a)) | | lia |].
    { apply turns_ran in Ht as (Hv & _). apply view_fields in Hv.
      destruct Hv as (_&_&_&_&_&_&_&_&_&_&Hmx&_).
      destruct (flat_queue a) as (Hma & _).
      destruct (flat_queue a1) as (Hma1 & _).
      cbv zeta in *. lia. }
    exists a'. split; [done | lia].
Qed.

End AsyncTurns.

Section AsyncWaits.

Context {env : glthread_env}.
Implicit Types (ctx : gl_context) (a : Async.engine).

Lemma worker_action_backlog fuel a a' :
  Async.worker_action fuel a = Ok a' ->
  (length (jobs (queue (GLThread (Async.ctx_of a'))))
   <= length (jobs (queue (GLThread (Async.ctx_of a)))))%nat.
Proof.
  intros H. apply worker_action_Ok in H
    as [->|[(_ & j & -> & _)|(j & _ & _ & _ & ->)]]; simpl; lia.
Qed.

Lemma worker_runs_backlog k fuel a a' :
  Async.worker_runs k fuel a = Ok a' ->
  (length (jobs (queue (GLThread (Async.ctx_of a'))))
   <= length (jobs (queue (GLThread (Async.ctx_of a)))))%nat.
Proof.
  revert a. induction k as [|k IH]; intros a; simpl; [by intros [= <-]|].
  intros H. apply bind_Ok in H as (a1 & Hact & H).
  apply worker_action_backlog in Hact. apply IH in H. lia.
Qed.

Lemma async_slot_wait_backlog n fuel a a' :
  Async.slot_wait_loop n fuel a = Ok a' ->
  (length (jobs (queue (GLThread (Async.ctx_of a'))))
   <= length (jobs (queue (GLThread (Async.ctx_of a)))))%nat.
Proof.
  revert a. induction n as [|n IH]; intros a; simpl;
    destruct (_ <? _); try discriminate; try (by intros [= <-]).
  destruct (q_alive _); simpl; [|discriminate].
  intros H. apply bind_Ok in H as (a1 & Hact & H).
  apply worker_action_backlog in Hact. apply IH in H. lia.
Qed.

Lemma async_fence_wait_turns n fuel f a a' :
  Async.fence_wait_loop n fuel f a = Ok a' ->
  Async.turns fuel (Async.flat a) (Async.flat a') /\
  util_queue_fence_is_signalled f (Async.ctx_of a') = Ok true.
Proof.
  revert a. induction n as [|n IH]; intros a H; simpl in H;
    apply bind_Ok in H as ([] & Hs & H); try discriminate;
    try (injection H as <-; split; [apply Async.turns_refl | done]).
  destruct (q_alive _); simpl in H; [|discriminate].
  apply bind_Ok in H as (a1 & Hact & H).
  destruct (IH _ H) as [Ht Hsig]. split; [|done].
  eapply turns_trans; [by apply worker_action_turns | done].
Qed.

Lemma async_fence_wait_backlog n fuel f a a' :
  Async.fence_wait_loop n fuel f a = Ok a' ->
  (length (jobs (queue (GLThread (Async.ctx_of a'))))
   <= length (jobs (queue (GLThread (Async.ctx_of a)))))%nat.
Proof.
  revert a. induction n as [|n IH]; intros a H; simpl in H;
    apply bind_Ok in H as ([] & Hs & H); try discriminate;
    try (by injection H as <-).
  destruct (q_alive _); simpl in H; [|discriminate].
  apply bind_Ok in H as (a1 & Hact & H).
  apply worker_action_backlog in Hact. apply IH in H. lia.
Qed.

(** Waiting for the fence of a batch returns: the job that signals it is
    in flight, and the jobs before it can be run. *)
Lemma async_fence_wait_total fuel k n a :
  engine_ok fuel (Async.flat a) ->
  0 <= k < Z.of_nat (length (batches (GLThread (Async.ctx_of a)))) ->
  (Async.actions_left a <= n)%nat ->
  exists a', Async.fence_wait_loop n fuel (BatchFence k) a = Ok a'.
Proof.
  revert a. induction n as [|n IH]; intros a Hok Hk Hn; simpl;
    (destruct (batches (GLThread (Async.ctx_of a)) !! Z.to_nat k) as [b|] eqn:Hb;
      [|apply lookup_ge_None in Hb; lia]);
    (assert (batch_at k (Async.ctx_of a) = Ok b) as ->
      by (apply batch_at_Ok; split; [lia|done]));
    simpl; (destruct (fence b) eqn:Hf; [eauto|]);
    pose proof Hok as (Hrun & _ & _ & _ & Hpend & _);
    destruct (flat_fields a) as (_ & Hbs & _);
    (destruct (Hpend (Z.to_nat k) b) as (j & Hj & _);
      [by rewrite Hbs | done |]);
    rewrite flat_jobs in Hj.
  - exfalso. unfold Async.actions_left, Async.in_flight in *.
    destruct (Async.running a); [lia|].
    destruct (jobs _); [by apply elem_of_nil in Hj | simpl in Hn; lia].
  - pose proof Hrun as [Hal _]. destruct (flat_queue a) as (_ & _ & Hqa).
    cbv zeta in Hqa. rewrite Hqa in Hal. rewrite Hal. simpl.
    destruct (worker_action_total fuel a Hrun) as (a1 & Hact & Hm).
    rewrite Hact. simpl.
    destruct Hm as [[Hfl _]|[_ Hm]].
    { rewrite Hfl in Hj. by apply elem_of_nil in Hj. }
    pose proof (worker_action_turns _ _ _ Hact) as Ht.
    apply IH; [by eapply turns_engine_ok | | lia].
    apply turns_ran in Ht as (Hv & _). apply view_length in Hv.
    destruct (flat_fields a1) as (_ & Hbs1 & _). cbv zeta in *.
    rewrite <- Hbs1, Hv, Hbs. done.
Qed.

End AsyncWaits.

(** ** The ring with batches in the worker's hands *)

Section AsyncRing.

Context {env : glthread_env}.
Implicit Types (ctx : gl_context) (a : Async.engine) (b : glthread_batch).

Lemma in_flight_length a :
  (length (Async.in_flight a)
   <= S (length (jobs (queue (GLThread (Async.ctx_of a))))))%nat.
Proof. unfold Async.in_flight. destruct (Async.running a); simpl; lia. Qed.

Lemma ring_flight_suffix a a' ran_jobs :
  Async.ring_flight a ->
  Async.in_flight a = ran_jobs ++ Async.in_flight a' ->
  (length (jobs (queue (GLThread (Async.ctx_of a'))))
   <= length (jobs (queue (GLThread (Async.ctx_of a)))))%nat ->
  last (GLThread (Async.ctx_of a')) = last (GLThread (Async.ctx_of a)) ->
  next (GLThread (Async.ctx_of a')) = next (GLThread (Async.ctx_of a)) ->
  max_jobs (queue (GLThread (Async.ctx_of a')))
  = max_jobs (queue (GLThread (Async.ctx_of a))) ->
  Async.ring_flight a'.
Proof.
  intros (Hpos & Hnext & Hlen & Hmax) Hj Hle Hl Hn Hm.
  unfold Async.ring_flight. rewrite Hl, Hn, Hm.
  rewrite Hj in Hpos, Hnext. rewrite length_app in Hpos.
  split_and!; [| | lia | done].
  - intros p j Hp.
    specialize (Hpos (length ran_jobs + p)%nat j).
    rewrite lookup_app_r in Hpos by lia.
    replace (length ran_jobs + p - length ran_jobs)%nat with p in Hpos by lia.
    specialize (Hpos Hp). simpl in Hpos.
    replace (Z.of_nat (length ran_jobs + length (Async.in_flight a'))
             - 1 - Z.of_nat (length ran_jobs + p))
      with (Z.of_nat (length (Async.in_flight a')) - 1 - Z.of_nat p)
      in Hpos by lia.
    exact Hpos.
  - intros Hne. apply Hnext. intros E. apply app_eq_nil in E as [_ E]. done.
Qed.

(** No job in flight is for the slot after [last]: at most
    [MARSHAL_MAX_BATCHES - 1] batches are in flight, the one in the
    worker's hands included. *)
Lemma ring_flight_not_next a j :
  Async.ring_flight a ->
  0 <= last (GLThread (Async.ctx_of a)) < MARSHAL_MAX_BATCHES ->
  j ∈ Async.in_flight a ->
  let n := (last (GLThread (Async.ctx_of a)) + 1) mod MARSHAL_MAX_BATCHES in
  j <> UnmarshalJob n (BatchFence n).
Proof.
  intros (Hpos & _ & Hlen & Hmax) Hl Hin n.
  apply list_elem_of_lookup in Hin as [p Hp].
  pose proof (lookup_lt_Some _ _ _ Hp) as Hlt.
  pose proof (in_flight_length a) as Hfl.
  rewrite (Hpos _ _ Hp). simpl. intros [= E _].
  set (N := MARSHAL_MAX_BATCHES) in *.
  set (d := Z.of_nat (length (Async.in_flight a)) - 1 - Z.of_nat p) in *.
  set (l := last (GLThread (Async.ctx_of a))) in *.
  assert (0 <= d < N - 1) as Hd by lia.
  unfold n in E.
  rewrite (Z.mod_eq (l - d) N), (Z.mod_eq (l + 1) N) in E by lia.
  set (qa := (l - d) / N) in *. set (qb := (l + 1) / N) in *.
  assert (d + 1 = N * (qb - qa)) as Hq by lia.
  destruct (Z_le_gt_dec (qb - qa) 0); nia.
Qed.

(** Under the invariant the batch being recorded into is not in flight:
    no job is for it, in the backlog or in the worker's hands, and its
    fence is signalled. *)
Lemma current_batch_not_in_flight fuel a :
  Async.inv fuel a ->
  let nb := next_batch (GLThread (Async.ctx_of a)) in
  (UnmarshalJob nb (BatchFence nb) ∉ Async.in_flight a) /\
  util_queue_fence_is_signalled (BatchFence nb) (Async.ctx_of a) = Ok true.
Proof.
  intros ((Hok & Hnn & HN) & (_ & Hshape & _) & Hrq) nb.
  pose proof Hok as (_ & _ & Hlast & Hnext & Hpend & _).
  destruct (flat_fields a) as (Hv & Hbs & _). cbv zeta in Hv, Hbs.
  apply view_fields in Hv. cbv zeta in Hv.
  destruct Hv as (_ & Hvn & Hvl & Hvnb & _).
  rewrite Hbs, ?Hvl, ?Hvnb, ?Hvn in *. rewrite flat_jobs in *.
  fold nb in Hnext, Hnn.
  assert (UnmarshalJob nb (BatchFence nb) ∉ Async.in_flight a) as Hnotin.
  { intros Hin. pose proof Hrq as (_ & Hnx & _).
    eapply (ring_flight_not_next a); [done | lia | exact Hin |].
    rewrite <- Hnx; [by rewrite <- Hnn|].
    intros E. rewrite E in Hin. by apply elem_of_nil in Hin. }
  split; [done|]. simpl.
  destruct (batches (GLThread (Async.ctx_of a)) !! Z.to_nat nb) as [b|] eqn:Hb;
    [|apply lookup_ge_None in Hb; lia].
  assert (batch_at nb (Async.ctx_of a) = Ok b) as ->
    by (apply batch_at_Ok; split; [lia | done]).
  simpl. destruct (fence b) eqn:Hf; [done|]. exfalso.
  destruct (Hpend _ _ Hb Hf) as (j & Hj & Hjf).
  destruct (Hshape _ Hj) as (i & Hi & ->). simpl in Hjf.
  injection Hjf as ->. apply Hnotin.
  by rewrite Z2Nat.id in Hj by lia.
Qed.

(** The worker keeps the engine in order, however far it gets. *)
Lemma worker_runs_inv k fuel a :
  Async.inv fuel a ->
  exists a',
    Async.worker_runs k fuel a = Ok a' /\ Async.inv fuel a' /\
    producer_view (Async.ctx_of a') = producer_view (Async.ctx_of a) /\
    exists ran_jobs, Async.in_flight a = ran_jobs ++ Async.in_flight a'.
Proof.
  intros ((Hok & Hnn & HN) & Hfifo & Hrq).
  pose proof Hok as (Hrun & _).
  destruct (worker_runs_total k fuel a Hrun) as (a' & H & _).
  exists a'. split; [done|].
  pose proof (worker_runs_turns _ _ _ _ H) as Ht.
  pose proof (turns_ran _ _ _ Ht) as (Hv & (dn & Hdn) & _).
  rewrite !flat_jobs in Hdn.
  destruct (flat_fields a) as (Hva & Hba & _).
  destruct (flat_fields a') as (Hva' & Hba' & _). cbv zeta in *.
  assert (producer_view (Async.ctx_of a') = producer_view (Async.ctx_of a))
    as Hvc by congruence.
  split_and!; [| done | by exists dn].
  pose proof (view_length _ _ Hv) as Hlen.
  pose proof Hv as Hv0. apply view_fields in Hv0. cbv zeta in Hv0.
  destruct Hv0 as (_&Hn&Hl&Hnb&_).
  pose proof Hvc as Hvc0. apply view_fields in Hvc0. cbv zeta in Hvc0.
  destruct Hvc0 as (_&Hnc&Hlc&_&_&_&_&_&_&_&Hmc&_).
  split_and!.
  - split_and!; [by eapply turns_engine_ok | congruence | congruence].
  - by eapply turns_fifo.
  - apply (ring_flight_suffix a a' dn); try done.
    by eapply worker_runs_backlog.
Qed.

End AsyncRing.

Section AsyncSubmit.

Context {env : glthread_env}.
Implicit Types (ctx : gl_context) (a : Async.engine) (b : glthread_batch).

(** Submitting the current batch, whatever the worker does meanwhile:
    the call returns and keeps the invariant; the worker has completed
    jobs from the front of those in flight; the batches still in flight
    are as they were; and the batch submitted holds the records of the
    current batch. *)
Lemma async_submit_batch fuel k a :
  Async.inv fuel a ->
  let g := GLThread (Async.ctx_of a) in
  let nb := next_batch g in
  exists a',
    Async.submit_batch fuel k 0 a = Ok a' /\
    Async.inv fuel a' /\
    let g' := GLThread (Async.ctx_of a') in
    exists d1 rest bn b',
      Async.in_flight a = d1 ++ rest /\
      Async.in_flight a' = rest ++ [UnmarshalJob nb (BatchFence nb)] /\
      exec_jobs fuel (batches g) d1 (server (Async.ctx_of a))
        = Ok (server (Async.ctx_of a')) /\
      (forall i f, UnmarshalJob i f ∈ rest ->
         batches g' !! Z.to_nat i = batches g !! Z.to_nat i) /\
      (batches g !! Z.to_nat nb = Some bn /\
       batches g' !! Z.to_nat nb = Some b' /\
       buffer b' = buffer bn /\ b_used b' = used g /\ fence b' = false) /\
      (enabled g' = enabled g /\ threads0 (queue g') = threads0 (queue g) /\
       used g' = 0 /\ last g' = nb /\
       next g' = (next g + 1) mod MARSHAL_MAX_BATCHES /\
       next_batch g' = next g' /\
       num_syncs (stats g') = num_syncs (stats g)).
Proof.
  intros Hinv g nb.
  pose proof (current_batch_not_in_flight _ _ Hinv) as [Hfree _].
  fold g nb in Hfree.
  destruct Hinv as ((Hok & Hnn & HN) & Hfifo & Hrq).
  pose proof Hok as ([Halive Hjobs] & Hmax & Hlast & Hnext & Hpend & Hcur).
  destruct (flat_fields a) as (Hv & Hbs & _). cbv zeta in Hv, Hbs.
  destruct (flat_queue a) as (Hqm & Hqt & Hqa). cbv zeta in Hqm, Hqt, Hqa.
  apply view_fields in Hv. cbv zeta in Hv.
  destruct Hv as (_ & Hvn & Hvl & Hvnb & Hvu & _).
  rewrite ?Hbs, ?Hvl, ?Hvnb, ?Hvn, ?Hvu, ?Hqm, ?Hqa in *.
  rewrite ?flat_jobs in *.
  fold g in Hlast, Hnext, Hnn, HN, Hmax, Halive, Hpend, Hcur.
  fold nb in Hnext, Hnn, Hcur.
  destruct (batches g !! Z.to_nat nb) as [bn|] eqn:Hbn;
    [|apply lookup_ge_None in Hbn; lia].
  assert (stream_ok fuel (used g) (buffer bn)) as Hstream.
  { apply Hcur, batch_at_Ok. split; [lia|]. by rewrite Hbs. }
  assert (Z.to_nat nb < length (batches g))%nat as Hlt by lia.
  unfold Async.submit_batch. fold g. fold nb.
  erewrite upd_batch_total
    by (apply batch_at_Ok; split; [lia|]; destruct a as [[]]; simpl in *;
        exact Hbn).
  simpl. unfold Async.util_queue_add_job. simpl.
  erewrite upd_batch_total
    by (apply batch_at_Ok; split; [lia|]; destruct a as [[]]; simpl in *;
        by apply list_lookup_insert_eq).
  simpl.
  match goal with |- context [Async.slot_wait_loop ?n fuel ?c] =>
    set (a3 := c); set (n3 := n) end.
  assert (Async.in_flight a3 = Async.in_flight a /\
          Async.running a3 = Async.running a /\
          jobs (queue (GLThread (Async.ctx_of a3))) = jobs (queue g) /\
          server (Async.ctx_of a3) = server (Async.ctx_of a) /\
          batches (GLThread (Async.ctx_of a3)) =
            <[Z.to_nat nb := set_fence false (set_b_used (used g) bn)]>
              (batches g) /\
          (last (GLThread (Async.ctx_of a3)) = last g /\
           next (GLThread (Async.ctx_of a3)) = next g /\
           enabled (GLThread (Async.ctx_of a3)) = enabled g /\
           num_syncs (stats (GLThread (Async.ctx_of a3))) = num_syncs (stats g)) /\
          (threads0 (queue (GLThread (Async.ctx_of a3))) = threads0 (queue g) /\
           max_jobs (queue (GLThread (Async.ctx_of a3))) = max_jobs (queue g) /\
           q_alive (queue (GLThread (Async.ctx_of a3))) = q_alive (queue g)))
    as (Hfl3 & Hr3 & Hj3 & Hs3 & Hb3 & (Hl3 & Hn3 & Hen3 & Hsy3)
        & (Ht3 & Hm3 & Ha3)).
  { subst a3 g. destruct a as [[g0] r]; simpl in *. split_and!; try done.
    by rewrite list_insert_insert_eq. }
  assert (n3 = (2 * length (Async.in_flight a3))%nat) as Hn3'.
  { subst n3. rewrite Hfl3. by destruct a as [[g0] r]. }
  clearbody a3 n3. subst n3.
  destruct (flat_fields a3) as (Hv3 & Hbs3 & _ & Hsrv3 & _).
  cbv zeta in Hv3, Hbs3, Hsrv3.
  destruct (flat_queue a3) as (Hqm3 & Hqt3 & Hqa3). cbv zeta in Hqm3, Hqt3, Hqa3.
  assert (runnable fuel (Async.flat a3)) as Hrun3.
  { split; [by rewrite Hqa3, Ha3|]. rewrite flat_jobs, Hfl3.
    eapply Forall_impl; [exact Hjobs|]. intros j Hj.
    assert (forall f, fence_valid f (Async.flat a) ->
                      fence_valid f (Async.flat a3)) as Hfv.
    { intros [i|]; unfold fence_valid; [|done].
      by rewrite Hbs, Hbs3, Hb3, length_insert. }
    destruct j as [i f|f]; unfold job_ok in *; [|by apply Hfv].
    destruct Hj as [(b & Hb & Hs) Hf]. split; [|by apply Hfv].
    apply batch_at_Ok in Hb as [Hi Hb]. rewrite Hbs in Hb.
    destruct (decide (Z.to_nat i = Z.to_nat nb)) as [He|Hne].
    - exists (set_fence false (set_b_used (used g) bn)). split; [|done].
      apply batch_at_Ok. split; [done|]. rewrite Hbs3, Hb3, He.
      by apply list_lookup_insert_eq.
    - exists b. split; [|done]. apply batch_at_Ok. split; [done|].
      rewrite Hbs3, Hb3. by rewrite list_lookup_insert_ne. }
  assert (fifo_ok (Async.flat a3)) as Hfifo3.
  { destruct Hfifo as (Hnd & Hshape & Hunsig & Hlastj).
    rewrite Hbs, Hvl in *. rewrite ?flat_jobs in *.
    unfold fifo_ok, fifo_ok_of.
    apply view_fields in Hv3. cbv zeta in Hv3.
    destruct Hv3 as (_ & _ & Hvl3 & _).
    rewrite flat_jobs, Hfl3, Hvl3, Hl3, Hbs3, Hb3, list_fmap_insert.
    split_and!; try done.
    intros i Hi Hin.
    destruct (decide (Z.to_nat i = Z.to_nat nb)) as [->|Hne].
    - apply list_lookup_insert_eq. by rewrite length_fmap.
    - rewrite list_lookup_insert_ne by done. by apply Hunsig. }
  destruct (async_slot_wait_total (2 * length (Async.in_flight a3)) fuel a3)
    as (a4 & Hwait & _);
    [done | by rewrite Hm3 | apply actions_left_bound |].
  rewrite Hwait. simpl.
  destruct (async_slot_wait_turns _ _ _ _ Hwait) as [Ht4 Hroom4].
  pose proof (async_slot_wait_backlog _ _ _ _ Hwait) as Hbl4.
  assert (max_jobs (queue (GLThread (Async.ctx_of a4))) = max_jobs (queue g))
    as Hm4.
  { pose proof (turns_ran _ _ _ Ht4) as (Hv4 & _).
    apply view_fields in Hv4. cbv zeta in Hv4.
    destruct Hv4 as (_&_&_&_&_&_&_&_&_&_&Hmx&_).
    destruct (flat_queue a4) as (Hq4 & _). cbv zeta in Hq4. congruence. }
  rewrite Hm4 in Hroom4.
  destruct (worker_runs_total k fuel a4) as (a5 & Hruns & _).
  { by eapply (turns_runnable fuel (Async.flat a3)). }
  rewrite Hruns. simpl.
  pose proof (worker_runs_backlog _ _ _ _ Hruns) as Hbl5.
  pose proof (turns_trans _ _ _ _ Ht4 (worker_runs_turns _ _ _ _ Hruns)) as Ht5.
  clear Ht4 Hwait Hruns.
  (* what the worker has done meanwhile *)
  destruct (turns_runnable _ _ _ Hrun3 Ht5)
    as ([_ Hjobs5] & Hev5 & _ & (dn & Hdn & Hsig5)).
  pose proof (turns_fifo _ _ _ Hfifo3 Ht5) as Hfifo5.
  pose proof (turns_slept _ _ _ Hfifo3 Ht5) as (d1 & Hd1 & Hx1 & Hfr1).
  pose proof (turns_other _ _ _ nb Hfifo3 Ht5) as Hnb5.
  pose proof (turns_ran _ _ _ Ht5) as (Hv5 & _).
  clear Ht5.
  destruct (flat_fields a5) as (Hvf5 & Hbs5 & _ & Hsrv5 & _).
  cbv zeta in Hvf5, Hbs5, Hsrv5.
  rewrite !flat_jobs in *. rewrite Hbs3, Hbs5, ?Hsrv3, ?Hsrv5 in *.
  rewrite Hfl3 in *. rewrite Hb3 in *. rewrite Hs3 in *.
  assert (d1 = dn) as ->.
  { apply (app_inv_tail (Async.in_flight a5)). congruence. }
  clear Hd1.
  assert (producer_view (Async.ctx_of a5) = producer_view (Async.ctx_of a3))
    as Hvc5 by congruence.
  apply view_fields in Hvc5. cbv zeta in Hvc5.
  destruct Hvc5 as (Hen5&Hn5&Hl5&_&_&_&_&_&Hsy5&Hth5&Hm5&Hal5&_).
  rewrite Hen3 in Hen5. rewrite Hn3 in Hn5. rewrite Hl3 in Hl5.
  rewrite Hsy3 in Hsy5. rewrite Ht3 in Hth5. rewrite Hm3 in Hm5.
  rewrite Ha3 in Hal5.
  clear Hv5 Hvf5 Hv3 Hqm3 Hqt3 Hqa3 Hen3 Hn3 Hl3 Hsy3 Ht3 Hm3 Ha3.
  destruct Hev5 as [Hlen5 Hev5]. rewrite length_insert in Hlen5.
  assert (batches (GLThread (Async.ctx_of a5)) !! Z.to_nat nb
          = Some (set_fence false (set_b_used (used g) bn))) as Hb5.
  { rewrite Hnb5; [by apply list_lookup_insert_eq | lia | done]. }
  assert (forall j, j ∈ Async.in_flight a5 -> j ∈ Async.in_flight a) as Hsub.
  { intros j Hj. rewrite Hdn. apply elem_of_app. by right. }
  assert (Async.ring_flight a5) as Hrq5.
  { apply (ring_flight_suffix a a5 dn); try done.
    rewrite Hj3 in Hbl4. unfold g in *. lia. }
  pose proof Hfifo as (Hnd & Hshape & _). rewrite flat_jobs in Hnd, Hshape.
  assert (forall i f, UnmarshalJob i f ∈ Async.in_flight a ->
            0 <= i /\ f = BatchFence i /\ Z.to_nat i <> Z.to_nat nb) as Hq.
  { intros i f Hin. destruct (Hshape _ Hin) as (i' & Hi' & [= -> ->]).
    split_and!; [done | done |]. intros E. assert (i' = nb) as -> by lia. done. }
  assert (forall i f, UnmarshalJob i f ∈ Async.in_flight a5 ->
            batches (GLThread (Async.ctx_of a5)) !! Z.to_nat i
            = batches g !! Z.to_nat i) as Hrest.
  { intros i f Hin.
    destruct (Hq i f) as (Hi & -> & Hne); [by apply Hsub|].
    rewrite Hfr1; [by rewrite list_lookup_insert_ne | done |].
    intros Hin1. rewrite Hdn in Hnd. apply NoDup_app in Hnd as (_ & Hdisj & _).
    by apply (Hdisj _ Hin1). }
  assert (exec_jobs fuel (batches g) dn (server (Async.ctx_of a))
          = Ok (server (Async.ctx_of a5))) as Hx.
  { rewrite <- Hx1. symmetry. apply exec_jobs_ext. intros i f Hin.
    destruct (Hq i f) as (_ & _ & Hne);
      [rewrite Hdn; apply elem_of_app; by left|].
    by rewrite list_lookup_insert_ne. }
  clear Hx1 Hfr1 Hnb5.
  eexists. split; [reflexivity|].
  match goal with |- Async.inv fuel ?x /\ _ => set (a6 := x) end.
  set (job := UnmarshalJob nb (BatchFence nb)) in *.
  assert (Async.in_flight a6 = Async.in_flight a5 ++ [job] /\
          jobs (queue (GLThread (Async.ctx_of a6)))
          = jobs (queue (GLThread (Async.ctx_of a5))) ++ [job] /\
          batches (GLThread (Async.ctx_of a6))
          = batches (GLThread (Async.ctx_of a5)) /\
          server (Async.ctx_of a6) = server (Async.ctx_of a5) /\
          (last (GLThread (Async.ctx_of a6)) = next (GLThread (Async.ctx_of a5)) /\
           next (GLThread (Async.ctx_of a6))
           = (next (GLThread (Async.ctx_of a5)) + 1) mod MARSHAL_MAX_BATCHES /\
           next_batch (GLThread (Async.ctx_of a6))
           = next (GLThread (Async.ctx_of a6)) /\
           used (GLThread (Async.ctx_of a6)) = 0) /\
          (enabled (GLThread (Async.ctx_of a6))
           = enabled (GLThread (Async.ctx_of a5)) /\
           num_syncs (stats (GLThread (Async.ctx_of a6)))
           = num_syncs (stats (GLThread (Async.ctx_of a5))) /\
           threads0 (queue (GLThread (Async.ctx_of a6)))
           = threads0 (queue (GLThread (Async.ctx_of a5))) /\
           max_jobs (queue (GLThread (Async.ctx_of a6)))
           = max_jobs (queue (GLThread (Async.ctx_of a5))) /\
           q_alive (queue (GLThread (Async.ctx_of a6)))
           = q_alive (queue (GLThread (Async.ctx_of a5)))))
    as (Hfl6 & Hj6 & Hb6 & Hs6 & (Hl6 & Hn6 & Hnb6 & Hu6)
        & (Hen6 & Hsy6 & Hth6 & Hm6 & Hal6)).
  { subst a6. by destruct a5 as [[g5] [j5|]]. }
  clearbody a6.
  rewrite Hn5 in Hl6, Hn6. rewrite Hen5 in Hen6. rewrite Hsy5 in Hsy6.
  rewrite Hth5 in Hth6. rewrite Hm5 in Hm6. rewrite Hal5 in Hal6.
  assert (0 <= (next g + 1) mod MARSHAL_MAX_BATCHES < MARSHAL_MAX_BATCHES)
    as Hmod by (apply Z.mod_pos_bound; lia).
  split; [|exists dn, (Async.in_flight a5), bn,
                  (set_fence false (set_b_used (used g) bn));
           rewrite Hb6, Hs6; split_and!; try done; congruence].
  destruct (flat_fields a6) as (Hv6 & Hbs6 & _). cbv zeta in Hv6, Hbs6.
  destruct (flat_queue a6) as (Hqm6 & Hqt6 & Hqa6). cbv zeta in Hqm6, Hqt6, Hqa6.
  apply view_fields in Hv6. cbv zeta in Hv6.
  destruct Hv6 as (_ & Hvn6 & Hvl6 & Hvnb6 & Hvu6 & _).
  pose proof Hfifo5 as (Hnd5 & Hshape5 & Hunsig5 & _).
  rewrite flat_jobs in Hnd5, Hshape5, Hunsig5. rewrite Hbs5 in Hunsig5.
  split_and!.
  - (* the ring is in order *)
    unfold ring_ok, engine_ok, runnable.
    rewrite Hbs6, Hvl6, Hvnb6, Hvn6, Hvu6, Hqm6, Hqa6, flat_jobs.
    rewrite Hfl6, Hb6, Hl6, Hnb6, Hn6, Hu6, Hm6, Hal6, Hlen5.
    split; [|split; done].
    split; [split; [done|] | split; [done|]; split; [lia|]; split; [lia|]; split].
    + apply Forall_app. split.
      * eapply Forall_impl; [exact Hjobs5|]. intros j.
        apply job_ok_same. by rewrite Hbs6, Hb6, Hbs5.
      * constructor; [|constructor]. split; [|unfold fence_valid; rewrite Hbs6, Hb6; lia].
        exists (set_fence false (set_b_used (used g) bn)). split; [|done].
        apply batch_at_Ok. split; [lia|]. by rewrite Hbs6, Hb6.
    + intros i b6 Hb6' Hf.
      destruct (decide (i = Z.to_nat nb)) as [->|Hne].
      { exists job. split.
        - apply elem_of_app. right. by apply list_elem_of_singleton.
        - simpl. f_equal. lia. }
      destruct (Hev5 _ _ Hb6') as (b3 & Hb3' & _ & _ & Hfb).
      rewrite list_lookup_insert_ne in Hb3' by done.
      assert (fence b3 = false) as Hf3 by (destruct Hfb; congruence).
      destruct (Hpend _ _ Hb3' Hf3) as (j & Hj & Hjf).
      rewrite Hdn in Hj. apply elem_of_app in Hj as [Hj|Hj].
      * exfalso. rewrite Forall_forall in Hsig5. apply Hsig5 in Hj.
        rewrite Hjf in Hj. simpl in Hj.
        apply bind_Ok in Hj as (b0 & Hb0 & [= Hb0f]).
        apply batch_at_Ok in Hb0 as [_ Hb0]. rewrite Nat2Z.id, Hbs5 in Hb0.
        congruence.
      * exists j. split; [|done]. apply elem_of_app. by left.
    + intros b _. apply stream_ok_0.
  - (* submission order *)
    unfold fifo_ok, fifo_ok_of. rewrite flat_jobs, Hbs6, Hvl6, Hfl6, Hb6, Hl6.
    split_and!.
    + apply NoDup_app. split_and!; [done | | apply NoDup_singleton].
      intros j Hj Hj'. apply list_elem_of_singleton in Hj' as ->.
      apply Hfree. by apply Hsub.
    + intros j Hj. apply elem_of_app in Hj as [Hj|Hj]; [by apply Hshape5|].
      apply list_elem_of_singleton in Hj as ->. exists nb. split; [lia|done].
    + intros i Hi Hin. apply elem_of_app in Hin as [Hin|Hin];
        [by apply Hunsig5|].
      apply list_elem_of_singleton in Hin. injection Hin as ->.
      by rewrite list_lookup_fmap, Hb5.
    + intros _. exists (Async.in_flight a5). by rewrite <- Hnn.
  - (* position in the ring *)
    destruct Hrq5 as (Hpos5 & Hnx5 & Hlen5' & Hmax5).
    rewrite Hl5 in Hpos5, Hnx5. rewrite Hn5 in Hnx5.
    unfold Async.ring_flight. rewrite Hfl6, Hj6, Hl6, Hn6, Hm6, !length_app.
    simpl. split_and!; [| done | lia | by rewrite <- Hm5].
    intros p j Hp.
    destruct (decide (p < length (Async.in_flight a5))%nat) as [Hlt5|Hge5].
    + rewrite lookup_app_l in Hp by done.
      rewrite (Hpos5 _ _ Hp).
      assert (Async.in_flight a5 <> []) as Hne5
        by (intros E; rewrite E in Hlt5; simpl in Hlt5; lia).
      assert ((last g - (Z.of_nat (length (Async.in_flight a5)) - 1 - Z.of_nat p))
                mod MARSHAL_MAX_BATCHES
              = (next g - (Z.of_nat (length (Async.in_flight a5) + 1) - 1
                           - Z.of_nat p)) mod MARSHAL_MAX_BATCHES) as ->; [|done].
      rewrite (Hnx5 Hne5), Zminus_mod_idemp_l. f_equal. lia.
    + assert (p = length (Async.in_flight a5)) as ->.
      { apply lookup_lt_Some in Hp. rewrite length_app in Hp. simpl in Hp. lia. }
      rewrite lookup_app_r, Nat.sub_diag in Hp by lia.
      injection Hp as <-.
      replace (next g - (Z.of_nat (length (Async.in_flight a5) + 1) - 1
                         - Z.of_nat (length (Async.in_flight a5))))
        with (next g) by lia.
      rewrite Z.mod_small by lia. unfold job. by rewrite <- Hnn.
Qed.

End AsyncSubmit.

(** ** [_mesa_glthread_finish] and [_mesa_glthread_flush_batch] beside the worker *)

Section AsyncCalls.

Context {env : glthread_env}.
Implicit Types (ctx : gl_context) (a : Async.engine) (b : glthread_batch).

(** With the worker idle the invariant is that of the sequential
    queue. *)
Lemma inv_idle fuel a :
  Async.running a = None ->
  Async.inv fuel a <-> engine_inv fuel (Async.ctx_of a).
Proof.
  intros Hr. unfold Async.inv, engine_inv. rewrite (flat_idle a Hr).
  unfold Async.ring_flight, ring_queue, Async.in_flight. by rewrite Hr.
Qed.

Lemma in_flight_nil a :
  Async.in_flight a = [] ->
  Async.running a = None /\ jobs (queue (GLThread (Async.ctx_of a))) = [].
Proof. unfold Async.in_flight. by destruct (Async.running a). Qed.

Lemma async_inv_same fuel a a' :
  Async.inv fuel a ->
  Async.running a' = Async.running a ->
  queue (GLThread (Async.ctx_of a')) = queue (GLThread (Async.ctx_of a)) ->
  batches (GLThread (Async.ctx_of a')) = batches (GLThread (Async.ctx_of a)) ->
  last (GLThread (Async.ctx_of a')) = last (GLThread (Async.ctx_of a)) ->
  next (GLThread (Async.ctx_of a')) = next (GLThread (Async.ctx_of a)) ->
  next_batch (GLThread (Async.ctx_of a'))
  = next_batch (GLThread (Async.ctx_of a)) ->
  used (GLThread (Async.ctx_of a')) = used (GLThread (Async.ctx_of a)) ->
  Async.inv fuel a'.
Proof.
  intros (Hring & Hfifo & Hrq) Hr Hq Hb Hl Hn Hnb Hu.
  assert (Async.in_flight a' = Async.in_flight a) as Hfl
    by (unfold Async.in_flight; by rewrite Hr, Hq).
  destruct (flat_fields a) as (Hv & Hbs & _).
  destruct (flat_fields a') as (Hv' & Hbs' & _). cbv zeta in *.
  apply view_fields in Hv, Hv'. cbv zeta in Hv, Hv'.
  destruct Hv as (_ & Hvn & Hvl & Hvnb & Hvu & _).
  destruct Hv' as (_ & Hvn' & Hvl' & Hvnb' & Hvu' & _).
  assert (queue (GLThread (Async.flat a')) = queue (GLThread (Async.flat a)))
    as Hqf.
  { unfold Async.flat. rewrite Hfl.
    destruct a as [[[]]], a' as [[[]]]; simpl in *. by subst. }
  destruct Hring as (Hok & Hnn & HN).
  split_and!.
  - split_and!; [apply (engine_ok_same fuel (Async.flat a)) | |]; congruence.
  - apply (fifo_ok_same (Async.flat a)); congruence.
  - unfold Async.ring_flight in *. by rewrite Hfl, Hq, Hl, Hn.
Qed.

(** What is left to run comes to the same however far the worker has
    got. *)
Lemma turns_remaining fuel ctx ctx' :
  fifo_ok ctx -> Async.turns fuel ctx ctx' ->
  exec_jobs fuel (batches (GLThread ctx)) (jobs (queue (GLThread ctx)))
    (server ctx)
  = exec_jobs fuel (batches (GLThread ctx')) (jobs (queue (GLThread ctx')))
      (server ctx').
Proof.
  intros Hfifo Ht.
  destruct (turns_slept _ _ _ Hfifo Ht) as (r & Hr & Hx & Hfr).
  destruct Hfifo as (Hnd & Hshape & _).
  rewrite Hr, exec_jobs_app, Hx. simpl.
  symmetry. apply exec_jobs_ext. intros i f Hin.
  assert (UnmarshalJob i f ∈ jobs (queue (GLThread ctx))) as Hin'
    by (rewrite Hr; apply elem_of_app; by right).
  destruct (Hshape _ Hin') as (i' & Hi' & [= -> ->]).
  apply Hfr; [done|]. intros Hin1.
  rewrite Hr in Hnd. apply NoDup_app in Hnd as (_ & Hdisj & _).
  by apply (Hdisj _ Hin1).
Qed.

(** [_mesa_glthread_finish] when the fence of the batch submitted last is
    signalled: the worker is not involved. *)
Lemma async_finish_signalled fuel tid k a :
  util_queue_fence_is_signalled
    (BatchFence (last (GLThread (Async.ctx_of a)))) (Async.ctx_of a) = Ok true ->
  Async._mesa_glthread_finish fuel tid k a =
  c ← _mesa_glthread_finish fuel tid (Async.ctx_of a);
  Ok (Async.mk_engine c (Async.running a)).
Proof.
  intros Hsig. unfold Async._mesa_glthread_finish, _mesa_glthread_finish.
  destruct a as [ctx r]. simpl in *.
  destruct (enabled (GLThread ctx)); simpl; [|done].
  destruct (tid =? _); simpl; [done|].
  rewrite Hsig. simpl.
  destruct (used (GLThread ctx) =? 0); simpl; [done|].
  destruct (upd_batch _ _ _) as [c1|]; simpl; [|done].
  destruct (glthread_unmarshal_batch _ _ _ _) as [c2|]; simpl; done.
Qed.

(** [_mesa_glthread_finish] when it has to wait: after the wait it goes
    on as the sequential one does from there, and counts a sync. *)
Lemma async_finish_waited fuel tid k a aw c' :
  enabled (GLThread (Async.ctx_of a)) = true ->
  tid <> threads0 (queue (GLThread (Async.ctx_of a))) ->
  util_queue_fence_is_signalled
    (BatchFence (last (GLThread (Async.ctx_of a)))) (Async.ctx_of a) = Ok false ->
  Async.util_queue_fence_wait fuel k
    (BatchFence (last (GLThread (Async.ctx_of a)))) a = Ok aw ->
  producer_view (Async.ctx_of aw) = producer_view (Async.ctx_of a) ->
  util_queue_fence_is_signalled
    (BatchFence (last (GLThread (Async.ctx_of aw)))) (Async.ctx_of aw) = Ok true ->
  _mesa_glthread_finish fuel tid (Async.ctx_of aw) = Ok c' ->
  Async._mesa_glthread_finish fuel tid k a =
  Ok (Async.mk_engine
        (if used (GLThread (Async.ctx_of aw)) =? 0
         then upd_stats (fun m => set_num_syncs (wrap32 (num_syncs m + 1)) m) c'
         else c')
        (Async.running aw)).
Proof.
  intros Hen Htid Hs Hwait Hv Hsig H.
  apply view_fields in Hv. cbv zeta in Hv.
  destruct Hv as (Hen'&_&_&Hnb&_&_&_&_&_&Hth&_).
  unfold Async._mesa_glthread_finish. cbv zeta. rewrite Hen. cbn [negb].
  destruct (tid =? _) eqn:E; [lia|]. clear E.
  rewrite Hs. cbv beta iota delta [mbind result_bind negb].
  rewrite Hwait. cbv beta iota.
  unfold _mesa_glthread_finish in H. cbv zeta in H.
  rewrite Hen', Hen, Hth in H. cbn [negb] in H.
  destruct (tid =? _) eqn:E; [lia|]. clear E.
  rewrite Hsig in H. cbv beta iota delta [mbind result_bind negb] in H.
  rewrite Hnb in H.
  destruct (used (GLThread (Async.ctx_of aw)) =? 0); simpl in *.
  { injection H as <-. by destruct aw. }
  destruct (upd_batch _ _ _) as [c1|]; simpl in *; [|done].
  destruct (glthread_unmarshal_batch _ _ _ _) as [c2|]; simpl in *; [|done].
  by injection H as <-.
Qed.

(** The invariant survives whatever turns the worker takes. *)
Lemma turns_inv fuel a a' :
  Async.inv fuel a ->
  Async.turns fuel (Async.flat a) (Async.flat a') ->
  (length (jobs (queue (GLThread (Async.ctx_of a'))))
   <= length (jobs (queue (GLThread (Async.ctx_of a)))))%nat ->
  Async.inv fuel a' /\
  producer_view (Async.ctx_of a') = producer_view (Async.ctx_of a).
Proof.
  intros ((Hok & Hnn & HN) & Hfifo & Hrq) Ht Hbl.
  pose proof (turns_ran _ _ _ Ht) as (Hv & (dn & Hdn) & _).
  rewrite !flat_jobs in Hdn.
  destruct (flat_fields a) as (Hva & Hba & _).
  destruct (flat_fields a') as (Hva' & Hba' & _). cbv zeta in *.
  assert (producer_view (Async.ctx_of a') = producer_view (Async.ctx_of a))
    as Hvc by congruence.
  split; [|done].
  pose proof (view_length _ _ Hv) as Hlen.
  pose proof Hv as Hv0. apply view_fields in Hv0. cbv zeta in Hv0.
  destruct Hv0 as (_&Hn&Hl&Hnb&_).
  pose proof Hvc as Hvc0. apply view_fields in Hvc0. cbv zeta in Hvc0.
  destruct Hvc0 as (_&Hnc&Hlc&_&_&_&_&_&_&_&Hmc&_).
  split_and!.
  - split_and!; [by eapply turns_engine_ok | congruence | congruence].
  - by eapply turns_fifo.
  - by apply (ring_flight_suffix a a' dn).
Qed.

Lemma is_signalled_flat f a :
  util_queue_fence_is_signalled f (Async.flat a)
  = util_queue_fence_is_signalled f (Async.ctx_of a).
Proof. by destruct a as [[[[]]]], f. Qed.

(** [_mesa_glthread_finish] beside the worker, however far the worker
    gets: the call returns and keeps the invariant; nothing is in flight
    afterwards and the current batch is empty; and the GL state is what
    running the jobs in flight, and then the current batch, makes of
    it. *)
Lemma async_finish fuel tid k a :
  Async.inv fuel a ->
  enabled (GLThread (Async.ctx_of a)) = true ->
  tid <> threads0 (queue (GLThread (Async.ctx_of a))) ->
  let g := GLThread (Async.ctx_of a) in
  exists a',
    Async._mesa_glthread_finish fuel tid k a = Ok a' /\
    Async.inv fuel a' /\
    Async.in_flight a' = [] /\ used (GLThread (Async.ctx_of a')) = 0 /\
    exists srv_w,
      exec_jobs fuel (batches g) (Async.in_flight a) (server (Async.ctx_of a))
        = Ok srv_w /\
      if used g =? 0 then server (Async.ctx_of a') = srv_w
      else exists buf pos,
        (buffer <$> batches g) !! Z.to_nat (next_batch g) = Some buf /\
        exec_stream fuel buf (used g) 0 srv_w
          = Ok (pos, server (Async.ctx_of a')).
Proof.
  intros Hinv Hen Htid g.
  (* the state in which the wait, if any, is over *)
  assert (exists aw,
    Async.inv fuel aw /\ Async.in_flight aw = [] /\
    producer_view (Async.ctx_of aw) = producer_view (Async.ctx_of a) /\
    exec_jobs fuel (batches g) (Async.in_flight a) (server (Async.ctx_of a))
      = Ok (server (Async.ctx_of aw)) /\
    util_queue_fence_is_signalled
      (BatchFence (last (GLThread (Async.ctx_of aw)))) (Async.ctx_of aw)
      = Ok true /\
    forall c',
      _mesa_glthread_finish fuel tid (Async.ctx_of aw) = Ok c' ->
      exists c'',
        Async._mesa_glthread_finish fuel tid k a
          = Ok (Async.mk_engine c'' (Async.running aw)) /\
        queue (GLThread c'') = queue (GLThread c') /\
        batches (GLThread c'') = batches (GLThread c') /\
        last (GLThread c'') = last (GLThread c') /\
        next (GLThread c'') = next (GLThread c') /\
        next_batch (GLThread c'') = next_batch (GLThread c') /\
        used (GLThread c'') = used (GLThread c') /\
        server c'' = server c')
    as (aw & Hinvw & Hflw & Hvw & Hxw & Hsigw & Hgo).
  { pose proof Hinv as ((Hok & Hnn & HN) & Hfifo & Hrq).
    pose proof Hok as (_ & _ & Hlast & _).
    destruct (flat_fields a) as (Hv & Hbs & _ & Hsrv & _).
    cbv zeta in Hv, Hbs, Hsrv.
    apply view_fields in Hv. cbv zeta in Hv.
    destruct Hv as (_ & _ & Hvl & _).
    rewrite Hbs, Hvl in Hlast. fold g in Hlast.
    destruct (batches g !! Z.to_nat (last g)) as [bl|] eqn:Hbl;
      [|apply lookup_ge_None in Hbl; lia].
    assert (util_queue_fence_is_signalled (BatchFence (last g)) (Async.ctx_of a)
            = Ok (fence bl)) as Hs.
    { simpl. assert (batch_at (last g) (Async.ctx_of a) = Ok bl) as ->; [|done].
      apply batch_at_Ok. split; [lia | done]. }
    destruct (fence bl) eqn:Hf.
    - (* nothing to wait for *)
      exists a.
      assert (Async.in_flight a = []) as Hfl.
      { rewrite <- flat_jobs. apply fifo_signalled_empty; [done | |].
        - rewrite Hvl. fold g. lia.
        - by rewrite is_signalled_flat, Hvl. }
      split_and!; [done | done | done | by rewrite Hfl | done |].
      intros c' H. exists c'.
      rewrite (async_finish_signalled _ _ _ _ Hs), H. by split_and!.
    - (* waiting for the batch submitted last *)
      set (a1 := Async.on_ctx (log (EvFenceWait (BatchFence (last g)))) a).
      assert (Async.inv fuel a1) as Hinv1
        by (apply (async_inv_same fuel a); by destruct a as [[]]).
      assert (Async.in_flight a1 = Async.in_flight a /\
              batches (GLThread (Async.ctx_of a1)) = batches g /\
              server (Async.ctx_of a1) = server (Async.ctx_of a) /\
              producer_view (Async.ctx_of a1) = producer_view (Async.ctx_of a) /\
              jobs (queue (GLThread (Async.ctx_of a1)))
              = jobs (queue (GLThread (Async.ctx_of a))))
        as (Hfl1 & Hb1 & Hs1 & Hv1 & Hj1) by (by destruct a as [[]]).
      pose proof Hinv1 as ((Hok1 & _) & Hfifo1 & _).
      destruct (async_fence_wait_total fuel (last g)
                  (2 * length (Async.in_flight a1)) a1 Hok1)
        as (a2 & Hloop); [by rewrite Hb1 | apply actions_left_bound |].
      destruct (async_fence_wait_turns _ _ _ _ _ Hloop) as [Ht2 Hsig2].
      pose proof (async_fence_wait_backlog _ _ _ _ _ Hloop) as Hbl2.
      destruct (turns_inv _ _ _ Hinv1 Ht2 Hbl2) as [Hinv2 Hv2].
      destruct (worker_runs_inv k fuel a2 Hinv2)
        as (aw & Hruns & Hinvw & Hvw & _).
      pose proof (worker_runs_turns _ _ _ _ Hruns) as Htw.
      exists aw.
      assert (Async.util_queue_fence_wait fuel k (BatchFence (last g)) a = Ok aw)
        as Hwait.
      { unfold Async.util_queue_fence_wait. fold a1. cbv zeta.
        rewrite Hloop. exact Hruns. }
      assert (producer_view (Async.ctx_of aw) = producer_view (Async.ctx_of a))
        as Hvwa by congruence.
      pose proof Hvwa as Hvf. apply view_fields in Hvf. cbv zeta in Hvf.
      destruct Hvf as (_ & _ & Hlw & _).
      assert (util_queue_fence_is_signalled
                (BatchFence (last (GLThread (Async.ctx_of aw))))
                (Async.ctx_of aw) = Ok true) as Hsigw.
      { rewrite Hlw. fold g. rewrite <- is_signalled_flat.
        pose proof Hinv2 as ((Hok2 & _) & _). pose proof Hok2 as (Hrun2 & _).
        destruct (turns_runnable _ _ _ Hrun2 Htw) as (_ & Hev & Hif & _).
        apply (signalled_evolve _ (Async.flat a2)); [done | done |].
        by rewrite is_signalled_flat. }
      assert (Async.in_flight aw = []) as Hflw.
      { pose proof Hinvw as ((Hokw & _) & Hfifow & _).
        rewrite <- flat_jobs. apply fifo_signalled_empty; [done | |].
        - destruct Hokw as (_ & _ & Hl & _). lia.
        - rewrite is_signalled_flat.
          destruct (flat_fields aw) as (Hvfw & _). cbv zeta in Hvfw.
          apply view_fields in Hvfw. cbv zeta in Hvfw.
          destruct Hvfw as (_ & _ & -> & _). done. }
      split_and!; [done | done | done | | done |].
      + pose proof (turns_remaining _ _ _ Hfifo1
                      (turns_trans _ _ _ _ Ht2 Htw)) as Hrem.
        rewrite !flat_jobs, Hflw in Hrem.
        destruct (flat_fields a1) as (_ & Hbf1 & _ & Hsf1 & _).
        destruct (flat_fields aw) as (_ & _ & _ & Hsfw & _).
        cbv zeta in Hbf1, Hsf1, Hsfw.
        rewrite Hbf1, Hsf1, Hsfw, Hfl1, Hb1, Hs1 in Hrem. exact Hrem.
      + intros c' H.
        eexists. split.
        { by apply (async_finish_waited fuel tid k a aw c'). }
        destruct (used (GLThread (Async.ctx_of aw)) =? 0);
          [by destruct c' as [[]] | done]. }
  (* from there on the call is the sequential one *)
  destruct (in_flight_nil _ Hflw) as [Hrw Hjw].
  pose proof (proj1 (inv_idle fuel aw Hrw) Hinvw) as Hinvc.
  pose proof Hvw as Hvf. apply view_fields in Hvf. cbv zeta in Hvf.
  destruct Hvf as (Henw&_&_&Hnbw&Huw&_&_&_&_&Hthw&_&_&Hbufw&_).
  assert (enabled (GLThread (Async.ctx_of aw)) = true) as Henw' by congruence.
  assert (tid <> threads0 (queue (GLThread (Async.ctx_of aw)))) as Htidw
    by congruence.
  destruct (finish_inv fuel tid _ Hinvc) as (c' & Hfin & Hinvc').
  destruct (Hgo c' Hfin) as (c'' & Hres & Hq'' & Hb'' & Hl'' & Hn'' & Hnb'' & Hu''
                             & Hs'').
  pose proof Hinvc as (_ & Hfifoc & _).
  destruct (finish_empties _ _ _ _ Henw' Htidw Hfifoc Hfin) as [Hje Hue].
  destruct (finish_server _ _ _ _ Henw' Htidw Hfifoc Hfin) as (sw & Hsw & Hsrv).
  rewrite Hjw in Hsw. simpl in Hsw. injection Hsw as <-.
  rewrite Hrw in Hres.
  exists (Async.mk_engine c'' None). split; [done|].
  split_and!.
  - apply inv_idle; [done|]. simpl.
    by apply (engine_inv_same fuel c').
  - unfold Async.in_flight. simpl. by rewrite Hq'', Hje.
  - simpl. by rewrite Hu''.
  - exists (server (Async.ctx_of aw)). split; [done|]. simpl.
    rewrite Hs''. rewrite Huw, Hnbw in Hsrv. fold g in Hsrv.
    destruct (used g =? 0); [done|].
    destruct Hsrv as (bn & pos & Hbn & Hes).
    exists (buffer bn), pos. split; [|done].
    unfold g in *. rewrite <- Hbufw, list_lookup_fmap. by rewrite Hbn.
Qed.

(** The worker does not read what the advance of the ring writes, nor
    write what it reads: an action of the worker before the advance is
    that action after it. *)
Lemma unmarshal_loop_upd (f : glthread_state -> glthread_state)
  fuel tid i buf u pos ctx :
  unmarshal_loop fuel tid i buf u pos (upd f ctx) =
  '(p, c) ← unmarshal_loop fuel tid i buf u pos ctx; Ok (p, upd f c).
Proof.
  revert pos ctx. induction fuel as [|fuel IH]; intros pos ctx; simpl;
    destruct (pos <? u); try done.
  destruct (buf !! Z.to_nat pos) as [hdr|]; [|done].
  destruct (_mesa_unmarshal_dispatch _ _ _) as [srv n].
  exact (IH _ (log (EvDispatch tid i pos (cmd_id_of hdr) n)
                 (set_server srv ctx))).
Qed.

Lemma unmarshal_batch_advance fuel tid i ctx :
  glthread_unmarshal_batch fuel tid i (Async.advance ctx) =
  c ← glthread_unmarshal_batch fuel tid i ctx; Ok (Async.advance c).
Proof.
  unfold glthread_unmarshal_batch.
  replace (batch_at i (Async.advance ctx)) with (batch_at i ctx)
    by (by destruct ctx as [[]]).
  destruct (batch_at i ctx) as [b|]; simpl; [|done].
  pose proof (unmarshal_loop_upd
    (fun g => set_LastBindBuffer 0 (set_LastCallList 0 (set_used 0
       (set_next_batch ((next g + 1) mod MARSHAL_MAX_BATCHES)
          (set_next ((next g + 1) mod MARSHAL_MAX_BATCHES)
             (set_last (next g) g))))))
    fuel tid i (buffer b) (b_used b) 0
    (set_TexturesLocked true (set_BufferObjectsLocked true
       (_glapi_set_dispatch tid (CurrentServerDispatch ctx) ctx)))) as Hloop.
  match type of Hloop with ?l = _ =>
    match goal with |- context [unmarshal_loop fuel tid i (buffer b) (b_used b) 0 ?c] =>
      replace (unmarshal_loop fuel tid i (buffer b) (b_used b) 0 c) with l
        by (by destruct ctx as [[]])
    end
  end.
  rewrite Hloop. clear Hloop.
  destruct (unmarshal_loop _ _ _ _ _ _ _) as [[pos c1]|]; simpl; [|done].
  destruct (c_assert _); simpl; [|done].
  destruct c1 as [[q st en pc bs nb l n u0 cl bb pb dl v]
                    csd clo me ccd bol tl scp spc srv gd bg ifc hp ev].
  unfold upd_batch, batch_at. simpl.
  destruct (i <? 0); simpl; [done|].
  destruct (bs !! Z.to_nat i); simpl; done.
Qed.

Lemma worker_action_advance fuel a :
  Async.worker_action fuel (Async.on_ctx Async.advance a) =
  a' ← Async.worker_action fuel a; Ok (Async.on_ctx Async.advance a').
Proof.
  unfold Async.worker_action. destruct a as [ctx r]. simpl.
  replace (q_alive (queue (GLThread (Async.advance ctx))))
    with (q_alive (queue (GLThread ctx))) by (by destruct ctx as [[]]).
  destruct (q_alive _); simpl; [|done].
  replace (jobs (queue (GLThread (Async.advance ctx))))
    with (jobs (queue (GLThread ctx))) by (by destruct ctx as [[]]).
  replace (threads0 (queue (GLThread (Async.advance ctx))))
    with (threads0 (queue (GLThread ctx))) by (by destruct ctx as [[]]).
  destruct r as [j|].
  - destruct j as [i f|f]; simpl.
    + rewrite unmarshal_batch_advance.
      destruct (glthread_unmarshal_batch _ _ _ _) as [c1|]; simpl; [|done].
      destruct f as [k|]; simpl; [|by destruct c1 as [[]]].
      unfold upd_batch, batch_at.
      destruct c1 as [[q st en pc bs nb l n u0 cl bb pb dl v]
                        csd clo me ccd bol tl scp spc srv gd bg ifc hp ev].
      simpl. destruct (k <? 0); simpl; [done|].
      destruct (bs !! Z.to_nat k); simpl; done.
    + destruct f as [k|]; simpl; [|by destruct ctx as [[]]].
      unfold upd_batch, batch_at.
      destruct ctx as [[q st en pc bs nb l n u0 cl bb pb dl v]
                         csd clo me ccd bol tl scp spc srv gd bg ifc hp ev].
      simpl. destruct (k <? 0); simpl; [done|].
      destruct (bs !! Z.to_nat k); simpl; done.
  - destruct (jobs (queue (GLThread ctx))); [done|].
    by destruct ctx as [[[]]].
Qed.

Lemma worker_runs_advance k fuel a :
  Async.worker_runs k fuel (Async.on_ctx Async.advance a) =
  a' ← Async.worker_runs k fuel a; Ok (Async.on_ctx Async.advance a').
Proof.
  revert a. induction k as [|k IH]; intros a; simpl; [done|].
  rewrite worker_action_advance.
  destruct (Async.worker_action fuel a) as [a1|]; simpl; [|done].
  apply IH.
Qed.

(** The actions the worker performs between the return of [add_job] and
    the advance of the ring come to the same as these actions performed
    once the flush has returned. *)
Lemma submit_batch_schedule fuel k1 k2 a :
  Async.submit_batch fuel k1 k2 a =
  a' ← Async.submit_batch fuel k1 0 a; Async.worker_runs k2 fuel a'.
Proof.
  unfold Async.submit_batch.
  destruct (upd_batch _ _ _) as [c1|]; simpl; [|done].
  destruct (Async.util_queue_add_job _ _ _ _) as [a1|]; simpl; [|done].
  rewrite worker_runs_advance.
  by destruct (Async.worker_runs k2 fuel a1).
Qed.

Lemma worker_runs_add k m fuel a :
  Async.worker_runs (k + m) fuel a =
  a' ← Async.worker_runs k fuel a; Async.worker_runs m fuel a'.
Proof.
  revert a. induction k as [|k IH]; intros a; simpl; [done|].
  destruct (Async.worker_action fuel a) as [a1|]; simpl; [|done].
  apply IH.
Qed.

(** A flush that submits is the flush during which the worker rests
    after [add_job], followed by the actions of the worker. *)
Lemma flush_schedule fuel cpu tid k1 k2 a :
  enabled (GLThread (Async.ctx_of a)) = true ->
  CurrentServerDispatch (Async.ctx_of a) <> ContextLost (Async.ctx_of a) ->
  used (GLThread (Async.ctx_of a)) <> 0 ->
  Async._mesa_glthread_flush_batch fuel cpu tid k1 k2 a =
  a' ← Async._mesa_glthread_flush_batch fuel cpu tid k1 0 a;
  Async.worker_runs k2 fuel a'.
Proof.
  intros Hen Hlost Hused. unfold Async._mesa_glthread_flush_batch.
  rewrite Hen. simpl.
  destruct (_ =? ContextLost _) eqn:E; [lia|]. clear E.
  destruct (used _ =? 0) eqn:E; [lia|]. clear E.
  apply submit_batch_schedule.
Qed.

(** What is left to run comes to the same however far the worker has
    got. *)
Lemma worker_runs_remaining k fuel a a' :
  fifo_ok (Async.flat a) ->
  Async.worker_runs k fuel a = Ok a' ->
  exec_jobs fuel (batches (GLThread (Async.ctx_of a))) (Async.in_flight a)
    (server (Async.ctx_of a))
  = exec_jobs fuel (batches (GLThread (Async.ctx_of a'))) (Async.in_flight a')
      (server (Async.ctx_of a')).
Proof.
  intros Hfifo Hruns.
  pose proof (turns_remaining _ _ _ Hfifo (worker_runs_turns _ _ _ _ Hruns))
    as Hrem.
  rewrite !flat_jobs in Hrem.
  destruct (flat_fields a) as (_ & Hbf & _ & Hsf & _).
  destruct (flat_fields a') as (_ & Hbf' & _ & Hsf' & _).
  cbv zeta in Hbf, Hsf, Hbf', Hsf'.
  by rewrite Hbf, Hsf, Hbf', Hsf' in Hrem.
Qed.

(** A flush that has nothing to submit leaves the engine alone. *)
Lemma flush_nothing fuel cpu tid k1 k2 a :
  CurrentServerDispatch (Async.ctx_of a) <> ContextLost (Async.ctx_of a) ->
  enabled (GLThread (Async.ctx_of a)) = false \/
  used (GLThread (Async.ctx_of a)) = 0 ->
  Async._mesa_glthread_flush_batch fuel cpu tid k1 k2 a = Ok a.
Proof.
  intros Hlost Hcase. unfold Async._mesa_glthread_flush_batch.
  destruct (enabled _); simpl; [|done].
  destruct Hcase as [|Hu]; [done|].
  destruct (_ =? ContextLost _) eqn:E; [lia|]. by rewrite Hu.
Qed.

(** [_mesa_glthread_flush_batch] beside the worker, however far the
    worker gets: the call returns and keeps the invariant. *)
Lemma async_flush fuel cpu tid k1 k2 a :
  Async.inv fuel a ->
  CurrentServerDispatch (Async.ctx_of a) <> ContextLost (Async.ctx_of a) ->
  exists a',
    Async._mesa_glthread_flush_batch fuel cpu tid k1 k2 a = Ok a' /\
    Async.inv fuel a'.
Proof.
  intros Hinv Hlost.
  destruct (enabled (GLThread (Async.ctx_of a))) eqn:Hen;
    [|rewrite flush_nothing by auto; eauto].
  destruct (decide (used (GLThread (Async.ctx_of a)) = 0)) as [Hu|Hu];
    [rewrite flush_nothing by auto; eauto|].
  rewrite flush_schedule by done.
  unfold Async._mesa_glthread_flush_batch. rewrite Hen. simpl.
  destruct (_ =? ContextLost _) eqn:E; [lia|]. clear E.
  destruct (used _ =? 0) eqn:E; [lia|]. clear E.
  destruct (pin_threads_keeps cpu (Async.ctx_of a))
    as (Hq & Hb & _ & (_ & Hn & Hl & Hnb & Hu') & _).
  destruct (async_submit_batch fuel k1 (Async.on_ctx (pin_threads cpu) a))
    as (a0 & H & Hinv0 & _); [by apply (async_inv_same fuel a)|].
  rewrite H. simpl.
  destruct (worker_runs_inv k2 fuel a0 Hinv0) as (a' & Hruns & Hinv' & _).
  eauto.
Qed.

End AsyncCalls.

Section AsyncExtras.

Context {env : glthread_env}.
Implicit Types (ctx : gl_context) (a : Async.engine) (b : glthread_batch).

(** X9.  The producer never overruns the ring, however the worker is
    scheduled.  Take an engine in order whose worker runs beside the
    producer: the batches in flight, in the backlog of capacity
    [MARSHAL_MAX_BATCHES - 2] or in the worker's hands, are those
    submitted last.  A call of [_mesa_glthread_flush_batch] that does not
    find the context lost returns, whatever numbers [k1] and [k2] of
    actions the worker performs during the call, and whatever number [m]
    of actions it performs afterwards the engine is in order again.  The
    batch the
    flush has made current is not in flight: no job is for it, in the
    backlog or in the worker's hands, and its fence is signalled.  At
    most [MARSHAL_MAX_BATCHES - 1] batches are in flight. *)
Theorem flush_never_overruns_ring (fuel : nat) (cpu tid : Z) (k1 k2 m : nat)
  a :
  Async.inv fuel a ->
  CurrentServerDispatch (Async.ctx_of a) <> ContextLost (Async.ctx_of a) ->
  exists a' a'',
    Async._mesa_glthread_flush_batch fuel cpu tid k1 k2 a = Ok a' /\
    Async.worker_runs m fuel a' = Ok a'' /\
    Async.inv fuel a' /\ Async.inv fuel a'' /\
    let nb' := next_batch (GLThread (Async.ctx_of a')) in
    next_batch (GLThread (Async.ctx_of a'')) = nb' /\
    (UnmarshalJob nb' (BatchFence nb') ∉ Async.in_flight a') /\
    (UnmarshalJob nb' (BatchFence nb') ∉ Async.in_flight a'') /\
    util_queue_fence_is_signalled (BatchFence nb') (Async.ctx_of a') = Ok true /\
    util_queue_fence_is_signalled (BatchFence nb') (Async.ctx_of a'') = Ok true /\
    Z.of_nat (length (Async.in_flight a')) <= MARSHAL_MAX_BATCHES - 1.
Proof.
  intros Hinv Hlost.
  destruct (async_flush fuel cpu tid k1 k2 a Hinv Hlost)
    as (a' & Hflush & Hinv').
  destruct (worker_runs_inv m fuel a' Hinv') as (a'' & Hruns & Hinv'' & Hv & _).
  exists a', a''. split; [done|]. split; [done|]. split; [done|].
  split; [done|].
  destruct (current_batch_not_in_flight _ _ Hinv') as [Hfree' Hsig'].
  destruct (current_batch_not_in_flight _ _ Hinv'') as [Hfree'' Hsig''].
  apply view_fields in Hv. cbv zeta in Hv. destruct Hv as (_&_&_&Hnb&_).
  cbv zeta. rewrite Hnb in Hfree'', Hsig''.
  split_and!; try done.
  destruct Hinv' as (_ & _ & (_ & _ & Hlen & Hmax)).
  pose proof (in_flight_length a'). lia.
Qed.

(** X15.  Offloading and running directly come to the same, however the
    worker is scheduled.  On an enabled engine in order, whose context is
    not lost, let the producer thread either flush and, after the worker
    has performed any number [m] of actions, finish, or finish at once;
    [k1] and [k1'], [k2] and [k3] are the numbers of actions the worker
    performs during the three calls.  All calls return, and both ways
    leave the
    same GL state: the commands of the batches in flight and of the
    current batch have been run in the same order, the current batch by
    the worker in the first case and by the calling thread in the
    second.  Both ways nothing is left in flight and the current batch is
    empty. *)
Theorem offload_equals_direct (fuel : nat) (cpu tid : Z)
  (k1 k1' m k2 k3 : nat) a :
  Async.inv fuel a ->
  enabled (GLThread (Async.ctx_of a)) = true ->
  CurrentServerDispatch (Async.ctx_of a) <> ContextLost (Async.ctx_of a) ->
  tid <> threads0 (queue (GLThread (Async.ctx_of a))) ->
  exists a1 a1' a2 a3,
    Async._mesa_glthread_flush_batch fuel cpu tid k1 k1' a = Ok a1 /\
    Async.worker_runs m fuel a1 = Ok a1' /\
    Async._mesa_glthread_finish fuel tid k2 a1' = Ok a2 /\
    Async._mesa_glthread_finish fuel tid k3 a = Ok a3 /\
    server (Async.ctx_of a2) = server (Async.ctx_of a3) /\
    (Async.in_flight a2 = [] /\ used (GLThread (Async.ctx_of a2)) = 0) /\
    (Async.in_flight a3 = [] /\ used (GLThread (Async.ctx_of a3)) = 0).
Proof.
  intros Hinv Hen Hlost Htid.
  destruct (async_finish fuel tid k3 a Hinv Hen Htid)
    as (a3 & Hfin3 & _ & Hfl3 & Hu3 & (sw3 & Hx3 & Hs3)).
  (* the flush during which the worker rests after [add_job] *)
  assert (exists a0,
    Async._mesa_glthread_flush_batch fuel cpu tid k1 0 a = Ok a0 /\
    Async.inv fuel a0 /\
    enabled (GLThread (Async.ctx_of a0)) = true /\
    threads0 (queue (GLThread (Async.ctx_of a0)))
    = threads0 (queue (GLThread (Async.ctx_of a))) /\
    used (GLThread (Async.ctx_of a0)) = 0 /\
    exec_jobs fuel (batches (GLThread (Async.ctx_of a0))) (Async.in_flight a0)
      (server (Async.ctx_of a0)) = Ok (server (Async.ctx_of a3)))
    as (a0 & Hflush0 & Hinv0 & Hen0 & Hth0 & Hu0 & Hx0).
  { unfold Async._mesa_glthread_flush_batch. rewrite Hen. simpl.
    destruct (_ =? ContextLost _) eqn:E; [lia|]. clear E.
    destruct (used (GLThread (Async.ctx_of a)) =? 0) eqn:Hu0.
    { exists a. split_and!; try done; [lia|]. by rewrite Hx3, Hs3. }
    destruct (pin_threads_keeps cpu (Async.ctx_of a))
      as (Hqp & Hbp & _ & (Henp & Hnp & Hlp & Hnbp & Hup) & _).
    set (ap := Async.on_ctx (pin_threads cpu) a).
    assert (Async.inv fuel ap) as Hinvp by (by apply (async_inv_same fuel a)).
    destruct (async_submit_batch fuel k1 ap Hinvp)
      as (a1 & Hsub & Hinv1 & (d1 & rest & bn & b' & Hd1 & Hj1 & Hxd & Hrest
          & (Hbn & Hb' & Hbuf & Hbu & Hbf) & (He1 & Ht1 & Hu1 & _))).
    assert (Async.in_flight ap = Async.in_flight a) as Hflp
      by (unfold Async.in_flight; simpl; by rewrite Hqp).
    simpl in Hd1, Hj1, Hxd, Hrest, Hbn, Hb', Hbu, He1, Ht1.
    rewrite Hflp in Hd1.
    rewrite Hbp, ?Hnbp, ?Hup, ?Henp, ?Hqp, ?(pin_threads_server cpu) in *.
    exists a1. split_and!; try done; [congruence|].
    destruct Hs3 as (buf & pos & Hbuf3 & Hes).
    rewrite Hj1, exec_jobs_app.
    rewrite (exec_jobs_ext fuel (batches (GLThread (Async.ctx_of a))))
      by exact Hrest.
    rewrite Hd1, exec_jobs_app, Hxd in Hx3. simpl in Hx3. rewrite Hx3. simpl.
    rewrite Hb'. simpl. rewrite Hbuf, Hbu.
    rewrite list_lookup_fmap, Hbn in Hbuf3. injection Hbuf3 as <-.
    by rewrite Hes. }
  (* the worker goes on, before the flush returns and after *)
  assert (exists a1,
    Async._mesa_glthread_flush_batch fuel cpu tid k1 k1' a = Ok a1 /\
    Async.worker_runs (if used (GLThread (Async.ctx_of a)) =? 0 then 0 else k1')
      fuel a0 = Ok a1) as (a1 & Hflush & Hruns1).
  { destruct (used (GLThread (Async.ctx_of a)) =? 0) eqn:Hu.
    - rewrite flush_nothing in Hflush0 |- * by (auto; right; lia).
      injection Hflush0 as <-. by exists a.
    - rewrite flush_schedule by (done || lia). rewrite Hflush0. simpl.
      destruct (worker_runs_inv k1' fuel a0 Hinv0) as (a1 & Hruns & _).
      by exists a1. }
  destruct (worker_runs_inv
              (if used (GLThread (Async.ctx_of a)) =? 0 then 0%nat else k1')
              fuel a0 Hinv0)
    as (a1_ & Hruns1' & Hinv1 & Hv1 & _).
  rewrite Hruns1 in Hruns1'. injection Hruns1' as <-.
  destruct (worker_runs_inv m fuel a1 Hinv1) as (a1' & Hruns & Hinv1' & Hv1' & _).
  pose proof Hinv0 as (_ & Hfifo0 & _).
  pose proof Hinv1 as (_ & Hfifo1 & _).
  pose proof (worker_runs_remaining _ _ _ _ Hfifo0 Hruns1) as Hrem1.
  pose proof (worker_runs_remaining _ _ _ _ Hfifo1 Hruns) as Hrem.
  rewrite Hx0 in Hrem1. rewrite <- Hrem1 in Hrem.
  apply view_fields in Hv1, Hv1'. cbv zeta in Hv1, Hv1'.
  destruct Hv1 as (Hen1&_&_&_&Hu1&_&_&_&_&Hth1&_).
  destruct Hv1' as (Hen1'&_&_&_&Hu1'&_&_&_&_&Hth1'&_).
  (* the finish after the flush *)
  destruct (async_finish fuel tid k2 a1' Hinv1')
    as (a2 & Hfin2 & _ & Hfl2 & Hu2 & (sw2 & Hx2 & Hs2));
    [congruence | congruence |].
  rewrite Hu1', Hu1, Hu0 in Hs2. simpl in Hs2.
  exists a1, a1', a2, a3. split_and!; try done.
  rewrite Hs2. congruence.
Qed.

(** X17.  A flush does not wait for the worker.  When the backlog has
    room, a call of [_mesa_glthread_flush_batch] that submits returns
    even if the worker performs no action during the call, and then
    nothing has been run: the GL state and [num_batches] are as they
    were, the worker holds what it held, the job of the current batch has
    been put at the end of the backlog, and the only calls made are
    pinning calls followed by the submission.  The batch submitted holds
    the buffer of the current batch, [used] as its fill level, and an
    unsignalled fence; no other batch has changed. *)
Theorem flush_is_asynchronous (fuel : nat) (cpu tid : Z) a bn :
  let ctx := Async.ctx_of a in
  enabled (GLThread ctx) = true ->
  CurrentServerDispatch ctx <> ContextLost ctx ->
  used (GLThread ctx) <> 0 ->
  let g := GLThread ctx in
  let nb := next_batch g in
  batch_at nb ctx = Ok bn ->
  Z.of_nat (length (jobs (queue g))) < max_jobs (queue g) ->
  exists a',
    Async._mesa_glthread_flush_batch fuel cpu tid 0 0 a = Ok a' /\
    let g' := GLThread (Async.ctx_of a') in
    Async.running a' = Async.running a /\
    jobs (queue g') = jobs (queue g) ++ [UnmarshalJob nb (BatchFence nb)] /\
    batches g' =
      <[Z.to_nat nb := mk_batch false (used g) (buffer bn)]> (batches g) /\
    server (Async.ctx_of a') = server ctx /\
    num_batches (stats g') = num_batches (stats g) /\
    exists pins,
      events (Async.ctx_of a') =
        events ctx ++ pins ++ [EvAddJob (UnmarshalJob nb (BatchFence nb))] /\
      Forall (fun e => is_pin_event e = true) pins.
Proof.
  intros ctx Hen Hlost Hused g nb Hbn Hroom. subst nb g. cbv zeta.
  unfold Async._mesa_glthread_flush_batch. fold ctx. rewrite Hen. simpl.
  destruct (_ =? ContextLost _) eqn:E; [lia|]. clear E.
  destruct (used (GLThread ctx) =? 0) eqn:E; [lia|]. clear E.
  destruct (pin_threads_keeps cpu ctx)
    as (Hq & Hb & Hst & (_ & _ & _ & Hnb & Hu) & _ & (pe & Hpe & Hpes)).
  pose proof (pin_threads_server cpu ctx) as Hsrv.
  assert (Forall (fun e => is_pin_event e = true) pe) as Hpins.
  { rewrite Hpes. destruct (cache_domain cpu); [destruct (pinning_due ctx)|];
      repeat constructor. }
  clear Hpes.
  unfold Async.submit_batch, Async.on_ctx. simpl. fold ctx.
  set (cp := pin_threads cpu ctx) in *.
  apply batch_at_Ok in Hbn as [Hnb0 Hbn].
  pose proof (lookup_lt_Some _ _ _ Hbn) as Hlt.
  rewrite Hnb, Hu.
  erewrite upd_batch_total
    by (apply batch_at_Ok; split; [lia|]; destruct cp; simpl in *;
        rewrite Hb; exact Hbn).
  simpl. unfold Async.util_queue_add_job. simpl.
  erewrite upd_batch_total
    by (apply batch_at_Ok; split; [lia|]; destruct cp; simpl in *;
        apply list_lookup_insert_eq; by rewrite Hb).
  simpl.
  match goal with |- context [Async.slot_wait_loop ?n fuel ?c] =>
    assert (Async.slot_wait_loop n fuel c = Ok c) as ->
  end.
  { match goal with |- Async.slot_wait_loop ?n _ _ = _ => destruct n end;
      simpl;
      (assert ((Z.of_nat (length (jobs (queue (GLThread cp))))
                <? max_jobs (queue (GLThread cp))) = true) as Hr
         by (rewrite Hq; apply Z.ltb_lt; exact Hroom));
      by destruct cp as [[[]]]; simpl in *; rewrite Hr. }
  simpl. eexists. split; [reflexivity|]. simpl.
  rewrite <- Hq, <- Hb, <- Hst, <- Hsrv. clearbody cp.
  split_and!;
    [done | by destruct cp as [[[]]]
     | destruct cp as [[]]; simpl; by rewrite list_insert_insert_eq
     | by destruct cp | by destruct cp as [[]] |].
  exists pe. split; [|done]. rewrite app_assoc, <- Hpe. by destruct cp as [[]].
Qed.

(** X19.  [_mesa_glthread_finish] drains the engine, however the worker
    is scheduled.  Take an enabled engine in order whose worker runs
    beside the producer, and a call of [_mesa_glthread_finish] made on
    another thread than the worker, during which the worker performs any
    number [k] of actions beyond those the call waits for.  The call
    returns and leaves the engine in order; nothing is in flight
    afterwards, in the backlog or in the worker's hands, and the current
    batch is empty; and every command recorded before the call has been
    executed, in the order of recording: the GL state is the one that
    running the batches in flight one after the other, oldest first, and
    then the records of the current batch makes of the GL state at the
    call. *)
Theorem finish_drains_beside_worker (fuel : nat) (tid : Z) (k : nat) a :
  Async.inv fuel a ->
  enabled (GLThread (Async.ctx_of a)) = true ->
  tid <> threads0 (queue (GLThread (Async.ctx_of a))) ->
  let g := GLThread (Async.ctx_of a) in
  exists a',
    Async._mesa_glthread_finish fuel tid k a = Ok a' /\
    Async.inv fuel a' /\
    Async.in_flight a' = [] /\ used (GLThread (Async.ctx_of a')) = 0 /\
    exists srv_w,
      exec_jobs fuel (batches g) (Async.in_flight a) (server (Async.ctx_of a))
        = Ok srv_w /\
      if used g =? 0 then server (Async.ctx_of a') = srv_w
      else exists buf pos,
        (buffer <$> batches g) !! Z.to_nat (next_batch g) = Some buf /\
        exec_stream fuel buf (used g) 0 srv_w
          = Ok (pos, server (Async.ctx_of a')).
Proof. apply async_finish. Qed.

End AsyncExtras.

Lemma demo_busy_idle_inv nd : @Async.inv (Demo.env nd) 8 (Demo.busy_idle nd).
Proof. apply inv_idle; [reflexivity|]. apply demo_busy_inv. Qed.

Ltac demo_stream :=
  split; [lia|]; split; [lia|];
  eapply (wf_record _ _ 0 _ 1); [done | reflexivity | done | done | done |];
  apply wf_end.

Ltac demo_elem H tac :=
  repeat (apply elem_of_cons in H as [H|H]; [tac|]);
  try (by apply elem_of_nil in H).

Lemma demo_full_inv nd : @Async.inv (Demo.env nd) 8 (Demo.full nd).
Proof.
  split_and!.
  - (* the ring is in order *)
    split; [|by split].
    split; [split; [reflexivity|]
           | split; [done|]; split; [done|]; split; [done|]; split].
    + rewrite flat_jobs. unfold Async.in_flight. simpl.
      repeat (constructor;
              [split; [eexists; split; [reflexivity|]; simpl; demo_stream
                      | simpl; lia] |]).
      constructor.
    + intros i b Hb Hf.
      exists (UnmarshalJob (Z.of_nat i) (BatchFence (Z.of_nat i))).
      split; [|reflexivity]. rewrite flat_jobs. unfold Async.in_flight.
      do 7 (destruct i as [|i]; [simpl; repeat first [by left | right] |]).
      destruct i as [|i]; [simpl in Hb; injection Hb as <-; discriminate|].
      discriminate.
    + intros b [= <-]. simpl. demo_stream.
  - (* submission order *)
    unfold fifo_ok, fifo_ok_of. rewrite flat_jobs.
    unfold Async.in_flight. simpl. split_and!.
    + repeat (apply NoDup_cons; split;
              [intros H; demo_elem H discriminate|]).
      apply NoDup_nil_2.
    + intros j Hj.
      demo_elem Hj ltac:(subst j; eexists; split; [|reflexivity]; lia).
    + intros i Hi Hin.
      demo_elem Hin ltac:(injection Hin as ->; reflexivity).
    + intros _.
      by exists ((fun i => UnmarshalJob i (BatchFence i)) <$> [0; 1; 2; 3; 4; 5]).
  - (* position in the ring *)
    unfold Async.ring_flight, Async.in_flight. simpl.
    split_and!; [| done | lia | reflexivity].
    intros p j Hp.
    do 7 (destruct p as [|p]; [injection Hp as <-; reflexivity|]).
    discriminate.
Qed.

Lemma flush_never_overruns_ring_witness :
  Async.inv 8 (Demo.full false) /\
  CurrentServerDispatch (Async.ctx_of (Demo.full false))
  <> ContextLost (Async.ctx_of (Demo.full false)) /\
  length (Async.in_flight (Demo.full false)) = 7%nat /\
  exists a' a'',
    Async._mesa_glthread_flush_batch 8 0 Demo.producer 0 0 (Demo.full false)
      = Ok a' /\
    Async.worker_runs 1 8 a' = Ok a'' /\
    Async.inv 8 a' /\ Async.inv 8 a'' /\
    length (Async.in_flight a') = 7%nat /\
    next_batch (GLThread (Async.ctx_of a')) = 0 /\
    (UnmarshalJob 0 (BatchFence 0) ∉ Async.in_flight a') /\
    util_queue_fence_is_signalled (BatchFence 0) (Async.ctx_of a') = Ok true.
Proof.
  assert (CurrentServerDispatch (Async.ctx_of (Demo.full false))
          <> ContextLost (Async.ctx_of (Demo.full false))) as Hlost
    by (vm_compute; discriminate).
  split; [apply demo_full_inv|]. split; [exact Hlost|].
  split; [reflexivity|].
  assert (match Async._mesa_glthread_flush_batch 8 0 Demo.producer 0 0
                  (Demo.full false) with
          | Ok a' => length (Async.in_flight a') = 7%nat /\
                     next_batch (GLThread (Async.ctx_of a')) = 0
          | Fail _ => False
          end) as Hm by (vm_compute; split; reflexivity).
  destruct (flush_never_overruns_ring 8 0 Demo.producer 0 0 1
              (Demo.full false)
              (demo_full_inv false) Hlost)
    as (a' & a'' & Hflush & Hruns & Hinv' & Hinv'' & _ & Hfree & _ & Hsig & _).
  rewrite Hflush in Hm. destruct Hm as [Hlen Hnb].
  rewrite Hnb in Hfree, Hsig.
  exists a', a''. split; [exact Hflush|]. split; [exact Hruns|].
  split; [exact Hinv'|]. split; [exact Hinv''|]. split; [exact Hlen|].
  split; [exact Hnb|]. split; [exact Hfree | exact Hsig].
Defined.

Lemma offload_equals_direct_witness :
  Async.inv 8 (Demo.busy_idle false) /\
  enabled (GLThread (Async.ctx_of (Demo.busy_idle false))) = true /\
  CurrentServerDispatch (Async.ctx_of (Demo.busy_idle false))
  <> ContextLost (Async.ctx_of (Demo.busy_idle false)) /\
  Demo.producer
  <> threads0 (queue (GLThread (Async.ctx_of (Demo.busy_idle false)))) /\
  exists a1 a1' a2 a3,
    Async._mesa_glthread_flush_batch 8 0 Demo.producer 0 1
      (Demo.busy_idle false) = Ok a1 /\
    Async.worker_runs 3 8 a1 = Ok a1' /\
    Async._mesa_glthread_finish 8 Demo.producer 0 a1' = Ok a2 /\
    Async._mesa_glthread_finish 8 Demo.producer 0 (Demo.busy_idle false)
      = Ok a3 /\
    server (Async.ctx_of a2) = server (Async.ctx_of a3) /\
    server (Async.ctx_of a3) = [7; 9; 3] /\
    num_syncs (stats (GLThread (Async.ctx_of a2))) = 0 /\
    num_syncs (stats (GLThread (Async.ctx_of a3))) = 1.
Proof.
  assert (CurrentServerDispatch (Async.ctx_of (Demo.busy_idle false))
          <> ContextLost (Async.ctx_of (Demo.busy_idle false))) as Hlost
    by (vm_compute; discriminate).
  assert (Demo.producer
          <> threads0 (queue (GLThread (Async.ctx_of (Demo.busy_idle false)))))
    as Hne by (vm_compute; discriminate).
  split; [apply demo_busy_idle_inv|]. split; [reflexivity|].
  split; [exact Hlost|]. split; [exact Hne|].
  assert (match Async._mesa_glthread_finish 8 Demo.producer 0
                  (Demo.busy_idle false) with
          | Ok a => server (Async.ctx_of a) = [7; 9; 3] /\
                    num_syncs (stats (GLThread (Async.ctx_of a))) = 1
          | Fail _ => False
          end) as Hm3 by (vm_compute; split; reflexivity).
  assert (match
            a ← Async._mesa_glthread_flush_batch 8 0 Demo.producer 0 1
                  (Demo.busy_idle false);
            a ← Async.worker_runs 3 8 a;
            Async._mesa_glthread_finish 8 Demo.producer 0 a
          with
          | Ok a => num_syncs (stats (GLThread (Async.ctx_of a))) = 0
          | Fail _ => False
          end) as Hm2 by (vm_compute; reflexivity).
  destruct (offload_equals_direct 8 0 Demo.producer 0 1 3 0 0
              (Demo.busy_idle false) (demo_busy_idle_inv false) eq_refl
              Hlost Hne)
    as (a1 & a1' & a2 & a3 & Hflush & Hruns & Hfin2 & Hfin3 & Hsrv & _).
  rewrite Hfin3 in Hm3. destruct Hm3 as [Hs3 Hn3].
  rewrite Hflush in Hm2. cbv beta iota delta [mbind result_bind] in Hm2.
  rewrite Hruns in Hm2. cbv beta iota in Hm2. rewrite Hfin2 in Hm2.
  exists a1, a1', a2, a3.
  split; [exact Hflush|]. split; [exact Hruns|]. split; [exact Hfin2|].
  split; [exact Hfin3|]. split; [exact Hsrv|]. split; [exact Hs3|].
  split; [exact Hm2 | exact Hn3].
Defined.

Lemma flush_is_asynchronous_witness :
  enabled (GLThread (Async.ctx_of (Demo.busy_idle false))) = true /\
  CurrentServerDispatch (Async.ctx_of (Demo.busy_idle false))
  <> ContextLost (Async.ctx_of (Demo.busy_idle false)) /\
  used (GLThread (Async.ctx_of (Demo.busy_idle false))) <> 0 /\
  Z.of_nat (length (jobs (queue (GLThread (Async.ctx_of (Demo.busy_idle false))))))
    < max_jobs (queue (GLThread (Async.ctx_of (Demo.busy_idle false)))) /\
  exists a',
    Async._mesa_glthread_flush_batch 8 0 Demo.producer 0 0
      (Demo.busy_idle false) = Ok a' /\
    Async.running a' = None /\
    jobs (queue (GLThread (Async.ctx_of a'))) =
      [UnmarshalJob 0 (BatchFence 0); UnmarshalJob 1 (BatchFence 1)] /\
    server (Async.ctx_of a') = [].
Proof.
  assert (CurrentServerDispatch (Async.ctx_of (Demo.busy_idle false))
          <> ContextLost (Async.ctx_of (Demo.busy_idle false))) as Hlost
    by (vm_compute; discriminate).
  assert (used (GLThread (Async.ctx_of (Demo.busy_idle false))) <> 0) as Hused
    by (vm_compute; discriminate).
  assert (Z.of_nat (length (jobs (queue (GLThread
             (Async.ctx_of (Demo.busy_idle false))))))
          < max_jobs (queue (GLThread (Async.ctx_of (Demo.busy_idle false)))))
    as Hroom by (vm_compute; reflexivity).
  split; [reflexivity|]. split; [exact Hlost|]. split; [exact Hused|].
  split; [exact Hroom|].
  destruct (flush_is_asynchronous 8 0 Demo.producer (Demo.busy_idle false)
              (mk_batch true 0 [Demo.header 3 1]) eq_refl Hlost Hused eq_refl
              Hroom)
    as (a' & Hflush & Hr & Hj & _ & Hsrv & _).
  exists a'. split; [exact Hflush|]. split; [exact Hr|].
  split; [exact Hj | exact Hsrv].
Defined.

Lemma finish_drains_beside_worker_witness :
  Async.inv 8 (Demo.full false) /\
  enabled (GLThread (Async.ctx_of (Demo.full false))) = true /\
  Demo.producer
  <> threads0 (queue (GLThread (Async.ctx_of (Demo.full false)))) /\
  server (Async.ctx_of (Demo.full false)) = [] /\
  exists a',
    Async._mesa_glthread_finish 8 Demo.producer 0 (Demo.full false) = Ok a' /\
    Async.inv 8 a' /\ Async.in_flight a' = [] /\
    used (GLThread (Async.ctx_of a')) = 0 /\
    server (Async.ctx_of a') = [10; 11; 12; 13; 14; 15; 16; 3].
Proof.
  assert (Demo.producer
          <> threads0 (queue (GLThread (Async.ctx_of (Demo.full false)))))
    as Hne by (vm_compute; discriminate).
  split; [apply demo_full_inv|]. split; [reflexivity|]. split; [exact Hne|].
  split; [reflexivity|].
  assert (match Async._mesa_glthread_finish 8 Demo.producer 0
                  (Demo.full false) with
          | Ok a => server (Async.ctx_of a) = [10; 11; 12; 13; 14; 15; 16; 3]
          | Fail _ => False
          end) as Hm by (vm_compute; reflexivity).
  destruct (finish_drains_beside_worker 8 Demo.producer 0 (Demo.full false)
              (demo_full_inv false) eq_refl Hne)
    as (a' & Hfin & Hinv & Hfl & Hu & _).
  rewrite Hfin in Hm.
  exists a'. split; [exact Hfin|]. split; [exact Hinv|]. split; [exact Hfl|].
  split; [exact Hu | exact Hm].
Defined.
